(** * HiGHS: model-solver boundary and free-format MPS reader

    A shallow embedding of the parts of
    - [highs/io/HMpsFF.cpp] (free-format MPS reader), and
    - [highs/lp_data/HighsInterface.cpp] (model mutation interface, IIS
      elasticity filter, KKT check, infinite-cost handling, option changes)
    that the specification makes claims about.

    Conventions
    - [double] is IEEE binary64, embedded as Rocq's primitive [float];
      comparisons are the IEEE ones ([<?], [<=?], [=?]), so NaN compares
      false with everything, exactly as in the C++.
    - [HighsInt] is embedded as [Z].  Signed overflow is undefined in C++ and
      is not modelled.  [size_t] counters are [Z] with wrap-around modulo
      2^64 written out.
    - [std::vector<T>] is [list T]; a null [const T*] argument is [None].
    - Functions of the repository that the embedded code calls but whose
      bodies are not part of the embedded sources are Section variables:
      every theorem holds for all their implementations. *)

From Stdlib Require Import ZArith List Bool Lia Floats Uint63 String Ascii Permutation.
Import ListNotations.
Local Open Scope Z_scope.

Set Implicit Arguments.

(* ================================================================== *)
(** * Free-format MPS reader: aggregated warnings (HMpsFF.cpp)        *)
(* ================================================================== *)

Module HMpsFF.

(** ** size_t arithmetic *)

Definition size_t_modulus : Z := 2 ^ 64.

Definition size_t_wrap (n : Z) : Z := n mod size_t_modulus.

(** ** One warning counter

    Every aggregated warning class owns a pair of [size_t] locals
    [num_X] (initially 0) and [report_X_frequency] (initially 1). *)

Record WarnCounter : Type := mkWarnCounter {
  num : Z;
  report_frequency : Z
}.

Definition counter_init : WarnCounter :=
  {| num := 0; report_frequency := 1 |}.

(** The occurrence site, e.g. HMpsFF.cpp 904-911:
<<
      num_ignored_row_name++;
      if (num_ignored_row_name % report_ignored_row_name_frequency == 0) {
        highsLogUser(...);
        report_ignored_row_name_frequency *= 2;
      }
>>
    The result is [None] when the remainder is taken by zero (undefined
    behaviour in C++); otherwise the flag says whether the individual
    message was logged. *)
Definition report_occurrence (c : WarnCounter) : option (bool * WarnCounter) :=
  let n := size_t_wrap (num c + 1) in
  if report_frequency c =? 0 then None
  else if n mod report_frequency c =? 0
       then Some (true, {| num := n;
                           report_frequency := size_t_wrap (report_frequency c * 2) |})
       else Some (false, {| num := n; report_frequency := report_frequency c |}).

(** ** Warning classes and the sections that aggregate them *)

Inductive WarnClass : Type :=
| IgnoredRowName          (* undefined row name: COLUMNS, RHS, RANGES *)
| IgnoredDuplicateCostNz  (* COLUMNS *)
| IgnoredDuplicateMatrixNz(* COLUMNS *)
| IgnoredDuplicateRhs     (* RHS *)
| IgnoredDuplicateBound   (* BOUNDS *)
| FractionalIntegerBound  (* BOUNDS *)
| IgnoredDuplicateRange.  (* RANGES *)

Definition WarnClass_eqb (a b : WarnClass) : bool :=
  match a, b with
  | IgnoredRowName, IgnoredRowName
  | IgnoredDuplicateCostNz, IgnoredDuplicateCostNz
  | IgnoredDuplicateMatrixNz, IgnoredDuplicateMatrixNz
  | IgnoredDuplicateRhs, IgnoredDuplicateRhs
  | IgnoredDuplicateBound, IgnoredDuplicateBound
  | FractionalIntegerBound, FractionalIntegerBound
  | IgnoredDuplicateRange, IgnoredDuplicateRange => true
  | _, _ => false
  end.

Inductive MpsSection : Type := SecColumns | SecRhs | SecBounds | SecRanges.

(** The counters declared at the top of parseCols (743-748), parseRhs
    (1091-1094), parseBounds (1277-1280) and parseRanges (1570-1573). *)
Definition section_classes (s : MpsSection) : list WarnClass :=
  match s with
  | SecColumns => [IgnoredRowName; IgnoredDuplicateCostNz; IgnoredDuplicateMatrixNz]
  | SecRhs => [IgnoredRowName; IgnoredDuplicateRhs]
  | SecBounds => [IgnoredDuplicateBound; FractionalIntegerBound]
  | SecRanges => [IgnoredRowName; IgnoredDuplicateRange]
  end.

(** ** Log messages *)

Inductive LogMessage : Type :=
| MsgOccurrence (c : WarnClass) (i : Z)
    (* the individual warning, logged while the class counter equals [i] *)
| MsgSummary (s : MpsSection) (counts : list Z).
    (* "<SECTION> section: ignored %d ... and %d ..." *)

(** ** The counters of a section while it is parsed *)

Definition Counters : Type := WarnClass -> WarnCounter.

Definition counters_init : Counters := fun _ => counter_init.

Definition set_counter (cs : Counters) (c : WarnClass) (v : WarnCounter) : Counters :=
  fun c' => if WarnClass_eqb c c' then v else cs c'.

(** One occurrence of class [c] in the section loop. *)
Definition occurrence (c : WarnClass) (st : Counters * list LogMessage)
  : option (Counters * list LogMessage) :=
  let (cs, log) := st in
  match report_occurrence (cs c) with
  | None => None
  | Some (logged, v) =>
      Some (set_counter cs c v,
            if logged then log ++ [MsgOccurrence c (num v)] else log)
  end.

(** The section loop restricted to what touches the counters: [evs] lists,
    in file order, the class of each anomaly met before the next section
    keyword. *)
Fixpoint occurrences (evs : list WarnClass) (st : Counters * list LogMessage)
  : option (Counters * list LogMessage) :=
  match evs with
  | [] => Some st
  | c :: evs' =>
      match occurrence c st with
      | None => None
      | Some st' => occurrences evs' st'
      end
  end.

(** Start of a new section found (e.g. parseCols 772-781):
<<
      warning_issued_ = num_ignored_row_name > 0 || ... ;
      if (warning_issued_) highsLogUser(... summary ...);
>> *)
Definition section_end (s : MpsSection) (st : Counters * list LogMessage)
  : bool * list LogMessage :=
  let (cs, log) := st in
  let counts := map (fun c => num (cs c)) (section_classes s) in
  let warning_issued_ := existsb (fun n => 0 <? n) counts in
  (warning_issued_,
   if warning_issued_ then log ++ [MsgSummary s counts] else log).

(** A whole section that ends at a section keyword: the final value of
    [warning_issued_] and everything logged about aggregated warnings. *)
Definition parse_section_warnings (s : MpsSection) (evs : list WarnClass)
  : option (bool * list LogMessage) :=
  match occurrences evs (counters_init, []) with
  | None => None
  | Some st => Some (section_end s st)
  end.

Definition is_summary (m : LogMessage) : bool :=
  match m with MsgSummary _ _ => true | MsgOccurrence _ _ => false end.

Definition num_summaries (log : list LogMessage) : nat :=
  List.length (filter is_summary log).

Definition class_count (c : WarnClass) (evs : list WarnClass) : Z :=
  Z.of_nat (List.length (filter (WarnClass_eqb c) evs)).

Definition is_power_of_two (i : Z) : Prop := exists k : Z, 0 <= k /\ i = 2 ^ k.

(** ** The doubling report frequency *)

(** After [n] occurrences of a class, its counter holds [n] and its frequency
    is the least power of two beyond [n]. *)
Definition counter_inv (n : Z) (c : WarnCounter) : Prop :=
  num c = n /\
  exists k, 0 <= k /\ report_frequency c = 2 ^ k /\ n < 2 ^ k /\ 2 ^ k <= 2 * n + 1.

Lemma counter_inv_init : counter_inv 0 counter_init.
Proof.
  split; [reflexivity|]. exists 0. cbn. lia.
Qed.

Lemma pow2_le_mono (j k : Z) : 0 <= j -> 0 <= k -> 2 ^ j < 2 ^ (k + 1) -> 2 ^ j <= 2 ^ k.
Proof.
  intros Hj Hk H.
  apply Z.pow_lt_mono_r_iff in H; try lia.
  apply Z.pow_le_mono_r; lia.
Qed.

Lemma report_occurrence_step (n : Z) (c : WarnCounter) :
  0 <= n -> n + 1 < 2 ^ 63 -> counter_inv n c ->
  exists b c',
    report_occurrence c = Some (b, c') /\
    counter_inv (n + 1) c' /\
    (b = true <-> is_power_of_two (n + 1)).
Proof.
  intros Hn Hbound [Hnum (k & Hk & Hfreq & Hlt & Hle)].
  unfold report_occurrence. rewrite Hnum, Hfreq.
  assert (Hpos : 0 < 2 ^ k) by (apply Z.pow_pos_nonneg; lia).
  assert (H63 : 2 ^ 64 = 2 * 2 ^ 63) by reflexivity.
  assert (Hwrap : size_t_wrap (n + 1) = n + 1).
  { unfold size_t_wrap, size_t_modulus. apply Z.mod_small. lia. }
  rewrite Hwrap.
  destruct (2 ^ k =? 0) eqn:E0; [apply Z.eqb_eq in E0; lia|].
  destruct (Z.eq_dec (n + 1) (2 ^ k)) as [Heq | Hne].
  - (* the counter reaches the frequency: report and double *)
    rewrite Heq, Z.mod_same, Z.eqb_refl by lia.
    eexists _, _. split; [reflexivity|]. split.
    + split; [cbn; lia|]. exists (k + 1). cbn [report_frequency].
      rewrite Z.pow_add_r by lia. change (2 ^ 1) with 2.
      unfold size_t_wrap, size_t_modulus.
      rewrite Z.mod_small by lia. lia.
    + split; [intros _; exists k; split; [lia | rewrite <- Heq; reflexivity] | reflexivity].
  - (* strictly below the frequency: silent *)
    rewrite Z.mod_small by lia.
    destruct (n + 1 =? 0) eqn:E1; [apply Z.eqb_eq in E1; lia|].
    eexists _, _. split; [reflexivity|]. split.
    + split; [reflexivity|]. exists k. cbn [report_frequency]. lia.
    + split; [discriminate|]. intros (j & Hj & Hpow). exfalso.
      assert (2 ^ k <= 2 ^ j).
      { apply pow2_le_mono; try lia. rewrite Z.pow_add_r by lia.
        change (2 ^ 1) with 2. lia. }
      lia.
Qed.

Lemma WarnClass_eqb_eq (a b : WarnClass) : WarnClass_eqb a b = true <-> a = b.
Proof. destruct a, b; cbn; split; congruence. Qed.

Lemma WarnClass_eqb_refl (a : WarnClass) : WarnClass_eqb a a = true.
Proof. destruct a; reflexivity. Qed.

Lemma class_count_nonneg (c : WarnClass) (evs : list WarnClass) : 0 <= class_count c evs.
Proof. unfold class_count. lia. Qed.

Lemma class_count_le_length (c : WarnClass) (evs : list WarnClass) :
  class_count c evs <= Z.of_nat (List.length evs).
Proof.
  unfold class_count. pose proof (filter_length_le (WarnClass_eqb c) evs). lia.
Qed.

Lemma class_count_snoc (c d : WarnClass) (evs : list WarnClass) :
  class_count c (evs ++ [d]) =
  class_count c evs + (if WarnClass_eqb c d then 1 else 0).
Proof.
  unfold class_count. rewrite filter_app, length_app. cbn [filter].
  destruct (WarnClass_eqb c d); cbn [List.length]; lia.
Qed.

(** What holds of the counters and of the log once the anomalies [done]
    have been met. *)
Record loop_inv (done : list WarnClass) (st : Counters * list LogMessage) : Prop := {
  inv_counters : forall c, counter_inv (class_count c done) (fst st c);
  inv_logged : forall c i,
      In (MsgOccurrence c i) (snd st) <->
      (1 <= i <= class_count c done /\ is_power_of_two i);
  inv_no_summary : filter is_summary (snd st) = [];
  inv_nodup : NoDup (snd st)
}.

Lemma loop_inv_init : loop_inv [] (counters_init, []).
Proof.
  constructor; cbn.
  - intros c. apply counter_inv_init.
  - intros c i. unfold class_count. cbn. split; [tauto | lia].
  - reflexivity.
  - constructor.
Qed.

Lemma occurrence_step (done : list WarnClass) (d : WarnClass) st :
  Z.of_nat (List.length (done ++ [d])) < 2 ^ 63 ->
  loop_inv done st ->
  exists st', occurrence d st = Some st' /\ loop_inv (done ++ [d]) st'.
Proof.
  intros Hlen [Hc Hl Hs Hnd]. destruct st as [cs log]. cbn [fst snd] in *.
  assert (Hcnt : class_count d (done ++ [d]) = class_count d done + 1).
  { rewrite class_count_snoc, WarnClass_eqb_refl. reflexivity. }
  pose proof (class_count_le_length d (done ++ [d])) as Hle.
  pose proof (class_count_nonneg d done) as H0.
  destruct (@report_occurrence_step (class_count d done) (cs d)) as (b & v & Hrep & Hinv & Hb);
    try lia; [apply Hc|].
  unfold occurrence. rewrite Hrep. eexists. split; [reflexivity|].
  assert (Hnumv : num v = class_count d done + 1) by (destruct Hinv; assumption).
  constructor; cbn [fst snd].
  - intros c. unfold set_counter. rewrite class_count_snoc.
    destruct (WarnClass_eqb d c) eqn:E.
    + apply WarnClass_eqb_eq in E. subst c. rewrite WarnClass_eqb_refl. exact Hinv.
    + assert (WarnClass_eqb c d = false) as ->.
      { destruct (WarnClass_eqb c d) eqn:E'; [|reflexivity].
        apply WarnClass_eqb_eq in E'. subst. rewrite WarnClass_eqb_refl in E. discriminate. }
      rewrite Z.add_0_r. apply Hc.
  - intros c i. rewrite class_count_snoc.
    assert (Hin : In (MsgOccurrence c i) (if b then log ++ [MsgOccurrence d (num v)] else log)
                  <-> (In (MsgOccurrence c i) log \/ (b = true /\ c = d /\ i = num v))).
    { destruct b.
      - rewrite in_app_iff. cbn. split.
        + intros [H | [H | []]]; [left; assumption | right]. inversion H. auto.
        + intros [H | (_ & -> & ->)]; [left; assumption | right; left; reflexivity].
      - split; [auto | intros [H | (H & _)]; [assumption | discriminate]]. }
    rewrite Hin, Hl, Hnumv. clear Hin.
    destruct (WarnClass_eqb c d) eqn:E.
    + apply WarnClass_eqb_eq in E. subst c. split.
      * intros [[Hi Hp] | (Hbt & _ & ->)]; [split; [lia | assumption]|].
        split; [lia | apply Hb; assumption].
      * intros [Hi Hp].
        destruct (Z.eq_dec i (class_count d done + 1)) as [-> | Hne].
        -- right. split; [apply Hb; assumption | auto].
        -- left. split; [lia | assumption].
    + split.
      * intros [[Hi Hp] | (_ & -> & _)]; [split; [lia | assumption]|].
        rewrite WarnClass_eqb_refl in E. discriminate.
      * intros [Hi Hp]. left. split; [lia | assumption].
  - destruct b; [|assumption]. rewrite filter_app, Hs. reflexivity.
  - destruct b; [|assumption].
    apply NoDup_app; [assumption | repeat constructor; cbn; tauto |].
    intros m Hm [<- | []]. apply Hl in Hm. lia.
Qed.

Lemma occurrences_inv (evs done : list WarnClass) st :
  Z.of_nat (List.length (done ++ evs)) < 2 ^ 63 ->
  loop_inv done st ->
  exists st', occurrences evs st = Some st' /\ loop_inv (done ++ evs) st'.
Proof.
  revert done st. induction evs as [|d evs IH]; intros done st Hlen Hinv.
  - exists st. rewrite app_nil_r. split; [reflexivity | assumption].
  - assert (Heq : done ++ d :: evs = (done ++ [d]) ++ evs)
      by (rewrite <- app_assoc; reflexivity).
    rewrite Heq in *.
    destruct (@occurrence_step done d st) as (st1 & H1 & Hinv1); [|assumption|].
    { rewrite !length_app in *. lia. }
    cbn [occurrences]. rewrite H1. apply IH; assumption.
Qed.

Lemma existsb_counts_pos (s : MpsSection) (cs : Counters) (evs : list WarnClass) :
  (forall c, num (cs c) = class_count c evs) ->
  Forall (fun c => In c (section_classes s)) evs ->
  existsb (fun n => 0 <? n) (map (fun c => num (cs c)) (section_classes s)) = true
  <-> evs <> [].
Proof.
  intros Hnum Hcls. rewrite existsb_exists. split.
  - intros (n & Hin & Hpos). apply in_map_iff in Hin. destruct Hin as (c & <- & _).
    rewrite Hnum in Hpos. intros ->. unfold class_count in Hpos. cbn in Hpos. discriminate.
  - intros Hne. destruct evs as [|d evs]; [congruence|].
    exists (num (cs d)). split.
    + apply in_map_iff. exists d. split; [reflexivity|]. inversion Hcls; assumption.
    + rewrite Hnum. unfold class_count. cbn [filter]. rewrite WarnClass_eqb_refl.
      cbn [List.length]. apply Z.ltb_lt. lia.
Qed.

(** C8.  In a section of the MPS file that ends at a section keyword and in
    which fewer than 2^63 anomalies are met, the i-th occurrence of every
    aggregated warning class is logged individually exactly when i is a power
    of two (and then exactly once), and exactly one summary warning is logged
    at the end of the section when at least one anomaly was counted, none
    otherwise; [warning_issued_] records which. *)
Theorem doubling_report_frequency (s : MpsSection) (evs : list WarnClass) :
  Z.of_nat (List.length evs) < 2 ^ 63 ->
  Forall (fun c => In c (section_classes s)) evs ->
  exists warning_issued_ log,
    parse_section_warnings s evs = Some (warning_issued_, log) /\
    (forall c i, In (MsgOccurrence c i) log <->
                 (1 <= i <= class_count c evs /\ is_power_of_two i)) /\
    NoDup log /\
    num_summaries log = (if warning_issued_ then 1%nat else 0%nat) /\
    (warning_issued_ = true <-> evs <> []).
Proof.
  intros Hlen Hcls.
  destruct (@occurrences_inv evs [] (counters_init, [])) as ([cs log] & Hrun & Hinv);
    [assumption | apply loop_inv_init |].
  cbn [app] in Hinv. destruct Hinv as [Hc Hl Hs Hnd]. cbn [fst snd] in *.
  unfold parse_section_warnings. rewrite Hrun. unfold section_end.
  set (counts := map (fun c => num (cs c)) (section_classes s)).
  assert (Hex : existsb (fun n => 0 <? n) counts = true <-> evs <> []).
  { apply existsb_counts_pos; [|assumption]. intros c. destruct (Hc c). assumption. }
  eexists _, _. split; [reflexivity|].
  destruct (existsb (fun n => 0 <? n) counts) eqn:E.
  - split; [|split; [|split; [|exact Hex]]].
    + intros c i. rewrite <- Hl, in_app_iff. cbn. split; [|tauto].
      intros [H | [H | []]]; [assumption | discriminate].
    + apply NoDup_app; [assumption | repeat constructor; cbn; tauto |].
      intros m Hm [<- | []].
      assert (In (MsgSummary s counts) (filter is_summary log))
        by (apply filter_In; split; [assumption | reflexivity]).
      rewrite Hs in H. contradiction.
    + unfold num_summaries. rewrite filter_app, Hs. reflexivity.
  - split; [|split; [|split; [|exact Hex]]].
    + exact Hl.
    + assumption.
    + unfold num_summaries. rewrite Hs. reflexivity.
Qed.

Lemma doubling_report_frequency_witness :
  exists warning_issued_ log,
    parse_section_warnings SecColumns
      [IgnoredRowName; IgnoredRowName; IgnoredDuplicateCostNz; IgnoredRowName;
       IgnoredRowName; IgnoredRowName]
    = Some (warning_issued_, log) /\
    (forall c i, In (MsgOccurrence c i) log <->
                 (1 <= i <= class_count c
                    [IgnoredRowName; IgnoredRowName; IgnoredDuplicateCostNz;
                     IgnoredRowName; IgnoredRowName; IgnoredRowName]
                  /\ is_power_of_two i)) /\
    NoDup log /\
    num_summaries log = (if warning_issued_ then 1%nat else 0%nat) /\
    (warning_issued_ = true <->
     [IgnoredRowName; IgnoredRowName; IgnoredDuplicateCostNz; IgnoredRowName;
      IgnoredRowName; IgnoredRowName] <> []).
Proof.
  apply (@doubling_report_frequency SecColumns
           [IgnoredRowName; IgnoredRowName; IgnoredDuplicateCostNz; IgnoredRowName;
            IgnoredRowName; IgnoredRowName]).
  - reflexivity.
  - repeat constructor; cbn; tauto.
Defined.

(** The log of the section used in the witness: occurrences 1, 2 and 4 of
    the undefined row name and occurrence 1 of the duplicate cost are
    reported, occurrences 3 and 5 are not, and one summary closes the
    section. *)
Example parse_section_warnings_example :
  parse_section_warnings SecColumns
    [IgnoredRowName; IgnoredRowName; IgnoredDuplicateCostNz; IgnoredRowName;
     IgnoredRowName; IgnoredRowName]
  = Some (true,
          [MsgOccurrence IgnoredRowName 1; MsgOccurrence IgnoredRowName 2;
           MsgOccurrence IgnoredDuplicateCostNz 1; MsgOccurrence IgnoredRowName 4;
           MsgSummary SecColumns [5; 1; 0]]).
Proof. reflexivity. Qed.

End HMpsFF.

(* ================================================================== *)
(** * Data model of the Highs class (as HighsInterface.cpp uses it)    *)
(* ================================================================== *)

Definition double : Type := float.

(** [kHighsInf] is [std::numeric_limits<double>::infinity()]. *)
Definition kHighsInf : double := infinity.

(** C++ truth value of a double: [if (x)] holds unless [x == 0]. *)
Definition double_truth (x : double) : bool := negb (x =? 0)%float.

(** ** Enumerations *)

Module HighsStatus.
Inductive t : Type := kError | kOk | kWarning.
Definition eqb (a b : t) : bool :=
  match a, b with
  | kError, kError | kOk, kOk | kWarning, kWarning => true
  | _, _ => false
  end.
End HighsStatus.

Module HighsModelStatus.
Inductive t : Type :=
| kNotset | kLoadError | kModelError | kPresolveError | kSolveError
| kPostsolveError | kModelEmpty | kOptimal | kInfeasible
| kUnboundedOrInfeasible | kUnbounded | kObjectiveBound | kObjectiveTarget
| kTimeLimit | kIterationLimit | kUnknown | kSolutionLimit | kInterrupt
| kMemoryLimit.
End HighsModelStatus.

Module HighsBasisStatus.
Inductive t : Type := kLower | kBasic | kUpper | kZero | kNonbasic.
Definition eqb (a b : t) : bool :=
  match a, b with
  | kLower, kLower | kBasic, kBasic | kUpper, kUpper | kZero, kZero
  | kNonbasic, kNonbasic => true
  | _, _ => false
  end.
End HighsBasisStatus.

Module HighsVarType.
Inductive t : Type :=
| kContinuous | kInteger | kSemiContinuous | kSemiInteger | kImplicitInteger.
End HighsVarType.

Module ObjSense.
Inductive t : Type := kMinimize | kMaximize.
End ObjSense.

Module MatrixFormat.
Inductive t : Type := kColwise | kRowwise | kRowwisePartitioned.
End MatrixFormat.

(** The action tokens passed to [HEkk::updateStatus]. *)
Module LpAction.
Inductive t : Type :=
| kScale | kNewCosts | kNewBounds | kNewBasis | kNewCols | kNewRows
| kDelCols | kDelNonbasicCols | kDelRows | kDelRowsBasisOk
| kScaledCol | kScaledRow | kHotStart | kBacktracking.
End LpAction.

(** Modelled from the spec: the simplex constants [kNonbasicMoveUp],
    [kNonbasicMoveDn], [kNonbasicMoveZe] (SimplexConst.h is not among the
    embedded sources); the spec's data model has
    [nonbasic_move] in {+1, 0, -1}. *)
Definition kNonbasicMoveUp : Z := 1.
Definition kNonbasicMoveDn : Z := -1.
Definition kNonbasicMoveZe : Z := 0.

(** Modelled from the spec: the solution-status and illegal-count constants
    of HConst.h (not among the embedded sources). *)
Definition kSolutionStatusNone : Z := 0.
Definition kSolutionStatusInfeasible : Z := 1.
Definition kSolutionStatusFeasible : Z := 2.
Definition kHighsIllegalInfeasibilityCount : Z := -1.
Definition kHighsIllegalResidualCount : Z := -1.

(** ** Vectors indexed by HighsInt *)

Section Vectors.
Context {A : Type}.

(** [v[i]]; reading out of range is undefined in C++ and yields [d] here. *)
Definition vget (v : list A) (i : Z) (d : A) : A :=
  if i <? 0 then d else nth (Z.to_nat i) v d.

Fixpoint upd_nat (v : list A) (n : nat) (x : A) : list A :=
  match v, n with
  | [], _ => []
  | _ :: t, O => x :: t
  | h :: t, S n' => h :: upd_nat t n' x
  end.

(** [v[i] = x]; writing out of range is undefined in C++ and does nothing
    here. *)
Definition vset (v : list A) (i : Z) (x : A) : list A :=
  if i <? 0 then v else upd_nat v (Z.to_nat i) x.

Definition vsize (v : list A) : Z := Z.of_nat (List.length v).

End Vectors.

(** ** Records *)

Record HighsSparseMatrix : Type := mkMatrix {
  format_ : MatrixFormat.t;
  m_num_col_ : Z;
  m_num_row_ : Z;
  start_ : list Z;
  index_ : list Z;
  value_ : list double
}.

(** The modifications log: the four parallel vectors
    [save_inf_cost_variable_{index,cost,lower,upper}] of [HighsLpMods]. *)
Record HighsLpMods : Type := mkMods {
  save_inf_cost_variable_index : list Z;
  save_inf_cost_variable_cost : list double;
  save_inf_cost_variable_lower : list double;
  save_inf_cost_variable_upper : list double
}.

Record HighsLp : Type := mkLp {
  num_col_ : Z;
  num_row_ : Z;
  col_cost_ : list double;
  col_lower_ : list double;
  col_upper_ : list double;
  row_lower_ : list double;
  row_upper_ : list double;
  a_matrix_ : HighsSparseMatrix;
  sense_ : ObjSense.t;
  integrality_ : list HighsVarType.t;
  user_bound_scale_ : Z;
  user_cost_scale_ : Z;
  has_infinite_cost_ : bool;
  mods_ : HighsLpMods
}.

Record HighsBasis : Type := mkBasis {
  valid : bool;
  alien : bool;
  useful : bool;
  was_alien : bool;
  col_status : list HighsBasisStatus.t;
  row_status : list HighsBasisStatus.t
}.

Record HighsSolution : Type := mkSolution {
  value_valid : bool;
  dual_valid : bool;
  col_value : list double;
  col_dual : list double;
  row_value : list double;
  row_dual : list double
}.

(** The members of [HighsInfoStruct] (HighsInfo.h) that the embedded code
    reads or writes. *)
Record HighsInfo : Type := mkInfo {
  info_valid : bool;
  primal_solution_status : Z;
  dual_solution_status : Z;
  objective_function_value : double;
  num_primal_infeasibilities : Z;
  max_primal_infeasibility : double;
  sum_primal_infeasibilities : double;
  num_dual_infeasibilities : Z;
  max_dual_infeasibility : double;
  sum_dual_infeasibilities : double;
  num_relative_primal_infeasibilities : Z;
  max_relative_primal_infeasibility : double;
  num_relative_dual_infeasibilities : Z;
  max_relative_dual_infeasibility : double;
  num_primal_residual_errors : Z;
  max_primal_residual_error : double;
  num_dual_residual_errors : Z;
  max_dual_residual_error : double;
  num_relative_primal_residual_errors : Z;
  max_relative_primal_residual_error : double;
  num_relative_dual_residual_errors : Z;
  max_relative_dual_residual_error : double;
  num_complementarity_violations : Z;
  max_complementarity_violation : double;
  primal_dual_objective_error : double
}.

(** The options that the embedded code reads or writes. *)
Record HighsOptions : Type := mkOptions {
  infinite_cost : double;
  infinite_bound : double;
  small_matrix_value : double;
  large_matrix_value : double;
  primal_feasibility_tolerance : double;
  dual_feasibility_tolerance : double;
  primal_residual_tolerance : double;
  dual_residual_tolerance : double;
  optimality_tolerance : double;
  kkt_tolerance : double;
  user_bound_scale : Z;
  user_cost_scale : Z;
  iis_strategy : Z
}.

Record HighsSimplexStatus : Type := mkSimplexStatus {
  initialised_for_solve : bool;
  has_basis : bool;
  has_nla : bool;
  has_invert : bool
}.

Record SimplexBasis : Type := mkSimplexBasis {
  basicIndex_ : list Z;
  nonbasicFlag_ : list Z;
  nonbasicMove_ : list Z
}.

(** The simplex engine instance: the members of the HEkk class (HEkk.h) that
    the embedded code names. *)
Record HEkk : Type := mkEkk {
  status_ : HighsSimplexStatus;
  ekk_basis_ : SimplexBasis
}.

Record HighsIis : Type := mkIis {
  valid_ : bool;
  strategy_ : Z
}.

(** The state of a Highs object. *)
Record Highs : Type := mkHighs {
  lp_ : HighsLp;                      (* model_.lp_ *)
  basis_ : HighsBasis;
  solution_ : HighsSolution;
  info_ : HighsInfo;
  model_status_ : HighsModelStatus.t;
  options_ : HighsOptions;
  ekk_instance_ : HEkk;
  iis_ : HighsIis
}.

Definition set_lp (h : Highs) (lp : HighsLp) : Highs :=
  mkHighs lp (basis_ h) (solution_ h) (info_ h) (model_status_ h) (options_ h)
          (ekk_instance_ h) (iis_ h).

Definition set_basis (h : Highs) (b : HighsBasis) : Highs :=
  mkHighs (lp_ h) b (solution_ h) (info_ h) (model_status_ h) (options_ h)
          (ekk_instance_ h) (iis_ h).

Definition set_solution (h : Highs) (s : HighsSolution) : Highs :=
  mkHighs (lp_ h) (basis_ h) s (info_ h) (model_status_ h) (options_ h)
          (ekk_instance_ h) (iis_ h).

Definition set_info (h : Highs) (i : HighsInfo) : Highs :=
  mkHighs (lp_ h) (basis_ h) (solution_ h) i (model_status_ h) (options_ h)
          (ekk_instance_ h) (iis_ h).

Definition set_model_status (h : Highs) (m : HighsModelStatus.t) : Highs :=
  mkHighs (lp_ h) (basis_ h) (solution_ h) (info_ h) m (options_ h)
          (ekk_instance_ h) (iis_ h).

Definition set_options (h : Highs) (o : HighsOptions) : Highs :=
  mkHighs (lp_ h) (basis_ h) (solution_ h) (info_ h) (model_status_ h) o
          (ekk_instance_ h) (iis_ h).

Definition set_ekk (h : Highs) (e : HEkk) : Highs :=
  mkHighs (lp_ h) (basis_ h) (solution_ h) (info_ h) (model_status_ h) (options_ h)
          e (iis_ h).

Definition set_iis (h : Highs) (i : HighsIis) : Highs :=
  mkHighs (lp_ h) (basis_ h) (solution_ h) (info_ h) (model_status_ h) (options_ h)
          (ekk_instance_ h) i.

Definition set_basis_valid (b : HighsBasis) (v : bool) : HighsBasis :=
  mkBasis v (alien b) (useful b) (was_alien b) (col_status b) (row_status b).

Definition set_col_status (b : HighsBasis) (s : list HighsBasisStatus.t) : HighsBasis :=
  mkBasis (valid b) (alien b) (useful b) (was_alien b) s (row_status b).

Definition set_row_status (b : HighsBasis) (s : list HighsBasisStatus.t) : HighsBasis :=
  mkBasis (valid b) (alien b) (useful b) (was_alien b) (col_status b) s.

Definition set_nonbasicMove (e : HEkk) (m : list Z) : HEkk :=
  mkEkk (status_ e)
        (mkSimplexBasis (basicIndex_ (ekk_basis_ e)) (nonbasicFlag_ (ekk_basis_ e)) m).


(** Field updates of [HighsInfo], [HighsLp], [HighsOptions] and [HighsSolution]. *)

Definition set_info_valid (i : HighsInfo) (v : bool) : HighsInfo :=
  mkInfo v (primal_solution_status i) (dual_solution_status i)
    (objective_function_value i) (num_primal_infeasibilities i)
    (max_primal_infeasibility i) (sum_primal_infeasibilities i)
    (num_dual_infeasibilities i) (max_dual_infeasibility i)
    (sum_dual_infeasibilities i) (num_relative_primal_infeasibilities i)
    (max_relative_primal_infeasibility i)
    (num_relative_dual_infeasibilities i) (max_relative_dual_infeasibility i)
    (num_primal_residual_errors i) (max_primal_residual_error i)
    (num_dual_residual_errors i) (max_dual_residual_error i)
    (num_relative_primal_residual_errors i)
    (max_relative_primal_residual_error i)
    (num_relative_dual_residual_errors i) (max_relative_dual_residual_error i)
    (num_complementarity_violations i) (max_complementarity_violation i)
    (primal_dual_objective_error i).

Definition set_primal_solution_status (i : HighsInfo) (v : Z) : HighsInfo :=
  mkInfo (info_valid i) v (dual_solution_status i)
    (objective_function_value i) (num_primal_infeasibilities i)
    (max_primal_infeasibility i) (sum_primal_infeasibilities i)
    (num_dual_infeasibilities i) (max_dual_infeasibility i)
    (sum_dual_infeasibilities i) (num_relative_primal_infeasibilities i)
    (max_relative_primal_infeasibility i)
    (num_relative_dual_infeasibilities i) (max_relative_dual_infeasibility i)
    (num_primal_residual_errors i) (max_primal_residual_error i)
    (num_dual_residual_errors i) (max_dual_residual_error i)
    (num_relative_primal_residual_errors i)
    (max_relative_primal_residual_error i)
    (num_relative_dual_residual_errors i) (max_relative_dual_residual_error i)
    (num_complementarity_violations i) (max_complementarity_violation i)
    (primal_dual_objective_error i).

Definition set_dual_solution_status (i : HighsInfo) (v : Z) : HighsInfo :=
  mkInfo (info_valid i) (primal_solution_status i) v
    (objective_function_value i) (num_primal_infeasibilities i)
    (max_primal_infeasibility i) (sum_primal_infeasibilities i)
    (num_dual_infeasibilities i) (max_dual_infeasibility i)
    (sum_dual_infeasibilities i) (num_relative_primal_infeasibilities i)
    (max_relative_primal_infeasibility i)
    (num_relative_dual_infeasibilities i) (max_relative_dual_infeasibility i)
    (num_primal_residual_errors i) (max_primal_residual_error i)
    (num_dual_residual_errors i) (max_dual_residual_error i)
    (num_relative_primal_residual_errors i)
    (max_relative_primal_residual_error i)
    (num_relative_dual_residual_errors i) (max_relative_dual_residual_error i)
    (num_complementarity_violations i) (max_complementarity_violation i)
    (primal_dual_objective_error i).

Definition set_objective_function_value (i : HighsInfo) (v : double) : HighsInfo :=
  mkInfo (info_valid i) (primal_solution_status i) (dual_solution_status i) v
    (num_primal_infeasibilities i) (max_primal_infeasibility i)
    (sum_primal_infeasibilities i) (num_dual_infeasibilities i)
    (max_dual_infeasibility i) (sum_dual_infeasibilities i)
    (num_relative_primal_infeasibilities i)
    (max_relative_primal_infeasibility i)
    (num_relative_dual_infeasibilities i) (max_relative_dual_infeasibility i)
    (num_primal_residual_errors i) (max_primal_residual_error i)
    (num_dual_residual_errors i) (max_dual_residual_error i)
    (num_relative_primal_residual_errors i)
    (max_relative_primal_residual_error i)
    (num_relative_dual_residual_errors i) (max_relative_dual_residual_error i)
    (num_complementarity_violations i) (max_complementarity_violation i)
    (primal_dual_objective_error i).

Definition set_num_primal_infeasibilities (i : HighsInfo) (v : Z) : HighsInfo :=
  mkInfo (info_valid i) (primal_solution_status i) (dual_solution_status i)
    (objective_function_value i) v (max_primal_infeasibility i)
    (sum_primal_infeasibilities i) (num_dual_infeasibilities i)
    (max_dual_infeasibility i) (sum_dual_infeasibilities i)
    (num_relative_primal_infeasibilities i)
    (max_relative_primal_infeasibility i)
    (num_relative_dual_infeasibilities i) (max_relative_dual_infeasibility i)
    (num_primal_residual_errors i) (max_primal_residual_error i)
    (num_dual_residual_errors i) (max_dual_residual_error i)
    (num_relative_primal_residual_errors i)
    (max_relative_primal_residual_error i)
    (num_relative_dual_residual_errors i) (max_relative_dual_residual_error i)
    (num_complementarity_violations i) (max_complementarity_violation i)
    (primal_dual_objective_error i).

Definition set_max_primal_infeasibility (i : HighsInfo) (v : double) : HighsInfo :=
  mkInfo (info_valid i) (primal_solution_status i) (dual_solution_status i)
    (objective_function_value i) (num_primal_infeasibilities i) v
    (sum_primal_infeasibilities i) (num_dual_infeasibilities i)
    (max_dual_infeasibility i) (sum_dual_infeasibilities i)
    (num_relative_primal_infeasibilities i)
    (max_relative_primal_infeasibility i)
    (num_relative_dual_infeasibilities i) (max_relative_dual_infeasibility i)
    (num_primal_residual_errors i) (max_primal_residual_error i)
    (num_dual_residual_errors i) (max_dual_residual_error i)
    (num_relative_primal_residual_errors i)
    (max_relative_primal_residual_error i)
    (num_relative_dual_residual_errors i) (max_relative_dual_residual_error i)
    (num_complementarity_violations i) (max_complementarity_violation i)
    (primal_dual_objective_error i).

Definition set_sum_primal_infeasibilities (i : HighsInfo) (v : double) : HighsInfo :=
  mkInfo (info_valid i) (primal_solution_status i) (dual_solution_status i)
    (objective_function_value i) (num_primal_infeasibilities i)
    (max_primal_infeasibility i) v (num_dual_infeasibilities i)
    (max_dual_infeasibility i) (sum_dual_infeasibilities i)
    (num_relative_primal_infeasibilities i)
    (max_relative_primal_infeasibility i)
    (num_relative_dual_infeasibilities i) (max_relative_dual_infeasibility i)
    (num_primal_residual_errors i) (max_primal_residual_error i)
    (num_dual_residual_errors i) (max_dual_residual_error i)
    (num_relative_primal_residual_errors i)
    (max_relative_primal_residual_error i)
    (num_relative_dual_residual_errors i) (max_relative_dual_residual_error i)
    (num_complementarity_violations i) (max_complementarity_violation i)
    (primal_dual_objective_error i).

Definition set_num_dual_infeasibilities (i : HighsInfo) (v : Z) : HighsInfo :=
  mkInfo (info_valid i) (primal_solution_status i) (dual_solution_status i)
    (objective_function_value i) (num_primal_infeasibilities i)
    (max_primal_infeasibility i) (sum_primal_infeasibilities i) v
    (max_dual_infeasibility i) (sum_dual_infeasibilities i)
    (num_relative_primal_infeasibilities i)
    (max_relative_primal_infeasibility i)
    (num_relative_dual_infeasibilities i) (max_relative_dual_infeasibility i)
    (num_primal_residual_errors i) (max_primal_residual_error i)
    (num_dual_residual_errors i) (max_dual_residual_error i)
    (num_relative_primal_residual_errors i)
    (max_relative_primal_residual_error i)
    (num_relative_dual_residual_errors i) (max_relative_dual_residual_error i)
    (num_complementarity_violations i) (max_complementarity_violation i)
    (primal_dual_objective_error i).

Definition set_max_dual_infeasibility (i : HighsInfo) (v : double) : HighsInfo :=
  mkInfo (info_valid i) (primal_solution_status i) (dual_solution_status i)
    (objective_function_value i) (num_primal_infeasibilities i)
    (max_primal_infeasibility i) (sum_primal_infeasibilities i)
    (num_dual_infeasibilities i) v (sum_dual_infeasibilities i)
    (num_relative_primal_infeasibilities i)
    (max_relative_primal_infeasibility i)
    (num_relative_dual_infeasibilities i) (max_relative_dual_infeasibility i)
    (num_primal_residual_errors i) (max_primal_residual_error i)
    (num_dual_residual_errors i) (max_dual_residual_error i)
    (num_relative_primal_residual_errors i)
    (max_relative_primal_residual_error i)
    (num_relative_dual_residual_errors i) (max_relative_dual_residual_error i)
    (num_complementarity_violations i) (max_complementarity_violation i)
    (primal_dual_objective_error i).

Definition set_sum_dual_infeasibilities (i : HighsInfo) (v : double) : HighsInfo :=
  mkInfo (info_valid i) (primal_solution_status i) (dual_solution_status i)
    (objective_function_value i) (num_primal_infeasibilities i)
    (max_primal_infeasibility i) (sum_primal_infeasibilities i)
    (num_dual_infeasibilities i) (max_dual_infeasibility i) v
    (num_relative_primal_infeasibilities i)
    (max_relative_primal_infeasibility i)
    (num_relative_dual_infeasibilities i) (max_relative_dual_infeasibility i)
    (num_primal_residual_errors i) (max_primal_residual_error i)
    (num_dual_residual_errors i) (max_dual_residual_error i)
    (num_relative_primal_residual_errors i)
    (max_relative_primal_residual_error i)
    (num_relative_dual_residual_errors i) (max_relative_dual_residual_error i)
    (num_complementarity_violations i) (max_complementarity_violation i)
    (primal_dual_objective_error i).

Definition set_num_col_ (lp : HighsLp) (v : Z) : HighsLp :=
  mkLp v (num_row_ lp) (col_cost_ lp) (col_lower_ lp) (col_upper_ lp)
    (row_lower_ lp) (row_upper_ lp) (a_matrix_ lp) (sense_ lp)
    (integrality_ lp) (user_bound_scale_ lp) (user_cost_scale_ lp)
    (has_infinite_cost_ lp) (mods_ lp).

Definition set_num_row_ (lp : HighsLp) (v : Z) : HighsLp :=
  mkLp (num_col_ lp) v (col_cost_ lp) (col_lower_ lp) (col_upper_ lp)
    (row_lower_ lp) (row_upper_ lp) (a_matrix_ lp) (sense_ lp)
    (integrality_ lp) (user_bound_scale_ lp) (user_cost_scale_ lp)
    (has_infinite_cost_ lp) (mods_ lp).

Definition set_col_cost_ (lp : HighsLp) (v : (list double)) : HighsLp :=
  mkLp (num_col_ lp) (num_row_ lp) v (col_lower_ lp) (col_upper_ lp)
    (row_lower_ lp) (row_upper_ lp) (a_matrix_ lp) (sense_ lp)
    (integrality_ lp) (user_bound_scale_ lp) (user_cost_scale_ lp)
    (has_infinite_cost_ lp) (mods_ lp).

Definition set_col_lower_ (lp : HighsLp) (v : (list double)) : HighsLp :=
  mkLp (num_col_ lp) (num_row_ lp) (col_cost_ lp) v (col_upper_ lp)
    (row_lower_ lp) (row_upper_ lp) (a_matrix_ lp) (sense_ lp)
    (integrality_ lp) (user_bound_scale_ lp) (user_cost_scale_ lp)
    (has_infinite_cost_ lp) (mods_ lp).

Definition set_col_upper_ (lp : HighsLp) (v : (list double)) : HighsLp :=
  mkLp (num_col_ lp) (num_row_ lp) (col_cost_ lp) (col_lower_ lp) v
    (row_lower_ lp) (row_upper_ lp) (a_matrix_ lp) (sense_ lp)
    (integrality_ lp) (user_bound_scale_ lp) (user_cost_scale_ lp)
    (has_infinite_cost_ lp) (mods_ lp).

Definition set_row_lower_ (lp : HighsLp) (v : (list double)) : HighsLp :=
  mkLp (num_col_ lp) (num_row_ lp) (col_cost_ lp) (col_lower_ lp)
    (col_upper_ lp) v (row_upper_ lp) (a_matrix_ lp) (sense_ lp)
    (integrality_ lp) (user_bound_scale_ lp) (user_cost_scale_ lp)
    (has_infinite_cost_ lp) (mods_ lp).

Definition set_row_upper_ (lp : HighsLp) (v : (list double)) : HighsLp :=
  mkLp (num_col_ lp) (num_row_ lp) (col_cost_ lp) (col_lower_ lp)
    (col_upper_ lp) (row_lower_ lp) v (a_matrix_ lp) (sense_ lp)
    (integrality_ lp) (user_bound_scale_ lp) (user_cost_scale_ lp)
    (has_infinite_cost_ lp) (mods_ lp).

Definition set_a_matrix_ (lp : HighsLp) (v : HighsSparseMatrix) : HighsLp :=
  mkLp (num_col_ lp) (num_row_ lp) (col_cost_ lp) (col_lower_ lp)
    (col_upper_ lp) (row_lower_ lp) (row_upper_ lp) v (sense_ lp)
    (integrality_ lp) (user_bound_scale_ lp) (user_cost_scale_ lp)
    (has_infinite_cost_ lp) (mods_ lp).

Definition set_sense_ (lp : HighsLp) (v : ObjSense.t) : HighsLp :=
  mkLp (num_col_ lp) (num_row_ lp) (col_cost_ lp) (col_lower_ lp)
    (col_upper_ lp) (row_lower_ lp) (row_upper_ lp) (a_matrix_ lp) v
    (integrality_ lp) (user_bound_scale_ lp) (user_cost_scale_ lp)
    (has_infinite_cost_ lp) (mods_ lp).

Definition set_integrality_ (lp : HighsLp) (v : (list HighsVarType.t)) : HighsLp :=
  mkLp (num_col_ lp) (num_row_ lp) (col_cost_ lp) (col_lower_ lp)
    (col_upper_ lp) (row_lower_ lp) (row_upper_ lp) (a_matrix_ lp) (sense_ lp)
    v (user_bound_scale_ lp) (user_cost_scale_ lp) (has_infinite_cost_ lp)
    (mods_ lp).

Definition set_user_bound_scale_ (lp : HighsLp) (v : Z) : HighsLp :=
  mkLp (num_col_ lp) (num_row_ lp) (col_cost_ lp) (col_lower_ lp)
    (col_upper_ lp) (row_lower_ lp) (row_upper_ lp) (a_matrix_ lp) (sense_ lp)
    (integrality_ lp) v (user_cost_scale_ lp) (has_infinite_cost_ lp)
    (mods_ lp).

Definition set_user_cost_scale_ (lp : HighsLp) (v : Z) : HighsLp :=
  mkLp (num_col_ lp) (num_row_ lp) (col_cost_ lp) (col_lower_ lp)
    (col_upper_ lp) (row_lower_ lp) (row_upper_ lp) (a_matrix_ lp) (sense_ lp)
    (integrality_ lp) (user_bound_scale_ lp) v (has_infinite_cost_ lp)
    (mods_ lp).

Definition set_has_infinite_cost_ (lp : HighsLp) (v : bool) : HighsLp :=
  mkLp (num_col_ lp) (num_row_ lp) (col_cost_ lp) (col_lower_ lp)
    (col_upper_ lp) (row_lower_ lp) (row_upper_ lp) (a_matrix_ lp) (sense_ lp)
    (integrality_ lp) (user_bound_scale_ lp) (user_cost_scale_ lp) v
    (mods_ lp).

Definition set_mods_ (lp : HighsLp) (v : HighsLpMods) : HighsLp :=
  mkLp (num_col_ lp) (num_row_ lp) (col_cost_ lp) (col_lower_ lp)
    (col_upper_ lp) (row_lower_ lp) (row_upper_ lp) (a_matrix_ lp) (sense_ lp)
    (integrality_ lp) (user_bound_scale_ lp) (user_cost_scale_ lp)
    (has_infinite_cost_ lp) v.

Definition set_user_bound_scale (o : HighsOptions) (v : Z) : HighsOptions :=
  mkOptions (infinite_cost o) (infinite_bound o) (small_matrix_value o)
    (large_matrix_value o) (primal_feasibility_tolerance o)
    (dual_feasibility_tolerance o) (primal_residual_tolerance o)
    (dual_residual_tolerance o) (optimality_tolerance o) (kkt_tolerance o) v
    (user_cost_scale o) (iis_strategy o).

Definition set_user_cost_scale (o : HighsOptions) (v : Z) : HighsOptions :=
  mkOptions (infinite_cost o) (infinite_bound o) (small_matrix_value o)
    (large_matrix_value o) (primal_feasibility_tolerance o)
    (dual_feasibility_tolerance o) (primal_residual_tolerance o)
    (dual_residual_tolerance o) (optimality_tolerance o) (kkt_tolerance o)
    (user_bound_scale o) v (iis_strategy o).

Definition set_value_valid (s : HighsSolution) (v : bool) : HighsSolution :=
  mkSolution v (dual_valid s) (col_value s) (col_dual s) (row_value s)
    (row_dual s).

Definition set_dual_valid (s : HighsSolution) (v : bool) : HighsSolution :=
  mkSolution (value_valid s) v (col_value s) (col_dual s) (row_value s)
    (row_dual s).

Definition set_col_value (s : HighsSolution) (v : (list double)) : HighsSolution :=
  mkSolution (value_valid s) (dual_valid s) v (col_dual s) (row_value s)
    (row_dual s).

Definition set_col_dual (s : HighsSolution) (v : (list double)) : HighsSolution :=
  mkSolution (value_valid s) (dual_valid s) (col_value s) v (row_value s)
    (row_dual s).

Definition set_row_value (s : HighsSolution) (v : (list double)) : HighsSolution :=
  mkSolution (value_valid s) (dual_valid s) (col_value s) (col_dual s) v
    (row_dual s).

Definition set_row_dual (s : HighsSolution) (v : (list double)) : HighsSolution :=
  mkSolution (value_valid s) (dual_valid s) (col_value s) (col_dual s)
    (row_value s) v.

(** ** Vector lemmas *)

Lemma upd_nat_length {A : Type} (v : list A) (n : nat) (x : A) :
  List.length (upd_nat v n x) = List.length v.
Proof.
  revert n. induction v as [|a v IH]; intros [|n]; cbn; auto.
Qed.

Lemma nth_upd_nat {A : Type} (v : list A) (n m : nat) (x d : A) :
  (n < List.length v)%nat ->
  nth m (upd_nat v n x) d = if Nat.eqb m n then x else nth m v d.
Proof.
  revert n m. induction v as [|a v IH]; intros n m Hn; cbn in Hn; [lia|].
  destruct n as [|n], m as [|m]; cbn; auto.
  apply IH. lia.
Qed.

Lemma vsize_vset {A : Type} (v : list A) (i : Z) (x : A) :
  vsize (vset v i x) = vsize v.
Proof.
  unfold vsize, vset. destruct (i <? 0); [reflexivity|].
  rewrite upd_nat_length. reflexivity.
Qed.

Lemma vget_vset {A : Type} (v : list A) (i j : Z) (x d : A) :
  0 <= i < vsize v ->
  vget (vset v i x) j d = if j =? i then x else vget v j d.
Proof.
  unfold vsize, vget, vset. intros Hi.
  destruct (i <? 0) eqn:Ei; [apply Z.ltb_lt in Ei; lia|].
  destruct (j <? 0) eqn:Ej.
  - apply Z.ltb_lt in Ej. destruct (j =? i) eqn:E; [apply Z.eqb_eq in E; lia | reflexivity].
  - apply Z.ltb_ge in Ej. rewrite nth_upd_nat by lia.
    destruct (j =? i) eqn:E.
    + apply Z.eqb_eq in E. subst. rewrite Nat.eqb_refl. reflexivity.
    + apply Z.eqb_neq in E.
      destruct (Nat.eqb_spec (Z.to_nat j) (Z.to_nat i)); [lia | reflexivity].
Qed.

Lemma upd_nat_upd_nat {A : Type} (v : list A) (n : nat) (a b : A) :
  upd_nat (upd_nat v n a) n b = upd_nat v n b.
Proof. revert n. induction v as [|x v IH]; intros [|n]; cbn; auto. f_equal. apply IH. Qed.

Lemma upd_nat_nth {A : Type} (v : list A) (n : nat) (d : A) :
  upd_nat v n (nth n v d) = v.
Proof. revert n. induction v as [|x v IH]; intros [|n]; cbn; auto. f_equal. apply IH. Qed.

Lemma upd_nat_comm {A : Type} (v : list A) (n m : nat) (a b : A) :
  n <> m -> upd_nat (upd_nat v n a) m b = upd_nat (upd_nat v m b) n a.
Proof.
  revert n m. induction v as [|x v IH]; intros [|n] [|m] H; cbn; auto; try congruence.
  f_equal. apply IH. congruence.
Qed.

Lemma nth_upd_nat_other {A : Type} (v : list A) (n m : nat) (x d : A) :
  n <> m -> nth m (upd_nat v n x) d = nth m v d.
Proof.
  revert n m. induction v as [|a v IH]; intros [|n] [|m] H; cbn; auto; try congruence.
Qed.

Lemma vset_vset {A : Type} (v : list A) (i : Z) (a b : A) :
  vset (vset v i a) i b = vset v i b.
Proof. unfold vset. destruct (i <? 0); [reflexivity | apply upd_nat_upd_nat]. Qed.

Lemma vset_vget {A : Type} (v : list A) (i : Z) (d : A) : vset v i (vget v i d) = v.
Proof. unfold vset, vget. destruct (i <? 0); [reflexivity | apply upd_nat_nth]. Qed.

Lemma vset_comm {A : Type} (v : list A) (i j : Z) (a b : A) :
  i <> j -> vset (vset v i a) j b = vset (vset v j b) i a.
Proof.
  unfold vset. intros H.
  destruct (Z.ltb_spec i 0), (Z.ltb_spec j 0); try reflexivity.
  apply upd_nat_comm. lia.
Qed.

Lemma vget_vset_other {A : Type} (v : list A) (i j : Z) (x d : A) :
  i <> j -> vget (vset v i x) j d = vget v j d.
Proof.
  unfold vget, vset. intros H.
  destruct (Z.ltb_spec j 0); [reflexivity|].
  destruct (Z.ltb_spec i 0); [reflexivity|].
  apply nth_upd_nat_other. lia.
Qed.

(** ** Order of doubles *)

Ltac sf_compare_cases :=
  repeat match goal with
         | f : spec_float |- _ => destruct f
         end;
  repeat match goal with
         | s : bool |- _ => destruct s
         end;
  cbn [SFcompare] in *; try congruence;
  change (Pos.compare_cont Eq) with Pos.compare in *;
  repeat match goal with
         | H : context [Z.compare ?a ?b] |- _ =>
             destruct (Z.compare_spec a b); try congruence
         | |- context [Z.compare ?a ?b] =>
             destruct (Z.compare_spec a b); try congruence
         | H : context [Pos.compare ?a ?b] |- _ =>
             destruct (Pos.compare_spec a b); cbn [CompOpp] in *; try congruence
         | |- context [Pos.compare ?a ?b] =>
             destruct (Pos.compare_spec a b); cbn [CompOpp] in *; try congruence
         end;
  try lia.





(** [std::max(a, b)] is [(a < b) ? b : a]. *)
Definition std_max (a b : double) : double := if (a <? b)%float then b else a.








(** [a <= b] excludes [b < a]. *)
Lemma SFcompare_le_not_gt (a b : spec_float) :
  SFcompare a b = Some Lt \/ SFcompare a b = Some Eq -> SFcompare b a <> Some Lt.
Proof. intros [H | H]; sf_compare_cases. Qed.

Lemma float_leb_not_ltb (a b : double) :
  (a <=? b)%float = true -> (b <? a)%float = false.
Proof.
  rewrite FloatAxioms.leb_spec, FloatAxioms.ltb_spec. unfold SFleb, SFltb. intros H.
  pose proof (@SFcompare_le_not_gt (Prim2SF a) (Prim2SF b)) as Hn.
  destruct (SFcompare (Prim2SF a) (Prim2SF b)) as [[]|]; try discriminate;
    destruct (SFcompare (Prim2SF b) (Prim2SF a)) as [[]|]; try reflexivity;
    exfalso; apply Hn; auto.
Qed.

(* ================================================================== *)
(** * The model mutation interface (HighsInterface.cpp)                *)
(* ================================================================== *)

(** Modelled from the spec: [Highs::invalidateModelStatusSolutionAndInfo]
    (Highs.cpp is not among the embedded sources).  Section 4.G: every
    mutation "invalidate[s] derived state (model status, solution, info)". *)
Definition invalidateModelStatusSolutionAndInfo (h : Highs) : Highs :=
  let s := solution_ h in
  let i := info_ h in
  mkHighs (lp_ h) (basis_ h)
    (mkSolution false false (col_value s) (col_dual s) (row_value s) (row_dual s))
    (mkInfo false kSolutionStatusNone kSolutionStatusNone
       (objective_function_value i)
       (num_primal_infeasibilities i) (max_primal_infeasibility i)
       (sum_primal_infeasibilities i)
       (num_dual_infeasibilities i) (max_dual_infeasibility i)
       (sum_dual_infeasibilities i)
       (num_relative_primal_infeasibilities i) (max_relative_primal_infeasibility i)
       (num_relative_dual_infeasibilities i) (max_relative_dual_infeasibility i)
       (num_primal_residual_errors i) (max_primal_residual_error i)
       (num_dual_residual_errors i) (max_dual_residual_error i)
       (num_relative_primal_residual_errors i) (max_relative_primal_residual_error i)
       (num_relative_dual_residual_errors i) (max_relative_dual_residual_error i)
       (num_complementarity_violations i) (max_complementarity_violation i)
       (primal_dual_objective_error i))
    HighsModelStatus.kNotset (options_ h) (ekk_instance_ h) (iis_ h).

(** What a negative scaling does to a bound status and to a move direction
    (the specification side of the flips in scaleColInterface and
    scaleRowInterface). *)
Definition flipped_status (s : HighsBasisStatus.t) : HighsBasisStatus.t :=
  match s with
  | HighsBasisStatus.kLower => HighsBasisStatus.kUpper
  | HighsBasisStatus.kUpper => HighsBasisStatus.kLower
  | other => other
  end.

Definition flipped_move (m : Z) : Z :=
  if m =? kNonbasicMoveUp then kNonbasicMoveDn
  else if m =? kNonbasicMoveDn then kNonbasicMoveUp
  else m.

(** ** The storage format of the constraint matrix *)

Definition is_colwise (m : HighsSparseMatrix) : bool :=
  match format_ m with MatrixFormat.kColwise => true | _ => false end.

(** The entries (row, column, value) held in slice [k] of a matrix, the
    elements from [start_[k]] up to [start_[k + 1]]: column [k] of a
    column-wise matrix, row [k] of a row-wise one. *)
Definition slice_entries (m : HighsSparseMatrix) (k : Z) : list (Z * Z * double) :=
  let from_el := vget (start_ m) k 0 in
  let to_el := vget (start_ m) (k + 1) 0 in
  map (fun n =>
         let el := from_el + Z.of_nat n in
         if is_colwise m
         then (vget (index_ m) el 0, k, vget (value_ m) el 0%float)
         else (k, vget (index_ m) el 0, vget (value_ m) el 0%float))
      (seq 0 (Z.to_nat (to_el - from_el))).

(** All the entries of a matrix, slice by slice. *)
Definition matrix_entries (m : HighsSparseMatrix) : list (Z * Z * double) :=
  flat_map (fun k => slice_entries m (Z.of_nat k))
           (seq 0 (Z.to_nat (if is_colwise m then m_num_col_ m else m_num_row_ m))).

(** Modelled from the spec: what [HighsLp::ensureColwise] makes of an LP
    (HighsLp.cpp and HighsSparseMatrix.cpp are not among the embedded
    sources).  Section 4.C: the LP "exposes ensure_colwise() ... that
    delegate to A"; section 4.A: ensure_colwise "convert[s] in place";
    section 8, properties 1 and 3: a conversion keeps the matrix "as a
    multiset of (i,j,v)", and "calling ensure_colwise twice equals calling
    it once".  So [lp'] is [lp] but for its matrix, which is column-wise, has
    the dimensions and, as a multiset, the entries of the matrix of [lp],
    and is the matrix of [lp] when that is column-wise already. *)
Definition colwise_form_of (lp lp' : HighsLp) : Prop :=
  lp' = set_a_matrix_ lp (a_matrix_ lp') /\
  format_ (a_matrix_ lp') = MatrixFormat.kColwise /\
  m_num_col_ (a_matrix_ lp') = m_num_col_ (a_matrix_ lp) /\
  m_num_row_ (a_matrix_ lp') = m_num_row_ (a_matrix_ lp) /\
  Permutation (matrix_entries (a_matrix_ lp')) (matrix_entries (a_matrix_ lp)) /\
  (format_ (a_matrix_ lp) = MatrixFormat.kColwise -> lp' = lp).

Section ScaleInterface.

(** Functions of the repository called by the embedded code and defined
    outside it. *)
Variable ensureColwise : HighsLp -> HighsLp.                    (* HighsLp:: *)
Variable applyScalingToLpCol : HighsLp -> Z -> double -> HighsStatus.t * HighsLp.
Variable applyScalingToLpRow : HighsLp -> Z -> double -> HighsStatus.t * HighsLp.
(** [interpretCallStatus call_status from_return_status] *)
Variable interpretCallStatus : HighsStatus.t -> HighsStatus.t -> HighsStatus.t.
Variable updateStatus : HEkk -> LpAction.t -> HEkk.             (* HEkk:: *)

(** Lines 1147-1154 (1193-1200): flip of the Highs basis status. *)
Definition flip_basis_status (status : list HighsBasisStatus.t) (ix : Z)
  : list HighsBasisStatus.t :=
  if HighsBasisStatus.eqb (vget status ix HighsBasisStatus.kNonbasic) HighsBasisStatus.kLower
  then vset status ix HighsBasisStatus.kUpper
  else if HighsBasisStatus.eqb (vget status ix HighsBasisStatus.kNonbasic)
                               HighsBasisStatus.kUpper
  then vset status ix HighsBasisStatus.kLower
  else status.

(** Lines 1159-1163 (1206-1210): flip of the simplex move. *)
Definition flip_nonbasicMove (move : list Z) (var : Z) : list Z :=
  if vget move var 0 =? kNonbasicMoveUp then vset move var kNonbasicMoveDn
  else if vget move var 0 =? kNonbasicMoveDn then vset move var kNonbasicMoveUp
  else move.

(** [Highs::scaleColInterface], lines 1129-1172. *)
Definition scaleColInterface (h : Highs) (col : Z) (scale_value : double)
  : HighsStatus.t * Highs :=
  let return_status := HighsStatus.kOk in
  (* lp.ensureColwise(); *)
  let h := set_lp h (ensureColwise (lp_ h)) in
  if col <? 0 then (HighsStatus.kError, h) else
  if col >=? num_col_ (lp_ h) then (HighsStatus.kError, h) else
  if negb (double_truth scale_value) then (HighsStatus.kError, h) else
  let '(call_status, lp) := applyScalingToLpCol (lp_ h) col scale_value in
  let h := set_lp h lp in
  let return_status := interpretCallStatus call_status return_status in
  if HighsStatus.eqb return_status HighsStatus.kError then (return_status, h) else
  let h :=
    if (scale_value <? 0)%float && valid (basis_ h)
    then set_basis h (set_col_status (basis_ h)
                        (flip_basis_status (col_status (basis_ h)) col))
    else h in
  let h :=
    if initialised_for_solve (status_ (ekk_instance_ h)) then
      if (scale_value <? 0)%float && has_basis (status_ (ekk_instance_ h))
      then set_ekk h (set_nonbasicMove (ekk_instance_ h)
                        (flip_nonbasicMove (nonbasicMove_ (ekk_basis_ (ekk_instance_ h))) col))
      else h
    else h in
  let h := invalidateModelStatusSolutionAndInfo h in
  let h := set_ekk h (updateStatus (ekk_instance_ h) LpAction.kScaledCol) in
  (HighsStatus.kOk, h).

(** [Highs::scaleRowInterface], lines 1174-1219. *)
Definition scaleRowInterface (h : Highs) (row : Z) (scale_value : double)
  : HighsStatus.t * Highs :=
  let return_status := HighsStatus.kOk in
  let h := set_lp h (ensureColwise (lp_ h)) in
  if row <? 0 then (HighsStatus.kError, h) else
  if row >=? num_row_ (lp_ h) then (HighsStatus.kError, h) else
  if negb (double_truth scale_value) then (HighsStatus.kError, h) else
  let '(call_status, lp) := applyScalingToLpRow (lp_ h) row scale_value in
  let h := set_lp h lp in
  let return_status := interpretCallStatus call_status return_status in
  if HighsStatus.eqb return_status HighsStatus.kError then (return_status, h) else
  let h :=
    if (scale_value <? 0)%float && valid (basis_ h)
    then set_basis h (set_row_status (basis_ h)
                        (flip_basis_status (row_status (basis_ h)) row))
    else h in
  let h :=
    if initialised_for_solve (status_ (ekk_instance_ h)) then
      if (scale_value <? 0)%float && has_basis (status_ (ekk_instance_ h))
      then
        let var := num_col_ (lp_ h) + row in
        set_ekk h (set_nonbasicMove (ekk_instance_ h)
                     (flip_nonbasicMove (nonbasicMove_ (ekk_basis_ (ekk_instance_ h))) var))
      else h
    else h in
  let h := invalidateModelStatusSolutionAndInfo h in
  let h := set_ekk h (updateStatus (ekk_instance_ h) LpAction.kScaledRow) in
  (HighsStatus.kOk, h).

(** *** Properties of the scaling interface *)

Lemma HighsStatus_eqb_eq (a b : HighsStatus.t) :
  HighsStatus.eqb a b = true <-> a = b.
Proof. destruct a, b; cbn; split; congruence. Qed.

Lemma HighsStatus_eqb_neq (a b : HighsStatus.t) :
  HighsStatus.eqb a b = false <-> a <> b.
Proof. destruct a, b; cbn; split; congruence. Qed.

(** A strictly negative double is not zero. *)
Lemma float_ltb_not_eqb (x y : double) :
  (x <? y)%float = true -> (x =? y)%float = false.
Proof.
  rewrite FloatAxioms.ltb_spec, FloatAxioms.eqb_spec. unfold SFltb, SFeqb.
  destruct (SFcompare (Prim2SF x) (Prim2SF y)) as [[]|]; congruence.
Qed.

Lemma flip_basis_status_spec (status : list HighsBasisStatus.t) (ix j : Z) d :
  0 <= ix < vsize status ->
  vget (flip_basis_status status ix) j d =
  if j =? ix then flipped_status (vget status ix d) else vget status j d.
Proof.
  intros Hix. unfold flip_basis_status.
  assert (Hd : vget status ix HighsBasisStatus.kNonbasic = vget status ix d).
  { unfold vget, vsize in *.
    destruct (ix <? 0) eqn:E; [apply Z.ltb_lt in E; lia|].
    apply nth_indep. lia. }
  rewrite Hd.
  destruct (vget status ix d) eqn:E; cbn [HighsBasisStatus.eqb flipped_status];
    try rewrite vget_vset by assumption;
    destruct (j =? ix) eqn:Ej; try reflexivity;
    apply Z.eqb_eq in Ej; subst; assumption.
Qed.

Lemma flip_nonbasicMove_spec (move : list Z) (var j : Z) :
  0 <= var < vsize move ->
  vget (flip_nonbasicMove move var) j 0 =
  if j =? var then flipped_move (vget move var 0) else vget move j 0.
Proof.
  intros Hvar. unfold flip_nonbasicMove, flipped_move.
  destruct (vget move var 0 =? kNonbasicMoveUp) eqn:E1;
    [rewrite vget_vset by assumption; reflexivity|].
  destruct (vget move var 0 =? kNonbasicMoveDn) eqn:E2;
    [rewrite vget_vset by assumption; reflexivity|].
  destruct (j =? var) eqn:Ej; [|reflexivity].
  apply Z.eqb_eq in Ej. subst. reflexivity.
Qed.

Lemma colwise_form_of_dims (lp lp' : HighsLp) :
  colwise_form_of lp lp' -> num_col_ lp' = num_col_ lp /\ num_row_ lp' = num_row_ lp.
Proof. intros (E & _). rewrite E. split; reflexivity. Qed.

Lemma set_lp_same (h : Highs) : set_lp h (lp_ h) = h.
Proof. destruct h; reflexivity. Qed.

(** scaleColInterface and scaleRowInterface reject an index out of range
    and a zero scale value once the LP is column-wise. *)
Lemma scaleColInterface_rejects (h : Highs) (ix : Z) (scale_value : double) :
  let hc := set_lp h (ensureColwise (lp_ h)) in
  (ix < 0 \/ num_col_ (lp_ hc) <= ix \/ (scale_value =? 0)%float = true) ->
  scaleColInterface h ix scale_value = (HighsStatus.kError, hc).
Proof.
  intros hc Herr. unfold scaleColInterface. fold hc.
  destruct (ix <? 0) eqn:E1; [reflexivity|]. apply Z.ltb_ge in E1.
  destruct (ix >=? num_col_ (lp_ hc)) eqn:E2; [reflexivity|].
  rewrite Z.geb_leb in E2; apply Z.leb_gt in E2.
  destruct Herr as [H | [H | H]]; try lia.
  unfold double_truth. rewrite H. reflexivity.
Qed.

Lemma scaleRowInterface_rejects (h : Highs) (ix : Z) (scale_value : double) :
  let hc := set_lp h (ensureColwise (lp_ h)) in
  (ix < 0 \/ num_row_ (lp_ hc) <= ix \/ (scale_value =? 0)%float = true) ->
  scaleRowInterface h ix scale_value = (HighsStatus.kError, hc).
Proof.
  intros hc Herr. unfold scaleRowInterface. fold hc.
  destruct (ix <? 0) eqn:E1; [reflexivity|]. apply Z.ltb_ge in E1.
  destruct (ix >=? num_row_ (lp_ hc)) eqn:E2; [reflexivity|].
  rewrite Z.geb_leb in E2; apply Z.leb_gt in E2.
  destruct Herr as [H | [H | H]]; try lia.
  unfold double_truth. rewrite H. reflexivity.
Qed.

(** C10.  scaleColInterface (scaleRowInterface) first brings the LP to
    column-wise storage, which ensureColwise does as [colwise_form_of] says.
    Then
    - an index out of range or a scale value equal to zero returns kError;
      basis, solution, info, model status, options, simplex engine and IIS
      are as they were, and so is the LP but for the storage of its matrix,
      which is column-wise with the dimensions and entries it had: the state
      is the one at entry when the matrix was column-wise already;
    - a strictly negative scale value that the LP accepts returns kOk; if the
      Highs basis is valid, the status of the scaled column (row) goes from
      kLower to kUpper and from kUpper to kLower, every other status (kBasic
      in particular) and every other entry stay as they were; if the simplex
      engine is initialised for solve and has a basis, nonbasicMove_ of the
      column (of variable num_col_ + row) goes from up to down and from down
      to up before the engine is notified with kScaledCol (kScaledRow). *)
Theorem scale_interface_errors_and_flips (h : Highs) (ix : Z) (scale_value : double) :
  let hc := set_lp h (ensureColwise (lp_ h)) in
  let e0 := ekk_instance_ h in
  (colwise_form_of (lp_ h) (ensureColwise (lp_ h)) ->
   (ix < 0 \/ num_col_ (lp_ h) <= ix \/ (scale_value =? 0)%float = true) ->
   exists lp',
     scaleColInterface h ix scale_value = (HighsStatus.kError, set_lp h lp') /\
     colwise_form_of (lp_ h) lp' /\
     (format_ (a_matrix_ (lp_ h)) = MatrixFormat.kColwise -> set_lp h lp' = h)) /\
  (colwise_form_of (lp_ h) (ensureColwise (lp_ h)) ->
   (ix < 0 \/ num_row_ (lp_ h) <= ix \/ (scale_value =? 0)%float = true) ->
   exists lp',
     scaleRowInterface h ix scale_value = (HighsStatus.kError, set_lp h lp') /\
     colwise_form_of (lp_ h) lp' /\
     (format_ (a_matrix_ (lp_ h)) = MatrixFormat.kColwise -> set_lp h lp' = h)) /\
  (0 <= ix < num_col_ (lp_ hc) -> (scale_value <? 0)%float = true ->
   interpretCallStatus (fst (applyScalingToLpCol (lp_ hc) ix scale_value)) HighsStatus.kOk
     <> HighsStatus.kError ->
   exists h',
     scaleColInterface h ix scale_value = (HighsStatus.kOk, h') /\
     row_status (basis_ h') = row_status (basis_ h) /\
     valid (basis_ h') = valid (basis_ h) /\
     (valid (basis_ h) = true -> 0 <= ix < vsize (col_status (basis_ h)) ->
      forall j d, vget (col_status (basis_ h')) j d =
                  if j =? ix then flipped_status (vget (col_status (basis_ h)) ix d)
                  else vget (col_status (basis_ h)) j d) /\
     (initialised_for_solve (status_ e0) = true -> has_basis (status_ e0) = true ->
      0 <= ix < vsize (nonbasicMove_ (ekk_basis_ e0)) ->
      exists e, ekk_instance_ h' = updateStatus e LpAction.kScaledCol /\
                status_ e = status_ e0 /\
                forall j, vget (nonbasicMove_ (ekk_basis_ e)) j 0 =
                          if j =? ix then flipped_move (vget (nonbasicMove_ (ekk_basis_ e0)) ix 0)
                          else vget (nonbasicMove_ (ekk_basis_ e0)) j 0)) /\
  (0 <= ix < num_row_ (lp_ hc) -> (scale_value <? 0)%float = true ->
   interpretCallStatus (fst (applyScalingToLpRow (lp_ hc) ix scale_value)) HighsStatus.kOk
     <> HighsStatus.kError ->
   let var := num_col_ (snd (applyScalingToLpRow (lp_ hc) ix scale_value)) + ix in
   exists h',
     scaleRowInterface h ix scale_value = (HighsStatus.kOk, h') /\
     col_status (basis_ h') = col_status (basis_ h) /\
     valid (basis_ h') = valid (basis_ h) /\
     (valid (basis_ h) = true -> 0 <= ix < vsize (row_status (basis_ h)) ->
      forall j d, vget (row_status (basis_ h')) j d =
                  if j =? ix then flipped_status (vget (row_status (basis_ h)) ix d)
                  else vget (row_status (basis_ h)) j d) /\
     (initialised_for_solve (status_ e0) = true -> has_basis (status_ e0) = true ->
      0 <= var < vsize (nonbasicMove_ (ekk_basis_ e0)) ->
      exists e, ekk_instance_ h' = updateStatus e LpAction.kScaledRow /\
                status_ e = status_ e0 /\
                forall j, vget (nonbasicMove_ (ekk_basis_ e)) j 0 =
                          if j =? var then flipped_move (vget (nonbasicMove_ (ekk_basis_ e0)) var 0)
                          else vget (nonbasicMove_ (ekk_basis_ e0)) j 0)).
Proof.
  intros hc e0. split; [|split; [|split]].
  - (* column: rejected *)
    intros Hcw Herr. exists (ensureColwise (lp_ h)).
    destruct (colwise_form_of_dims Hcw) as [Hnc _].
    split; [|split; [exact Hcw|]].
    + apply scaleColInterface_rejects. cbn [lp_ set_lp]. rewrite Hnc. exact Herr.
    + intros Hf. destruct Hcw as (_ & _ & _ & _ & _ & Hsame).
      rewrite (Hsame Hf). apply set_lp_same.
  - (* row: rejected *)
    intros Hcw Herr. exists (ensureColwise (lp_ h)).
    destruct (colwise_form_of_dims Hcw) as [_ Hnr].
    split; [|split; [exact Hcw|]].
    + apply scaleRowInterface_rejects. cbn [lp_ set_lp]. rewrite Hnr. exact Herr.
    + intros Hf. destruct Hcw as (_ & _ & _ & _ & _ & Hsame).
      rewrite (Hsame Hf). apply set_lp_same.
  - (* column: negative scale applied *)
    intros Hix Hneg Hok. unfold scaleColInterface. fold hc.
    destruct (ix <? 0) eqn:E1; [apply Z.ltb_lt in E1; lia|].
    destruct (ix >=? num_col_ (lp_ hc)) eqn:E2;
      [rewrite Z.geb_leb in E2; apply Z.leb_le in E2; lia|].
    unfold double_truth. rewrite (float_ltb_not_eqb Hneg). cbn [negb].
    destruct (applyScalingToLpCol (lp_ hc) ix scale_value) as [call_status lp1] eqn:Eapp.
    cbn [fst] in Hok. apply HighsStatus_eqb_neq in Hok. rewrite Hok, Hneg.
    eexists. split; [reflexivity|]. cbn.
    destruct (valid (basis_ h)) eqn:Ev; cbn;
      destruct (initialised_for_solve (status_ (ekk_instance_ h))) eqn:Ei; cbn;
      try destruct (has_basis (status_ (ekk_instance_ h))) eqn:Eb; cbn;
      (split; [reflexivity|]); (split; [try reflexivity; auto|]);
      (split; [try discriminate; intros _ Hsz j d; apply flip_basis_status_spec; assumption|]);
      try discriminate.
    all: subst e0; intros Hi Hb Hsz; try congruence.
    all: eexists; split; [reflexivity|]; split; [reflexivity|];
      intros j; cbn; apply flip_nonbasicMove_spec; assumption.
  - (* row: negative scale applied *)
    intros Hix Hneg Hok var. unfold scaleRowInterface. fold hc.
    destruct (ix <? 0) eqn:E1; [apply Z.ltb_lt in E1; lia|].
    destruct (ix >=? num_row_ (lp_ hc)) eqn:E2;
      [rewrite Z.geb_leb in E2; apply Z.leb_le in E2; lia|].
    unfold double_truth. rewrite (float_ltb_not_eqb Hneg). cbn [negb].
    subst var.
    destruct (applyScalingToLpRow (lp_ hc) ix scale_value) as [call_status lp1] eqn:Eapp.
    cbn [fst snd] in *. apply HighsStatus_eqb_neq in Hok. rewrite Hok, Hneg.
    eexists. split; [reflexivity|]. cbn.
    destruct (valid (basis_ h)) eqn:Ev; cbn;
      destruct (initialised_for_solve (status_ (ekk_instance_ h))) eqn:Ei; cbn;
      try destruct (has_basis (status_ (ekk_instance_ h))) eqn:Eb; cbn;
      (split; [reflexivity|]); (split; [try reflexivity; auto|]);
      (split; [try discriminate; intros _ Hsz j d; apply flip_basis_status_spec; assumption|]);
      try discriminate.
    all: subst e0; intros Hi Hb Hsz; try congruence.
    all: eexists; split; [reflexivity|]; split; [reflexivity|];
      intros j; cbn; apply flip_nonbasicMove_spec; assumption.
Qed.

End ScaleInterface.

(** ** Concrete states for examples *)

Definition example_matrix : HighsSparseMatrix :=
  mkMatrix MatrixFormat.kColwise 2 1 [0; 1; 2] [0; 0] [1%float; 1%float].

(** min x0 + x1  s.t.  x0 + x1 >= 1,  0 <= x0 <= 4,  0 <= x1 <= 4. *)
Definition example_lp : HighsLp :=
  mkLp 2 1 [1%float; 1%float] [0%float; 0%float] [4%float; 4%float]
       [1%float] [kHighsInf] example_matrix ObjSense.kMinimize []
       0 0 false (mkMods [] [] [] []).

Definition example_info : HighsInfo :=
  mkInfo true kSolutionStatusFeasible kSolutionStatusFeasible 1%float
         0 0%float 0%float 0 0%float 0%float 0 0%float 0 0%float
         0 0%float 0 0%float 0 0%float 0 0%float 0 0%float 0%float.

(** The default option values: infinite cost and bound 1e20, small and large
    matrix value 1e-9 and 1e15, every tolerance 1e-7 (the doubles nearest to
    the decimal values). *)
Definition example_options : HighsOptions :=
  mkOptions 1e20%float 1e20%float 0x1.12e0be826d695p-30%float 1e15%float
            0x1.ad7f29abcaf48p-24%float 0x1.ad7f29abcaf48p-24%float
            0x1.ad7f29abcaf48p-24%float 0x1.ad7f29abcaf48p-24%float
            0x1.ad7f29abcaf48p-24%float 0x1.ad7f29abcaf48p-24%float 0 0 0.

(** An optimal basic solution of [example_lp]: x0 at its lower bound, x1
    basic, the row at its lower bound. *)
Definition example_highs : Highs :=
  mkHighs example_lp
    (mkBasis true false true false
       [HighsBasisStatus.kLower; HighsBasisStatus.kBasic] [HighsBasisStatus.kLower])
    (mkSolution true true [0%float; 1%float] [0%float; 0%float] [1%float] [1%float])
    example_info HighsModelStatus.kOptimal example_options
    (mkEkk (mkSimplexStatus true true true true)
           (mkSimplexBasis [1] [1; 0; 1] [kNonbasicMoveUp; 0; kNonbasicMoveUp]))
    (mkIis false 0).

(** A model with one column and no row, a useful basis held: the column is
    at its lower bound. *)
Definition example_highs_no_rows : Highs :=
  mkHighs
    (mkLp 1 0 [1%float] [0%float] [4%float] [] []
          (mkMatrix MatrixFormat.kColwise 1 0 [0; 0] [] []) ObjSense.kMinimize []
          0 0 false (mkMods [] [] [] []))
    (mkBasis true false true false [HighsBasisStatus.kLower] [])
    (mkSolution true true [0%float] [1%float] [] [])
    example_info HighsModelStatus.kOptimal example_options
    (mkEkk (mkSimplexStatus true true true true) (mkSimplexBasis [] [1] [kNonbasicMoveUp]))
    (mkIis false 0).

(** Stand-ins for the functions defined outside the embedded sources, used
    only to run the embedded code on the examples: the LP is already
    column-wise, the LP utility accepts the request, the status of a call is
    passed on, the simplex engine keeps its data. *)
Definition example_ensureColwise (lp : HighsLp) : HighsLp := lp.

Definition example_applyScalingToLp (lp : HighsLp) (ix : Z) (s : double)
  : HighsStatus.t * HighsLp := (HighsStatus.kOk, lp).

Definition example_interpretCallStatus (call_status from_return_status : HighsStatus.t)
  : HighsStatus.t :=
  match call_status, from_return_status with
  | HighsStatus.kError, _ | _, HighsStatus.kError => HighsStatus.kError
  | HighsStatus.kWarning, _ | _, HighsStatus.kWarning => HighsStatus.kWarning
  | _, _ => HighsStatus.kOk
  end.

Definition example_updateStatus (e : HEkk) (a : LpAction.t) : HEkk := e.

(** Modelled from the spec: [HighsSparseMatrix::ensureColwise] (section 4.A,
    "convert in place"; section 8, properties 1 and 3): a column-wise matrix
    is left as it is; the entries of a row-wise matrix are written column by
    column, those of a column in the order of their rows. *)
Definition matrix_ensureColwise (m : HighsSparseMatrix) : HighsSparseMatrix :=
  if is_colwise m then m else
  let entries := matrix_entries m in
  let cols :=
    map (fun j => filter (fun e => snd (fst e) =? Z.of_nat j) entries)
        (seq 0 (Z.to_nat (m_num_col_ m))) in
  mkMatrix MatrixFormat.kColwise (m_num_col_ m) (m_num_row_ m)
    (map (fun j => vsize (List.concat (firstn j cols))) (seq 0 (S (Z.to_nat (m_num_col_ m)))))
    (map (fun e => fst (fst e)) (List.concat cols))
    (map snd (List.concat cols)).

Definition lp_ensureColwise (lp : HighsLp) : HighsLp :=
  set_a_matrix_ lp (matrix_ensureColwise (a_matrix_ lp)).

(** ** The reference conversion keeps the entries *)

Lemma nth_concat_firstn {A : Type} (L : list (list A)) (k n : nat) (d : A) :
  (k < List.length L)%nat -> (n < List.length (nth k L []))%nat ->
  nth (List.length (List.concat (firstn k L)) + n) (List.concat L) d = nth n (nth k L []) d.
Proof.
  revert k. induction L as [|l L IH]; intros k Hk Hn; [cbn in Hk; lia|].
  destruct k as [|k]; cbn [firstn List.concat nth List.length] in *.
  - rewrite Nat.add_0_l. apply app_nth1. exact Hn.
  - rewrite length_app, <- Nat.add_assoc, app_nth2 by lia.
    replace (List.length l + (List.length (List.concat (firstn k L)) + n) - List.length l)%nat
      with (List.length (List.concat (firstn k L)) + n)%nat by lia.
    apply IH; [lia | exact Hn].
Qed.

Lemma concat_firstn_S {A : Type} (L : list (list A)) (k : nat) :
  (k < List.length L)%nat ->
  List.length (List.concat (firstn (S k) L)) =
  (List.length (List.concat (firstn k L)) + List.length (nth k L []))%nat.
Proof.
  revert k. induction L as [|l L IH]; intros k Hk; [cbn in Hk; lia|].
  destruct k as [|k]; cbn [firstn List.concat nth List.length] in *.
  - destruct L; cbn; rewrite ?app_nil_r; lia.
  - rewrite !length_app. rewrite (IH k) by lia. lia.
Qed.

Lemma vget_map_seq0 {A : Type} (g : nat -> A) (n k : nat) (d : A) :
  (k < n)%nat -> vget (map g (seq 0 n)) (Z.of_nat k) d = g k.
Proof.
  intros Hk. unfold vget. destruct (Z.ltb_spec (Z.of_nat k) 0); [lia|].
  rewrite Nat2Z.id. rewrite nth_indep with (d' := g 0%nat) by (rewrite length_map, length_seq; lia).
  rewrite map_nth, seq_nth by lia. reflexivity.
Qed.

Lemma vget_nat {A : Type} (v : list A) (n : nat) (d : A) :
  vget v (Z.of_nat n) d = nth n v d.
Proof.
  unfold vget. destruct (Z.ltb_spec (Z.of_nat n) 0); [lia|]. rewrite Nat2Z.id. reflexivity.
Qed.

(** The entries of the columns, column by column, are the entries, as a
    multiset, when every entry has its column among them. *)
Lemma filter_by_column_step (a : Z * Z * double) (E : list (Z * Z * double))
  (J : list nat) :
  NoDup J ->
  Permutation
    (flat_map (fun j => filter (fun e => snd (fst e) =? Z.of_nat j) (a :: E)) J)
    ((if existsb (fun j => snd (fst a) =? Z.of_nat j) J then [a] else []) ++
     flat_map (fun j => filter (fun e => snd (fst e) =? Z.of_nat j) E) J).
Proof.
  induction J as [|j J IH]; intros Hnd; [reflexivity|].
  inversion Hnd as [|? ? Hnotin Hnd']; subst.
  cbn [flat_map existsb filter].
  destruct (Z.eqb_spec (snd (fst a)) (Z.of_nat j)) as [E1|E1]; cbn [orb].
  - assert (Hno : existsb (fun j0 => snd (fst a) =? Z.of_nat j0) J = false).
    { apply not_true_is_false. intros Hex. apply existsb_exists in Hex.
      destruct Hex as (j0 & Hin & Hj0). apply Z.eqb_eq in Hj0.
      assert (j0 = j) by lia. subst. contradiction. }
    specialize (IH Hnd'). rewrite Hno in IH. cbn [app] in *.
    apply perm_skip. apply Permutation_app_head. exact IH.
  - specialize (IH Hnd').
    destruct (existsb (fun j0 => snd (fst a) =? Z.of_nat j0) J); cbn [app] in *.
    + rewrite IH. cbn [app]. symmetry. apply Permutation_middle.
    + apply Permutation_app_head. exact IH.
Qed.

Lemma filter_by_column_perm (E : list (Z * Z * double)) (n : nat) :
  Forall (fun e => 0 <= snd (fst e) < Z.of_nat n) E ->
  Permutation
    (flat_map (fun j => filter (fun e => snd (fst e) =? Z.of_nat j) E) (seq 0 n)) E.
Proof.
  induction E as [|a E IH]; intros Hall.
  - induction (seq 0 n) as [|j J IHJ]; [reflexivity | exact IHJ].
  - inversion Hall as [|? ? Ha Hall']; subst.
    rewrite (filter_by_column_step a E (seq_NoDup n 0)).
    assert (Hex : existsb (fun j => snd (fst a) =? Z.of_nat j) (seq 0 n) = true).
    { apply existsb_exists. exists (Z.to_nat (snd (fst a))). split.
      - apply in_seq. lia.
      - apply Z.eqb_eq. lia. }
    rewrite Hex. cbn [app]. apply perm_skip. exact (IH Hall').
Qed.

Lemma map_nth_seq_id {A : Type} (c : list A) (d : A) :
  map (fun i => nth i c d) (seq 0 (List.length c)) = c.
Proof.
  apply nth_ext with (d := nth 0 c d) (d' := d).
  - rewrite length_map, length_seq. reflexivity.
  - intros n Hn. rewrite length_map, length_seq in Hn.
    rewrite (map_nth (fun i => nth i c d)), seq_nth by lia. reflexivity.
Qed.

(** The entries of the converted matrix: those of column 0, then those of
    column 1, and so on. *)
Lemma matrix_ensureColwise_entries (m : HighsSparseMatrix) :
  is_colwise m = false ->
  matrix_entries (matrix_ensureColwise m) =
  flat_map (fun j => filter (fun e => snd (fst e) =? Z.of_nat j) (matrix_entries m))
           (seq 0 (Z.to_nat (m_num_col_ m))).
Proof.
  intros Hrow. unfold matrix_ensureColwise. rewrite Hrow.
  set (entries := matrix_entries m).
  set (n := Z.to_nat (m_num_col_ m)).
  set (cols := map (fun j => filter (fun e => snd (fst e) =? Z.of_nat j) entries) (seq 0 n)).
  unfold matrix_entries at 1. cbn [is_colwise format_ m_num_col_]. fold n.
  assert (Hlen : List.length cols = n) by (unfold cols; rewrite length_map, length_seq; reflexivity).
  assert (Hnth : forall k, (k < n)%nat ->
            nth k cols [] = filter (fun e => snd (fst e) =? Z.of_nat k) entries).
  { intros k Hk. unfold cols.
    rewrite nth_indep with (d' := filter (fun e => snd (fst e) =? Z.of_nat 0) entries)
      by (rewrite length_map, length_seq; exact Hk).
    rewrite (map_nth (fun j => filter (fun e => snd (fst e) =? Z.of_nat j) entries)).
    rewrite seq_nth by exact Hk. reflexivity. }
  rewrite !flat_map_concat_map. f_equal.
  apply map_ext_in. intros k Hk. apply in_seq in Hk.
  unfold slice_entries. cbn [is_colwise format_ start_ index_ value_].
  replace (Z.of_nat k + 1) with (Z.of_nat (S k)) by lia.
  rewrite !vget_map_seq0 by lia.
  unfold vsize. rewrite (concat_firstn_S cols) by lia.
  rewrite Nat2Z.inj_add, Z.add_simpl_l, Nat2Z.id.
  rewrite (Hnth k) by lia.
  set (c := filter (fun e => snd (fst e) =? Z.of_nat k) entries).
  rewrite <- (map_nth_seq_id c (0, 0, 0%float)) at 2.
  apply map_ext_in. intros i Hi. apply in_seq in Hi.
  rewrite <- Nat2Z.inj_add, !vget_nat.
  rewrite nth_indep with (d' := fst (fst (0, 0, 0%float)))
    by (rewrite length_map; unfold c in Hi; rewrite <- (Hnth k) in Hi by lia;
        pose proof (concat_firstn_S cols (k := k)); 
        assert (List.length (List.concat (firstn (S k) cols)) <= List.length (List.concat cols))%nat
          by (rewrite <- (firstn_skipn (S k) cols) at 2; rewrite concat_app, length_app; lia);
        lia).
  rewrite (map_nth (fun e : Z * Z * double => fst (fst e))).
  rewrite nth_indep with (l := map snd (List.concat cols)) (d' := snd (0, 0, 0%float))
    by (rewrite length_map; unfold c in Hi; rewrite <- (Hnth k) in Hi by lia;
        pose proof (concat_firstn_S cols (k := k)); 
        assert (List.length (List.concat (firstn (S k) cols)) <= List.length (List.concat cols))%nat
          by (rewrite <- (firstn_skipn (S k) cols) at 2; rewrite concat_app, length_app; lia);
        lia).
  rewrite (map_nth (@snd (Z * Z) double)).
  rewrite nth_concat_firstn; [| lia | rewrite Hnth by lia; fold c; lia].
  rewrite Hnth by lia. fold c.
  assert (Hin : In (nth i c (0, 0, 0%float)) c) by (apply nth_In; lia).
  unfold c in Hin at 2. apply filter_In in Hin. destruct Hin as [_ Hcol].
  apply Z.eqb_eq in Hcol.
  destruct (nth i c (0, 0, 0%float)) as [[r j] v]. cbn [fst snd] in *. subst j. reflexivity.
Qed.

(** The column indices of all the entries are columns of the matrix. *)
Definition column_indices_in_range (m : HighsSparseMatrix) : Prop :=
  Forall (fun e => 0 <= snd (fst e) < m_num_col_ m) (matrix_entries m).

(** The reference conversion is a conversion to column-wise storage as the
    specification has it. *)
Lemma lp_ensureColwise_colwise_form (lp : HighsLp) :
  column_indices_in_range (a_matrix_ lp) ->
  colwise_form_of lp (lp_ensureColwise lp).
Proof.
  intros Hrange. unfold colwise_form_of, lp_ensureColwise.
  cbn [a_matrix_ set_a_matrix_].
  split; [reflexivity|].
  destruct (is_colwise (a_matrix_ lp)) eqn:Hcw.
  - assert (Hm : matrix_ensureColwise (a_matrix_ lp) = a_matrix_ lp)
      by (unfold matrix_ensureColwise; rewrite Hcw; reflexivity).
    rewrite Hm.
    split; [unfold is_colwise in Hcw; destruct (format_ (a_matrix_ lp)); congruence|].
    split; [reflexivity|]. split; [reflexivity|]. split; [reflexivity|].
    intros _. destruct lp; reflexivity.
  - rewrite (matrix_ensureColwise_entries _ Hcw).
    unfold matrix_ensureColwise. rewrite Hcw. cbn [format_ m_num_col_ m_num_row_].
    split; [reflexivity|]. split; [reflexivity|]. split; [reflexivity|].
    split.
    + apply filter_by_column_perm. unfold column_indices_in_range in Hrange.
      eapply Forall_impl; [|exact Hrange]. intros e He. cbn beta in *. lia.
    + intros Hf. unfold is_colwise in Hcw. rewrite Hf in Hcw. discriminate.
Qed.

(** min x0 + x1  s.t.  x0 + x1 >= 1,  2 x0 >= 0,  0 <= x0, x1 <= 4, the
    matrix stored row-wise; the basis is not valid. *)
Definition example_highs_rowwise : Highs :=
  mkHighs
    (mkLp 2 2 [1%float; 1%float] [0%float; 0%float] [4%float; 4%float]
          [1%float; 0%float] [kHighsInf; kHighsInf]
          (mkMatrix MatrixFormat.kRowwise 2 2 [0; 2; 3] [0; 1; 0]
                    [1%float; 1%float; 2%float])
          ObjSense.kMinimize [] 0 0 false (mkMods [] [] [] []))
    (mkBasis false false false false [] [])
    (mkSolution false false [] [] [] [])
    example_info HighsModelStatus.kNotset example_options
    (mkEkk (mkSimplexStatus false false false false) (mkSimplexBasis [] [] []))
    (mkIis false 0).

Lemma scale_interface_errors_and_flips_witness :
  scaleColInterface example_ensureColwise example_applyScalingToLp
    example_interpretCallStatus example_updateStatus example_highs 2 (-2)%float
  = (HighsStatus.kError, example_highs) /\
  scaleRowInterface example_ensureColwise example_applyScalingToLp
    example_interpretCallStatus example_updateStatus example_highs 0 0%float
  = (HighsStatus.kError, example_highs) /\
  (exists lp',
     scaleColInterface lp_ensureColwise example_applyScalingToLp
       example_interpretCallStatus example_updateStatus example_highs_rowwise 2 3%float
     = (HighsStatus.kError, set_lp example_highs_rowwise lp') /\
     a_matrix_ lp' =
       mkMatrix MatrixFormat.kColwise 2 2 [0; 2; 3] [0; 1; 0] [1%float; 2%float; 1%float] /\
     colwise_form_of (lp_ example_highs_rowwise) lp') /\
  (exists h',
     scaleColInterface example_ensureColwise example_applyScalingToLp
       example_interpretCallStatus example_updateStatus example_highs 0 (-2)%float
     = (HighsStatus.kOk, h') /\
     vget (col_status (basis_ h')) 0 HighsBasisStatus.kNonbasic = HighsBasisStatus.kUpper /\
     vget (col_status (basis_ h')) 1 HighsBasisStatus.kNonbasic = HighsBasisStatus.kBasic).
Proof.
  assert (Hid : colwise_form_of (lp_ example_highs)
                  (example_ensureColwise (lp_ example_highs))).
  { unfold colwise_form_of. repeat split; reflexivity. }
  assert (Hcw : colwise_form_of (lp_ example_highs_rowwise)
                  (lp_ensureColwise (lp_ example_highs_rowwise))).
  { apply lp_ensureColwise_colwise_form. unfold column_indices_in_range.
    vm_compute. repeat constructor; discriminate. }
  pose proof (scale_interface_errors_and_flips example_ensureColwise
                example_applyScalingToLp example_applyScalingToLp
                example_interpretCallStatus example_updateStatus
                example_highs 2 (-2)%float) as (Hcol & _).
  pose proof (scale_interface_errors_and_flips example_ensureColwise
                example_applyScalingToLp example_applyScalingToLp
                example_interpretCallStatus example_updateStatus
                example_highs 0 0%float) as (_ & Hrow & _).
  pose proof (scale_interface_errors_and_flips lp_ensureColwise
                example_applyScalingToLp example_applyScalingToLp
                example_interpretCallStatus example_updateStatus
                example_highs_rowwise 2 3%float) as (Hconv & _).
  pose proof (scale_interface_errors_and_flips example_ensureColwise
                example_applyScalingToLp example_applyScalingToLp
                example_interpretCallStatus example_updateStatus
                example_highs 0 (-2)%float) as (_ & _ & Hflip & _).
  split; [|split; [|split]].
  - destruct (Hcol Hid) as (lp' & Hrun & _ & Hsame); [right; left; cbn; lia|].
    rewrite Hrun, (Hsame eq_refl). reflexivity.
  - destruct (Hrow Hid) as (lp' & Hrun & _ & Hsame); [right; right; reflexivity|].
    rewrite Hrun, (Hsame eq_refl). reflexivity.
  - destruct (Hconv Hcw) as (lp' & Hrun & Hform & _); [right; left; cbn; lia|].
    exists lp'. split; [exact Hrun|]. split; [|exact Hform].
    assert (E : scaleColInterface lp_ensureColwise example_applyScalingToLp
                  example_interpretCallStatus example_updateStatus
                  example_highs_rowwise 2 3%float
                = (HighsStatus.kError,
                   set_lp example_highs_rowwise
                     (lp_ensureColwise (lp_ example_highs_rowwise))))
      by (vm_compute; reflexivity).
    rewrite E in Hrun. injection Hrun as Hlp. rewrite <- Hlp. vm_compute. reflexivity.
  - destruct Hflip as (h' & Hrun & _ & _ & Hst & _).
    + cbn. lia.
    + reflexivity.
    + cbn. discriminate.
    + exists h'. split; [exact Hrun|].
      split; rewrite Hst; try reflexivity; cbn; lia.
Defined.

(** ** Change of a single matrix coefficient *)

Section ChangeCoefficient.

Variable ensureColwise : HighsLp -> HighsLp.
(** [changeLpMatrixCoefficient lp row col new_value zero_new_value] *)
Variable changeLpMatrixCoefficient : HighsLp -> Z -> Z -> double -> bool -> HighsLp.
Variable updateStatus : HEkk -> LpAction.t -> HEkk.

(** [Highs::changeCoefficientInterface], lines 1095-1127.  The two asserts
    (row and column in range) are preconditions of the C++ function; reading
    [col_status[ext_col]] of a shorter vector is undefined there and yields
    kNonbasic here. *)
Definition changeCoefficientInterface (h : Highs) (ext_row ext_col : Z)
  (ext_new_value : double) : Highs :=
  let h := set_lp h (ensureColwise (lp_ h)) in
  let zero_new_value := (abs ext_new_value <=? small_matrix_value (options_ h))%float in
  let h := set_lp h (changeLpMatrixCoefficient (lp_ h) ext_row ext_col ext_new_value
                       zero_new_value) in
  let basic_column :=
    HighsBasisStatus.eqb (vget (col_status (basis_ h)) ext_col HighsBasisStatus.kNonbasic)
                         HighsBasisStatus.kBasic in
  (* For now, treat it as if it's a new row *)
  let h := invalidateModelStatusSolutionAndInfo h in
  let h :=
    if basic_column
    then (* this->basis_.was_alien = true; this->basis_.alien = true; *)
      set_basis h (mkBasis (valid (basis_ h)) true (useful (basis_ h)) true
                           (col_status (basis_ h)) (row_status (basis_ h)))
    else h in
  set_ekk h (updateStatus (ekk_instance_ h) LpAction.kNewRows).

(** C6 (amended).  A change of coefficient a_ij keeps the basis (status
    vectors and the valid and useful flags) and marks it alien exactly when
    column j is basic; whether column j is basic or not, the change is treated
    as a new row: model status, solution (primal and dual) and info are
    invalidated, and the simplex engine is notified with kNewRows. *)
Theorem change_coefficient_treated_as_new_row (h : Highs) (ext_row ext_col : Z)
  (ext_new_value : double) :
  let h' := changeCoefficientInterface h ext_row ext_col ext_new_value in
  let basic_column :=
    HighsBasisStatus.eqb (vget (col_status (basis_ h)) ext_col HighsBasisStatus.kNonbasic)
                         HighsBasisStatus.kBasic in
  col_status (basis_ h') = col_status (basis_ h) /\
  row_status (basis_ h') = row_status (basis_ h) /\
  valid (basis_ h') = valid (basis_ h) /\
  useful (basis_ h') = useful (basis_ h) /\
  alien (basis_ h') = (if basic_column then true else alien (basis_ h)) /\
  was_alien (basis_ h') = (if basic_column then true else was_alien (basis_ h)) /\
  model_status_ h' = HighsModelStatus.kNotset /\
  value_valid (solution_ h') = false /\
  dual_valid (solution_ h') = false /\
  info_valid (info_ h') = false /\
  ekk_instance_ h' = updateStatus (ekk_instance_ h) LpAction.kNewRows.
Proof.
  cbv zeta. unfold changeCoefficientInterface. cbn.
  destruct (HighsBasisStatus.eqb
              (vget (col_status (basis_ h)) ext_col HighsBasisStatus.kNonbasic)
              HighsBasisStatus.kBasic); cbn; repeat split; reflexivity.
Qed.

End ChangeCoefficient.

Definition example_changeLpMatrixCoefficient (lp : HighsLp) (row col : Z)
  (new_value : double) (zero_new_value : bool) : HighsLp := lp.

(** C6 as stated fails: column 0 of [example_highs] is nonbasic (at its lower
    bound) and the model is optimal with a valid primal solution; after the
    change of a_00 the model status is kNotset and the primal solution is no
    longer valid. *)
Lemma change_coefficient_nonbasic_invalidates_status_and_primal :
  vget (col_status (basis_ example_highs)) 0 HighsBasisStatus.kNonbasic
    = HighsBasisStatus.kLower /\
  model_status_ example_highs = HighsModelStatus.kOptimal /\
  value_valid (solution_ example_highs) = true /\
  model_status_ (changeCoefficientInterface example_ensureColwise
                   example_changeLpMatrixCoefficient example_updateStatus
                   example_highs 0 0 3%float) = HighsModelStatus.kNotset /\
  value_valid (solution_ (changeCoefficientInterface example_ensureColwise
                            example_changeLpMatrixCoefficient example_updateStatus
                            example_highs 0 0 3%float)) = false.
Proof. repeat split; reflexivity. Qed.

(** ** Index collections *)

(** [HighsIndexCollection]: an interval [from_, to_], a set of
    [set_num_entries_] indices, or a mask over [dimension_] indices. *)
Record HighsIndexCollection : Type := mkIndexCollection {
  dimension_ : Z;
  is_interval_ : bool;
  from_ : Z;
  to_ : Z;
  is_set_ : bool;
  set_num_entries_ : Z;
  set_ : list Z;
  is_mask_ : bool;
  mask_ : list Z
}.

(** The collection built inline by addColsInterface (414-418) and
    addRowsInterface (581-585). *)
Definition interval_collection (dimension from to : Z) : HighsIndexCollection :=
  mkIndexCollection dimension true from to false 0 [] false [].

(** ** Reading user arrays *)

(** [std::vector<T> v{p, p + n}] for a user pointer [p]. *)
Definition copy_array {A : Type} (p : option (list A)) (n : Z) : list A :=
  match p with
  | Some a => firstn (Z.to_nat n) a
  | None => []
  end.

Definition is_null {A : Type} (p : option A) : bool :=
  match p with Some _ => false | None => true end.

(** Modelled from the spec: [doubleUserDataNotNull], [isColDataNull],
    [isRowDataNull] and [isMatrixDataNull] (HighsLpUtils.cpp and
    HighsModelUtils.cpp are not among the embedded sources).  Section 7:
    kInvalidInput is "API called with null arrays"; each function reports
    whether some array it is given is null, as its use at lines 985-992
    shows for [doubleUserDataNotNull]. *)
Definition doubleUserDataNotNull (user_data : option (list double)) : bool :=
  is_null user_data.

Definition isColDataNull (usr_col_cost usr_col_lower usr_col_upper : option (list double))
  : bool :=
  is_null usr_col_cost || is_null usr_col_lower || is_null usr_col_upper.

Definition isRowDataNull (usr_row_lower usr_row_upper : option (list double)) : bool :=
  is_null usr_row_lower || is_null usr_row_upper.

Definition isMatrixDataNull (usr_matrix_start usr_matrix_index : option (list Z))
  (usr_matrix_value : option (list double)) : bool :=
  is_null usr_matrix_start || is_null usr_matrix_index || is_null usr_matrix_value.

(** [std::pow(2, k)] for an integer exponent: exactly 2^k, infinity on
    overflow. *)
Definition pow2 (k : Z) : double := Z.ldexp 1 k.

(** [for (i...) v[i] *= scale_value;] *)
Definition scale_all (v : list double) (scale_value : double) : list double :=
  map (fun x => (x * scale_value)%float) v.

(** [for (i = 0; i < n; i++) v[i] *= scale_value;] *)
Definition scale_prefix (n : Z) (v : list double) (scale_value : double) : list double :=
  scale_all (firstn (Z.to_nat n) v) scale_value ++ skipn (Z.to_nat n) v.

(** ** Scaling that reaches the infinite threshold *)

(** Some finite value of [v] is taken to the threshold [infinite] or beyond
    by the factor 2^scale. *)
Definition scaling_overflows (v : list double) (scale : Z) (infinite : double) : Prop :=
  exists x, In x v /\ (abs x <? kHighsInf)%float = true /\
            (infinite <=? abs (x * pow2 scale))%float = true.

(** The exponent [scale] asked for, on an LP that records the exponent it
    has been scaled with: the bounds (costs) of the LP are to be scaled by
    the difference. *)
Definition lp_bound_scaling_overflows (lp : HighsLp) (scale : Z) (infinite_bound : double)
  : Prop :=
  let dl := scale - user_bound_scale_ lp in
  scaling_overflows (col_lower_ lp) dl infinite_bound \/
  scaling_overflows (col_upper_ lp) dl infinite_bound \/
  scaling_overflows (row_lower_ lp) dl infinite_bound \/
  scaling_overflows (row_upper_ lp) dl infinite_bound.

Definition lp_cost_scaling_overflows (lp : HighsLp) (scale : Z) (infinite_cost : double)
  : Prop :=
  scaling_overflows (col_cost_ lp) (scale - user_cost_scale_ lp) infinite_cost.

(** ** Adding columns and rows, changing costs and bounds *)

Section AddChange.

(** Functions of the repository called by the embedded code and defined
    outside it.  Reference arguments that the callee may write come back in
    the result. *)
Variable interpretCallStatus : HighsStatus.t -> HighsStatus.t -> HighsStatus.t.
(** [assessCosts options ml_col_os index_collection cost infinite_cost]
    yields the status, the normalised costs and [has_infinite_cost]. *)
Variable assessCosts :
  HighsOptions -> Z -> HighsIndexCollection -> list double -> double ->
  HighsStatus.t * list double * bool.
(** [assessBounds options type ml_ix_os index_collection lower upper
    infinite_bound] yields the status and the normalised bounds. *)
Variable assessBounds :
  HighsOptions -> string -> Z -> HighsIndexCollection -> list double -> list double ->
  double -> HighsStatus.t * list double * list double.
(** [boundScaleOk lower upper bound_scale infinite_bound] *)
Variable boundScaleOk : list double -> list double -> Z -> double -> bool.
(** [costScaleOk cost cost_scale infinite_cost] *)
Variable costScaleOk : list double -> Z -> double -> bool.
Variable dataSize : HighsIndexCollection -> Z.
(** [sortSetData num_entries set lower upper] yields the bounds sorted by
    set entry. *)
Variable sortSetData :
  Z -> list Z -> list double -> list double -> list double * list double.
Variable changeLpCosts : HighsLp -> HighsIndexCollection -> list double -> double -> HighsLp.
Variable changeLpColBounds :
  HighsLp -> HighsIndexCollection -> list double -> list double -> HighsLp.
Variable changeLpRowBounds :
  HighsLp -> HighsIndexCollection -> list double -> list double -> HighsLp.
Variable updateStatus : HEkk -> LpAction.t -> HEkk.
(** [Highs::setNonbasicStatusInterface index_collection columns] (lines
    1221-1361): runs after the bounds are written; no property below depends
    on what it does. *)
Variable setNonbasicStatusInterface : Highs -> HighsIndexCollection -> bool -> Highs.
(** Lines 468-536 of addColsInterface: the columns are appended to the LP
    vectors and matrix, the scaling factors, basis, names, status, simplex
    data and Hessian are updated, all through functions outside the embedded
    sources.  Arguments: the state, the number of new columns, the local
    cost, lower and upper vectors, the matrix data, [local_has_infinite_cost]
    and [return_status]. *)
Variable addCols_append :
  Highs -> Z -> list double -> list double -> list double ->
  Z -> option (list Z) -> option (list Z) -> option (list double) ->
  bool -> HighsStatus.t -> HighsStatus.t * Highs.
(** Lines 613-673 of addRowsInterface, likewise. *)
Variable addRows_append :
  Highs -> Z -> list double -> list double ->
  Z -> option (list Z) -> option (list Z) -> option (list double) ->
  HighsStatus.t -> HighsStatus.t * Highs.

(** [Highs::addColsInterface], lines 382-537. *)
Definition addColsInterface (h : Highs) (ext_num_new_col : Z)
  (ext_col_cost ext_col_lower ext_col_upper : option (list double))
  (ext_num_new_nz : Z) (ext_a_start ext_a_index : option (list Z))
  (ext_a_value : option (list double)) : HighsStatus.t * Highs :=
  let return_status := HighsStatus.kOk in
  let options := options_ h in
  if ext_num_new_col <? 0 then (HighsStatus.kError, h) else
  if ext_num_new_nz <? 0 then (HighsStatus.kError, h) else
  if ext_num_new_col =? 0 then (HighsStatus.kOk, h) else
  if (0 <? ext_num_new_col) && isColDataNull ext_col_cost ext_col_lower ext_col_upper
  then (HighsStatus.kError, h) else
  if (0 <? ext_num_new_nz) && isMatrixDataNull ext_a_start ext_a_index ext_a_value
  then (HighsStatus.kError, h) else
  let lp := lp_ h in
  (* nonzeros can only be added to a model with rows *)
  if (num_row_ lp <=? 0) && (0 <? ext_num_new_nz) then (HighsStatus.kError, h) else
  let index_collection := interval_collection ext_num_new_col 0 (ext_num_new_col - 1) in
  let local_colCost := copy_array ext_col_cost ext_num_new_col in
  let local_colLower := copy_array ext_col_lower ext_num_new_col in
  let local_colUpper := copy_array ext_col_upper ext_num_new_col in
  let '(call_status, local_colCost, local_has_infinite_cost) :=
    assessCosts options (num_col_ lp) index_collection local_colCost
                (infinite_cost options) in
  let return_status := interpretCallStatus call_status return_status in
  if HighsStatus.eqb return_status HighsStatus.kError then (return_status, h) else
  let '(call_status, local_colLower, local_colUpper) :=
    assessBounds options "Col" (num_col_ lp) index_collection local_colLower
                 local_colUpper (infinite_bound options) in
  let return_status := interpretCallStatus call_status return_status in
  if HighsStatus.eqb return_status HighsStatus.kError then (return_status, h) else
  (* if (lp.user_bound_scale_) { ... } *)
  if negb (user_bound_scale_ lp =? 0) &&
     negb (boundScaleOk local_colLower local_colUpper (user_bound_scale_ lp)
                        (infinite_bound options))
  then (HighsStatus.kError, h) else
  let bound_scale_value := pow2 (user_bound_scale_ lp) in
  let local_colLower :=
    if user_bound_scale_ lp =? 0 then local_colLower
    else scale_all local_colLower bound_scale_value in
  let local_colUpper :=
    if user_bound_scale_ lp =? 0 then local_colUpper
    else scale_all local_colUpper bound_scale_value in
  (* if (lp.user_cost_scale_) { ... } *)
  if negb (user_cost_scale_ lp =? 0) &&
     negb (costScaleOk local_colCost (user_cost_scale_ lp) (infinite_cost options))
  then (HighsStatus.kError, h) else
  let cost_scale_value := pow2 (user_cost_scale_ lp) in
  let local_colCost :=
    if user_cost_scale_ lp =? 0 then local_colCost
    else scale_all local_colCost cost_scale_value in
  addCols_append h ext_num_new_col local_colCost local_colLower local_colUpper
                 ext_num_new_nz ext_a_start ext_a_index ext_a_value
                 local_has_infinite_cost return_status.

(** [Highs::addRowsInterface], lines 539-674.  The debug check of the
    factor at its start (549-553) does not change the state. *)
Definition addRowsInterface (h : Highs) (ext_num_new_row : Z)
  (ext_row_lower ext_row_upper : option (list double))
  (ext_num_new_nz : Z) (ext_ar_start ext_ar_index : option (list Z))
  (ext_ar_value : option (list double)) : HighsStatus.t * Highs :=
  let return_status := HighsStatus.kOk in
  let options := options_ h in
  if ext_num_new_row <? 0 then (HighsStatus.kError, h) else
  if ext_num_new_nz <? 0 then (HighsStatus.kError, h) else
  if ext_num_new_row =? 0 then (HighsStatus.kOk, h) else
  if (0 <? ext_num_new_row) && isRowDataNull ext_row_lower ext_row_upper
  then (HighsStatus.kError, h) else
  if (0 <? ext_num_new_nz) && isMatrixDataNull ext_ar_start ext_ar_index ext_ar_value
  then (HighsStatus.kError, h) else
  let lp := lp_ h in
  (* nonzeros can only be added to a model with columns *)
  if (num_col_ lp <=? 0) && (0 <? ext_num_new_nz) then (HighsStatus.kError, h) else
  let index_collection := interval_collection ext_num_new_row 0 (ext_num_new_row - 1) in
  let local_rowLower := copy_array ext_row_lower ext_num_new_row in
  let local_rowUpper := copy_array ext_row_upper ext_num_new_row in
  let '(call_status, local_rowLower, local_rowUpper) :=
    assessBounds options "Row" (num_row_ lp) index_collection local_rowLower
                 local_rowUpper (infinite_bound options) in
  let return_status := interpretCallStatus call_status return_status in
  if HighsStatus.eqb return_status HighsStatus.kError then (return_status, h) else
  if negb (user_bound_scale_ lp =? 0) &&
     negb (boundScaleOk local_rowLower local_rowUpper (user_bound_scale_ lp)
                        (infinite_bound options))
  then (HighsStatus.kError, h) else
  let bound_scale_value := pow2 (user_bound_scale_ lp) in
  let local_rowLower :=
    if user_bound_scale_ lp =? 0 then local_rowLower
    else scale_all local_rowLower bound_scale_value in
  let local_rowUpper :=
    if user_bound_scale_ lp =? 0 then local_rowUpper
    else scale_all local_rowUpper bound_scale_value in
  addRows_append h ext_num_new_row local_rowLower local_rowUpper
                 ext_num_new_nz ext_ar_start ext_ar_index ext_ar_value return_status.

(** [Highs::changeCostsInterface], lines 934-976. *)
Definition changeCostsInterface (h : Highs) (index_collection : HighsIndexCollection)
  (cost : option (list double)) : HighsStatus.t * Highs :=
  let num_cost := dataSize index_collection in
  if num_cost <=? 0 then (HighsStatus.kOk, h) else
  if doubleUserDataNotNull cost then (HighsStatus.kError, h) else
  let local_colCost := copy_array cost num_cost in
  let return_status := HighsStatus.kOk in
  let '(call_status, local_colCost, local_has_infinite_cost) :=
    assessCosts (options_ h) 0 index_collection local_colCost
                (infinite_cost (options_ h)) in
  let return_status := interpretCallStatus call_status return_status in
  if HighsStatus.eqb return_status HighsStatus.kError then (return_status, h) else
  let lp := lp_ h in
  if negb (user_cost_scale_ lp =? 0) &&
     negb (costScaleOk local_colCost (user_cost_scale_ lp) (infinite_cost (options_ h)))
  then (HighsStatus.kError, h) else
  let cost_scale_value := pow2 (user_cost_scale_ lp) in
  let local_colCost :=
    if user_cost_scale_ lp =? 0 then local_colCost
    else scale_all local_colCost cost_scale_value in
  let lp := changeLpCosts lp index_collection local_colCost (infinite_cost (options_ h)) in
  let lp := set_has_infinite_cost_ lp (has_infinite_cost_ lp || local_has_infinite_cost) in
  let h := set_lp h lp in
  let h := invalidateModelStatusSolutionAndInfo h in
  let h := set_ekk h (updateStatus (ekk_instance_ h) LpAction.kNewCosts) in
  (HighsStatus.kOk, h).

(** [Highs::changeColBoundsInterface], lines 978-1034. *)
Definition changeColBoundsInterface (h : Highs) (index_collection : HighsIndexCollection)
  (col_lower col_upper : option (list double)) : HighsStatus.t * Highs :=
  let num_col_bounds := dataSize index_collection in
  if num_col_bounds <=? 0 then (HighsStatus.kOk, h) else
  let null_data := false in
  let null_data := doubleUserDataNotNull col_lower || null_data in
  let null_data := doubleUserDataNotNull col_upper || null_data in
  if null_data then (HighsStatus.kError, h) else
  let local_colLower := copy_array col_lower num_col_bounds in
  let local_colUpper := copy_array col_upper num_col_bounds in
  let '(local_colLower, local_colUpper) :=
    if is_set_ index_collection
    then sortSetData (set_num_entries_ index_collection) (set_ index_collection)
                     local_colLower local_colUpper
    else (local_colLower, local_colUpper) in
  let return_status := HighsStatus.kOk in
  let '(call_status, local_colLower, local_colUpper) :=
    assessBounds (options_ h) "col" 0 index_collection local_colLower local_colUpper
                 (infinite_bound (options_ h)) in
  let return_status := interpretCallStatus call_status return_status in
  if HighsStatus.eqb return_status HighsStatus.kError then (return_status, h) else
  let lp := lp_ h in
  if negb (user_bound_scale_ lp =? 0) &&
     negb (boundScaleOk local_colLower local_colUpper (user_bound_scale_ lp)
                        (infinite_bound (options_ h)))
  then (HighsStatus.kError, h) else
  let bound_scale_value := pow2 (user_bound_scale_ lp) in
  let local_colLower :=
    if user_bound_scale_ lp =? 0 then local_colLower
    else scale_all local_colLower bound_scale_value in
  let local_colUpper :=
    if user_bound_scale_ lp =? 0 then local_colUpper
    else scale_all local_colUpper bound_scale_value in
  let h := set_lp h (changeLpColBounds lp index_collection local_colLower local_colUpper) in
  let h := setNonbasicStatusInterface h index_collection true in
  let h := invalidateModelStatusSolutionAndInfo h in
  let h := set_ekk h (updateStatus (ekk_instance_ h) LpAction.kNewBounds) in
  (HighsStatus.kOk, h).

(** [Highs::changeRowBoundsInterface], lines 1036-1092. *)
Definition changeRowBoundsInterface (h : Highs) (index_collection : HighsIndexCollection)
  (lower upper : option (list double)) : HighsStatus.t * Highs :=
  let num_row_bounds := dataSize index_collection in
  if num_row_bounds <=? 0 then (HighsStatus.kOk, h) else
  let null_data := false in
  let null_data := doubleUserDataNotNull lower || null_data in
  let null_data := doubleUserDataNotNull upper || null_data in
  if null_data then (HighsStatus.kError, h) else
  let local_rowLower := copy_array lower num_row_bounds in
  let local_rowUpper := copy_array upper num_row_bounds in
  let '(local_rowLower, local_rowUpper) :=
    if is_set_ index_collection
    then sortSetData (set_num_entries_ index_collection) (set_ index_collection)
                     local_rowLower local_rowUpper
    else (local_rowLower, local_rowUpper) in
  let return_status := HighsStatus.kOk in
  let '(call_status, local_rowLower, local_rowUpper) :=
    assessBounds (options_ h) "row" 0 index_collection local_rowLower local_rowUpper
                 (infinite_bound (options_ h)) in
  let return_status := interpretCallStatus call_status return_status in
  if HighsStatus.eqb return_status HighsStatus.kError then (return_status, h) else
  let lp := lp_ h in
  if negb (user_bound_scale_ lp =? 0) &&
     negb (boundScaleOk local_rowLower local_rowUpper (user_bound_scale_ lp)
                        (infinite_bound (options_ h)))
  then (HighsStatus.kError, h) else
  let bound_scale_value := pow2 (user_bound_scale_ lp) in
  let local_rowLower :=
    if user_bound_scale_ lp =? 0 then local_rowLower
    else scale_all local_rowLower bound_scale_value in
  let local_rowUpper :=
    if user_bound_scale_ lp =? 0 then local_rowUpper
    else scale_all local_rowUpper bound_scale_value in
  let h := set_lp h (changeLpRowBounds lp index_collection local_rowLower local_rowUpper) in
  let h := setNonbasicStatusInterface h index_collection false in
  let h := invalidateModelStatusSolutionAndInfo h in
  let h := set_ekk h (updateStatus (ekk_instance_ h) LpAction.kNewBounds) in
  (HighsStatus.kOk, h).


(** *** Validation of the arguments of addCols and addRows *)

(** C9 (amended).  addColsInterface (addRowsInterface) tests its arguments
    in this order and returns with the Highs state untouched:
    - a negative number of new columns (rows) or of new nonzeros: kError;
    - otherwise no new column (row): kOk;
    - otherwise a null cost or bound (bound) array: kError;
    - otherwise nonzeros with a null matrix array: kError;
    - otherwise nonzeros for a model with no rows (no columns): kError. *)
Theorem add_interface_validation (h : Highs) (n nz : Z)
  (cost lower upper : option (list double)) (start index : option (list Z))
  (value : option (list double)) :
  (n < 0 \/ nz < 0 ->
   addColsInterface h n cost lower upper nz start index value = (HighsStatus.kError, h)) /\
  (n = 0 -> 0 <= nz ->
   addColsInterface h n cost lower upper nz start index value = (HighsStatus.kOk, h)) /\
  (0 < n -> cost = None \/ lower = None \/ upper = None ->
   addColsInterface h n cost lower upper nz start index value = (HighsStatus.kError, h)) /\
  (0 < n -> 0 < nz -> start = None \/ index = None \/ value = None ->
   addColsInterface h n cost lower upper nz start index value = (HighsStatus.kError, h)) /\
  (0 < n -> 0 < nz -> num_row_ (lp_ h) <= 0 ->
   addColsInterface h n cost lower upper nz start index value = (HighsStatus.kError, h)) /\
  (n < 0 \/ nz < 0 ->
   addRowsInterface h n lower upper nz start index value = (HighsStatus.kError, h)) /\
  (n = 0 -> 0 <= nz ->
   addRowsInterface h n lower upper nz start index value = (HighsStatus.kOk, h)) /\
  (0 < n -> lower = None \/ upper = None ->
   addRowsInterface h n lower upper nz start index value = (HighsStatus.kError, h)) /\
  (0 < n -> 0 < nz -> start = None \/ index = None \/ value = None ->
   addRowsInterface h n lower upper nz start index value = (HighsStatus.kError, h)) /\
  (0 < n -> 0 < nz -> num_col_ (lp_ h) <= 0 ->
   addRowsInterface h n lower upper nz start index value = (HighsStatus.kError, h)).
Proof.
  unfold addColsInterface, addRowsInterface.
  repeat split; intros;
    repeat match goal with
    | |- context [?a <? ?b] =>
        destruct (Z.ltb_spec a b); try lia; try reflexivity
    | |- context [?a =? ?b] =>
        destruct (Z.eqb_spec a b); try lia; try reflexivity
    | |- context [?a <=? ?b] =>
        destruct (Z.leb_spec a b); try lia; try reflexivity
    end; cbn [andb];
    repeat match goal with
    | H : _ \/ _ |- _ => destruct H
    | H : _ = None |- _ => rewrite H; clear H
    end;
    unfold isColDataNull, isRowDataNull, isMatrixDataNull; cbn [is_null orb];
    rewrite ?orb_true_r; try reflexivity;
    repeat match goal with
    | |- context [if is_null ?p || _ then _ else _] => destruct p; cbn [is_null orb]
    | |- context [if is_null ?p then _ else _] => destruct p; cbn [is_null orb]
    | |- context [is_null ?p] => destruct p; cbn [is_null orb]
    end; rewrite ?orb_true_r; try reflexivity.
Qed.

(** ** Change of an option *)

(** Methods of HighsLp, HighsModel and HighsIis defined outside the embedded
    sources.  The model is represented by its LP (the Hessian is not part
    of the modelled state). *)
Variable isMip : HighsLp -> bool.
(** [lp.userBoundScaleOk(user_bound_scale, infinite_bound)] *)
Variable userBoundScaleOk : HighsLp -> Z -> double -> bool.
(** [lp.userBoundScale(user_bound_scale)] *)
Variable userBoundScale : HighsLp -> Z -> HighsLp.
(** [model.userCostScaleOk(user_cost_scale, small_matrix_value,
    large_matrix_value, infinite_cost)] *)
Variable userCostScaleOk : HighsLp -> Z -> double -> double -> double -> bool.
(** [model.userCostScale(user_cost_scale)] *)
Variable userCostScale : HighsLp -> Z -> HighsLp.
Variable iis_invalidate : HighsIis -> HighsIis.

(** [Highs::optionChangeAction], lines 3007-3163, block by block. *)

(** Lines 3034-3053: impact of the bound scaling and of the primal
    feasibility tolerance on primal feasibility. *)
Definition option_primal_feasibility (is_mip : bool) (dl_user_bound_scale_value : double)
  (h : Highs) : Highs :=
  let info := info_ h in
  let new_max_primal_infeasibility :=
    (max_primal_infeasibility info * dl_user_bound_scale_value)%float in
  if (primal_feasibility_tolerance (options_ h) <? new_max_primal_infeasibility)%float
  then
    if (num_primal_infeasibilities info =? 0) && (1 <? dl_user_bound_scale_value)%float
    then
      set_info (set_model_status h HighsModelStatus.kNotset)
        (set_num_primal_infeasibilities
           (set_primal_solution_status info kSolutionStatusInfeasible)
           kHighsIllegalInfeasibilityCount)
    else h
  else if negb is_mip && (primal_solution_status info =? kSolutionStatusInfeasible)
  then
    set_info h (set_num_primal_infeasibilities
                  (set_primal_solution_status info kSolutionStatusFeasible) 0)
  else h.

(** Lines 3054-3066: a MIP with non-trivial bound scaling loses optimality,
    and feasibility when the exponent decreases. *)
Definition option_mip_bound_scale (is_mip : bool) (dl_user_bound_scale : Z) (h : Highs)
  : Highs :=
  if is_mip && negb (dl_user_bound_scale =? 0)
  then
    let h := set_model_status h HighsModelStatus.kNotset in
    if dl_user_bound_scale <? 0
    then set_info h (set_primal_solution_status (info_ h) kSolutionStatusInfeasible)
    else h
  else h.

(** Lines 3067-3081: info, solution and LP are updated for a non-trivial
    user bound scaling. *)
Definition option_apply_bound_scale (dl_user_bound_scale : Z)
  (dl_user_bound_scale_value : double) (h : Highs) : Highs :=
  if negb (dl_user_bound_scale =? 0)
  then
    let i := info_ h in
    let i := set_objective_function_value i
               (objective_function_value i * dl_user_bound_scale_value)%float in
    let i := set_max_primal_infeasibility i
               (max_primal_infeasibility i * dl_user_bound_scale_value)%float in
    let i := set_sum_primal_infeasibilities i
               (sum_primal_infeasibilities i * dl_user_bound_scale_value)%float in
    let s := solution_ h in
    let s := set_col_value s
               (scale_prefix (num_col_ (lp_ h)) (col_value s) dl_user_bound_scale_value) in
    let s := set_row_value s
               (scale_prefix (num_row_ (lp_ h)) (row_value s) dl_user_bound_scale_value) in
    set_lp (set_solution (set_info h i) s)
           (userBoundScale (lp_ h) (user_bound_scale (options_ h)))
  else h.

(** Lines 3101-3124: impact of the cost scaling and of the dual feasibility
    tolerance on dual feasibility (not for a MIP). *)
Definition option_dual_feasibility (is_mip : bool) (dl_user_cost_scale_value : double)
  (h : Highs) : Highs :=
  let info := info_ h in
  if negb is_mip
  then
    let new_max_dual_infeasibility :=
      (max_dual_infeasibility info * dl_user_cost_scale_value)%float in
    if (dual_feasibility_tolerance (options_ h) <? new_max_dual_infeasibility)%float
    then
      if (num_dual_infeasibilities info =? 0) && (1 <? dl_user_cost_scale_value)%float
      then
        let info :=
          if dual_solution_status info =? kSolutionStatusFeasible
          then set_dual_solution_status info kSolutionStatusInfeasible
          else info in
        set_info (set_model_status h HighsModelStatus.kNotset)
          (set_num_dual_infeasibilities info kHighsIllegalInfeasibilityCount)
      else h
    else if dual_solution_status info =? kSolutionStatusInfeasible
    then
      set_info h (set_num_dual_infeasibilities
                    (set_dual_solution_status info kSolutionStatusFeasible) 0)
    else h
  else h.

(** Lines 3125-3142: info, solution and model are updated for a non-trivial
    user cost scaling. *)
Definition option_apply_cost_scale (is_mip : bool) (dl_user_cost_scale : Z)
  (dl_user_cost_scale_value : double) (h : Highs) : Highs :=
  if negb (dl_user_cost_scale =? 0)
  then
    let h := if is_mip then set_model_status h HighsModelStatus.kNotset else h in
    let i := info_ h in
    let i := set_objective_function_value i
               (objective_function_value i * dl_user_cost_scale_value)%float in
    let i := set_max_dual_infeasibility i
               (max_dual_infeasibility i * dl_user_cost_scale_value)%float in
    let i := set_sum_dual_infeasibilities i
               (sum_dual_infeasibilities i * dl_user_cost_scale_value)%float in
    let s := solution_ h in
    let s := set_col_dual s
               (scale_prefix (num_col_ (lp_ h)) (col_dual s) dl_user_cost_scale_value) in
    let s := set_row_dual s
               (scale_prefix (num_row_ (lp_ h)) (row_dual s) dl_user_cost_scale_value) in
    set_lp (set_solution (set_info h i) s)
           (userCostScale (lp_ h) (user_cost_scale (options_ h)))
  else h.

Definition optionChangeAction (h : Highs) : HighsStatus.t * Highs :=
  let is_mip := isMip (lp_ h) in
  (* 3013-3030: ensure that user bound scaling does not yield infinite bounds *)
  let changed_user_bound_scale :=
    negb (user_bound_scale (options_ h) =? user_bound_scale_ (lp_ h)) in
  let user_bound_scale_ok :=
    negb changed_user_bound_scale ||
    userBoundScaleOk (lp_ h) (user_bound_scale (options_ h)) (infinite_bound (options_ h)) in
  let dl_user_bound_scale :=
    if negb user_bound_scale_ok then 0
    else if changed_user_bound_scale
         then user_bound_scale (options_ h) - user_bound_scale_ (lp_ h)
         else 0 in
  let dl_user_bound_scale_value :=
    if negb user_bound_scale_ok then 1%float
    else if changed_user_bound_scale then pow2 dl_user_bound_scale
         else 1%float in
  let h :=
    if negb user_bound_scale_ok
    then set_options h (set_user_bound_scale (options_ h) (user_bound_scale_ (lp_ h)))
    else h in
  let h := option_primal_feasibility is_mip dl_user_bound_scale_value h in
  let h := option_mip_bound_scale is_mip dl_user_bound_scale h in
  let h := option_apply_bound_scale dl_user_bound_scale dl_user_bound_scale_value h in
  (* 3082-3100: now consider whether options.user_cost_scale has changed *)
  let changed_user_cost_scale :=
    negb (user_cost_scale (options_ h) =? user_cost_scale_ (lp_ h)) in
  let user_cost_scale_ok :=
    negb changed_user_cost_scale ||
    userCostScaleOk (lp_ h) (user_cost_scale (options_ h))
                    (small_matrix_value (options_ h)) (large_matrix_value (options_ h))
                    (infinite_cost (options_ h)) in
  let dl_user_cost_scale :=
    if negb user_cost_scale_ok then 0
    else if changed_user_cost_scale
         then user_cost_scale (options_ h) - user_cost_scale_ (lp_ h)
         else 0 in
  let dl_user_cost_scale_value :=
    if negb user_cost_scale_ok then 1%float
    else if changed_user_cost_scale then pow2 dl_user_cost_scale
         else 1%float in
  let h :=
    if negb user_cost_scale_ok
    then set_options h (set_user_cost_scale (options_ h) (user_cost_scale_ (lp_ h)))
    else h in
  let h := option_dual_feasibility is_mip dl_user_cost_scale_value h in
  let h := option_apply_cost_scale is_mip dl_user_cost_scale dl_user_cost_scale_value h in
  (* 3159-3162 *)
  if negb user_bound_scale_ok || negb user_cost_scale_ok then (HighsStatus.kError, h) else
  let h :=
    if valid_ (iis_ h) && negb (iis_strategy (options_ h) =? strategy_ (iis_ h))
    then set_iis h (iis_invalidate (iis_ h))
    else h in
  (HighsStatus.kOk, h).

(** *** Scaling that overflows is refused *)

(** The bounds and costs that addColsInterface, addRowsInterface and the
    change functions hand to [boundScaleOk] and [costScaleOk]: the user
    arrays as assessed. *)
Definition assessed_bounds (h : Highs) (type : string) (ml_ix_os : Z)
  (ic : HighsIndexCollection) (lower upper : list double) : list double * list double :=
  let '(_, lower, upper) :=
    assessBounds (options_ h) type ml_ix_os ic lower upper (infinite_bound (options_ h)) in
  (lower, upper).

Definition assessed_costs (h : Highs) (ml_col_os : Z) (ic : HighsIndexCollection)
  (cost : list double) : list double :=
  let '(_, cost, _) :=
    assessCosts (options_ h) ml_col_os ic cost (infinite_cost (options_ h)) in
  cost.

Definition sorted_bounds (ic : HighsIndexCollection) (lower upper : list double)
  : list double * list double :=
  if is_set_ ic then sortSetData (set_num_entries_ ic) (set_ ic) lower upper
  else (lower, upper).

Definition bound_scale_fails (h : Highs) (bounds : list double * list double) : Prop :=
  user_bound_scale_ (lp_ h) <> 0 /\
  boundScaleOk (fst bounds) (snd bounds) (user_bound_scale_ (lp_ h))
               (infinite_bound (options_ h)) = false.

Definition cost_scale_fails (h : Highs) (cost : list double) : Prop :=
  user_cost_scale_ (lp_ h) <> 0 /\
  costScaleOk cost (user_cost_scale_ (lp_ h)) (infinite_cost (options_ h)) = false.

Lemma addCols_scale_refused (h : Highs) (n nz : Z)
  (cost lower upper : option (list double)) (start index : option (list Z))
  (value : option (list double)) :
  n <> 0 ->
  let ic := interval_collection n 0 (n - 1) in
  bound_scale_fails h (assessed_bounds h "Col" (num_col_ (lp_ h)) ic
                         (copy_array lower n) (copy_array upper n)) \/
  cost_scale_fails h (assessed_costs h (num_col_ (lp_ h)) ic (copy_array cost n)) ->
  addColsInterface h n cost lower upper nz start index value = (HighsStatus.kError, h).
Proof.
  intros Hn ic Hfail. unfold addColsInterface. fold ic.
  unfold bound_scale_fails, cost_scale_fails, assessed_bounds, assessed_costs in Hfail.
  destruct (n <? 0); [reflexivity|]. destruct (nz <? 0); [reflexivity|].
  destruct (Z.eqb_spec n 0); [contradiction|].
  destruct (_ && isColDataNull _ _ _); [reflexivity|].
  destruct (_ && isMatrixDataNull _ _ _); [reflexivity|].
  destruct (_ && _); [reflexivity|].
  destruct (assessCosts _ _ _ _ _) as [[cs c1] hasinf].
  destruct (HighsStatus.eqb (interpretCallStatus cs _) _) eqn:E1;
    [apply HighsStatus_eqb_eq in E1; rewrite E1; reflexivity|].
  destruct (assessBounds _ _ _ _ _ _ _) as [[bs lo1] up1].
  destruct (HighsStatus.eqb (interpretCallStatus bs _) _) eqn:E2;
    [apply HighsStatus_eqb_eq in E2; rewrite E2; reflexivity|].
  cbn [fst snd] in Hfail.
  destruct (Z.eqb_spec (user_bound_scale_ (lp_ h)) 0) as [Eb | Eb];
    destruct (boundScaleOk lo1 up1 _ _) eqn:Ebok; cbn [negb andb]; try reflexivity;
    destruct (Z.eqb_spec (user_cost_scale_ (lp_ h)) 0) as [Ec | Ec];
    destruct (costScaleOk _ _ _) eqn:Ecok; cbn [negb andb]; try reflexivity;
    exfalso; destruct Hfail as [[H1 H2] | [H1 H2]]; congruence.
Qed.

Lemma addRows_scale_refused (h : Highs) (n nz : Z)
  (lower upper : option (list double)) (start index : option (list Z))
  (value : option (list double)) :
  n <> 0 ->
  let ic := interval_collection n 0 (n - 1) in
  bound_scale_fails h (assessed_bounds h "Row" (num_row_ (lp_ h)) ic
                         (copy_array lower n) (copy_array upper n)) ->
  addRowsInterface h n lower upper nz start index value = (HighsStatus.kError, h).
Proof.
  intros Hn ic Hfail. unfold addRowsInterface. fold ic.
  unfold bound_scale_fails, assessed_bounds in Hfail.
  destruct (n <? 0); [reflexivity|]. destruct (nz <? 0); [reflexivity|].
  destruct (Z.eqb_spec n 0); [contradiction|].
  destruct (_ && isRowDataNull _ _); [reflexivity|].
  destruct (_ && isMatrixDataNull _ _ _); [reflexivity|].
  destruct (_ && _); [reflexivity|].
  destruct (assessBounds _ _ _ _ _ _ _) as [[bs lo1] up1].
  destruct (HighsStatus.eqb (interpretCallStatus bs _) _) eqn:E2;
    [apply HighsStatus_eqb_eq in E2; rewrite E2; reflexivity|].
  cbn [fst snd] in Hfail. destruct Hfail as [H1 H2].
  destruct (Z.eqb_spec (user_bound_scale_ (lp_ h)) 0); [contradiction|].
  rewrite H2. reflexivity.
Qed.

Lemma changeCosts_scale_refused (h : Highs) (ic : HighsIndexCollection)
  (cost : option (list double)) :
  0 < dataSize ic ->
  cost_scale_fails h (assessed_costs h 0 ic (copy_array cost (dataSize ic))) ->
  changeCostsInterface h ic cost = (HighsStatus.kError, h).
Proof.
  intros Hn Hfail. unfold changeCostsInterface.
  unfold cost_scale_fails, assessed_costs in Hfail.
  destruct (Z.leb_spec (dataSize ic) 0); [lia|].
  destruct (doubleUserDataNotNull cost); [reflexivity|].
  destruct (assessCosts _ _ _ _ _) as [[cs c1] hasinf].
  destruct (HighsStatus.eqb (interpretCallStatus cs _) _) eqn:E1;
    [apply HighsStatus_eqb_eq in E1; rewrite E1; reflexivity|].
  destruct Hfail as [H1 H2].
  destruct (Z.eqb_spec (user_cost_scale_ (lp_ h)) 0); [contradiction|].
  rewrite H2. reflexivity.
Qed.

Lemma changeColBounds_scale_refused (h : Highs) (ic : HighsIndexCollection)
  (lower upper : option (list double)) :
  0 < dataSize ic ->
  let sorted := sorted_bounds ic (copy_array lower (dataSize ic))
                                 (copy_array upper (dataSize ic)) in
  bound_scale_fails h (assessed_bounds h "col" 0 ic (fst sorted) (snd sorted)) ->
  changeColBoundsInterface h ic lower upper = (HighsStatus.kError, h).
Proof.
  intros Hn sorted Hfail. unfold changeColBoundsInterface.
  unfold bound_scale_fails, assessed_bounds in Hfail.
  destruct (Z.leb_spec (dataSize ic) 0); [lia|].
  destruct (_ || _); [reflexivity|].
  fold (sorted_bounds ic (copy_array lower (dataSize ic)) (copy_array upper (dataSize ic))).
  fold sorted. destruct sorted as [lo0 up0]. cbn [fst snd] in Hfail.
  destruct (assessBounds _ _ _ _ _ _ _) as [[bs lo1] up1].
  destruct (HighsStatus.eqb (interpretCallStatus bs _) _) eqn:E2;
    [apply HighsStatus_eqb_eq in E2; rewrite E2; reflexivity|].
  cbn [fst snd] in Hfail. destruct Hfail as [H1 H2].
  destruct (Z.eqb_spec (user_bound_scale_ (lp_ h)) 0); [contradiction|].
  rewrite H2. reflexivity.
Qed.

Lemma changeRowBounds_scale_refused (h : Highs) (ic : HighsIndexCollection)
  (lower upper : option (list double)) :
  0 < dataSize ic ->
  let sorted := sorted_bounds ic (copy_array lower (dataSize ic))
                                 (copy_array upper (dataSize ic)) in
  bound_scale_fails h (assessed_bounds h "row" 0 ic (fst sorted) (snd sorted)) ->
  changeRowBoundsInterface h ic lower upper = (HighsStatus.kError, h).
Proof.
  intros Hn sorted Hfail. unfold changeRowBoundsInterface.
  unfold bound_scale_fails, assessed_bounds in Hfail.
  destruct (Z.leb_spec (dataSize ic) 0); [lia|].
  destruct (_ || _); [reflexivity|].
  fold (sorted_bounds ic (copy_array lower (dataSize ic)) (copy_array upper (dataSize ic))).
  fold sorted. destruct sorted as [lo0 up0]. cbn [fst snd] in Hfail.
  destruct (assessBounds _ _ _ _ _ _ _) as [[bs lo1] up1].
  destruct (HighsStatus.eqb (interpretCallStatus bs _) _) eqn:E2;
    [apply HighsStatus_eqb_eq in E2; rewrite E2; reflexivity|].
  cbn [fst snd] in Hfail. destruct Hfail as [H1 H2].
  destruct (Z.eqb_spec (user_bound_scale_ (lp_ h)) 0); [contradiction|].
  rewrite H2. reflexivity.
Qed.

(** *** Frame properties of the blocks of optionChangeAction *)

Lemma option_primal_feasibility_frame (is_mip : bool) (v : double) (h : Highs) :
  lp_ (option_primal_feasibility is_mip v h) = lp_ h /\
  options_ (option_primal_feasibility is_mip v h) = options_ h.
Proof.
  unfold option_primal_feasibility.
  repeat match goal with |- context [if ?c then _ else _] => destruct c end;
    split; reflexivity.
Qed.

Lemma option_mip_bound_scale_frame (is_mip : bool) (dl : Z) (h : Highs) :
  lp_ (option_mip_bound_scale is_mip dl h) = lp_ h /\
  options_ (option_mip_bound_scale is_mip dl h) = options_ h.
Proof.
  unfold option_mip_bound_scale.
  repeat match goal with |- context [if ?c then _ else _] => destruct c end;
    split; reflexivity.
Qed.

Lemma option_apply_bound_scale_frame (dl : Z) (v : double) (h : Highs) :
  lp_ (option_apply_bound_scale dl v h) =
    (if dl =? 0 then lp_ h else userBoundScale (lp_ h) (user_bound_scale (options_ h))) /\
  options_ (option_apply_bound_scale dl v h) = options_ h.
Proof.
  unfold option_apply_bound_scale. destruct (dl =? 0); split; reflexivity.
Qed.

Lemma option_dual_feasibility_frame (is_mip : bool) (v : double) (h : Highs) :
  lp_ (option_dual_feasibility is_mip v h) = lp_ h /\
  options_ (option_dual_feasibility is_mip v h) = options_ h.
Proof.
  unfold option_dual_feasibility.
  repeat match goal with |- context [if ?c then _ else _] => destruct c end;
    split; reflexivity.
Qed.

Lemma option_apply_cost_scale_frame (is_mip : bool) (dl : Z) (v : double) (h : Highs) :
  lp_ (option_apply_cost_scale is_mip dl v h) =
    (if dl =? 0 then lp_ h else userCostScale (lp_ h) (user_cost_scale (options_ h))) /\
  options_ (option_apply_cost_scale is_mip dl v h) = options_ h.
Proof.
  unfold option_apply_cost_scale. destruct (dl =? 0), is_mip; split; reflexivity.
Qed.

(** The LP and the options after the bound-scale half of optionChangeAction
    (lines 3013-3081). *)
Definition bound_scale_rejected (h : Highs) : bool :=
  negb (user_bound_scale (options_ h) =? user_bound_scale_ (lp_ h)) &&
  negb (userBoundScaleOk (lp_ h) (user_bound_scale (options_ h))
                         (infinite_bound (options_ h))).

Definition lp_after_bound_scale (h : Highs) : HighsLp :=
  if (user_bound_scale (options_ h) =? user_bound_scale_ (lp_ h)) || bound_scale_rejected h
  then lp_ h
  else userBoundScale (lp_ h) (user_bound_scale (options_ h)).

Definition cost_scale_rejected (h : Highs) : bool :=
  let lp := lp_after_bound_scale h in
  negb (user_cost_scale (options_ h) =? user_cost_scale_ lp) &&
  negb (userCostScaleOk lp (user_cost_scale (options_ h))
                        (small_matrix_value (options_ h)) (large_matrix_value (options_ h))
                        (infinite_cost (options_ h))).

Definition lp_after_cost_scale (h : Highs) : HighsLp :=
  let lp := lp_after_bound_scale h in
  if (user_cost_scale (options_ h) =? user_cost_scale_ lp) || cost_scale_rejected h
  then lp
  else userCostScale lp (user_cost_scale (options_ h)).

Definition option_bound_half (h : Highs) : bool * Highs :=
  let is_mip := isMip (lp_ h) in
  let changed_user_bound_scale :=
    negb (user_bound_scale (options_ h) =? user_bound_scale_ (lp_ h)) in
  let user_bound_scale_ok :=
    negb changed_user_bound_scale ||
    userBoundScaleOk (lp_ h) (user_bound_scale (options_ h)) (infinite_bound (options_ h)) in
  let dl_user_bound_scale :=
    if negb user_bound_scale_ok then 0
    else if changed_user_bound_scale
         then user_bound_scale (options_ h) - user_bound_scale_ (lp_ h)
         else 0 in
  let dl_user_bound_scale_value :=
    if negb user_bound_scale_ok then 1%float
    else if changed_user_bound_scale then pow2 dl_user_bound_scale
         else 1%float in
  let h :=
    if negb user_bound_scale_ok
    then set_options h (set_user_bound_scale (options_ h) (user_bound_scale_ (lp_ h)))
    else h in
  let h := option_primal_feasibility is_mip dl_user_bound_scale_value h in
  let h := option_mip_bound_scale is_mip dl_user_bound_scale h in
  let h := option_apply_bound_scale dl_user_bound_scale dl_user_bound_scale_value h in
  (user_bound_scale_ok, h).

Definition option_cost_half (is_mip user_bound_scale_ok : bool) (h : Highs)
  : HighsStatus.t * Highs :=
  let changed_user_cost_scale :=
    negb (user_cost_scale (options_ h) =? user_cost_scale_ (lp_ h)) in
  let user_cost_scale_ok :=
    negb changed_user_cost_scale ||
    userCostScaleOk (lp_ h) (user_cost_scale (options_ h))
                    (small_matrix_value (options_ h)) (large_matrix_value (options_ h))
                    (infinite_cost (options_ h)) in
  let dl_user_cost_scale :=
    if negb user_cost_scale_ok then 0
    else if changed_user_cost_scale
         then user_cost_scale (options_ h) - user_cost_scale_ (lp_ h)
         else 0 in
  let dl_user_cost_scale_value :=
    if negb user_cost_scale_ok then 1%float
    else if changed_user_cost_scale then pow2 dl_user_cost_scale
         else 1%float in
  let h :=
    if negb user_cost_scale_ok
    then set_options h (set_user_cost_scale (options_ h) (user_cost_scale_ (lp_ h)))
    else h in
  let h := option_dual_feasibility is_mip dl_user_cost_scale_value h in
  let h := option_apply_cost_scale is_mip dl_user_cost_scale dl_user_cost_scale_value h in
  if negb user_bound_scale_ok || negb user_cost_scale_ok then (HighsStatus.kError, h) else
  let h :=
    if valid_ (iis_ h) && negb (iis_strategy (options_ h) =? strategy_ (iis_ h))
    then set_iis h (iis_invalidate (iis_ h))
    else h in
  (HighsStatus.kOk, h).

Lemma optionChangeAction_halves (h : Highs) :
  optionChangeAction h =
  option_cost_half (isMip (lp_ h)) (fst (option_bound_half h)) (snd (option_bound_half h)).
Proof. reflexivity. Qed.

Lemma Z_eqb_sub_0 (a b : Z) : (a - b =? 0) = (a =? b).
Proof. destruct (Z.eqb_spec a b), (Z.eqb_spec (a - b) 0); try reflexivity; lia. Qed.

Ltac option_frames :=
  repeat first
    [ rewrite (proj1 (option_apply_bound_scale_frame _ _ _))
    | rewrite (proj2 (option_apply_bound_scale_frame _ _ _))
    | rewrite (proj1 (option_mip_bound_scale_frame _ _ _))
    | rewrite (proj2 (option_mip_bound_scale_frame _ _ _))
    | rewrite (proj1 (option_primal_feasibility_frame _ _ _))
    | rewrite (proj2 (option_primal_feasibility_frame _ _ _))
    | rewrite (proj1 (option_apply_cost_scale_frame _ _ _ _))
    | rewrite (proj2 (option_apply_cost_scale_frame _ _ _ _))
    | rewrite (proj1 (option_dual_feasibility_frame _ _ _))
    | rewrite (proj2 (option_dual_feasibility_frame _ _ _))
    | progress cbn [fst snd lp_ options_ set_options set_iis negb orb andb] ].

Lemma option_bound_half_spec (h : Highs) :
  fst (option_bound_half h) = negb (bound_scale_rejected h) /\
  lp_ (snd (option_bound_half h)) = lp_after_bound_scale h /\
  options_ (snd (option_bound_half h)) =
    (if bound_scale_rejected h
     then set_user_bound_scale (options_ h) (user_bound_scale_ (lp_ h))
     else options_ h).
Proof.
  unfold option_bound_half, lp_after_bound_scale, bound_scale_rejected.
  destruct (user_bound_scale (options_ h) =? user_bound_scale_ (lp_ h)) eqn:Ech;
    [|destruct (userBoundScaleOk (lp_ h) (user_bound_scale (options_ h))
                                 (infinite_bound (options_ h))) eqn:Eok];
    option_frames; rewrite ?Z_eqb_sub_0, ?Ech; auto.
Qed.

Lemma option_cost_half_spec (is_mip okb : bool) (h : Highs) :
  let rejected :=
    negb (user_cost_scale (options_ h) =? user_cost_scale_ (lp_ h)) &&
    negb (userCostScaleOk (lp_ h) (user_cost_scale (options_ h))
                          (small_matrix_value (options_ h)) (large_matrix_value (options_ h))
                          (infinite_cost (options_ h))) in
  fst (option_cost_half is_mip okb h) =
    (if negb okb || rejected then HighsStatus.kError else HighsStatus.kOk) /\
  lp_ (snd (option_cost_half is_mip okb h)) =
    (if (user_cost_scale (options_ h) =? user_cost_scale_ (lp_ h)) || rejected
     then lp_ h else userCostScale (lp_ h) (user_cost_scale (options_ h))) /\
  options_ (snd (option_cost_half is_mip okb h)) =
    (if rejected then set_user_cost_scale (options_ h) (user_cost_scale_ (lp_ h))
     else options_ h).
Proof.
  unfold option_cost_half.
  destruct (user_cost_scale (options_ h) =? user_cost_scale_ (lp_ h)) eqn:Ech;
    [|destruct (userCostScaleOk (lp_ h) (user_cost_scale (options_ h))
                  (small_matrix_value (options_ h)) (large_matrix_value (options_ h))
                  (infinite_cost (options_ h))) eqn:Eok];
    destruct okb; option_frames;
    try match goal with
        | |- context [if ?c then set_iis _ _ else _] => destruct c
        end;
    option_frames; rewrite ?Z_eqb_sub_0, ?Ech; auto.
Qed.

Lemma optionChangeAction_lp_options (h : Highs) :
  fst (optionChangeAction h) =
    (if bound_scale_rejected h || cost_scale_rejected h
     then HighsStatus.kError else HighsStatus.kOk) /\
  lp_ (snd (optionChangeAction h)) = lp_after_cost_scale h /\
  user_bound_scale (options_ (snd (optionChangeAction h))) =
    (if bound_scale_rejected h then user_bound_scale_ (lp_ h)
     else user_bound_scale (options_ h)) /\
  user_cost_scale (options_ (snd (optionChangeAction h))) =
    (if cost_scale_rejected h then user_cost_scale_ (lp_after_bound_scale h)
     else user_cost_scale (options_ h)).
Proof.
  rewrite optionChangeAction_halves.
  destruct (option_bound_half_spec h) as (Hok & Hlp & Hopt).
  pose proof (option_cost_half_spec (isMip (lp_ h)) (fst (option_bound_half h))
                (snd (option_bound_half h))) as Hc.
  cbv zeta in Hc. rewrite Hok, Hlp, Hopt in Hc. rewrite Hok.
  destruct Hc as (H1 & H2 & H3).
  unfold cost_scale_rejected, lp_after_cost_scale, cost_scale_rejected.
  destruct (bound_scale_rejected h) eqn:Erej; cbn [negb orb] in *;
    rewrite H1, H2, H3; cbn;
    repeat match goal with
           | |- context [if ?c then _ else _] => destruct c; cbn
           end; auto.
Qed.

(** *** The scale checks, from the specification *)

(** Modelled from the spec: [boundScaleOk], [costScaleOk],
    [HighsLp::userBoundScaleOk] and [HighsModel::userCostScaleOk], which are
    defined outside the embedded sources.  Section 3, Scaling: "user scaling
    never introduces infinite bounds or costs that overflow the configured
    infinite-bound/cost thresholds; requests that would must be refused":
    a check fails when the scaling takes some finite bound (cost) to the
    threshold or beyond.  The checks of the LP are for the exponent asked
    for, the LP being scaled by the difference with the exponent it
    records. *)
Hypothesis boundScaleOk_refuses :
  forall lower upper scale infinite_bound,
    scale <> 0 ->
    scaling_overflows lower scale infinite_bound \/
    scaling_overflows upper scale infinite_bound ->
    boundScaleOk lower upper scale infinite_bound = false.
Hypothesis costScaleOk_refuses :
  forall cost scale infinite_cost,
    scale <> 0 ->
    scaling_overflows cost scale infinite_cost ->
    costScaleOk cost scale infinite_cost = false.
Hypothesis userBoundScaleOk_refuses :
  forall lp scale infinite_bound,
    scale <> user_bound_scale_ lp ->
    lp_bound_scaling_overflows lp scale infinite_bound ->
    userBoundScaleOk lp scale infinite_bound = false.
Hypothesis userCostScaleOk_refuses :
  forall lp scale small_matrix_value large_matrix_value infinite_cost,
    scale <> user_cost_scale_ lp ->
    lp_cost_scaling_overflows lp scale infinite_cost ->
    userCostScaleOk lp scale small_matrix_value large_matrix_value infinite_cost = false.

(** An API call under a nonzero exponent whose scaling would overflow. *)
Definition bound_scaling_overflows (h : Highs) (bounds : list double * list double) : Prop :=
  user_bound_scale_ (lp_ h) <> 0 /\
  (scaling_overflows (fst bounds) (user_bound_scale_ (lp_ h)) (infinite_bound (options_ h)) \/
   scaling_overflows (snd bounds) (user_bound_scale_ (lp_ h)) (infinite_bound (options_ h))).

Definition cost_scaling_overflows (h : Highs) (cost : list double) : Prop :=
  user_cost_scale_ (lp_ h) <> 0 /\
  scaling_overflows cost (user_cost_scale_ (lp_ h)) (infinite_cost (options_ h)).

(** A change of the exponent in the options whose scaling would overflow. *)
Definition bound_change_overflows (h : Highs) : Prop :=
  user_bound_scale (options_ h) <> user_bound_scale_ (lp_ h) /\
  lp_bound_scaling_overflows (lp_ h) (user_bound_scale (options_ h))
                             (infinite_bound (options_ h)).

Definition cost_change_overflows (h : Highs) (lp : HighsLp) : Prop :=
  user_cost_scale (options_ h) <> user_cost_scale_ lp /\
  lp_cost_scaling_overflows lp (user_cost_scale (options_ h)) (infinite_cost (options_ h)).

Lemma bound_scaling_overflows_fails (h : Highs) (bounds : list double * list double) :
  bound_scaling_overflows h bounds -> bound_scale_fails h bounds.
Proof.
  intros [Hk Hov]. split; [exact Hk|]. apply boundScaleOk_refuses; assumption.
Qed.

Lemma cost_scaling_overflows_fails (h : Highs) (cost : list double) :
  cost_scaling_overflows h cost -> cost_scale_fails h cost.
Proof.
  intros [Hk Hov]. split; [exact Hk|]. apply costScaleOk_refuses; assumption.
Qed.

Lemma bound_change_overflows_rejected (h : Highs) :
  bound_change_overflows h -> bound_scale_rejected h = true.
Proof.
  intros [Hch Hov]. unfold bound_scale_rejected.
  rewrite (userBoundScaleOk_refuses Hch Hov).
  destruct (Z.eqb_spec (user_bound_scale (options_ h)) (user_bound_scale_ (lp_ h)));
    [contradiction | reflexivity].
Qed.

Lemma cost_change_overflows_rejected (h : Highs) :
  cost_change_overflows h (lp_after_bound_scale h) -> cost_scale_rejected h = true.
Proof.
  intros [Hch Hov]. unfold cost_scale_rejected.
  rewrite (userCostScaleOk_refuses _ _ Hch Hov).
  destruct (Z.eqb_spec (user_cost_scale (options_ h))
                       (user_cost_scale_ (lp_after_bound_scale h)));
    [contradiction | reflexivity].
Qed.

Lemma lp_after_bound_scale_rejected (h : Highs) :
  bound_scale_rejected h = true -> lp_after_bound_scale h = lp_ h.
Proof. intros H. unfold lp_after_bound_scale. rewrite H, orb_true_r. reflexivity. Qed.

Lemma lp_after_bound_scale_unchanged (h : Highs) :
  user_bound_scale (options_ h) = user_bound_scale_ (lp_ h) ->
  lp_after_bound_scale h = lp_ h /\ bound_scale_rejected h = false.
Proof.
  intros H. unfold lp_after_bound_scale, bound_scale_rejected.
  rewrite H, Z.eqb_refl. split; reflexivity.
Qed.

Lemma lp_after_bound_scale_accepted (h : Highs) :
  user_bound_scale (options_ h) <> user_bound_scale_ (lp_ h) ->
  userBoundScaleOk (lp_ h) (user_bound_scale (options_ h)) (infinite_bound (options_ h))
    = true ->
  lp_after_bound_scale h = userBoundScale (lp_ h) (user_bound_scale (options_ h)) /\
  bound_scale_rejected h = false.
Proof.
  intros Hch Hok. unfold lp_after_bound_scale, bound_scale_rejected. rewrite Hok.
  destruct (Z.eqb_spec (user_bound_scale (options_ h)) (user_bound_scale_ (lp_ h)));
    [contradiction|]. split; reflexivity.
Qed.

(** C5 (amended).  An API call made under a nonzero user bound-scale or
    cost-scale exponent (addCols, addRows, changeCosts, changeColBounds,
    changeRowBounds) for which the power-of-two scaling would take a finite
    bound or cost, as assessed, to the infinite-bound or infinite-cost
    threshold or beyond returns kError and leaves the Highs state as it was.
    On a change of the exponents in the options each exponent is treated on
    its own: a changed exponent whose scaling would take a bound (cost) of
    the LP to the threshold or beyond makes the call return kError, is
    reverted to the exponent stored in the LP and is not applied.  The LP is
    then as it was when the other exponent is unchanged or overflows as
    well; but a change of the other exponent that passes its check is
    applied all the same, so that the call returns kError with the costs
    (bounds) of the LP scaled. *)
Theorem user_scale_overflow_refused (h : Highs) :
  (forall n nz cost lower upper start index value,
     n <> 0 ->
     bound_scaling_overflows h
       (assessed_bounds h "Col" (num_col_ (lp_ h)) (interval_collection n 0 (n - 1))
                        (copy_array lower n) (copy_array upper n)) \/
     cost_scaling_overflows h
       (assessed_costs h (num_col_ (lp_ h)) (interval_collection n 0 (n - 1))
                       (copy_array cost n)) ->
     addColsInterface h n cost lower upper nz start index value
     = (HighsStatus.kError, h)) /\
  (forall n nz lower upper start index value,
     n <> 0 ->
     bound_scaling_overflows h
       (assessed_bounds h "Row" (num_row_ (lp_ h)) (interval_collection n 0 (n - 1))
                        (copy_array lower n) (copy_array upper n)) ->
     addRowsInterface h n lower upper nz start index value
     = (HighsStatus.kError, h)) /\
  (forall ic cost,
     0 < dataSize ic ->
     cost_scaling_overflows h (assessed_costs h 0 ic (copy_array cost (dataSize ic))) ->
     changeCostsInterface h ic cost = (HighsStatus.kError, h)) /\
  (forall ic lower upper,
     0 < dataSize ic ->
     bound_scaling_overflows h
       (assessed_bounds h "col" 0 ic
          (fst (sorted_bounds ic (copy_array lower (dataSize ic))
                                 (copy_array upper (dataSize ic))))
          (snd (sorted_bounds ic (copy_array lower (dataSize ic))
                                 (copy_array upper (dataSize ic))))) ->
     changeColBoundsInterface h ic lower upper = (HighsStatus.kError, h)) /\
  (forall ic lower upper,
     0 < dataSize ic ->
     bound_scaling_overflows h
       (assessed_bounds h "row" 0 ic
          (fst (sorted_bounds ic (copy_array lower (dataSize ic))
                                 (copy_array upper (dataSize ic))))
          (snd (sorted_bounds ic (copy_array lower (dataSize ic))
                                 (copy_array upper (dataSize ic))))) ->
     changeRowBoundsInterface h ic lower upper = (HighsStatus.kError, h)) /\
  (* only the bound exponent is changed, and overflows *)
  (bound_change_overflows h ->
   user_cost_scale (options_ h) = user_cost_scale_ (lp_ h) ->
   fst (optionChangeAction h) = HighsStatus.kError /\
   lp_ (snd (optionChangeAction h)) = lp_ h /\
   user_bound_scale (options_ (snd (optionChangeAction h))) = user_bound_scale_ (lp_ h) /\
   user_cost_scale (options_ (snd (optionChangeAction h))) = user_cost_scale (options_ h)) /\
  (* only the cost exponent is changed, and overflows *)
  (cost_change_overflows h (lp_ h) ->
   user_bound_scale (options_ h) = user_bound_scale_ (lp_ h) ->
   fst (optionChangeAction h) = HighsStatus.kError /\
   lp_ (snd (optionChangeAction h)) = lp_ h /\
   user_cost_scale (options_ (snd (optionChangeAction h))) = user_cost_scale_ (lp_ h) /\
   user_bound_scale (options_ (snd (optionChangeAction h))) = user_bound_scale (options_ h)) /\
  (* both exponents overflow *)
  (bound_change_overflows h -> cost_change_overflows h (lp_ h) ->
   fst (optionChangeAction h) = HighsStatus.kError /\
   lp_ (snd (optionChangeAction h)) = lp_ h /\
   user_bound_scale (options_ (snd (optionChangeAction h))) = user_bound_scale_ (lp_ h) /\
   user_cost_scale (options_ (snd (optionChangeAction h))) = user_cost_scale_ (lp_ h)) /\
  (* the bound exponent overflows, the change of the cost exponent passes *)
  (bound_change_overflows h ->
   user_cost_scale (options_ h) <> user_cost_scale_ (lp_ h) ->
   userCostScaleOk (lp_ h) (user_cost_scale (options_ h))
                   (small_matrix_value (options_ h)) (large_matrix_value (options_ h))
                   (infinite_cost (options_ h)) = true ->
   fst (optionChangeAction h) = HighsStatus.kError /\
   lp_ (snd (optionChangeAction h)) = userCostScale (lp_ h) (user_cost_scale (options_ h)) /\
   user_bound_scale (options_ (snd (optionChangeAction h))) = user_bound_scale_ (lp_ h) /\
   user_cost_scale (options_ (snd (optionChangeAction h))) = user_cost_scale (options_ h)) /\
  (* the change of the bound exponent passes, the cost exponent overflows *)
  (user_bound_scale (options_ h) <> user_bound_scale_ (lp_ h) ->
   userBoundScaleOk (lp_ h) (user_bound_scale (options_ h)) (infinite_bound (options_ h))
     = true ->
   let lp := userBoundScale (lp_ h) (user_bound_scale (options_ h)) in
   cost_change_overflows h lp ->
   fst (optionChangeAction h) = HighsStatus.kError /\
   lp_ (snd (optionChangeAction h)) = lp /\
   user_bound_scale (options_ (snd (optionChangeAction h))) = user_bound_scale (options_ h) /\
   user_cost_scale (options_ (snd (optionChangeAction h))) = user_cost_scale_ lp).
Proof.
  destruct (optionChangeAction_lp_options h) as (H1 & H2 & H3 & H4).
  split; [intros n nz cost lower upper start index value Hn [Hb | Hc];
          apply addCols_scale_refused;
          [exact Hn | left; apply bound_scaling_overflows_fails; exact Hb
          | exact Hn | right; apply cost_scaling_overflows_fails; exact Hc]|].
  split; [intros; apply addRows_scale_refused;
          [assumption | apply bound_scaling_overflows_fails; assumption]|].
  split; [intros; apply changeCosts_scale_refused;
          [assumption | apply cost_scaling_overflows_fails; assumption]|].
  split; [intros; apply changeColBounds_scale_refused;
          [assumption | apply bound_scaling_overflows_fails; assumption]|].
  split; [intros; apply changeRowBounds_scale_refused;
          [assumption | apply bound_scaling_overflows_fails; assumption]|].
  rewrite H1, H2, H3, H4. clear H1 H2 H3 H4.
  split; [|split; [|split; [|split]]].
  - intros Hb Hsame.
    pose proof (bound_change_overflows_rejected Hb) as Hrej.
    pose proof (lp_after_bound_scale_rejected h Hrej) as Hlp.
    assert (Hc : cost_scale_rejected h = false).
    { unfold cost_scale_rejected. rewrite Hlp, Hsame, Z.eqb_refl. reflexivity. }
    unfold lp_after_cost_scale. rewrite Hrej, Hc, Hlp, Hsame, Z.eqb_refl.
    repeat split; reflexivity.
  - intros Hc Hsame.
    destruct (lp_after_bound_scale_unchanged h Hsame) as [Hlp Hrej].
    rewrite <- Hlp in Hc.
    pose proof (cost_change_overflows_rejected Hc) as Hcrej.
    unfold lp_after_cost_scale. rewrite Hrej, Hcrej, Hlp. cbn [orb]. rewrite ?orb_true_r.
    repeat split; reflexivity.
  - intros Hb Hc.
    pose proof (bound_change_overflows_rejected Hb) as Hrej.
    pose proof (lp_after_bound_scale_rejected h Hrej) as Hlp.
    rewrite <- Hlp in Hc.
    pose proof (cost_change_overflows_rejected Hc) as Hcrej.
    unfold lp_after_cost_scale. rewrite Hrej, Hcrej, Hlp. cbn [orb]. rewrite ?orb_true_r.
    repeat split; reflexivity.
  - intros Hb Hch Hok.
    pose proof (bound_change_overflows_rejected Hb) as Hrej.
    pose proof (lp_after_bound_scale_rejected h Hrej) as Hlp.
    assert (Hc : cost_scale_rejected h = false).
    { unfold cost_scale_rejected. rewrite Hlp, Hok, andb_false_r. reflexivity. }
    unfold lp_after_cost_scale. rewrite Hrej, Hc, Hlp.
    destruct (Z.eqb_spec (user_cost_scale (options_ h)) (user_cost_scale_ (lp_ h)));
      [contradiction|].
    repeat split; reflexivity.
  - intros Hch Hok lp Hc.
    destruct (lp_after_bound_scale_accepted h Hch Hok) as [Hlp Hrej].
    fold lp in Hlp. rewrite <- Hlp in Hc.
    pose proof (cost_change_overflows_rejected Hc) as Hcrej.
    unfold lp_after_cost_scale. rewrite Hrej, Hcrej, Hlp. cbn [orb]. rewrite ?orb_true_r.
    repeat split; reflexivity.
Qed.

End AddChange.

(** ** Reference models of the LP utilities

    The functions below stand for LP utilities of the repository whose
    bodies are not among the embedded sources.  They are used to evaluate
    the embedded code on concrete states (witnesses and counterexamples);
    the theorems above hold for every implementation, and where they rest
    on a hypothesis from the specification the reference model is shown to
    meet it. *)

(** Modelled from the spec: [dataSize] of an index collection (util/): the
    number of entries an interval, a set or a mask designates data for
    (section 4.G, "the index collection admits three forms"). *)
Definition example_dataSize (ic : HighsIndexCollection) : Z :=
  if is_set_ ic then set_num_entries_ ic
  else if is_interval_ ic then to_ ic - from_ ic + 1
  else dimension_ ic.

(** Modelled from the spec: [assessCosts] (section 4.C: "validate against
    infinite-bound/cost thresholds and return normalized copies";
    [has_infinite_cost_] iff some cost has magnitude at least the
    infinite-cost threshold).  Costs are accepted as they are. *)
Definition example_assessCosts (o : HighsOptions) (ml_col_os : Z)
  (ic : HighsIndexCollection) (cost : list double) (infinite_cost : double)
  : HighsStatus.t * list double * bool :=
  (HighsStatus.kOk, cost, existsb (fun c => (infinite_cost <=? abs c)%float) cost).

(** Modelled from the spec: [assessBounds] (section 4.C): bounds at or
    beyond the infinite-bound threshold become infinite. *)
Definition example_assessBounds (o : HighsOptions) (type : string) (ml_ix_os : Z)
  (ic : HighsIndexCollection) (lower upper : list double) (infinite_bound : double)
  : HighsStatus.t * list double * list double :=
  (HighsStatus.kOk,
   map (fun l => if (l <=? - infinite_bound)%float then (- kHighsInf)%float else l) lower,
   map (fun u => if (infinite_bound <=? u)%float then kHighsInf else u) upper).

(** Modelled from the spec: [boundScaleOk] and [costScaleOk] (section 3,
    Scaling: "user scaling never introduces infinite bounds or costs that
    overflow the configured infinite-bound/cost thresholds"): no finite bound
    (cost) times 2^scale reaches the threshold. *)
Definition example_scaleOk (v : list double) (scale : Z) (infinite : double) : bool :=
  forallb (fun x => negb (abs x <? kHighsInf)%float ||
                    (abs (x * pow2 scale) <? infinite)%float) v.

Definition example_boundScaleOk (lower upper : list double) (bound_scale : Z)
  (infinite_bound : double) : bool :=
  (bound_scale =? 0) ||
  (example_scaleOk lower bound_scale infinite_bound &&
   example_scaleOk upper bound_scale infinite_bound).

Definition example_costScaleOk (cost : list double) (cost_scale : Z)
  (infinite_cost : double) : bool :=
  (cost_scale =? 0) || example_scaleOk cost cost_scale infinite_cost.

(** [v[from + k] = data[k]] for the entries of an interval. *)
Fixpoint write_from {A : Type} (v : list A) (from : Z) (data : list A) : list A :=
  match data with
  | [] => v
  | x :: data' => write_from (vset v from x) (from + 1) data'
  end.

(** Modelled from the spec: [changeLpCosts], [changeLpColBounds],
    [changeLpRowBounds] and [changeLpIntegrality] for an interval (section
    4.G: "append/overwrite into the LP"). *)
Definition example_changeLpCosts (lp : HighsLp) (ic : HighsIndexCollection)
  (cost : list double) (infinite_cost : double) : HighsLp :=
  set_col_cost_ lp (write_from (col_cost_ lp) (from_ ic) cost).

Definition example_changeLpColBounds (lp : HighsLp) (ic : HighsIndexCollection)
  (lower upper : list double) : HighsLp :=
  set_col_upper_ (set_col_lower_ lp (write_from (col_lower_ lp) (from_ ic) lower))
                 (write_from (col_upper_ lp) (from_ ic) upper).

Definition example_changeLpRowBounds (lp : HighsLp) (ic : HighsIndexCollection)
  (lower upper : list double) : HighsLp :=
  set_row_upper_ (set_row_lower_ lp (write_from (row_lower_ lp) (from_ ic) lower))
                 (write_from (row_upper_ lp) (from_ ic) upper).

(** The data of an interval are already in index order. *)
Definition example_sortSetData (num_entries : Z) (set : list Z)
  (lower upper : list double) : list double * list double := (lower, upper).

(** Without a valid basis, setNonbasicStatusInterface returns at once
    (line 1224). *)
Definition example_setNonbasicStatusInterface (h : Highs) (ic : HighsIndexCollection)
  (columns : bool) : Highs := h.

(** Modelled from the spec: the tail of addColsInterface and
    addRowsInterface (section 4.G: "append ... into the LP, ... invalidate
    derived state").  The matrix belongs to HighsSparseMatrix and is left
    alone. *)
Definition example_addCols_append (h : Highs) (ext_num_new_col : Z)
  (cost lower upper : list double) (ext_num_new_nz : Z)
  (a_start a_index : option (list Z)) (a_value : option (list double))
  (local_has_infinite_cost : bool) (return_status : HighsStatus.t)
  : HighsStatus.t * Highs :=
  let lp := lp_ h in
  let lp := set_col_cost_ lp (col_cost_ lp ++ cost) in
  let lp := set_col_lower_ lp (col_lower_ lp ++ lower) in
  let lp := set_col_upper_ lp (col_upper_ lp ++ upper) in
  let lp := set_num_col_ lp (num_col_ lp + ext_num_new_col) in
  let lp := set_has_infinite_cost_ lp (has_infinite_cost_ lp || local_has_infinite_cost) in
  (return_status, invalidateModelStatusSolutionAndInfo (set_lp h lp)).

Definition example_addRows_append (h : Highs) (ext_num_new_row : Z)
  (lower upper : list double) (ext_num_new_nz : Z)
  (ar_start ar_index : option (list Z)) (ar_value : option (list double))
  (return_status : HighsStatus.t) : HighsStatus.t * Highs :=
  let lp := lp_ h in
  let lp := set_row_lower_ lp (row_lower_ lp ++ lower) in
  let lp := set_row_upper_ lp (row_upper_ lp ++ upper) in
  let lp := set_num_row_ lp (num_row_ lp + ext_num_new_row) in
  (return_status, invalidateModelStatusSolutionAndInfo (set_lp h lp)).

(** Modelled from the spec: [HighsLp::isMip] (section 3: a column kind other
    than continuous makes the model a MIP; HMpsFF.cpp 109-117 decides
    [is_mip] the same way). *)
Definition example_isMip (lp : HighsLp) : bool :=
  existsb (fun t => match t with HighsVarType.kContinuous => false | _ => true end)
          (integrality_ lp).

(** Modelled from the spec: [HighsLp::userBoundScaleOk],
    [HighsLp::userBoundScale], [HighsModel::userCostScaleOk] and
    [HighsModel::userCostScale] (section 3, Scaling: "applying user scale k
    multiplies bounds/costs by 2^k"; the LP records the exponent applied, so
    a new exponent scales by the difference). *)
Definition example_userBoundScaleOk (lp : HighsLp) (user_bound_scale : Z)
  (infinite_bound : double) : bool :=
  let dl := user_bound_scale - user_bound_scale_ lp in
  example_boundScaleOk (col_lower_ lp) (col_upper_ lp) dl infinite_bound &&
  example_boundScaleOk (row_lower_ lp) (row_upper_ lp) dl infinite_bound.

Definition example_userBoundScale (lp : HighsLp) (user_bound_scale : Z) : HighsLp :=
  let dl := user_bound_scale - user_bound_scale_ lp in
  if dl =? 0 then lp else
  let v := pow2 dl in
  let lp := set_col_lower_ lp (scale_all (col_lower_ lp) v) in
  let lp := set_col_upper_ lp (scale_all (col_upper_ lp) v) in
  let lp := set_row_lower_ lp (scale_all (row_lower_ lp) v) in
  let lp := set_row_upper_ lp (scale_all (row_upper_ lp) v) in
  set_user_bound_scale_ lp user_bound_scale.

Definition example_userCostScaleOk (lp : HighsLp) (user_cost_scale : Z)
  (small_matrix_value large_matrix_value infinite_cost : double) : bool :=
  example_costScaleOk (col_cost_ lp) (user_cost_scale - user_cost_scale_ lp) infinite_cost.

Definition example_userCostScale (lp : HighsLp) (user_cost_scale : Z) : HighsLp :=
  let dl := user_cost_scale - user_cost_scale_ lp in
  if dl =? 0 then lp else
  set_user_cost_scale_ (set_col_cost_ lp (scale_all (col_cost_ lp) (pow2 dl)))
                       user_cost_scale.

Definition example_iis_invalidate (i : HighsIis) : HighsIis := mkIis false (strategy_ i).

(** The embedded interface functions over the reference models. *)
Definition example_addColsInterface :=
  addColsInterface example_interpretCallStatus example_assessCosts example_assessBounds
    example_boundScaleOk example_costScaleOk example_addCols_append.

Definition example_addRowsInterface :=
  addRowsInterface example_interpretCallStatus example_assessBounds
    example_boundScaleOk example_addRows_append.

Definition example_changeCostsInterface :=
  changeCostsInterface example_interpretCallStatus example_assessCosts
    example_costScaleOk example_dataSize example_changeLpCosts example_updateStatus.

Definition example_changeColBoundsInterface :=
  changeColBoundsInterface example_interpretCallStatus example_assessBounds
    example_boundScaleOk example_dataSize example_sortSetData example_changeLpColBounds
    example_updateStatus example_setNonbasicStatusInterface.

Definition example_changeRowBoundsInterface :=
  changeRowBoundsInterface example_interpretCallStatus example_assessBounds
    example_boundScaleOk example_dataSize example_sortSetData example_changeLpRowBounds
    example_updateStatus example_setNonbasicStatusInterface.

Definition example_optionChangeAction :=
  optionChangeAction example_isMip example_userBoundScaleOk example_userBoundScale
    example_userCostScaleOk example_userCostScale example_iis_invalidate.

(** *** Examples for the validation and the scale checks *)

Lemma add_interface_validation_witness :
  example_addColsInterface example_highs 1 None (Some [0%float]) (Some [1%float])
                           0 None None None
  = (HighsStatus.kError, example_highs) /\
  example_addColsInterface example_highs 0 None None None 0 None None None
  = (HighsStatus.kOk, example_highs) /\
  example_addRowsInterface example_highs 1 (Some [0%float]) (Some [1%float])
                           (-1) None None None
  = (HighsStatus.kError, example_highs).
Proof.
  pose proof (add_interface_validation example_interpretCallStatus example_assessCosts
                example_assessBounds example_boundScaleOk example_costScaleOk
                example_addCols_append example_addRows_append example_highs 1 0
                None (Some [0%float]) (Some [1%float]) None None None)
    as (_ & _ & Hnull & _).
  pose proof (add_interface_validation example_interpretCallStatus example_assessCosts
                example_assessBounds example_boundScaleOk example_costScaleOk
                example_addCols_append example_addRows_append example_highs 0 0
                None None None None None None)
    as (_ & Hzero & _).
  pose proof (add_interface_validation example_interpretCallStatus example_assessCosts
                example_assessBounds example_boundScaleOk example_costScaleOk
                example_addCols_append example_addRows_append example_highs 1 (-1)
                None (Some [0%float]) (Some [1%float]) None None None)
    as (_ & _ & _ & _ & _ & Hneg & _).
  split; [|split].
  - apply Hnull; [lia | left; reflexivity].
  - apply Hzero; [reflexivity | lia].
  - apply Hneg. right. lia.
Defined.

(** C9 as stated fails where its cases overlap, since the tests come in a
    fixed order.  With no new column and a negative number of nonzeros the
    call is an error, not kOk; with no new column and five nonzeros it
    returns kOk although the matrix arrays are null, and also on a model
    without rows.  The same holds of addRowsInterface, with a model that has
    columns. *)
Lemma add_interface_zero_count_cases :
  example_addColsInterface example_highs 0 None None None (-1) None None None
  = (HighsStatus.kError, example_highs) /\
  example_addColsInterface example_highs 0 None None None 5 None None None
  = (HighsStatus.kOk, example_highs) /\
  num_row_ (lp_ example_highs_no_rows) = 0 /\
  example_addColsInterface example_highs_no_rows 0 None None None
                           5 (Some [0]) (Some [0]) (Some [1%float])
  = (HighsStatus.kOk, example_highs_no_rows) /\
  example_addRowsInterface example_highs 0 None None (-1) None None None
  = (HighsStatus.kError, example_highs) /\
  example_addRowsInterface example_highs 0 None None 5 None None None
  = (HighsStatus.kOk, example_highs).
Proof. vm_compute. repeat split; reflexivity. Qed.

(** [example_highs] with bounds scaled by 2^60 and costs by 2^1 recorded in
    the LP and in the options. *)
Definition example_lp_user_scaled : HighsLp :=
  set_user_cost_scale_ (set_user_bound_scale_ example_lp 60) 1.

Definition example_highs_user_scaled : Highs :=
  set_options (set_lp example_highs example_lp_user_scaled)
    (set_user_cost_scale (set_user_bound_scale example_options 60) 1).

(** The user asks for bound exponent 70 and cost exponent 1 in one call, on
    a model that has no user scaling yet. *)
Definition example_highs_new_exponents : Highs :=
  set_options example_highs
    (set_user_cost_scale (set_user_bound_scale example_options 70) 1).

(** The user asks for bound exponent 70 alone. *)
Definition example_highs_new_bound_exponent : Highs :=
  set_options example_highs (set_user_bound_scale example_options 70).

(** The reference models of the scale checks refuse a scaling that
    overflows. *)
Lemma example_scaleOk_overflows (v : list double) (scale : Z) (infinite : double) :
  scaling_overflows v scale infinite -> example_scaleOk v scale infinite = false.
Proof.
  intros (x & Hin & Hfin & Hov). unfold example_scaleOk.
  apply not_true_is_false. intros Hall.
  rewrite forallb_forall in Hall. specialize (Hall x Hin).
  rewrite Hfin, (float_leb_not_ltb Hov) in Hall. discriminate.
Qed.

Lemma example_boundScaleOk_refuses (lower upper : list double) (scale : Z)
  (infinite_bound : double) :
  scale <> 0 ->
  scaling_overflows lower scale infinite_bound \/
  scaling_overflows upper scale infinite_bound ->
  example_boundScaleOk lower upper scale infinite_bound = false.
Proof.
  intros Hk Hov. unfold example_boundScaleOk.
  destruct (Z.eqb_spec scale 0); [contradiction|]. cbn [orb].
  destruct Hov as [H | H]; rewrite (example_scaleOk_overflows H);
    rewrite ?andb_false_r; reflexivity.
Qed.

Lemma example_costScaleOk_refuses (cost : list double) (scale : Z) (infinite_cost : double) :
  scale <> 0 ->
  scaling_overflows cost scale infinite_cost ->
  example_costScaleOk cost scale infinite_cost = false.
Proof.
  intros Hk Hov. unfold example_costScaleOk.
  destruct (Z.eqb_spec scale 0); [contradiction|]. cbn [orb].
  apply example_scaleOk_overflows. exact Hov.
Qed.

Lemma example_userBoundScaleOk_refuses (lp : HighsLp) (scale : Z) (infinite_bound : double) :
  scale <> user_bound_scale_ lp ->
  lp_bound_scaling_overflows lp scale infinite_bound ->
  example_userBoundScaleOk lp scale infinite_bound = false.
Proof.
  intros Hk Hov. unfold example_userBoundScaleOk.
  assert (Hdl : scale - user_bound_scale_ lp <> 0) by lia.
  destruct Hov as [H | [H | [H | H]]].
  - rewrite (@example_boundScaleOk_refuses (col_lower_ lp) (col_upper_ lp) _ _ Hdl
               (or_introl H)). reflexivity.
  - rewrite (@example_boundScaleOk_refuses (col_lower_ lp) (col_upper_ lp) _ _ Hdl
               (or_intror H)). reflexivity.
  - rewrite (@example_boundScaleOk_refuses (row_lower_ lp) (row_upper_ lp) _ _ Hdl
               (or_introl H)). apply andb_false_r.
  - rewrite (@example_boundScaleOk_refuses (row_lower_ lp) (row_upper_ lp) _ _ Hdl
               (or_intror H)). apply andb_false_r.
Qed.

Lemma example_userCostScaleOk_refuses (lp : HighsLp) (scale : Z)
  (small_matrix_value large_matrix_value infinite_cost : double) :
  scale <> user_cost_scale_ lp ->
  lp_cost_scaling_overflows lp scale infinite_cost ->
  example_userCostScaleOk lp scale small_matrix_value large_matrix_value infinite_cost
  = false.
Proof.
  intros Hk Hov. unfold example_userCostScaleOk.
  apply example_costScaleOk_refuses; [lia | exact Hov].
Qed.

Lemma user_scale_overflow_refused_witness :
  example_addColsInterface example_highs_user_scaled 1
    (Some [1%float]) (Some [0%float]) (Some [1000%float]) 0 None None None
  = (HighsStatus.kError, example_highs_user_scaled) /\
  example_changeCostsInterface example_highs_user_scaled (interval_collection 2 0 0)
    (Some [6e19%float])
  = (HighsStatus.kError, example_highs_user_scaled) /\
  (let r := example_optionChangeAction example_highs_new_bound_exponent in
   fst r = HighsStatus.kError /\
   lp_ (snd r) = lp_ example_highs_new_bound_exponent /\
   user_bound_scale (options_ (snd r)) = 0 /\
   user_cost_scale (options_ (snd r)) = 0) /\
  (let r := example_optionChangeAction example_highs_new_exponents in
   fst r = HighsStatus.kError /\
   lp_ (snd r) = example_userCostScale (lp_ example_highs_new_exponents) 1 /\
   user_bound_scale (options_ (snd r)) = 0 /\
   user_cost_scale (options_ (snd r)) = 1).
Proof.
  pose proof (@user_scale_overflow_refused example_interpretCallStatus example_assessCosts
                example_assessBounds example_boundScaleOk example_costScaleOk
                example_dataSize example_sortSetData example_changeLpCosts
                example_changeLpColBounds example_changeLpRowBounds example_updateStatus
                example_setNonbasicStatusInterface example_addCols_append
                example_addRows_append example_isMip example_userBoundScaleOk
                example_userBoundScale example_userCostScaleOk example_userCostScale
                example_iis_invalidate
                example_boundScaleOk_refuses example_costScaleOk_refuses
                example_userBoundScaleOk_refuses example_userCostScaleOk_refuses
                example_highs_user_scaled)
    as (Hcols & _ & Hcosts & _).
  pose proof (@user_scale_overflow_refused example_interpretCallStatus example_assessCosts
                example_assessBounds example_boundScaleOk example_costScaleOk
                example_dataSize example_sortSetData example_changeLpCosts
                example_changeLpColBounds example_changeLpRowBounds example_updateStatus
                example_setNonbasicStatusInterface example_addCols_append
                example_addRows_append example_isMip example_userBoundScaleOk
                example_userBoundScale example_userCostScaleOk example_userCostScale
                example_iis_invalidate
                example_boundScaleOk_refuses example_costScaleOk_refuses
                example_userBoundScaleOk_refuses example_userCostScaleOk_refuses
                example_highs_new_bound_exponent)
    as (_ & _ & _ & _ & _ & Hopt & _).
  pose proof (@user_scale_overflow_refused example_interpretCallStatus example_assessCosts
                example_assessBounds example_boundScaleOk example_costScaleOk
                example_dataSize example_sortSetData example_changeLpCosts
                example_changeLpColBounds example_changeLpRowBounds example_updateStatus
                example_setNonbasicStatusInterface example_addCols_append
                example_addRows_append example_isMip example_userBoundScaleOk
                example_userBoundScale example_userCostScaleOk example_userCostScale
                example_iis_invalidate
                example_boundScaleOk_refuses example_costScaleOk_refuses
                example_userBoundScaleOk_refuses example_userCostScaleOk_refuses
                example_highs_new_exponents)
    as (_ & _ & _ & _ & _ & _ & _ & _ & Hboth & _).
  split; [|split; [|split]].
  - apply Hcols; [lia|]. left. split; [cbn; lia|]. right.
    exists 1000%float. split; [vm_compute; left; reflexivity|].
    split; vm_compute; reflexivity.
  - apply Hcosts; [reflexivity|]. split; [cbn; lia|].
    exists 6e19%float. split; [vm_compute; left; reflexivity|].
    split; vm_compute; reflexivity.
  - apply Hopt; [|reflexivity]. split; [cbn; lia|]. right. left.
    exists 4%float. split; [vm_compute; left; reflexivity|].
    split; vm_compute; reflexivity.
  - apply Hboth; [|cbn; lia | vm_compute; reflexivity].
    split; [cbn; lia|]. right. left.
    exists 4%float. split; [vm_compute; left; reflexivity|].
    split; vm_compute; reflexivity.
Defined.

(** C5 as stated fails for a change of both exponents in one call.  Bound
    exponent 70 is refused (the upper bound 4 of the columns times 2^70 is
    beyond the infinite bound 1e20), cost exponent 1 is fine.  The call
    returns kError and the bound exponent is reverted to 0, the exponent
    stored in the LP; yet the LP is not as it was: its costs have been
    doubled and it records cost exponent 1. *)
Lemma option_change_error_still_applies_other_scale :
  let r := example_optionChangeAction example_highs_new_exponents in
  user_bound_scale (options_ example_highs_new_exponents) = 70 /\
  user_bound_scale_ (lp_ example_highs_new_exponents) = 0 /\
  col_upper_ (lp_ example_highs_new_exponents) = [4%float; 4%float] /\
  (infinite_bound (options_ example_highs_new_exponents) <=? abs (4 * pow2 70))%float
    = true /\
  fst r = HighsStatus.kError /\
  user_bound_scale (options_ (snd r)) = 0 /\
  col_cost_ (lp_ example_highs_new_exponents) = [1%float; 1%float] /\
  col_cost_ (lp_ (snd r)) = [2%float; 2%float] /\
  user_cost_scale_ (lp_ (snd r)) = 1.
Proof. vm_compute. repeat split; reflexivity. Qed.

(* ================================================================== *)
(** * The KKT check of an LP solution (lpKktCheck)                     *)
(* ================================================================== *)

(** ** lpKktCheck *)

(** [const double max_allowed_tolerance_relative_violation = 1e2;] (line
    2637) *)
Definition max_allowed_tolerance_relative_violation : double := 100%float.

(** The five tolerances that lpKktCheck works with. *)
Record KktTolerances : Type := mkKktTolerances {
  kkt_primal_feasibility_tolerance : double;
  kkt_dual_feasibility_tolerance : double;
  kkt_primal_residual_tolerance : double;
  kkt_dual_residual_tolerance : double;
  kkt_optimality_tolerance : double
}.

Section KktCheck.

(** A constant and two functions of the repository defined outside the
    embedded sources.  [getLpKktFailures options lp solution basis info
    get_residuals] yields the info with the KKT failure measures filled in
    (its [primal_dual_errors] result is not used by lpKktCheck). *)
Variable kDefaultKktTolerance : double.
Variable objectiveValue : HighsLp -> list double -> double.
Variable getLpKktFailures :
  HighsOptions -> HighsLp -> HighsSolution -> HighsBasis -> HighsInfo -> bool -> HighsInfo.

(** Lines 2591-2602. *)
Definition kkt_tolerances (o : HighsOptions) : KktTolerances :=
  if negb (kkt_tolerance o =? kDefaultKktTolerance)%float
  then mkKktTolerances (kkt_tolerance o) (kkt_tolerance o) (kkt_tolerance o)
                       (kkt_tolerance o) (kkt_tolerance o)
  else mkKktTolerances (primal_feasibility_tolerance o) (dual_feasibility_tolerance o)
                       (primal_residual_tolerance o) (dual_residual_tolerance o)
                       (optimality_tolerance o).

Definition have_residual_errors (info : HighsInfo) : bool :=
  negb (num_primal_residual_errors info =? kHighsIllegalResidualCount).

(** [max_primal_tolerance_relative_violation] as lines 2638-2835 leave it. *)
Definition max_primal_tolerance_relative_violation (basis_valid : bool)
  (info : HighsInfo) (tol : KktTolerances) : double :=
  let m := 0%float in
  if basis_valid then
    let m :=
      if 0 <? num_primal_infeasibilities info
      then std_max (max_primal_infeasibility info / kkt_primal_feasibility_tolerance tol)%float m
      else m in
    if have_residual_errors info
    then std_max (max_relative_primal_residual_error info
                  / kkt_primal_residual_tolerance tol)%float m
    else m
  else
    let m := std_max (max_relative_primal_infeasibility info
                      / kkt_primal_feasibility_tolerance tol)%float m in
    std_max (max_relative_primal_residual_error info / kkt_primal_residual_tolerance tol)%float m.

(** [max_dual_tolerance_relative_violation] likewise. *)
Definition max_dual_tolerance_relative_violation (basis_valid : bool)
  (info : HighsInfo) (tol : KktTolerances) : double :=
  let m := 0%float in
  if basis_valid then
    let m :=
      if 0 <? num_dual_infeasibilities info
      then std_max (max_dual_infeasibility info / kkt_dual_feasibility_tolerance tol)%float m
      else m in
    if have_residual_errors info
    then std_max (max_relative_dual_residual_error info / kkt_dual_residual_tolerance tol)%float m
    else m
  else
    let m := std_max (max_relative_dual_infeasibility info
                      / kkt_dual_feasibility_tolerance tol)%float m in
    std_max (max_relative_dual_residual_error info / kkt_dual_residual_tolerance tol)%float m.

(** [primal_dual_objective_tolerance_relative_violation] (2695-2696 with a
    basis, 2812-2814 without). *)
Definition primal_dual_objective_tolerance_relative_violation (basis_valid : bool)
  (info : HighsInfo) (tol : KktTolerances) : double :=
  if basis_valid
  then (primal_dual_objective_error info / kkt_optimality_tolerance tol)%float
  else if (kkt_optimality_tolerance tol <? primal_dual_objective_error info)%float
       then (primal_dual_objective_error info / kkt_optimality_tolerance tol)%float
       else 0%float.

(** [max_tolerance_relative_violation], lines 2836-2842. *)
Definition max_tolerance_relative_violation (basis_valid : bool)
  (info : HighsInfo) (tol : KktTolerances) : double :=
  let m := primal_dual_objective_tolerance_relative_violation basis_valid info tol in
  let m := std_max (max_primal_tolerance_relative_violation basis_valid info tol) m in
  std_max (max_dual_tolerance_relative_violation basis_valid info tol) m.

(** The primal and dual solution status as lines 2732-2750 (with a basis)
    and 2823-2834 (without) set them. *)
Definition kkt_solution_statuses (basis_valid : bool) (tol : KktTolerances)
  (info : HighsInfo) : HighsInfo :=
  let max_primal := max_primal_tolerance_relative_violation basis_valid info tol in
  let max_dual := max_dual_tolerance_relative_violation basis_valid info tol in
  let primal_over := (max_allowed_tolerance_relative_violation <? max_primal)%float in
  let dual_over := (max_allowed_tolerance_relative_violation <? max_dual)%float in
  if basis_valid then
    let info :=
      if negb (num_primal_infeasibilities info =? 0) then info
      else set_primal_solution_status info kSolutionStatusFeasible in
    let info :=
      if negb (num_dual_infeasibilities info =? 0) then info
      else set_dual_solution_status info kSolutionStatusFeasible in
    let info :=
      if primal_over then set_primal_solution_status info kSolutionStatusInfeasible
      else info in
    if dual_over then set_dual_solution_status info kSolutionStatusInfeasible else info
  else
    let info :=
      set_primal_solution_status info
        (if primal_over then kSolutionStatusInfeasible else kSolutionStatusFeasible) in
    set_dual_solution_status info
      (if dual_over then kSolutionStatusInfeasible else kSolutionStatusFeasible).

(** The info that the check works on: the objective value of the primal
    solution, then the KKT failure measures (lines 2603-2608). *)
Definition kkt_info (h : Highs) : HighsInfo :=
  getLpKktFailures (options_ h) (lp_ h) (solution_ h) (basis_ h)
    (set_objective_function_value (info_ h)
       (objectiveValue (lp_ h) (col_value (solution_ h))))
    (negb (valid (basis_ h))).

(** [Highs::lpKktCheck], lines 2583-2869.  Logging, and the asserts and the
    local [unexpected_error_if_optimal] that only feed it, are left out. *)
Definition lpKktCheck (h : Highs) : HighsStatus.t * Highs :=
  if negb (value_valid (solution_ h)) then (HighsStatus.kOk, h) else
  let tol := kkt_tolerances (options_ h) in
  let get_residuals := negb (valid (basis_ h)) in
  let info := kkt_info h in
  let h := set_info h info in
  let h :=
    match model_status_ h with
    | HighsModelStatus.kUnboundedOrInfeasible =>
        if (num_primal_infeasibilities info =? 0) &&
           (negb get_residuals || (num_primal_residual_errors info =? 0))
        then set_model_status h HighsModelStatus.kUnbounded
        else h
    | _ => h
    end in
  let h := set_info h (kkt_solution_statuses (valid (basis_ h)) tol info) in
  let m := max_tolerance_relative_violation (valid (basis_ h)) info tol in
  (* Now see whether optimality is compromised or permitted *)
  let h :=
    match model_status_ h with
    | HighsModelStatus.kOptimal =>
        if (max_allowed_tolerance_relative_violation <? m)%float
        then set_model_status h HighsModelStatus.kUnknown
        else h
    | HighsModelStatus.kUnknown =>
        if (m <=? max_allowed_tolerance_relative_violation)%float
        then set_model_status h HighsModelStatus.kOptimal
        else h
    | _ => h
    end in
  (HighsStatus.kOk, h).

(** ** The violation categories *)


Definition exceeds_margin (r : double) : bool :=
  (max_allowed_tolerance_relative_violation <? r)%float.

(** ** The gate on Optimal *)










End KktCheck.

(** *** Examples for the KKT check *)

(** [kDefaultKktTolerance] is 1e-7. *)
Definition example_kDefaultKktTolerance : double := 0x1.ad7f29abcaf48p-24%float.

(** Modelled from the spec: [HighsLp::objectiveValue], the linear objective
    at the primal values (section 3; the offset of the examples is zero). *)
Definition example_objectiveValue (lp : HighsLp) (x : list double) : double :=
  fold_left (fun acc cx => (acc + fst cx * snd cx)%float) (combine (col_cost_ lp) x)
            0%float.

(** Stand-in for [getLpKktFailures]: the failure measures held in the info
    are taken to be those of the solution. *)
Definition example_getLpKktFailures (o : HighsOptions) (lp : HighsLp)
  (s : HighsSolution) (b : HighsBasis) (info : HighsInfo) (get_residuals : bool)
  : HighsInfo := info.

Definition example_lpKktCheck :=
  lpKktCheck example_kDefaultKktTolerance example_objectiveValue example_getLpKktFailures.





(** A ratio that is NaN hides the others: with a valid basis, a primal
    infeasibility a thousand times its tolerance and a relative dual
    residual error that is NaN, the maximum is NaN and the model status
    stays Optimal. *)
Example lpKktCheck_nan_ratio_keeps_optimal :
  let h :=
    set_info example_highs
      (mkInfo true kSolutionStatusFeasible kSolutionStatusFeasible 1%float
         1 0x1.a36e2eb1c432dp-14%float 0%float 0 0%float 0%float 0 0%float 0 0%float
         0 0%float 0 0%float 0 0%float 0 nan 0 0%float 0%float) in
  let r := example_lpKktCheck h in
  exceeds_margin (max_primal_infeasibility (info_ (snd r))
                  / primal_feasibility_tolerance (options_ h))%float = true /\
  model_status_ h = HighsModelStatus.kOptimal /\
  model_status_ (snd r) = HighsModelStatus.kOptimal.
Proof. vm_compute. repeat split; reflexivity. Qed.

(* ================================================================== *)
(** * Infinite costs (handleInfCost, restoreInfCost)                   *)
(* ================================================================== *)

Definition HighsVarType_is_integer (t : HighsVarType.t) : bool :=
  match t with HighsVarType.kInteger => true | _ => false end.

Definition ObjSense_is_minimize (s : ObjSense.t) : bool :=
  match s with ObjSense.kMinimize => true | ObjSense.kMaximize => false end.

Definition HighsModelStatus_is_infeasible (m : HighsModelStatus.t) : bool :=
  match m with HighsModelStatus.kInfeasible => true | _ => false end.

(** [mods.save_inf_cost_variable_*.push_back(...)] *)
Definition mods_push (m : HighsLpMods) (iCol : Z) (cost lower upper : double)
  : HighsLpMods :=
  mkMods (save_inf_cost_variable_index m ++ [iCol])
         (save_inf_cost_variable_cost m ++ [cost])
         (save_inf_cost_variable_lower m ++ [lower])
         (save_inf_cost_variable_upper m ++ [upper]).

Section InfCost.

(** [HighsLp::isMip], the C library's [std::ceil] and [std::floor], and two
    functions of Highs.cpp and HighsStatus.cpp. *)
Variable isMip : HighsLp -> bool.
Variable ceil : double -> double.
Variable floor : double -> double.
Variable setHighsModelStatusAndClearSolutionAndBasis :
  Highs -> HighsModelStatus.t -> Highs.
Variable highsStatusFromHighsModelStatus : HighsModelStatus.t -> HighsStatus.t.

(** The test of line 2889: the cost is neither above [-inf_cost] and below
    [inf_cost]. *)
Definition is_inf_cost (inf_cost cost : double) : bool :=
  negb ((- inf_cost <? cost)%float && (cost <? inf_cost)%float).

(** The bounds that lines 2890-2897 compute for column [iCol]. *)
Definition inf_cost_bounds (lp : HighsLp) (iCol : Z) : double * double :=
  let lower := vget (col_lower_ lp) iCol 0%float in
  let upper := vget (col_upper_ lp) iCol 0%float in
  if isMip lp then
    if HighsVarType_is_integer (vget (integrality_ lp) iCol HighsVarType.kContinuous)
    then (ceil lower, floor upper)
    else (lower, upper)
  else (lower, upper).

(** Whether lines 2898-2946 fix the column at its upper bound (writing
    [col_lower_]) rather than at its lower bound (writing [col_upper_]). *)
Definition inf_cost_fix_at_upper (lp : HighsLp) (cost inf_cost : double) : bool :=
  if (cost <=? - inf_cost)%float
  then ObjSense_is_minimize (sense_ lp)
  else negb (ObjSense_is_minimize (sense_ lp)).

(** The body of the column loop, lines 2888-2953, in pass [k].  The flag is
    false when the body returns kError. *)
Definition handleInfCost_col (k : bool) (inf_cost : double) (lp : HighsLp) (iCol : Z)
  : bool * HighsLp :=
  let cost := vget (col_cost_ lp) iCol 0%float in
  if negb (is_inf_cost inf_cost cost) then (true, lp) (* continue *) else
  let '(lower, upper) := inf_cost_bounds lp iCol in
  let fixed :=
    if inf_cost_fix_at_upper lp cost inf_cost
    then
      (* try to fix at upper bound *)
      if (upper <? kHighsInf)%float
      then Some (if k then set_col_lower_ lp (vset (col_lower_ lp) iCol upper) else lp)
      else None
    else
      (* try to fix at lower bound *)
      if (- kHighsInf <? lower)%float
      then Some (if k then set_col_upper_ lp (vset (col_upper_ lp) iCol lower) else lp)
      else None in
  match fixed with
  | None => (false, lp) (* return HighsStatus::kError *)
  | Some lp =>
      if k
      then
        let lp := set_mods_ lp (mods_push (mods_ lp) iCol cost lower upper) in
        (true, set_col_cost_ lp (vset (col_cost_ lp) iCol 0%float))
      else (true, lp)
  end.

(** [for (iCol = ...; iCol < lp.num_col_; iCol++)], with [n] columns left. *)
Fixpoint handleInfCost_cols (k : bool) (inf_cost : double) (n : nat) (iCol : Z)
  (lp : HighsLp) : bool * HighsLp :=
  match n with
  | O => (true, lp)
  | S n' =>
      let '(ok, lp) := handleInfCost_col k inf_cost lp iCol in
      if ok then handleInfCost_cols k inf_cost n' (iCol + 1) lp else (false, lp)
  end.

(** [Highs::handleInfCost], lines 2878-2963. *)
Definition handleInfCost (h : Highs) : HighsStatus.t * Highs :=
  let lp := lp_ h in
  if negb (has_infinite_cost_ lp) then (HighsStatus.kOk, h) else
  let inf_cost := infinite_cost (options_ h) in
  let n := Z.to_nat (num_col_ lp) in
  (* k = 0: check that infinite costs can be handled *)
  let '(ok, lp) := handleInfCost_cols false inf_cost n 0 lp in
  if negb ok then (HighsStatus.kError, set_lp h lp) else
  (* k = 1: handle them *)
  let '(ok, lp) := handleInfCost_cols true inf_cost n 0 lp in
  if negb ok then (HighsStatus.kError, set_lp h lp) else
  (HighsStatus.kOk, set_lp h (set_has_infinite_cost_ lp false)).

(** The body of the loop of restoreInfCost, lines 2973-2990, for the log
    entry [(iCol, cost, lower, upper)]. *)
Definition restoreInfCost_entry (h : Highs) (iCol : Z) (cost lower upper : double)
  : Highs :=
  let value :=
    if value_valid (solution_ h) then vget (col_value (solution_ h)) iCol 0%float
    else 0%float in
  let h :=
    if valid (basis_ h)
    then
      set_basis h
        (set_col_status (basis_ h)
           (vset (col_status (basis_ h)) iCol
                 (if (vget (col_lower_ (lp_ h)) iCol 0 =? lower)%float
                  then HighsBasisStatus.kLower else HighsBasisStatus.kUpper)))
    else h in
  let h :=
    if double_truth value
    then set_info h (set_objective_function_value (info_ h)
                       (objective_function_value (info_ h) + value * cost)%float)
    else h in
  let lp := lp_ h in
  let lp := set_col_cost_ lp (vset (col_cost_ lp) iCol cost) in
  let lp := set_col_lower_ lp (vset (col_lower_ lp) iCol lower) in
  let lp := set_col_upper_ lp (vset (col_upper_ lp) iCol upper) in
  set_lp h lp.

(** [for (ix = 0; ix < num_inf_cost; ix++)] over the four parallel vectors
    of the log. *)
Fixpoint restoreInfCost_entries (index : list Z) (cost lower upper : list double)
  (h : Highs) : Highs :=
  match index with
  | [] => h
  | iCol :: index' =>
      restoreInfCost_entries index' (tl cost) (tl lower) (tl upper)
        (restoreInfCost_entry h iCol (hd 0%float cost) (hd 0%float lower)
                              (hd 0%float upper))
  end.

(** [Highs::restoreInfCost], lines 2965-3003; [return_status] is passed by
    reference. *)
Definition restoreInfCost (h : Highs) (return_status : HighsStatus.t)
  : HighsStatus.t * Highs :=
  let mods := mods_ (lp_ h) in
  let num_inf_cost := vsize (save_inf_cost_variable_index mods) in
  if num_inf_cost <=? 0 then (return_status, h) else
  let h := restoreInfCost_entries (save_inf_cost_variable_index mods)
             (save_inf_cost_variable_cost mods) (save_inf_cost_variable_lower mods)
             (save_inf_cost_variable_upper mods) h in
  let h := set_lp h (set_has_infinite_cost_ (lp_ h) true) in
  if HighsModelStatus_is_infeasible (model_status_ h)
  then
    let h := set_model_status h HighsModelStatus.kUnknown in
    let h := setHighsModelStatusAndClearSolutionAndBasis h (model_status_ h) in
    (highsStatusFromHighsModelStatus (model_status_ h), h)
  else (return_status, h).


(** ** Properties of the infinite-cost handling *)

(** [HighsLp::isMip] looks at the integrality of the columns only. *)
Hypothesis isMip_integrality :
  forall lp lp',
    integrality_ lp = integrality_ lp' -> num_col_ lp = num_col_ lp' ->
    isMip lp = isMip lp'.

(** Whether column [iCol] passes the loop body: its cost is finite or the
    bound it is to be fixed at is. *)
Definition inf_cost_col_ok (inf_cost : double) (lp : HighsLp) (iCol : Z) : bool :=
  let cost := vget (col_cost_ lp) iCol 0%float in
  negb (is_inf_cost inf_cost cost) ||
  (if inf_cost_fix_at_upper lp cost inf_cost
   then (snd (inf_cost_bounds lp iCol) <? kHighsInf)%float
   else (- kHighsInf <? fst (inf_cost_bounds lp iCol))%float).

Fixpoint inf_cost_cols_ok (inf_cost : double) (lp : HighsLp) (n : nat) (iCol : Z) : bool :=
  match n with
  | O => true
  | S n' => inf_cost_col_ok inf_cost lp iCol && inf_cost_cols_ok inf_cost lp n' (iCol + 1)
  end.

Lemma handleInfCost_col_ok (k : bool) (inf_cost : double) (lp : HighsLp) (iCol : Z) :
  fst (handleInfCost_col k inf_cost lp iCol) = inf_cost_col_ok inf_cost lp iCol.
Proof.
  unfold handleInfCost_col, inf_cost_col_ok.
  destruct (is_inf_cost inf_cost _); cbn [negb orb]; [|reflexivity].
  destruct (inf_cost_bounds lp iCol) as [lower upper]. cbn [fst snd].
  destruct (inf_cost_fix_at_upper lp _ inf_cost);
    [destruct (upper <? kHighsInf)%float | destruct (- kHighsInf <? lower)%float];
    destruct k; reflexivity.
Qed.

(** The checking pass writes nothing. *)
Lemma handleInfCost_col_check (inf_cost : double) (lp : HighsLp) (iCol : Z) :
  snd (handleInfCost_col false inf_cost lp iCol) = lp.
Proof.
  unfold handleInfCost_col.
  destruct (is_inf_cost inf_cost _); cbn [negb]; [|reflexivity].
  destruct (inf_cost_bounds lp iCol) as [lower upper].
  destruct (inf_cost_fix_at_upper lp _ inf_cost);
    [destruct (upper <? kHighsInf)%float | destruct (- kHighsInf <? lower)%float];
    reflexivity.
Qed.

Lemma handleInfCost_cols_check (inf_cost : double) (n : nat) (iCol : Z) (lp : HighsLp) :
  handleInfCost_cols false inf_cost n iCol lp = (inf_cost_cols_ok inf_cost lp n iCol, lp).
Proof.
  revert iCol. induction n as [|n IH]; intros iCol; cbn [handleInfCost_cols inf_cost_cols_ok];
    [reflexivity|].
  pose proof (handleInfCost_col_ok false inf_cost lp iCol) as Hok.
  pose proof (handleInfCost_col_check inf_cost lp iCol) as Hlp.
  destruct (handleInfCost_col false inf_cost lp iCol) as [ok lp1]. cbn [fst snd] in *.
  subst. destruct (inf_cost_col_ok inf_cost lp iCol); [apply IH | reflexivity].
Qed.

(** [lp] is [lp0] but for the cost and bounds of the columns before [i] and
    for the log. *)
Record agrees_from (i : Z) (lp lp0 : HighsLp) : Prop := {
  ag_cost : forall j, i <= j -> vget (col_cost_ lp) j 0%float = vget (col_cost_ lp0) j 0%float;
  ag_lower : forall j, i <= j ->
             vget (col_lower_ lp) j 0%float = vget (col_lower_ lp0) j 0%float;
  ag_upper : forall j, i <= j ->
             vget (col_upper_ lp) j 0%float = vget (col_upper_ lp0) j 0%float;
  ag_integrality : integrality_ lp = integrality_ lp0;
  ag_sense : sense_ lp = sense_ lp0;
  ag_num_col : num_col_ lp = num_col_ lp0
}.

Lemma agrees_from_refl (i : Z) (lp : HighsLp) : agrees_from i lp lp.
Proof. constructor; auto. Qed.

Lemma agrees_bounds (i : Z) (lp lp0 : HighsLp) :
  agrees_from i lp lp0 -> inf_cost_bounds lp i = inf_cost_bounds lp0 i.
Proof.
  intros [Hc Hl Hu Hi Hs Hn]. unfold inf_cost_bounds.
  rewrite (isMip_integrality lp lp0 Hi Hn), Hi, (Hl i), (Hu i) by lia. reflexivity.
Qed.

Lemma agrees_col_ok (inf_cost : double) (i : Z) (lp lp0 : HighsLp) :
  agrees_from i lp lp0 -> inf_cost_col_ok inf_cost lp i = inf_cost_col_ok inf_cost lp0 i.
Proof.
  intros Hag. unfold inf_cost_col_ok. rewrite (agrees_bounds Hag).
  destruct Hag as [Hc Hl Hu Hi Hs Hn]. rewrite (Hc i) by lia.
  unfold inf_cost_fix_at_upper. rewrite Hs. reflexivity.
Qed.

Lemma agrees_col_step (k : bool) (inf_cost : double) (i : Z) (lp lp0 : HighsLp) :
  agrees_from i lp lp0 ->
  agrees_from (i + 1) (snd (handleInfCost_col k inf_cost lp i)) lp0.
Proof.
  intros [Hc Hl Hu Hi Hs Hn]. unfold handleInfCost_col.
  destruct (is_inf_cost inf_cost _); cbn [negb snd];
    [|constructor; auto; intros; [apply Hc | apply Hl | apply Hu]; lia].
  destruct (inf_cost_bounds lp i) as [lower upper].
  destruct (inf_cost_fix_at_upper lp _ inf_cost);
    [destruct (upper <? kHighsInf)%float | destruct (- kHighsInf <? lower)%float];
    destruct k; cbn;
    constructor; cbn; auto; intros j Hj;
    rewrite ?vget_vset_other by lia; auto with zarith;
    first [apply Hc | apply Hl | apply Hu]; lia.
Qed.

Lemma handleInfCost_cols_ok (k : bool) (inf_cost : double) (n : nat) (i : Z)
  (lp lp0 : HighsLp) :
  agrees_from i lp lp0 ->
  fst (handleInfCost_cols k inf_cost n i lp) = inf_cost_cols_ok inf_cost lp0 n i.
Proof.
  revert i lp. induction n as [|n IH]; intros i lp Hag;
    cbn [handleInfCost_cols inf_cost_cols_ok]; [reflexivity|].
  pose proof (handleInfCost_col_ok k inf_cost lp i) as Hok.
  pose proof (agrees_col_step k inf_cost Hag) as Hag1.
  rewrite (agrees_col_ok inf_cost Hag) in Hok.
  destruct (handleInfCost_col k inf_cost lp i) as [ok lp1]. cbn [fst snd] in *.
  subst ok. destruct (inf_cost_col_ok inf_cost lp0 i); [apply IH; assumption | reflexivity].
Qed.

(** handleInfCost returns kError exactly when some column with an infinite
    cost has no finite bound to be fixed at, and then the Highs state is as
    it was. *)
Lemma handleInfCost_error_unmodified (h : Highs) :
  has_infinite_cost_ (lp_ h) = true ->
  let ok := inf_cost_cols_ok (infinite_cost (options_ h)) (lp_ h)
                             (Z.to_nat (num_col_ (lp_ h))) 0 in
  fst (handleInfCost h) = (if ok then HighsStatus.kOk else HighsStatus.kError) /\
  (ok = false -> snd (handleInfCost h) = h).
Proof.
  intros Hflag ok. unfold handleInfCost. rewrite Hflag. cbn [negb].
  rewrite handleInfCost_cols_check. fold ok.
  destruct ok eqn:Eok; cbn [negb].
  - pose proof (@handleInfCost_cols_ok true (infinite_cost (options_ h))
                  (Z.to_nat (num_col_ (lp_ h))) 0 (lp_ h) (lp_ h)
                  (agrees_from_refl 0 (lp_ h))) as H1.
    destruct (handleInfCost_cols true _ _ 0 (lp_ h)) as [ok1 lp1]. cbn [fst] in H1.
    fold ok in H1. rewrite Eok in H1. subst ok1. cbn. split; [reflexivity | discriminate].
  - cbn. split; [reflexivity|]. intros _. apply set_lp_same.
Qed.


(** *** What the handling pass writes *)

(** An entry of the log: column, cost, lower, upper. *)
Definition LogEntry : Type := (Z * double * double * double)%type.
Definition e_idx (e : LogEntry) : Z := fst (fst (fst e)).
Definition e_cost (e : LogEntry) : double := snd (fst (fst e)).
Definition e_lower (e : LogEntry) : double := snd (fst e).
Definition e_upper (e : LogEntry) : double := snd e.

Definition mods_push_all (m : HighsLpMods) (es : list LogEntry) : HighsLpMods :=
  fold_left (fun m e => mods_push m (e_idx e) (e_cost e) (e_lower e) (e_upper e)) es m.

(** The entry that the handling pass logs for column [i] of [lp]. *)
Definition inf_cost_entry (inf_cost : double) (lp : HighsLp) (i : Z) : list LogEntry :=
  let cost := vget (col_cost_ lp) i 0%float in
  if is_inf_cost inf_cost cost
  then [(i, cost, fst (inf_cost_bounds lp i), snd (inf_cost_bounds lp i))]
  else [].

Fixpoint inf_cost_entries (inf_cost : double) (lp : HighsLp) (n : nat) (i : Z)
  : list LogEntry :=
  match n with
  | O => []
  | S n' => inf_cost_entry inf_cost lp i ++ inf_cost_entries inf_cost lp n' (i + 1)
  end.

(** Column [j] of [lp] is column [j] of [lp0] with an infinite cost
    handled: cost zero, and the lower bound raised to the upper bound or the
    upper bound lowered to the lower bound (rounded for an integer column of
    a MIP). *)
Definition handled_col (inf_cost : double) (lp0 lp : HighsLp) (j : Z) : Prop :=
  let cost := vget (col_cost_ lp0) j 0%float in
  if is_inf_cost inf_cost cost
  then
    vget (col_cost_ lp) j 0%float = 0%float /\
    (if inf_cost_fix_at_upper lp0 cost inf_cost
     then vget (col_lower_ lp) j 0%float = snd (inf_cost_bounds lp0 j) /\
          vget (col_upper_ lp) j 0%float = vget (col_upper_ lp0) j 0%float
     else vget (col_upper_ lp) j 0%float = fst (inf_cost_bounds lp0 j) /\
          vget (col_lower_ lp) j 0%float = vget (col_lower_ lp0) j 0%float)
  else
    vget (col_cost_ lp) j 0%float = vget (col_cost_ lp0) j 0%float /\
    vget (col_lower_ lp) j 0%float = vget (col_lower_ lp0) j 0%float /\
    vget (col_upper_ lp) j 0%float = vget (col_upper_ lp0) j 0%float.

Definition same_sizes (lp lp' : HighsLp) : Prop :=
  vsize (col_cost_ lp') = vsize (col_cost_ lp) /\
  vsize (col_lower_ lp') = vsize (col_lower_ lp) /\
  vsize (col_upper_ lp') = vsize (col_upper_ lp).

Definition same_before (i : Z) (lp lp' : HighsLp) : Prop :=
  forall j, j <> i ->
    vget (col_cost_ lp') j 0%float = vget (col_cost_ lp) j 0%float /\
    vget (col_lower_ lp') j 0%float = vget (col_lower_ lp) j 0%float /\
    vget (col_upper_ lp') j 0%float = vget (col_upper_ lp) j 0%float.

Lemma vget_vset_same {A : Type} (v : list A) (i : Z) (x d : A) :
  0 <= i < vsize v -> vget (vset v i x) i d = x.
Proof. intros H. rewrite vget_vset by assumption. rewrite Z.eqb_refl. reflexivity. Qed.

Lemma handleInfCost_col_effect (inf_cost : double) (i : Z) (lp lp0 : HighsLp) :
  agrees_from i lp lp0 ->
  inf_cost_col_ok inf_cost lp0 i = true ->
  let lp1 := snd (handleInfCost_col true inf_cost lp i) in
  same_sizes lp lp1 /\
  same_before i lp lp1 /\
  mods_ lp1 = mods_push_all (mods_ lp) (inf_cost_entry inf_cost lp0 i) /\
  (0 <= i < vsize (col_cost_ lp) -> 0 <= i < vsize (col_lower_ lp) ->
   0 <= i < vsize (col_upper_ lp) -> handled_col inf_cost lp0 lp1 i).
Proof.
  intros Hag Hok lp1. subst lp1.
  pose proof (agrees_bounds Hag) as Hb.
  unfold inf_cost_col_ok in Hok. unfold handleInfCost_col, inf_cost_entry, handled_col.
  destruct Hag as [Hc Hl Hu Hi Hs Hn].
  assert (Hfix : inf_cost_fix_at_upper lp (vget (col_cost_ lp) i 0%float) inf_cost =
                 inf_cost_fix_at_upper lp0 (vget (col_cost_ lp0) i 0%float) inf_cost).
  { unfold inf_cost_fix_at_upper. rewrite Hs, (Hc i) by lia. reflexivity. }
  rewrite Hfix, Hb. rewrite (Hc i) by lia.
  destruct (is_inf_cost inf_cost (vget (col_cost_ lp0) i 0%float)); cbn [negb orb] in *.
  - destruct (inf_cost_bounds lp0 i) as [lower upper]. cbn [fst snd] in *.
    destruct (inf_cost_fix_at_upper lp0 _ inf_cost); rewrite Hok; cbn.
    + split; [unfold same_sizes; cbn; rewrite !vsize_vset; auto|].
      split; [intros j Hj; cbn; rewrite !vget_vset_other by congruence; auto|].
      split; [reflexivity|]. intros H1 H2 H3.
      rewrite !vget_vset_same by assumption. rewrite (Hu i) by lia. auto.
    + split; [unfold same_sizes; cbn; rewrite !vsize_vset; auto|].
      split; [intros j Hj; cbn; rewrite !vget_vset_other by congruence; auto|].
      split; [reflexivity|]. intros H1 H2 H3.
      rewrite !vget_vset_same by assumption. rewrite (Hl i) by lia. auto.
  - cbn. split; [unfold same_sizes; auto|]. split; [intros j Hj; auto|].
    split; [reflexivity|]. intros _ _ _.
    rewrite (Hc i), (Hl i), (Hu i) by lia. auto.
Qed.

Lemma mods_push_all_app (m : HighsLpMods) (es es' : list LogEntry) :
  mods_push_all m (es ++ es') = mods_push_all (mods_push_all m es) es'.
Proof. unfold mods_push_all. apply fold_left_app. Qed.

Lemma handleInfCost_cols_effect (inf_cost : double) (n : nat) (i : Z) (lp lp0 : HighsLp) :
  agrees_from i lp lp0 ->
  inf_cost_cols_ok inf_cost lp0 n i = true ->
  let lp' := snd (handleInfCost_cols true inf_cost n i lp) in
  same_sizes lp lp' /\
  (forall j, j < i ->
     vget (col_cost_ lp') j 0%float = vget (col_cost_ lp) j 0%float /\
     vget (col_lower_ lp') j 0%float = vget (col_lower_ lp) j 0%float /\
     vget (col_upper_ lp') j 0%float = vget (col_upper_ lp) j 0%float) /\
  mods_ lp' = mods_push_all (mods_ lp) (inf_cost_entries inf_cost lp0 n i) /\
  (forall j, i <= j < i + Z.of_nat n ->
     0 <= j < vsize (col_cost_ lp) -> 0 <= j < vsize (col_lower_ lp) ->
     0 <= j < vsize (col_upper_ lp) -> handled_col inf_cost lp0 lp' j).
Proof.
  revert i lp. induction n as [|n IH]; intros i lp Hag Hok;
    cbn [handleInfCost_cols inf_cost_cols_ok inf_cost_entries] in *.
  - cbn. split; [unfold same_sizes; auto|]. split; [auto|]. split; [reflexivity|].
    intros j Hj. lia.
  - apply andb_prop in Hok. destruct Hok as [Hok1 Hok2].
    pose proof (handleInfCost_col_ok true inf_cost lp i) as Hfst.
    rewrite (agrees_col_ok inf_cost Hag), Hok1 in Hfst.
    destruct (handleInfCost_col_effect inf_cost Hag Hok1) as (Hsz & Hbef & Hmods & Hcol).
    pose proof (agrees_col_step true inf_cost Hag) as Hag1.
    destruct (handleInfCost_col true inf_cost lp i) as [ok lp1]. cbn [fst snd] in *.
    subst ok.
    destruct (IH (i + 1) lp1 Hag1 Hok2) as (Hsz' & Hbef' & Hmods' & Hcols').
    destruct Hsz as (S1 & S2 & S3). destruct Hsz' as (S1' & S2' & S3').
    split; [unfold same_sizes; rewrite S1', S2', S3'; auto|].
    split.
    { intros j Hj. destruct (Hbef' j) as (A & B & C); [lia|].
      destruct (Hbef j) as (A' & B' & C'); [lia|]. rewrite A, B, C. auto. }
    split; [rewrite Hmods', Hmods, mods_push_all_app; reflexivity|].
    intros j Hj H1 H2 H3.
    destruct (Z.eq_dec j i) as [-> | Hne].
    + specialize (Hcol H1 H2 H3). destruct (Hbef' i) as (A & B & C); [lia|].
      unfold handled_col in *. rewrite A, B, C. exact Hcol.
    + apply Hcols'; rewrite ?S1, ?S2, ?S3; lia.
Qed.


(** *** Restoring from the log *)

(** Cost, lower bound and upper bound vectors of an LP. *)
Definition cols3 (lp : HighsLp) : list double * list double * list double :=
  (col_cost_ lp, col_lower_ lp, col_upper_ lp).

(** Lines 2988-2990 on the three vectors. *)
Definition restore3 (t : list double * list double * list double) (e : LogEntry)
  : list double * list double * list double :=
  (vset (fst (fst t)) (e_idx e) (e_cost e),
   vset (snd (fst t)) (e_idx e) (e_lower e),
   vset (snd t) (e_idx e) (e_upper e)).

Lemma restoreInfCost_entry_cols3 (h : Highs) (e : LogEntry) :
  cols3 (lp_ (restoreInfCost_entry h (e_idx e) (e_cost e) (e_lower e) (e_upper e))) =
  restore3 (cols3 (lp_ h)) e.
Proof.
  unfold restoreInfCost_entry.
  destruct (valid (basis_ h)); destruct (double_truth _); reflexivity.
Qed.

Lemma restoreInfCost_entry_frame (h : Highs) (iCol : Z) (cost lower upper : double) :
  let h' := restoreInfCost_entry h iCol cost lower upper in
  model_status_ h' = model_status_ h /\
  has_infinite_cost_ (lp_ h') = has_infinite_cost_ (lp_ h) /\
  mods_ (lp_ h') = mods_ (lp_ h).
Proof.
  unfold restoreInfCost_entry.
  destruct (valid (basis_ h)); destruct (double_truth _); cbn; auto.
Qed.

Lemma restoreInfCost_entries_cols3 (es : list LogEntry) (h : Highs) :
  cols3 (lp_ (restoreInfCost_entries (map e_idx es) (map e_cost es) (map e_lower es)
                                     (map e_upper es) h)) =
  fold_left restore3 es (cols3 (lp_ h)).
Proof.
  revert h. induction es as [|e es IH]; intros h; cbn; [reflexivity|].
  rewrite IH, restoreInfCost_entry_cols3. reflexivity.
Qed.

Lemma restoreInfCost_entries_frame (index : list Z) (cost lower upper : list double)
  (h : Highs) :
  let h' := restoreInfCost_entries index cost lower upper h in
  model_status_ h' = model_status_ h /\
  has_infinite_cost_ (lp_ h') = has_infinite_cost_ (lp_ h) /\
  mods_ (lp_ h') = mods_ (lp_ h).
Proof.
  revert cost lower upper h. induction index as [|i index IH]; intros; cbn; auto.
  destruct (IH (tl cost) (tl lower) (tl upper)
               (restoreInfCost_entry h i (hd 0%float cost) (hd 0%float lower)
                                     (hd 0%float upper))) as (A & B & C).
  destruct (restoreInfCost_entry_frame h i (hd 0%float cost) (hd 0%float lower)
                                       (hd 0%float upper)) as (A' & B' & C').
  rewrite A, B, C. auto.
Qed.

Lemma mods_push_all_spec (es : list LogEntry) (m : HighsLpMods) :
  mods_push_all m es =
  mkMods (save_inf_cost_variable_index m ++ map e_idx es)
         (save_inf_cost_variable_cost m ++ map e_cost es)
         (save_inf_cost_variable_lower m ++ map e_lower es)
         (save_inf_cost_variable_upper m ++ map e_upper es).
Proof.
  revert m. induction es as [|e es IH]; intros m.
  - cbn. rewrite !app_nil_r. destruct m; reflexivity.
  - change (mods_push_all m (e :: es))
      with (mods_push_all (mods_push m (e_idx e) (e_cost e) (e_lower e) (e_upper e)) es).
    rewrite IH. cbn. rewrite <- !app_assoc. reflexivity.
Qed.

Lemma restore3_comm (t : list double * list double * list double) (e e' : LogEntry) :
  e_idx e <> e_idx e' ->
  restore3 (restore3 t e) e' = restore3 (restore3 t e') e.
Proof.
  intros H. unfold restore3. cbn [fst snd].
  rewrite (vset_comm (fst (fst t))), (vset_comm (snd (fst t))), (vset_comm (snd t))
    by assumption.
  reflexivity.
Qed.

Lemma fold_restore3_comm (es : list LogEntry) (e : LogEntry)
  (t : list double * list double * list double) :
  Forall (fun e' => e_idx e <> e_idx e') es ->
  fold_left restore3 es (restore3 t e) = restore3 (fold_left restore3 es t) e.
Proof.
  revert t. induction es as [|e' es IH]; intros t H; cbn; [reflexivity|].
  inversion H; subst. rewrite restore3_comm by assumption. apply IH. assumption.
Qed.

Lemma inf_cost_entries_idx (inf_cost : double) (lp : HighsLp) (n : nat) (i : Z) :
  Forall (fun e => i <= e_idx e) (inf_cost_entries inf_cost lp n i).
Proof.
  revert i. induction n as [|n IH]; intros i; cbn; [constructor|].
  apply Forall_app. split.
  - unfold inf_cost_entry. destruct (is_inf_cost _ _); repeat constructor.
    unfold e_idx. cbn. lia.
  - eapply Forall_impl; [|apply IH]. cbn. intros e He. lia.
Qed.


(** Restoring the entries logged by the handling pass undoes the pass up to
    the bounds that were logged: the result is the LP before the pass with
    the logged entries written over it. *)
Lemma handle_then_restore (inf_cost : double) (n : nat) (i : Z) (lp lp0 : HighsLp) :
  agrees_from i lp lp0 ->
  inf_cost_cols_ok inf_cost lp0 n i = true ->
  fold_left restore3 (inf_cost_entries inf_cost lp0 n i)
            (cols3 (snd (handleInfCost_cols true inf_cost n i lp))) =
  fold_left restore3 (inf_cost_entries inf_cost lp0 n i) (cols3 lp).
Proof.
  revert i lp. induction n as [|n IH]; intros i lp Hag Hok;
    cbn [handleInfCost_cols inf_cost_cols_ok inf_cost_entries] in *; [reflexivity|].
  apply andb_prop in Hok. destruct Hok as [Hok1 Hok2].
  pose proof (handleInfCost_col_ok true inf_cost lp i) as Hfst.
  rewrite (agrees_col_ok inf_cost Hag), Hok1 in Hfst.
  pose proof (agrees_col_step true inf_cost Hag) as Hag1.
  specialize (IH (i + 1)).
  assert (Hstep : forall e, inf_cost_entry inf_cost lp0 i = [e] ->
            restore3 (cols3 (snd (handleInfCost_col true inf_cost lp i))) e =
            restore3 (cols3 lp) e).
  { intros e He. unfold inf_cost_entry in He. unfold handleInfCost_col.
    rewrite (@ag_cost _ _ _ Hag i) by lia.
    destruct (is_inf_cost inf_cost (vget (col_cost_ lp0) i 0%float)); [|discriminate].
    injection He as <-. cbn [negb].
    destruct (inf_cost_bounds lp i) as [lower upper].
    destruct (inf_cost_fix_at_upper lp _ inf_cost);
      [destruct (upper <? kHighsInf)%float | destruct (- kHighsInf <? lower)%float];
      try reflexivity; unfold restore3, cols3, e_idx, e_cost, e_lower, e_upper; cbn;
      rewrite !vset_vset; reflexivity. }
  assert (Hnil : inf_cost_entry inf_cost lp0 i = [] ->
            snd (handleInfCost_col true inf_cost lp i) = lp).
  { intros He. unfold inf_cost_entry in He. unfold handleInfCost_col.
    rewrite (@ag_cost _ _ _ Hag i) by lia.
    destruct (is_inf_cost inf_cost (vget (col_cost_ lp0) i 0%float)); [discriminate|].
    reflexivity. }
  destruct (handleInfCost_col true inf_cost lp i) as [ok lp1]. cbn [fst snd] in *.
  subst ok. specialize (IH lp1 Hag1 Hok2).
  pose proof (inf_cost_entries_idx inf_cost lp0 n (i + 1)) as Hidx.
  remember (inf_cost_entries inf_cost lp0 n (i + 1)) as es.
  unfold inf_cost_entry in *.
  destruct (is_inf_cost inf_cost (vget (col_cost_ lp0) i 0%float)).
  - cbn [app fold_left].
    set (e := (i, vget (col_cost_ lp0) i 0%float, fst (inf_cost_bounds lp0 i),
               snd (inf_cost_bounds lp0 i))) in *.
    assert (Hne : Forall (fun e' => e_idx e <> e_idx e') es).
    { eapply Forall_impl; [|exact Hidx]. cbn. intros e' He'.
      change (e_idx e) with i. lia. }
    transitivity (fold_left restore3 es (restore3 (cols3 lp1) e)).
    + rewrite !(@fold_restore3_comm es e _ Hne), IH. reflexivity.
    + rewrite (Hstep e eq_refl). reflexivity.
  - cbn [app]. rewrite IH, Hnil by reflexivity. reflexivity.
Qed.

(** No column with an infinite cost has its bounds rounded: the LP is not a
    MIP, the column is not integer, or its bounds are integral already. *)
Definition no_rounding (inf_cost : double) (lp : HighsLp) : Prop :=
  forall j, is_inf_cost inf_cost (vget (col_cost_ lp) j 0%float) = true ->
    inf_cost_bounds lp j = (vget (col_lower_ lp) j 0%float, vget (col_upper_ lp) j 0%float).

Lemma restore_original_entries (inf_cost : double) (n : nat) (i : Z) (lp : HighsLp) :
  no_rounding inf_cost lp ->
  fold_left restore3 (inf_cost_entries inf_cost lp n i) (cols3 lp) = cols3 lp.
Proof.
  intros Hnr. revert i. induction n as [|n IH]; intros i; cbn [inf_cost_entries];
    [reflexivity|].
  rewrite fold_left_app. unfold inf_cost_entry at 1.
  specialize (Hnr i).
  destruct (is_inf_cost inf_cost (vget (col_cost_ lp) i 0%float)).
  - cbn [fold_left]. rewrite Hnr by reflexivity.
    unfold restore3 at 2. unfold cols3 at 2, e_idx, e_cost, e_lower, e_upper.
    cbn [fst snd]. rewrite !vset_vget. apply IH.
  - apply IH.
Qed.

Lemma handleInfCost_ok_lp (h : Highs) :
  has_infinite_cost_ (lp_ h) = true ->
  fst (handleInfCost h) = HighsStatus.kOk ->
  let inf_cost := infinite_cost (options_ h) in
  let n := Z.to_nat (num_col_ (lp_ h)) in
  inf_cost_cols_ok inf_cost (lp_ h) n 0 = true /\
  lp_ (snd (handleInfCost h)) =
  set_has_infinite_cost_ (snd (handleInfCost_cols true inf_cost n 0 (lp_ h))) false.
Proof.
  intros Hinf Hok inf_cost n. unfold handleInfCost in *. rewrite Hinf in *.
  cbn [negb] in *. fold inf_cost n in Hok |- *.
  rewrite handleInfCost_cols_check in *.
  pose proof (handleInfCost_cols_ok true inf_cost n (agrees_from_refl 0 (lp_ h))) as H1.
  destruct (inf_cost_cols_ok inf_cost (lp_ h) n 0); cbn [negb] in *; [|discriminate].
  split; [reflexivity|].
  destruct (handleInfCost_cols true inf_cost n 0 (lp_ h)) as [ok lp']. cbn [fst snd] in *.
  subst ok. reflexivity.
Qed.

Definition empty_mods : HighsLpMods := mkMods [] [] [] [].

(** setHighsModelStatusAndClearSolutionAndBasis sets the model status and
    leaves the LP alone. *)
Hypothesis setHighsModelStatus_lp :
  forall h m, lp_ (setHighsModelStatusAndClearSolutionAndBasis h m) = lp_ h.
Hypothesis setHighsModelStatus_status :
  forall h m, model_status_ (setHighsModelStatusAndClearSolutionAndBasis h m) = m.

(** After a successful handleInfCost, a solve that leaves the LP alone and
    restoreInfCost, the costs and bounds are those before handleInfCost with
    the logged entries written over them, and the flag is set again. *)
Lemma restoreInfCost_writes_log (h h2 : Highs) (st : HighsStatus.t) :
  has_infinite_cost_ (lp_ h) = true ->
  mods_ (lp_ h) = empty_mods ->
  fst (handleInfCost h) = HighsStatus.kOk ->
  lp_ h2 = lp_ (snd (handleInfCost h)) ->
  let es := inf_cost_entries (infinite_cost (options_ h)) (lp_ h)
                             (Z.to_nat (num_col_ (lp_ h))) 0 in
  mods_ (lp_ h2) = mods_push_all empty_mods es /\
  cols3 (lp_ (snd (restoreInfCost h2 st))) = fold_left restore3 es (cols3 (lp_ h)) /\
  (es <> [] -> has_infinite_cost_ (lp_ (snd (restoreInfCost h2 st))) = true).
Proof.
  intros Hinf Hmods Hok Hlp es.
  destruct (handleInfCost_ok_lp h Hinf Hok) as (Hcols & Hlp').
  rewrite Hlp' in Hlp. clear Hlp'.
  destruct (@handleInfCost_cols_effect (infinite_cost (options_ h)) _ _ _ _
              (agrees_from_refl 0 (lp_ h)) Hcols) as (_ & _ & Hm & _).
  pose proof (@handle_then_restore (infinite_cost (options_ h)) _ _ _ _
                (agrees_from_refl 0 (lp_ h)) Hcols) as Hrt.
  fold es in Hm, Hrt. rewrite Hmods in Hm.
  assert (Hm2 : mods_ (lp_ h2) = mods_push_all empty_mods es).
  { rewrite Hlp. exact Hm. }
  split; [exact Hm2|].
  unfold restoreInfCost. rewrite Hm2, mods_push_all_spec. cbn [empty_mods
    save_inf_cost_variable_index save_inf_cost_variable_cost
    save_inf_cost_variable_lower save_inf_cost_variable_upper app].
  unfold vsize. rewrite length_map.
  destruct es as [|e es'] eqn:Ees.
  - cbn. split; [|congruence]. rewrite Hlp. exact Hrt.
  - replace (Z.of_nat (List.length (e :: es')) <=? 0) with false
      by (symmetry; apply Z.leb_gt; cbn [List.length]; lia).
    pose proof (restoreInfCost_entries_cols3 (e :: es') h2) as Hc.
    remember (restoreInfCost_entries (map e_idx (e :: es')) (map e_cost (e :: es'))
                (map e_lower (e :: es')) (map e_upper (e :: es')) h2) as h3.
    assert (Hgoal : cols3 (lp_ h3) = fold_left restore3 (e :: es') (cols3 (lp_ h))).
    { rewrite Hc, Hlp. exact Hrt. }
    destruct (HighsModelStatus_is_infeasible _); cbn [snd];
      rewrite ?setHighsModelStatus_lp; split; try (intros _; reflexivity);
      exact Hgoal.
Qed.

(** Without rounding the original costs and bounds are restored. *)
Lemma restoreInfCost_restores_original (h h2 : Highs) (st : HighsStatus.t) :
  has_infinite_cost_ (lp_ h) = true ->
  mods_ (lp_ h) = empty_mods ->
  no_rounding (infinite_cost (options_ h)) (lp_ h) ->
  fst (handleInfCost h) = HighsStatus.kOk ->
  lp_ h2 = lp_ (snd (handleInfCost h)) ->
  col_cost_ (lp_ (snd (restoreInfCost h2 st))) = col_cost_ (lp_ h) /\
  col_lower_ (lp_ (snd (restoreInfCost h2 st))) = col_lower_ (lp_ h) /\
  col_upper_ (lp_ (snd (restoreInfCost h2 st))) = col_upper_ (lp_ h).
Proof.
  intros Hinf Hmods Hnr Hok Hlp.
  destruct (@restoreInfCost_writes_log h h2 st Hinf Hmods Hok Hlp) as (_ & H & _).
  rewrite restore_original_entries in H by assumption.
  unfold cols3 in H. injection H as H1 H2 H3. auto.
Qed.

(** When the log is not empty and the solve reported kInfeasible,
    restoreInfCost makes the model status kUnknown. *)
Lemma restoreInfCost_infeasible_unknown (h : Highs) (st : HighsStatus.t) :
  save_inf_cost_variable_index (mods_ (lp_ h)) <> [] ->
  model_status_ h = HighsModelStatus.kInfeasible ->
  model_status_ (snd (restoreInfCost h st)) = HighsModelStatus.kUnknown /\
  fst (restoreInfCost h st) =
  highsStatusFromHighsModelStatus HighsModelStatus.kUnknown.
Proof.
  intros Hne Hst. unfold restoreInfCost.
  replace (vsize (save_inf_cost_variable_index (mods_ (lp_ h))) <=? 0) with false.
  2:{ symmetry. apply Z.leb_gt. unfold vsize.
      destruct (save_inf_cost_variable_index (mods_ (lp_ h))); [congruence|].
      cbn [List.length]. lia. }
  destruct (restoreInfCost_entries_frame
              (save_inf_cost_variable_index (mods_ (lp_ h)))
              (save_inf_cost_variable_cost (mods_ (lp_ h)))
              (save_inf_cost_variable_lower (mods_ (lp_ h)))
              (save_inf_cost_variable_upper (mods_ (lp_ h))) h) as (A & _ & _).
  cbn zeta in A.
  change (model_status_ (set_lp ?x ?y)) with (model_status_ x).
  rewrite A, Hst. cbn [HighsModelStatus_is_infeasible fst snd].
  rewrite !setHighsModelStatus_status. auto.
Qed.

(** Otherwise the model status and the return status are left alone. *)
Lemma restoreInfCost_other_status (h : Highs) (st : HighsStatus.t) :
  model_status_ h <> HighsModelStatus.kInfeasible ->
  model_status_ (snd (restoreInfCost h st)) = model_status_ h /\
  fst (restoreInfCost h st) = st.
Proof.
  intros Hst. unfold restoreInfCost.
  destruct (vsize _ <=? 0); [auto|].
  destruct (restoreInfCost_entries_frame
              (save_inf_cost_variable_index (mods_ (lp_ h)))
              (save_inf_cost_variable_cost (mods_ (lp_ h)))
              (save_inf_cost_variable_lower (mods_ (lp_ h)))
              (save_inf_cost_variable_upper (mods_ (lp_ h))) h) as (A & _ & _).
  cbn zeta in A.
  change (model_status_ (set_lp ?x ?y)) with (model_status_ x).
  rewrite A.
  destruct (model_status_ h); cbn; auto; congruence.
Qed.

End InfCost.

(** ** The infinite-cost handling on an example *)

(** The C library's [std::ceil] ([up = true]) and [std::floor]
    ([up = false]) on binary64: a finite value m * 2^e with e < 0 is rounded
    to the next integer above or below, keeping the sign (also of a zero
    result); every other value is returned as it is. *)
Definition round_to_integral (up : bool) (x : double) : double :=
  match Prim2SF x with
  | S754_finite s m e =>
      if 0 <=? e then x else
      let d := 2 ^ (- e) in
      let q := Z.pos m / d in
      let r := Z.pos m mod d in
      let mag := if r =? 0 then q else if Bool.eqb s up then q else q + 1 in
      let a := PrimFloat.of_uint63 (Uint63.of_Z mag) in
      if s then (- a)%float else a
  | _ => x
  end.

Definition example_ceil : double -> double := round_to_integral true.
Definition example_floor : double -> double := round_to_integral false.

(** Modelled from the spec: [Highs::setHighsModelStatusAndClearSolutionAndBasis]
    (Highs.cpp; as named, it clears the solution and the basis and sets the
    model status). *)
Definition example_setHighsModelStatusAndClearSolutionAndBasis (h : Highs)
  (m : HighsModelStatus.t) : Highs :=
  let h := invalidateModelStatusSolutionAndInfo h in
  let h := set_basis h (set_basis_valid (basis_ h) false) in
  set_model_status h m.

(** Modelled from the spec: [highsStatusFromHighsModelStatus] (section 6:
    a solve-level stop sets the model status and returns Ok, an error status
    returns Error; an undetermined status is a warning). *)
Definition example_highsStatusFromHighsModelStatus (m : HighsModelStatus.t)
  : HighsStatus.t :=
  match m with
  | HighsModelStatus.kNotset | HighsModelStatus.kLoadError
  | HighsModelStatus.kModelError | HighsModelStatus.kPresolveError
  | HighsModelStatus.kSolveError | HighsModelStatus.kPostsolveError
  | HighsModelStatus.kMemoryLimit => HighsStatus.kError
  | HighsModelStatus.kModelEmpty | HighsModelStatus.kOptimal
  | HighsModelStatus.kInfeasible | HighsModelStatus.kUnboundedOrInfeasible
  | HighsModelStatus.kUnbounded | HighsModelStatus.kObjectiveBound
  | HighsModelStatus.kObjectiveTarget => HighsStatus.kOk
  | _ => HighsStatus.kWarning
  end.

Definition example_handleInfCost : Highs -> HighsStatus.t * Highs :=
  handleInfCost example_isMip example_ceil example_floor.

Definition example_restoreInfCost : Highs -> HighsStatus.t -> HighsStatus.t * Highs :=
  restoreInfCost example_setHighsModelStatusAndClearSolutionAndBasis
                 example_highsStatusFromHighsModelStatus.

(** min 1e20 x  with x integer and 0.5 <= x <= 3.5: the cost is at the
    infinite-cost threshold of [example_options]. *)
Definition inf_cost_lp : HighsLp :=
  mkLp 1 0 [1e20%float] [0.5%float] [3.5%float] [] []
       (mkMatrix MatrixFormat.kColwise 1 0 [0; 0] [] [])
       ObjSense.kMinimize [HighsVarType.kInteger] 0 0 true (mkMods [] [] [] []).

Definition inf_cost_highs : Highs :=
  mkHighs inf_cost_lp (mkBasis false false false false [] [])
    (mkSolution false false [] [] [] [])
    example_info HighsModelStatus.kNotset example_options
    (mkEkk (mkSimplexStatus false false false false) (mkSimplexBasis [] [] []))
    (mkIis false 0).

(** The same with continuous bounds that need no rounding. *)
Definition inf_cost_highs_integral : Highs :=
  set_lp inf_cost_highs
    (set_col_upper_ (set_col_lower_ inf_cost_lp [1%float]) [3%float]).

Example example_ceil_floor :
  example_ceil 0.5%float = 1%float /\ example_floor 3.5%float = 3%float /\
  example_ceil (-0.5)%float = (-0)%float /\ example_floor (-0.5)%float = (-1)%float /\
  example_ceil 3%float = 3%float /\ example_floor kHighsInf = kHighsInf /\
  example_floor 1e20%float = 1e20%float.
Proof. vm_compute. repeat split; reflexivity. Qed.


Lemma example_isMip_integrality (lp lp' : HighsLp) :
  integrality_ lp = integrality_ lp' -> num_col_ lp = num_col_ lp' ->
  example_isMip lp = example_isMip lp'.
Proof. intros H _. unfold example_isMip. rewrite H. reflexivity. Qed.

Lemma vget_singleton {A : Type} (x d : A) (j : Z) : j <> 0 -> vget [x] j d = d.
Proof.
  intros H. unfold vget. destruct (Z.ltb_spec j 0); [reflexivity|].
  destruct (Z.to_nat j) as [|k] eqn:E; [lia|]. cbn. destruct k; reflexivity.
Qed.

(** With integral bounds the round trip gives the costs and bounds back. *)
Example restoreInfCost_restores_original_example :
  let h := inf_cost_highs_integral in
  let h1 := snd (example_handleInfCost h) in
  col_cost_ (lp_ h1) = [0%float] /\ col_upper_ (lp_ h1) = [1%float] /\
  col_cost_ (lp_ (snd (example_restoreInfCost h1 HighsStatus.kOk))) = col_cost_ (lp_ h) /\
  col_lower_ (lp_ (snd (example_restoreInfCost h1 HighsStatus.kOk))) = col_lower_ (lp_ h) /\
  col_upper_ (lp_ (snd (example_restoreInfCost h1 HighsStatus.kOk))) = col_upper_ (lp_ h).
Proof.
  cbv zeta. split; [reflexivity|]. split; [reflexivity|].
  apply (@restoreInfCost_restores_original example_isMip example_ceil example_floor
           example_setHighsModelStatusAndClearSolutionAndBasis
           example_highsStatusFromHighsModelStatus example_isMip_integrality
           (fun h m => eq_refl) inf_cost_highs_integral
           (snd (example_handleInfCost inf_cost_highs_integral)) HighsStatus.kOk);
    try reflexivity.
  intros j. destruct (Z.eq_dec j 0) as [-> | Hne]; [reflexivity|].
  cbn [inf_cost_highs_integral lp_ set_lp col_cost_ set_col_upper_ set_col_lower_
       inf_cost_lp options_ inf_cost_highs].
  rewrite vget_singleton by assumption. vm_compute. discriminate.
Qed.

(** The error path on an example: maximising with an infinite cost and an
    infinite upper bound is refused with the state as it was. *)
Example handleInfCost_error_example :
  let h := set_lp inf_cost_highs
             (set_col_upper_ (set_sense_ inf_cost_lp ObjSense.kMaximize) [kHighsInf]) in
  example_handleInfCost h = (HighsStatus.kError, h).
Proof. vm_compute. reflexivity. Qed.

(** C2, failing input.  An integer column of a MIP with cost 1e20 and
    bounds [0.5, 3.5]: handleInfCost zeroes the cost, fixes the column at
    ceil(0.5) = 1 by lowering the upper bound and logs the rounded bounds
    1 and 3; restoreInfCost then writes the logged bounds, so the column is
    left with bounds [1, 3] and not with its original bounds [0.5, 3.5]. *)
Theorem restoreInfCost_writes_rounded_bounds :
  let h := inf_cost_highs in
  let h1 := snd (example_handleInfCost h) in
  let h2 := snd (example_restoreInfCost h1 HighsStatus.kOk) in
  (col_cost_ (lp_ h) = [1e20%float] /\ col_lower_ (lp_ h) = [0.5%float] /\
   col_upper_ (lp_ h) = [3.5%float]) /\
  fst (example_handleInfCost h) = HighsStatus.kOk /\
  (col_cost_ (lp_ h1) = [0%float] /\ col_lower_ (lp_ h1) = [0.5%float] /\
   col_upper_ (lp_ h1) = [1%float] /\ has_infinite_cost_ (lp_ h1) = false /\
   mods_ (lp_ h1) = mkMods [0] [1e20%float] [1%float] [3%float]) /\
  (col_cost_ (lp_ h2) = [1e20%float] /\ col_lower_ (lp_ h2) = [1%float] /\
   col_upper_ (lp_ h2) = [3%float] /\ has_infinite_cost_ (lp_ h2) = true) /\
  col_lower_ (lp_ h2) <> col_lower_ (lp_ h) /\
  col_upper_ (lp_ h2) <> col_upper_ (lp_ h).
Proof.
  vm_compute. repeat split; try reflexivity; intros H;
    apply (f_equal (fun l => Prim2SF (hd 0%float l))) in H; vm_compute in H;
    discriminate.
Qed.

(** When the solve of the fixed model reports kInfeasible the status after
    restoreInfCost is kUnknown, with a warning as return status. *)
Example restoreInfCost_infeasible_example :
  let h1 := set_model_status (snd (example_handleInfCost inf_cost_highs))
                             HighsModelStatus.kInfeasible in
  model_status_ (snd (example_restoreInfCost h1 HighsStatus.kOk)) =
    HighsModelStatus.kUnknown /\
  fst (example_restoreInfCost h1 HighsStatus.kOk) = HighsStatus.kWarning.
Proof. vm_compute. split; reflexivity. Qed.

(* ================================================================== *)
(** * Free-format MPS reader: the ROWS section and the fixed-format
      heuristic (HMpsFF.cpp)                                           *)
(* ================================================================== *)

Module MpsParser.

Module Parsekey.
Inductive t : Type :=
| kName | kObjsense | kMax | kMin | kRows | kCols | kRhs | kBounds | kRanges
| kQsection | kQmatrix | kQuadobj | kQcmatrix | kCsection | kDelayedrows
| kModelcuts | kUsercuts | kIndicators | kSets | kSos | kGencons | kPwlobj
| kPwlnam | kPwlcon | kNone | kEnd | kFail | kComment | kFixedFormat | kTimeout.

Definition eq_dec (a b : t) : {a = b} + {a <> b}.
Proof. decide equality. Defined.

Definition eqb (a b : t) : bool := if eq_dec a b then true else false.
End Parsekey.

Module FreeFormatParserReturnCode.
Inductive t : Type := kSuccess | kParserError | kFileNotFound | kFixedFormat | kTimeout.
End FreeFormatParserReturnCode.

Module Boundtype.
Inductive t : Type := kLe | kEq | kGe.
End Boundtype.

(** ** std::string

    Positions and sizes are [size_t] values; [npos] is the largest one. *)

Definition npos : Z := HMpsFF.size_t_modulus - 1.

Definition size (s : string) : Z := Z.of_nat (String.length s).

(** [s[i]]; the character at [size s] is the terminating zero. *)
Definition at_ (s : string) (i : Z) : ascii :=
  if (i <? 0) || (size s <=? i) then Ascii.zero
  else match String.get (Z.to_nat i) s with Some c => c | None => Ascii.zero end.

(** [s.substr(pos, len)], for [pos <= size s] (beyond that C++ throws
    std::out_of_range; the result here is the empty string). *)
Definition substr (s : string) (pos len : Z) : string :=
  if size s <? pos then EmptyString
  else String.substring (Z.to_nat pos) (Z.to_nat (Z.min len (size s))) s.

(** [s.substr(pos)] *)
Definition substr_from (s : string) (pos : Z) : string := substr s pos (size s).

Fixpoint find_from (p : ascii -> bool) (l : list ascii) (i : Z) : Z :=
  match l with
  | [] => npos
  | c :: l' => if p c then i else find_from p l' (i + 1)
  end.

(** The first position from [pos] on whose character satisfies [p]. *)
Definition find_first (p : ascii -> bool) (s : string) (pos : Z) : Z :=
  if size s <=? pos then npos
  else find_from p (skipn (Z.to_nat pos) (list_ascii_of_string s)) pos.

(** [s.find_first_not_of(" ")] *)
Definition find_first_not_of_space (s : string) : Z :=
  find_first (fun c => negb (Ascii.eqb c " "%char)) s 0.

(** [std::unordered_map<std::string, int>]: [find] and [emplace], which
    inserts only when the key is new and tells whether it did. *)
Fixpoint map_find (m : list (string * Z)) (k : string) : option Z :=
  match m with
  | [] => None
  | (k', v) :: m' => if String.eqb k' k then Some v else map_find m' k
  end.

Definition emplace (m : list (string * Z)) (k : string) (v : Z)
  : bool * list (string * Z) :=
  match map_find m k with
  | Some _ => (false, m)
  | None => (true, m ++ [(k, v)])
  end.

(** ** The reader object: the members that the embedded functions use *)

Record HMpsFF : Type := mkHMpsFF {
  mps_name : string;
  objective_name : string;
  obj_sense : ObjSense.t;
  section_args : string;
  num_row : Z;
  num_col : Z;
  num_nz : Z;
  cost_row_location : Z;
  row_lower : list double;
  row_upper : list double;
  row_type : list Boundtype.t;
  row_names : list string;
  rowname2idx : list (string * Z);
  col_binary : list bool;
  col_lower : list double;
  col_upper : list double;
  has_duplicate_row_name_ : bool;
  has_duplicate_col_name_ : bool;
  duplicate_row_name_ : string;
  duplicate_row_name_index0_ : Z;
  duplicate_row_name_index1_ : Z;
  warning_issued_ : bool;
  time_limit_ : double;
  start_time : double;
  clock_calls : nat
}.

Definition set_mps_name (s : HMpsFF) (v : string) : HMpsFF :=
  mkHMpsFF v (objective_name s) (obj_sense s) (section_args s) (num_row s) (num_col s)
    (num_nz s) (cost_row_location s) (row_lower s) (row_upper s) (row_type s)
    (row_names s) (rowname2idx s) (col_binary s) (col_lower s) (col_upper s)
    (has_duplicate_row_name_ s) (has_duplicate_col_name_ s) (duplicate_row_name_ s)
    (duplicate_row_name_index0_ s) (duplicate_row_name_index1_ s) (warning_issued_ s)
    (time_limit_ s) (start_time s) (clock_calls s).

Definition set_objective_name (s : HMpsFF) (v : string) : HMpsFF :=
  mkHMpsFF (mps_name s) v (obj_sense s) (section_args s) (num_row s) (num_col s)
    (num_nz s) (cost_row_location s) (row_lower s) (row_upper s) (row_type s)
    (row_names s) (rowname2idx s) (col_binary s) (col_lower s) (col_upper s)
    (has_duplicate_row_name_ s) (has_duplicate_col_name_ s) (duplicate_row_name_ s)
    (duplicate_row_name_index0_ s) (duplicate_row_name_index1_ s) (warning_issued_ s)
    (time_limit_ s) (start_time s) (clock_calls s).

Definition set_obj_sense (s : HMpsFF) (v : ObjSense.t) : HMpsFF :=
  mkHMpsFF (mps_name s) (objective_name s) v (section_args s) (num_row s) (num_col s)
    (num_nz s) (cost_row_location s) (row_lower s) (row_upper s) (row_type s)
    (row_names s) (rowname2idx s) (col_binary s) (col_lower s) (col_upper s)
    (has_duplicate_row_name_ s) (has_duplicate_col_name_ s) (duplicate_row_name_ s)
    (duplicate_row_name_index0_ s) (duplicate_row_name_index1_ s) (warning_issued_ s)
    (time_limit_ s) (start_time s) (clock_calls s).

Definition set_section_args (s : HMpsFF) (v : string) : HMpsFF :=
  mkHMpsFF (mps_name s) (objective_name s) (obj_sense s) v (num_row s) (num_col s)
    (num_nz s) (cost_row_location s) (row_lower s) (row_upper s) (row_type s)
    (row_names s) (rowname2idx s) (col_binary s) (col_lower s) (col_upper s)
    (has_duplicate_row_name_ s) (has_duplicate_col_name_ s) (duplicate_row_name_ s)
    (duplicate_row_name_index0_ s) (duplicate_row_name_index1_ s) (warning_issued_ s)
    (time_limit_ s) (start_time s) (clock_calls s).

Definition set_num_row (s : HMpsFF) (v : Z) : HMpsFF :=
  mkHMpsFF (mps_name s) (objective_name s) (obj_sense s) (section_args s) v (num_col s)
    (num_nz s) (cost_row_location s) (row_lower s) (row_upper s) (row_type s)
    (row_names s) (rowname2idx s) (col_binary s) (col_lower s) (col_upper s)
    (has_duplicate_row_name_ s) (has_duplicate_col_name_ s) (duplicate_row_name_ s)
    (duplicate_row_name_index0_ s) (duplicate_row_name_index1_ s) (warning_issued_ s)
    (time_limit_ s) (start_time s) (clock_calls s).

Definition set_num_col (s : HMpsFF) (v : Z) : HMpsFF :=
  mkHMpsFF (mps_name s) (objective_name s) (obj_sense s) (section_args s) (num_row s) v
    (num_nz s) (cost_row_location s) (row_lower s) (row_upper s) (row_type s)
    (row_names s) (rowname2idx s) (col_binary s) (col_lower s) (col_upper s)
    (has_duplicate_row_name_ s) (has_duplicate_col_name_ s) (duplicate_row_name_ s)
    (duplicate_row_name_index0_ s) (duplicate_row_name_index1_ s) (warning_issued_ s)
    (time_limit_ s) (start_time s) (clock_calls s).

Definition set_num_nz (s : HMpsFF) (v : Z) : HMpsFF :=
  mkHMpsFF (mps_name s) (objective_name s) (obj_sense s) (section_args s) (num_row s)
    (num_col s) v (cost_row_location s) (row_lower s) (row_upper s) (row_type s)
    (row_names s) (rowname2idx s) (col_binary s) (col_lower s) (col_upper s)
    (has_duplicate_row_name_ s) (has_duplicate_col_name_ s) (duplicate_row_name_ s)
    (duplicate_row_name_index0_ s) (duplicate_row_name_index1_ s) (warning_issued_ s)
    (time_limit_ s) (start_time s) (clock_calls s).

Definition set_cost_row_location (s : HMpsFF) (v : Z) : HMpsFF :=
  mkHMpsFF (mps_name s) (objective_name s) (obj_sense s) (section_args s) (num_row s)
    (num_col s) (num_nz s) v (row_lower s) (row_upper s) (row_type s) (row_names s)
    (rowname2idx s) (col_binary s) (col_lower s) (col_upper s)
    (has_duplicate_row_name_ s) (has_duplicate_col_name_ s) (duplicate_row_name_ s)
    (duplicate_row_name_index0_ s) (duplicate_row_name_index1_ s) (warning_issued_ s)
    (time_limit_ s) (start_time s) (clock_calls s).

Definition set_row_lower (s : HMpsFF) (v : list double) : HMpsFF :=
  mkHMpsFF (mps_name s) (objective_name s) (obj_sense s) (section_args s) (num_row s)
    (num_col s) (num_nz s) (cost_row_location s) v (row_upper s) (row_type s)
    (row_names s) (rowname2idx s) (col_binary s) (col_lower s) (col_upper s)
    (has_duplicate_row_name_ s) (has_duplicate_col_name_ s) (duplicate_row_name_ s)
    (duplicate_row_name_index0_ s) (duplicate_row_name_index1_ s) (warning_issued_ s)
    (time_limit_ s) (start_time s) (clock_calls s).

Definition set_row_upper (s : HMpsFF) (v : list double) : HMpsFF :=
  mkHMpsFF (mps_name s) (objective_name s) (obj_sense s) (section_args s) (num_row s)
    (num_col s) (num_nz s) (cost_row_location s) (row_lower s) v (row_type s)
    (row_names s) (rowname2idx s) (col_binary s) (col_lower s) (col_upper s)
    (has_duplicate_row_name_ s) (has_duplicate_col_name_ s) (duplicate_row_name_ s)
    (duplicate_row_name_index0_ s) (duplicate_row_name_index1_ s) (warning_issued_ s)
    (time_limit_ s) (start_time s) (clock_calls s).

Definition set_row_type (s : HMpsFF) (v : list Boundtype.t) : HMpsFF :=
  mkHMpsFF (mps_name s) (objective_name s) (obj_sense s) (section_args s) (num_row s)
    (num_col s) (num_nz s) (cost_row_location s) (row_lower s) (row_upper s) v
    (row_names s) (rowname2idx s) (col_binary s) (col_lower s) (col_upper s)
    (has_duplicate_row_name_ s) (has_duplicate_col_name_ s) (duplicate_row_name_ s)
    (duplicate_row_name_index0_ s) (duplicate_row_name_index1_ s) (warning_issued_ s)
    (time_limit_ s) (start_time s) (clock_calls s).

Definition set_row_names (s : HMpsFF) (v : list string) : HMpsFF :=
  mkHMpsFF (mps_name s) (objective_name s) (obj_sense s) (section_args s) (num_row s)
    (num_col s) (num_nz s) (cost_row_location s) (row_lower s) (row_upper s)
    (row_type s) v (rowname2idx s) (col_binary s) (col_lower s) (col_upper s)
    (has_duplicate_row_name_ s) (has_duplicate_col_name_ s) (duplicate_row_name_ s)
    (duplicate_row_name_index0_ s) (duplicate_row_name_index1_ s) (warning_issued_ s)
    (time_limit_ s) (start_time s) (clock_calls s).

Definition set_rowname2idx (s : HMpsFF) (v : list (string * Z)) : HMpsFF :=
  mkHMpsFF (mps_name s) (objective_name s) (obj_sense s) (section_args s) (num_row s)
    (num_col s) (num_nz s) (cost_row_location s) (row_lower s) (row_upper s)
    (row_type s) (row_names s) v (col_binary s) (col_lower s) (col_upper s)
    (has_duplicate_row_name_ s) (has_duplicate_col_name_ s) (duplicate_row_name_ s)
    (duplicate_row_name_index0_ s) (duplicate_row_name_index1_ s) (warning_issued_ s)
    (time_limit_ s) (start_time s) (clock_calls s).

Definition set_col_lower (s : HMpsFF) (v : list double) : HMpsFF :=
  mkHMpsFF (mps_name s) (objective_name s) (obj_sense s) (section_args s) (num_row s)
    (num_col s) (num_nz s) (cost_row_location s) (row_lower s) (row_upper s)
    (row_type s) (row_names s) (rowname2idx s) (col_binary s) v (col_upper s)
    (has_duplicate_row_name_ s) (has_duplicate_col_name_ s) (duplicate_row_name_ s)
    (duplicate_row_name_index0_ s) (duplicate_row_name_index1_ s) (warning_issued_ s)
    (time_limit_ s) (start_time s) (clock_calls s).

Definition set_col_upper (s : HMpsFF) (v : list double) : HMpsFF :=
  mkHMpsFF (mps_name s) (objective_name s) (obj_sense s) (section_args s) (num_row s)
    (num_col s) (num_nz s) (cost_row_location s) (row_lower s) (row_upper s)
    (row_type s) (row_names s) (rowname2idx s) (col_binary s) (col_lower s) v
    (has_duplicate_row_name_ s) (has_duplicate_col_name_ s) (duplicate_row_name_ s)
    (duplicate_row_name_index0_ s) (duplicate_row_name_index1_ s) (warning_issued_ s)
    (time_limit_ s) (start_time s) (clock_calls s).

Definition set_has_duplicate_row_name_ (s : HMpsFF) (v : bool) : HMpsFF :=
  mkHMpsFF (mps_name s) (objective_name s) (obj_sense s) (section_args s) (num_row s)
    (num_col s) (num_nz s) (cost_row_location s) (row_lower s) (row_upper s)
    (row_type s) (row_names s) (rowname2idx s) (col_binary s) (col_lower s)
    (col_upper s) v (has_duplicate_col_name_ s) (duplicate_row_name_ s)
    (duplicate_row_name_index0_ s) (duplicate_row_name_index1_ s) (warning_issued_ s)
    (time_limit_ s) (start_time s) (clock_calls s).

Definition set_has_duplicate_col_name_ (s : HMpsFF) (v : bool) : HMpsFF :=
  mkHMpsFF (mps_name s) (objective_name s) (obj_sense s) (section_args s) (num_row s)
    (num_col s) (num_nz s) (cost_row_location s) (row_lower s) (row_upper s)
    (row_type s) (row_names s) (rowname2idx s) (col_binary s) (col_lower s)
    (col_upper s) (has_duplicate_row_name_ s) v (duplicate_row_name_ s)
    (duplicate_row_name_index0_ s) (duplicate_row_name_index1_ s) (warning_issued_ s)
    (time_limit_ s) (start_time s) (clock_calls s).

Definition set_duplicate_row_name_ (s : HMpsFF) (v : string) : HMpsFF :=
  mkHMpsFF (mps_name s) (objective_name s) (obj_sense s) (section_args s) (num_row s)
    (num_col s) (num_nz s) (cost_row_location s) (row_lower s) (row_upper s)
    (row_type s) (row_names s) (rowname2idx s) (col_binary s) (col_lower s)
    (col_upper s) (has_duplicate_row_name_ s) (has_duplicate_col_name_ s) v
    (duplicate_row_name_index0_ s) (duplicate_row_name_index1_ s) (warning_issued_ s)
    (time_limit_ s) (start_time s) (clock_calls s).

Definition set_duplicate_row_name_index0_ (s : HMpsFF) (v : Z) : HMpsFF :=
  mkHMpsFF (mps_name s) (objective_name s) (obj_sense s) (section_args s) (num_row s)
    (num_col s) (num_nz s) (cost_row_location s) (row_lower s) (row_upper s)
    (row_type s) (row_names s) (rowname2idx s) (col_binary s) (col_lower s)
    (col_upper s) (has_duplicate_row_name_ s) (has_duplicate_col_name_ s)
    (duplicate_row_name_ s) v (duplicate_row_name_index1_ s) (warning_issued_ s)
    (time_limit_ s) (start_time s) (clock_calls s).

Definition set_duplicate_row_name_index1_ (s : HMpsFF) (v : Z) : HMpsFF :=
  mkHMpsFF (mps_name s) (objective_name s) (obj_sense s) (section_args s) (num_row s)
    (num_col s) (num_nz s) (cost_row_location s) (row_lower s) (row_upper s)
    (row_type s) (row_names s) (rowname2idx s) (col_binary s) (col_lower s)
    (col_upper s) (has_duplicate_row_name_ s) (has_duplicate_col_name_ s)
    (duplicate_row_name_ s) (duplicate_row_name_index0_ s) v (warning_issued_ s)
    (time_limit_ s) (start_time s) (clock_calls s).

Definition set_warning_issued_ (s : HMpsFF) (v : bool) : HMpsFF :=
  mkHMpsFF (mps_name s) (objective_name s) (obj_sense s) (section_args s) (num_row s)
    (num_col s) (num_nz s) (cost_row_location s) (row_lower s) (row_upper s)
    (row_type s) (row_names s) (rowname2idx s) (col_binary s) (col_lower s)
    (col_upper s) (has_duplicate_row_name_ s) (has_duplicate_col_name_ s)
    (duplicate_row_name_ s) (duplicate_row_name_index0_ s)
    (duplicate_row_name_index1_ s) v (time_limit_ s) (start_time s) (clock_calls s).

Definition set_start_time (s : HMpsFF) (v : double) : HMpsFF :=
  mkHMpsFF (mps_name s) (objective_name s) (obj_sense s) (section_args s) (num_row s)
    (num_col s) (num_nz s) (cost_row_location s) (row_lower s) (row_upper s)
    (row_type s) (row_names s) (rowname2idx s) (col_binary s) (col_lower s)
    (col_upper s) (has_duplicate_row_name_ s) (has_duplicate_col_name_ s)
    (duplicate_row_name_ s) (duplicate_row_name_index0_ s)
    (duplicate_row_name_index1_ s) (warning_issued_ s) (time_limit_ s) v
    (clock_calls s).

Definition set_clock_calls (s : HMpsFF) (v : nat) : HMpsFF :=
  mkHMpsFF (mps_name s) (objective_name s) (obj_sense s) (section_args s) (num_row s)
    (num_col s) (num_nz s) (cost_row_location s) (row_lower s) (row_upper s)
    (row_type s) (row_names s) (rowname2idx s) (col_binary s) (col_lower s)
    (col_upper s) (has_duplicate_row_name_ s) (has_duplicate_col_name_ s)
    (duplicate_row_name_ s) (duplicate_row_name_index0_ s)
    (duplicate_row_name_index1_ s) (warning_issued_ s) (time_limit_ s) (start_time s) v.

(** What the body of a line loop does: return from the section parser or go
    on with the next line. *)
Inductive LineResult (L : Type) : Type :=
| Return (key : Parsekey.t) (st : HMpsFF)
| Continue (locals : L) (st : HMpsFF).
Arguments Return {L} key st.
Arguments Continue {L} locals st.

(** The reference parameters that checkFirstWord sets. *)
Record FirstWord : Type := mkFirstWord {
  fw_key : Parsekey.t;
  fw_start : Z;
  fw_end : Z;
  fw_word : string
}.

(** What ends the parsing loop and what follows it. *)
Inductive LoopExit : Type :=
| Returned (code : FreeFormatParserReturnCode.t) (st : HMpsFF)
| Exited (keyword : Parsekey.t) (st : HMpsFF).

Section Reader.

(** The functions of util/stringutil on the default set of white space
    characters, and the wall clock that [getWallTime] reads: [wall_clock n]
    is the reading of the [n]-th call. *)
Variable is_empty_char : ascii -> bool.
Variable is_empty : string -> bool.
Variable is_end : string -> Z -> bool.
Variable first_word : string -> Z -> string.
Variable first_word_end : string -> Z -> Z.
Variable trim : string -> string.
Variable toupper : string -> string.
Variable wall_clock : nat -> double.

(** The section parsers other than parseRows and parseDefault, by section
    keyword: each reads lines of the file and returns the next keyword. *)
Variable parseSection :
  Parsekey.t -> HMpsFF -> list string -> Parsekey.t * HMpsFF * list string.

Local Open Scope string_scope.

(** [getWallTime()] *)
Definition getWallTime (st : HMpsFF) : double * HMpsFF :=
  (wall_clock (clock_calls st), set_clock_calls st (S (clock_calls st))).

(** [HMpsFF::timeout], lines 217-219. *)
Definition timeout (st : HMpsFF) : bool * HMpsFF :=
  if (0 <? time_limit_ st)%float
  then
    let '(now, st) := getWallTime st in
    ((time_limit_ st <? now - start_time st)%float, st)
  else (false, st).

(** What [getMpsLine], lines 221-243, makes of a line that was read: the
    line handed to the caller and the [skip] flag. *)
Definition mps_line (line : string) : string * bool :=
  if is_empty line || Ascii.eqb (at_ line 0) "*"%char then (line, true)
  else let strline := trim line in (strline, is_empty strline).

(** [HMpsFF::getMpsLine]: [None] when getline fails at the end of the file. *)
Definition getMpsLine (file : list string) : option (string * bool * list string) :=
  match file with
  | [] => None
  | line :: file' => Some (fst (mps_line line), snd (mps_line line), file')
  end.

(** The keyword table of checkFirstWord, lines 423-474. *)
Definition keyword_of (upper_word : string) : Parsekey.t :=
  if upper_word =? "NAME" then Parsekey.kName
  else if upper_word =? "OBJSENSE" then Parsekey.kObjsense
  else if substr upper_word 0 3 =? "MAX" then Parsekey.kMax
  else if substr upper_word 0 3 =? "MIN" then Parsekey.kMin
  else if upper_word =? "ROWS" then Parsekey.kRows
  else if upper_word =? "COLUMNS" then Parsekey.kCols
  else if upper_word =? "RHS" then Parsekey.kRhs
  else if upper_word =? "BOUNDS" then Parsekey.kBounds
  else if upper_word =? "RANGES" then Parsekey.kRanges
  else if upper_word =? "QSECTION" then Parsekey.kQsection
  else if upper_word =? "QMATRIX" then Parsekey.kQmatrix
  else if upper_word =? "QUADOBJ" then Parsekey.kQuadobj
  else if upper_word =? "QCMATRIX" then Parsekey.kQcmatrix
  else if upper_word =? "CSECTION" then Parsekey.kCsection
  else if upper_word =? "DELAYEDROWS" then Parsekey.kDelayedrows
  else if upper_word =? "MODELCUTS" then Parsekey.kModelcuts
  else if upper_word =? "USERCUTS" then Parsekey.kUsercuts
  else if upper_word =? "INDICATORS" then Parsekey.kIndicators
  else if upper_word =? "SETS" then Parsekey.kSets
  else if upper_word =? "SOS" then Parsekey.kSos
  else if upper_word =? "GENCONS" then Parsekey.kGencons
  else if upper_word =? "PWLOBJ" then Parsekey.kPwlobj
  else if upper_word =? "PWLNAM" then Parsekey.kPwlnam
  else if upper_word =? "PWLCON" then Parsekey.kPwlcon
  else if upper_word =? "ENDATA" then Parsekey.kEnd
  else Parsekey.kNone.

(** [HMpsFF::checkFirstWord], lines 398-488. *)
Definition checkFirstWord (st : HMpsFF) (strline : string) : FirstWord * HMpsFF :=
  let start := find_first_not_of_space strline in
  let start1 := HMpsFF.size_t_wrap (start + 1) in
  if (start1 =? size strline)%Z || is_empty_char (at_ strline start1)
  then (mkFirstWord Parsekey.kNone start start1 (String (at_ strline start) ""), st)
  else
  let end_ := first_word_end strline start1 in
  let word := substr strline start (HMpsFF.size_t_wrap (end_ - start)) in
  let upper_word := toupper word in
  (* store rest of strline for keywords that have arguments *)
  let st :=
    if (upper_word =? "QCMATRIX") || (upper_word =? "QSECTION") ||
       (upper_word =? "CSECTION")
    then set_section_args st (substr strline end_ (size strline))
    else st in
  let key := keyword_of upper_word in
  match key with
  | Parsekey.kNone => (mkFirstWord Parsekey.kNone start end_ word, st)
  | Parsekey.kName | Parsekey.kObjsense | Parsekey.kQcmatrix | Parsekey.kQsection
  | Parsekey.kCsection => (mkFirstWord key start end_ word, st)
  | _ =>
      if is_end strline end_ then (mkFirstWord key start end_ word, st)
      else (mkFirstWord Parsekey.kNone start end_ word, st)
  end.

(** [row_lower.push_back; row_upper.push_back; row_type.push_back] *)
Definition push_row (st : HMpsFF) (lower upper : double) (type : Boundtype.t) : HMpsFF :=
  let st := set_row_lower st (row_lower st ++ [lower]) in
  let st := set_row_upper st (row_upper st ++ [upper]) in
  set_row_type st (row_type st ++ [type]).

(** Lines 630-657 of parseRows: the row type letter.  The result is the
    state with the locals [hasobj], [isobj] and [isFreeRow], or [None] for
    an unidentified entry. *)
Definition row_type_letter (st : HMpsFF) (hasobj : bool) (c : ascii)
  : option (HMpsFF * bool * bool * bool) :=
  if Ascii.eqb c "G"%char
  then Some (push_row st 0%float kHighsInf Boundtype.kGe, hasobj, false, false)
  else if Ascii.eqb c "E"%char
  then Some (push_row st 0%float 0%float Boundtype.kEq, hasobj, false, false)
  else if Ascii.eqb c "L"%char
  then Some (push_row st (- kHighsInf)%float 0%float Boundtype.kLe, hasobj, false, false)
  else if Ascii.eqb c "N"%char
  then
    if negb hasobj
    then Some (set_cost_row_location st (num_row st), true, true, false)
    else Some (st, hasobj, false, true)
  else None.

(** Lines 672-702 of parseRows: the row name goes to the name table. *)
Definition record_row_name (st : HMpsFF) (hasobj isobj isFreeRow : bool)
  (rowname : string) : LineResult bool :=
  (* Do not add to matrix if row is free. *)
  if isFreeRow
  then Continue hasobj (set_rowname2idx st (snd (emplace (rowname2idx st) rowname (-2))))
  else
  let ret := emplace (rowname2idx st) rowname (if isobj then -1 else num_row st) in
  let st := if isobj then st else set_num_row st (num_row st + 1) in
  let st := set_rowname2idx st (snd ret) in
  let st :=
    if negb isobj then set_row_names st (row_names st ++ [rowname])
    else set_objective_name st rowname in
  let st :=
    if negb (fst ret) && negb (has_duplicate_row_name_ st)
    then
      let st := set_has_duplicate_row_name_ st true in
      let st := set_duplicate_row_name_ st rowname in
      let st := set_duplicate_row_name_index0_ st
                  (match map_find (rowname2idx st) rowname with
                   | Some i => i | None => 0 end) in
      set_duplicate_row_name_index1_ st (num_row st - 1)
    else st in
  Continue hasobj st.

(** Lines 662-670 of parseRows: text after the row name means a name with
    spaces, so the file is taken to be in fixed format. *)
Definition fixed_format_name (strline : string) (start : Z) : string :=
  trim (substr_from strline (HMpsFF.size_t_wrap (start + 1))).

Definition rows_fixed_format (strline : string) (start : Z) : Parsekey.t :=
  if (8 <? size (fixed_format_name strline start))%Z
  then Parsekey.kFail
  else Parsekey.kFixedFormat.

(** The body of the line loop of parseRows, lines 609-702, from the call of
    checkFirstWord on. *)
Definition parseRows_line (st : HMpsFF) (hasobj : bool) (strline : string)
  : LineResult bool :=
  let '(fw, st) := checkFirstWord st strline in
  let start := fw_start fw in
  (* start of new section? *)
  if negb (Parsekey.eqb (fw_key fw) Parsekey.kNone)
  then
    let st :=
      if negb hasobj
      then
        let st := set_warning_issued_ st true in
        set_rowname2idx st
          (snd (emplace (rowname2idx st) "artificial_empty_objective" (-1)))
      else st in
    Return (fw_key fw) st
  else
  match row_type_letter st hasobj (at_ strline start) with
  | None => Return Parsekey.kFail st
  | Some (st, hasobj, isobj, isFreeRow) =>
      let start1 := HMpsFF.size_t_wrap (start + 1) in
      let rowname := first_word strline start1 in
      let rowname_end := first_word_end strline start1 in
      (* Detect if file is in fixed format. *)
      if negb (is_end strline rowname_end)
      then Return (rows_fixed_format strline start) st
      else record_row_name st hasobj isobj isFreeRow rowname
  end.

(** [while (getMpsLine(file, strline, skip))] of parseRows, lines 605-703,
    and the exit after the loop, lines 704-711. *)
Fixpoint parseRows_loop (file : list string) (hasobj : bool) (st : HMpsFF)
  : Parsekey.t * HMpsFF * list string :=
  match file with
  | [] => (Parsekey.kFail, set_num_row st (vsize (row_lower st)), [])
  | line :: file' =>
      let '(strline, skip) := mps_line line in
      if skip then parseRows_loop file' hasobj st else
      let '(late, st) := timeout st in
      if late then (Parsekey.kTimeout, st, file') else
      match parseRows_line st hasobj strline with
      | Return key st => (key, st, file')
      | Continue hasobj st => parseRows_loop file' hasobj st
      end
  end.

(** [HMpsFF::parseRows], lines 594-712. *)
Definition parseRows (st : HMpsFF) (file : list string)
  : Parsekey.t * HMpsFF * list string :=
  (* Assign a default objective name *)
  let st := set_objective_name st "Objective" in
  parseRows_loop file false st.

(** [HMpsFF::parseDefault], lines 507-549. *)
Definition parseDefault (st : HMpsFF) (file : list string)
  : Parsekey.t * HMpsFF * list string :=
  match file with
  | [] => (Parsekey.kFail, st, [])
  | line :: file' =>
      let '(strline, skip) := mps_line line in
      if skip then (Parsekey.kComment, st, file') else
      let '(late, st) := timeout st in
      if late then (Parsekey.kTimeout, st, file') else
      let '(fw, st) := checkFirstWord st strline in
      match fw_key fw with
      | Parsekey.kName =>
          (* Save name of the MPS file *)
          let st :=
            if (fw_end fw <? size strline)%Z
            then set_mps_name st (first_word strline (fw_end fw))
            else st in
          (Parsekey.kNone, st, file')
      | Parsekey.kObjsense =>
          (* Look for Gurobi-style definition of MAX/MIN on OBJSENSE line *)
          let st :=
            if (fw_end fw <? size strline)%Z
            then
              let sense := toupper (first_word strline (fw_end fw)) in
              if sense =? "MAX" then set_obj_sense st ObjSense.kMaximize
              else if sense =? "MIN" then set_obj_sense st ObjSense.kMinimize
              else st
            else st in
          (Parsekey.kObjsense, st, file')
      | key => (key, st, file')
      end
  end.

(** [HMpsFF::cannotParseSection], lines 355-395. *)
Definition cannotParseSection (keyword : Parsekey.t) : bool :=
  match keyword with
  | Parsekey.kDelayedrows | Parsekey.kModelcuts | Parsekey.kUsercuts
  | Parsekey.kIndicators | Parsekey.kGencons | Parsekey.kPwlobj
  | Parsekey.kPwlnam | Parsekey.kPwlcon => true
  | _ => false
  end.

(** Where the reader is: the keyword, the reader and the rest of the file. *)
Definition Config : Type := (Parsekey.t * HMpsFF * list string)%type.

(** One turn of the parsing loop of [HMpsFF::parse], lines 273-324: the
    loop ends, or a section is read and gives the next keyword. *)
Definition parse_step (keyword : Parsekey.t) (st : HMpsFF) (file : list string)
  : LoopExit + Config :=
  match keyword with
  | Parsekey.kFail | Parsekey.kEnd | Parsekey.kTimeout => inl (Exited keyword st)
  | _ =>
      if cannotParseSection keyword
      then inl (Returned FreeFormatParserReturnCode.kParserError st)
      else
        match keyword with
        | Parsekey.kRows => inr (parseRows st file)
        | Parsekey.kObjsense | Parsekey.kCols | Parsekey.kRhs | Parsekey.kBounds
        | Parsekey.kRanges | Parsekey.kQmatrix | Parsekey.kQuadobj
        | Parsekey.kQsection | Parsekey.kQcmatrix | Parsekey.kCsection
        | Parsekey.kSets | Parsekey.kSos => inr (parseSection keyword st file)
        | Parsekey.kFail => inl (Returned FreeFormatParserReturnCode.kParserError st)
        | Parsekey.kFixedFormat =>
            inl (Returned FreeFormatParserReturnCode.kFixedFormat st)
        | _ => inr (parseDefault st file)
        end
  end.

(** The parsing loop; [fuel] bounds the number of sections that are read. *)
Fixpoint parse_loop (fuel : nat) (keyword : Parsekey.t) (st : HMpsFF)
  (file : list string) : option LoopExit :=
  match parse_step keyword st file with
  | inl e => Some e
  | inr (key, st, file) =>
      match fuel with
      | O => None
      | S fuel' => parse_loop fuel' key st file
      end
  end.

(** Lines 326-332: assign bounds to columns that remain binary by default. *)
Fixpoint binary_bounds (n : nat) (colidx : Z) (st : HMpsFF) : HMpsFF :=
  match n with
  | O => st
  | S n' =>
      let st :=
        if nth (Z.to_nat colidx) (col_binary st) false
        then
          let st := set_col_lower st (vset (col_lower st) colidx 0%float) in
          set_col_upper st (vset (col_upper st) colidx 1%float)
        else st in
      binary_bounds n' (colidx + 1) st
  end.

(** Lines 264-271 of parse: the reader before the loop. *)
Definition parse_init (st : HMpsFF) : HMpsFF :=
  let '(now, st) := getWallTime st in
  let st := set_start_time st now in
  let st := set_num_row st 0 in
  let st := set_num_col st 0 in
  let st := set_num_nz st 0 in
  let st := set_cost_row_location st (-1) in
  (* Indicate that no duplicate rows or columns have been found *)
  let st := set_has_duplicate_row_name_ st false in
  set_has_duplicate_col_name_ st false.

(** Lines 326-352 of parse: what is returned once the loop is left. *)
Definition parse_exit (e : LoopExit) : FreeFormatParserReturnCode.t * HMpsFF :=
  match e with
  | Returned code st => (code, st)
  | Exited keyword st =>
      let st := binary_bounds (Z.to_nat (num_col st)) 0 st in
      match keyword with
      | Parsekey.kFail => (FreeFormatParserReturnCode.kParserError, st)
      | Parsekey.kTimeout => (FreeFormatParserReturnCode.kTimeout, st)
      | _ => (FreeFormatParserReturnCode.kSuccess, st)
      end
  end.

(** [HMpsFF::parse], lines 245-353; [file] is [None] when the file cannot
    be opened, and the result is [None] when [fuel] sections do not reach
    the end of the loop. *)
Definition parse (fuel : nat) (st : HMpsFF) (file : option (list string))
  : option (FreeFormatParserReturnCode.t * HMpsFF) :=
  match file with
  | None => Some (FreeFormatParserReturnCode.kFileNotFound, st)
  | Some file =>
      option_map parse_exit (parse_loop fuel Parsekey.kNone (parse_init st) file)
  end.

(** Lines 805-840 of parseCols: a line of the COLUMNS section whose second
    word [marker] ends before position 9 and is not the name of a row is
    taken to hold a fixed-format name with spaces.  [None]: the line is
    read as a free-format line. *)
Definition cols_fixed_format (st : HMpsFF) (strline marker : string) (end_marker : Z)
  : option (Parsekey.t * HMpsFF) :=
  if (end_marker <? 9)%Z
  then
    match map_find (rowname2idx st) marker with
    | None =>
        (* marker is not a row name, so continue to look at name *)
        let name := trim (substr strline 0 10) in
        if (8 <? size name)%Z
        then Some (Parsekey.kFail, st)
        else Some (Parsekey.kFixedFormat, set_warning_issued_ st true)
    | Some _ => None
    end
  else None.

(** ** The fixed-format heuristic of the ROWS section *)

(** The test of lines 614-662 on a line of the ROWS section: the line does
    not start a section, its row type is one of G, E, L and N, and there is
    text after the row name. *)
Definition detects_fixed_format (st : HMpsFF) (hasobj : bool) (strline : string) : bool :=
  let '(fw, st) := checkFirstWord st strline in
  Parsekey.eqb (fw_key fw) Parsekey.kNone &&
  match row_type_letter st hasobj (at_ strline (fw_start fw)) with
  | None => false
  | Some _ =>
      negb (is_end strline
              (first_word_end strline (HMpsFF.size_t_wrap (fw_start fw + 1))))
  end.

(** The name that the heuristic measures on the line. *)
Definition detected_name (st : HMpsFF) (strline : string) : string :=
  fixed_format_name strline (fw_start (fst (checkFirstWord st strline))).

(** [n] turns of the parsing loop, none of which leaves it. *)
Fixpoint run_sections (n : nat) (c : Config) : option Config :=
  match n with
  | O => Some c
  | S n' =>
      match parse_step (fst (fst c)) (snd (fst c)) (snd c) with
      | inl _ => None
      | inr c' => run_sections n' c'
      end
  end.

Lemma Parsekey_eqb_eq (a b : Parsekey.t) : Parsekey.eqb a b = true <-> a = b.
Proof.
  unfold Parsekey.eqb. destruct (Parsekey.eq_dec a b); split; congruence.
Qed.

Lemma keyword_of_not_fixed_format (w : string) :
  keyword_of w <> Parsekey.kFixedFormat /\ keyword_of w <> Parsekey.kFail.
Proof.
  unfold keyword_of.
  repeat match goal with
         | |- context [if ?b then _ else _] => destruct b
         end; split; discriminate.
Qed.

Lemma checkFirstWord_key (st : HMpsFF) (strline : string) :
  fw_key (fst (checkFirstWord st strline)) <> Parsekey.kFixedFormat /\
  fw_key (fst (checkFirstWord st strline)) <> Parsekey.kFail.
Proof.
  unfold checkFirstWord.
  destruct (_ || _); [cbn; split; discriminate|].
  cbv zeta.
  match goal with
  | |- context [keyword_of ?w] =>
      pose proof (keyword_of_not_fixed_format w) as [H1 H2];
      destruct (keyword_of w) eqn:E
  end; cbn; try (split; congruence);
  match goal with
  | |- context [if ?b then _ else _] => destruct b
  end; cbn; split; congruence.
Qed.

(** A line on which the heuristic fires makes parseRows return: kFail for
    a name longer than 8 characters, kFixedFormat otherwise. *)
Lemma parseRows_line_detected (st : HMpsFF) (hasobj : bool) (strline : string) :
  detects_fixed_format st hasobj strline = true ->
  exists st', parseRows_line st hasobj strline =
              Return (if (8 <? size (detected_name st strline))%Z
                      then Parsekey.kFail else Parsekey.kFixedFormat) st'.
Proof.
  unfold detects_fixed_format, parseRows_line, detected_name.
  destruct (checkFirstWord st strline) as [fw st1]. cbn [fst].
  intros H. apply andb_prop in H. destruct H as [Hk Hl]. rewrite Hk. cbn [negb].
  destruct (row_type_letter st1 hasobj (at_ strline (fw_start fw)))
    as [[[[st2 h2] isobj] isfree]|]; [|discriminate].
  rewrite Hl. eexists. reflexivity.
Qed.

(** parseRows_line returns kFixedFormat on no other line. *)
Lemma parseRows_line_fixed_format_iff (st : HMpsFF) (hasobj : bool) (strline : string) :
  (exists st', parseRows_line st hasobj strline = Return Parsekey.kFixedFormat st') <->
  detects_fixed_format st hasobj strline = true /\
  (size (detected_name st strline) <= 8)%Z.
Proof.
  split.
  - intros [st' H].
    pose proof (checkFirstWord_key st strline) as [Hnf _].
    unfold detects_fixed_format, parseRows_line, detected_name in *.
    destruct (checkFirstWord st strline) as [fw st1]. cbn [fst] in *.
    destruct (Parsekey.eqb (fw_key fw) Parsekey.kNone); cbn [negb andb] in *;
      [|congruence].
    destruct (row_type_letter st1 hasobj (at_ strline (fw_start fw)))
      as [[[[st2 h2] isobj] isfree]|]; [|discriminate].
    destruct (is_end strline _); cbn [negb] in *.
    + unfold record_row_name in H. destruct isfree; discriminate.
    + split; [reflexivity|]. unfold rows_fixed_format in H.
      destruct (Z.ltb_spec 8 (size (fixed_format_name strline (fw_start fw))));
        [discriminate | assumption].
  - intros [Hd Hs]. destruct (parseRows_line_detected st hasobj strline Hd) as [st' H].
    exists st'. rewrite H.
    destruct (Z.ltb_spec 8 (size (detected_name st strline))); [lia | reflexivity].
Qed.

Lemma parseRows_loop_skip (pre rest : list string) (hasobj : bool) (st : HMpsFF) :
  Forall (fun l => snd (mps_line l) = true) pre ->
  parseRows_loop (pre ++ rest) hasobj st = parseRows_loop rest hasobj st.
Proof.
  induction 1 as [|l pre Hl _ IH]; [reflexivity|].
  cbn [app parseRows_loop]. destruct (mps_line l) as [strline skip].
  cbn in Hl. subst skip. exact IH.
Qed.

(** The first line of the ROWS section that is not skipped, when the
    heuristic fires on it, decides what parseRows returns. *)
Lemma parseRows_first_row (st : HMpsFF) (pre post : list string) (line : string) :
  Forall (fun l => snd (mps_line l) = true) pre ->
  snd (mps_line line) = false ->
  let st0 := set_objective_name st "Objective" in
  fst (timeout st0) = false ->
  detects_fixed_format (snd (timeout st0)) false (fst (mps_line line)) = true ->
  exists st',
    parseRows st (pre ++ line :: post) =
    (if (8 <? size (detected_name (snd (timeout st0)) (fst (mps_line line))))%Z
     then Parsekey.kFail else Parsekey.kFixedFormat, st', post).
Proof.
  intros Hpre Hskip st0 Hto Hd. unfold parseRows. fold st0.
  rewrite parseRows_loop_skip by assumption. cbn [parseRows_loop].
  destruct (mps_line line) as [strline skip]. cbn [fst snd] in *. subst skip.
  destruct (timeout st0) as [late st1]. cbn [fst snd] in *. subst late.
  destruct (parseRows_line_detected st1 false strline Hd) as [st' H].
  rewrite H. exists st'. reflexivity.
Qed.

Lemma parse_loop_more (fuel k : nat) (keyword : Parsekey.t) (st : HMpsFF)
  (file : list string) (e : LoopExit) :
  parse_loop fuel keyword st file = Some e ->
  parse_loop (fuel + k) keyword st file = Some e.
Proof.
  revert keyword st file. induction fuel as [|fuel IH]; intros keyword st file.
  - cbn [parse_loop].
    destruct (parse_step keyword st file) as [e'|[[key st'] file']] eqn:E;
      [|discriminate].
    intros H. destruct k; cbn [Nat.add parse_loop]; rewrite E; assumption.
  - cbn [Nat.add parse_loop].
    destruct (parse_step keyword st file) as [e'|[[key st'] file']]; [auto|].
    apply IH.
Qed.

Lemma run_sections_parse_loop (n fuel : nat) (c c' : Config) (e : LoopExit) :
  run_sections n c = Some c' ->
  parse_loop fuel (fst (fst c')) (snd (fst c')) (snd c') = Some e ->
  parse_loop (n + fuel) (fst (fst c)) (snd (fst c)) (snd c) = Some e.
Proof.
  revert c. induction n as [|n IH]; intros c Hrun Hloop; cbn [run_sections] in Hrun.
  - injection Hrun as ->. exact Hloop.
  - cbn [Nat.add parse_loop].
    destruct (parse_step (fst (fst c)) (snd (fst c)) (snd c)) as [e'|c1];
      [discriminate|].
    specialize (IH c1 Hrun Hloop). destruct c1 as [[key st1] file1]. exact IH.
Qed.

(** From the ROWS keyword on: the parse returns the fixed-format code or
    leaves the loop on kFail. *)
Lemma parse_loop_first_row (st : HMpsFF) (pre post : list string) (line : string) :
  Forall (fun l => snd (mps_line l) = true) pre ->
  snd (mps_line line) = false ->
  let st0 := set_objective_name st "Objective" in
  fst (timeout st0) = false ->
  detects_fixed_format (snd (timeout st0)) false (fst (mps_line line)) = true ->
  exists e,
    parse_loop 1 Parsekey.kRows st (pre ++ line :: post) = Some e /\
    fst (parse_exit e) =
    (if (8 <? size (detected_name (snd (timeout st0)) (fst (mps_line line))))%Z
     then FreeFormatParserReturnCode.kParserError
     else FreeFormatParserReturnCode.kFixedFormat).
Proof.
  intros Hpre Hskip st0 Hto Hd.
  destruct (@parseRows_first_row st pre post line Hpre Hskip Hto Hd) as [st' H].
  fold st0 in H. cbn [parse_loop parse_step cannotParseSection]. rewrite H.
  destruct (8 <? size _)%Z.
  - eexists. split; [reflexivity|]. reflexivity.
  - eexists. split; [reflexivity|]. reflexivity.
Qed.

(** The same test in the COLUMNS section. *)
Lemma cols_fixed_format_spec (st : HMpsFF) (strline marker : string) (end_marker : Z) :
  (end_marker < 9)%Z ->
  map_find (rowname2idx st) marker = None ->
  option_map fst (cols_fixed_format st strline marker end_marker) =
  Some (if (8 <? size (trim (substr strline 0 10)))%Z
        then Parsekey.kFail else Parsekey.kFixedFormat).
Proof.
  intros He Hm. unfold cols_fixed_format.
  apply Z.ltb_lt in He. rewrite He, Hm.
  destruct (8 <? size _)%Z; reflexivity.
Qed.

(** C7, as the code has it.  When the reader comes to the ROWS section and
    the first line of the section that is not skipped has text after the
    row name (the heuristic for a fixed-format name with spaces), the parse
    returns: the code kFixedFormat when the text after the row type,
    trimmed, has at most 8 characters, so that it fits the fixed-format name
    field, and the code kParserError when it has more than 8 characters, so
    that it overflows the field. *)
Theorem fixed_format_escalation (n : nat) (st_init st : HMpsFF)
  (file pre post : list string) (line : string) :
  run_sections n (Parsekey.kNone, parse_init st_init, file) =
    Some (Parsekey.kRows, st, (pre ++ line :: post)%list) ->
  Forall (fun l => snd (mps_line l) = true) pre ->
  snd (mps_line line) = false ->
  let st0 := set_objective_name st "Objective" in
  fst (timeout st0) = false ->
  detects_fixed_format (snd (timeout st0)) false (fst (mps_line line)) = true ->
  forall fuel, (n < fuel)%nat ->
    option_map fst (parse fuel st_init (Some file)) =
    Some (if (8 <? size (detected_name (snd (timeout st0)) (fst (mps_line line))))%Z
          then FreeFormatParserReturnCode.kParserError
          else FreeFormatParserReturnCode.kFixedFormat).
Proof.
  intros Hrun Hpre Hskip st0 Hto Hd fuel Hfuel.
  destruct (@parse_loop_first_row st pre post line Hpre Hskip Hto Hd) as (e & He & Hcode).
  pose proof (@run_sections_parse_loop n 1 _ _ e Hrun He) as Hloop.
  cbn [fst snd] in Hloop.
  apply (@parse_loop_more (n + 1) (fuel - (n + 1))) in Hloop.
  replace (n + 1 + (fuel - (n + 1)))%nat with fuel in Hloop by lia.
  unfold parse. rewrite Hloop. cbn [option_map]. fold st0 in Hcode.
  rewrite Hcode. reflexivity.
Qed.

End Reader.

(** ** The reader on examples *)

(** Modelled from the spec: the functions of util/stringutil (section 5:
    tokens are separated by white space; lines entirely blank are skipped).
    The white space characters are tab, line feed, vertical tab, form feed,
    carriage return and space. *)
Definition is_space (c : ascii) : bool :=
  let n := nat_of_ascii c in
  ((9 <=? n) && (n <=? 13) || (n =? 32))%nat.

Definition not_space (c : ascii) : bool := negb (is_space c).

Definition example_is_empty (s : string) : bool :=
  let pos := find_first not_space s 0 in
  (pos =? npos) || (pos =? size s).

Definition example_is_end (s : string) (end_ : Z) : bool :=
  let pos := find_first not_space s end_ in
  (pos =? npos) || (pos =? size s).

Definition example_first_word_end (s : string) (start : Z) : Z :=
  let next_word_start := find_first not_space s start in
  let next_word_end := find_first is_space s next_word_start in
  if (next_word_end =? npos) || (size s <? next_word_end) then size s
  else next_word_end.

Definition example_first_word (s : string) (start : Z) : string :=
  if size s <=? start then EmptyString else
  let next_word_start := find_first not_space s start in
  let next_word_end := find_first is_space s next_word_start in
  substr s next_word_start (HMpsFF.size_t_wrap (next_word_end - next_word_start)).

Fixpoint ltrim_list (l : list ascii) : list ascii :=
  match l with
  | [] => []
  | c :: l' => if is_space c then ltrim_list l' else l
  end.

Definition example_trim (s : string) : string :=
  string_of_list_ascii
    (ltrim_list (rev (ltrim_list (rev (list_ascii_of_string s))))).

Definition upper_char (c : ascii) : ascii :=
  let n := nat_of_ascii c in
  if ((97 <=? n) && (n <=? 122))%nat then ascii_of_nat (n - 32) else c.

Definition example_toupper (s : string) : string :=
  string_of_list_ascii (map upper_char (list_ascii_of_string s)).

(** A clock that stands still, and a stand-in for the section parsers that
    the examples do not reach. *)
Definition example_wall_clock (n : nat) : double := 0%float.

Definition example_parseSection (keyword : Parsekey.t) (st : HMpsFF)
  (file : list string) : Parsekey.t * HMpsFF * list string :=
  (Parsekey.kFail, st, file).

Definition example_parse
  : nat -> HMpsFF -> option (list string) -> option (FreeFormatParserReturnCode.t * HMpsFF) :=
  parse is_space example_is_empty example_is_end example_first_word
        example_first_word_end example_trim example_toupper example_wall_clock
        example_parseSection.

(** A reader that has read nothing, without a time limit. *)
Definition example_reader : HMpsFF :=
  mkHMpsFF "" "" ObjSense.kMinimize "" 0 0 0 0 [] [] [] [] [] [] [] []
           false false "" 0 0 false 0%float 0%float O.

Local Open Scope string_scope.

(** A file whose objective row is named "MY OBJ": the name has a space and
    fits the 8 characters of the fixed-format name field. *)
Definition example_file_short_name : list string :=
  ["NAME          SHORT";
   "* a comment";
   "ROWS";
   " N  MY OBJ";
   " G  R1";
   "COLUMNS";
   "    X1        MY OBJ    1.0   R1        1.0";
   "RHS";
   "    RHS       R1        1.0";
   "ENDATA"].

(** The same with the objective row named "TOTAL COST ROW": 14 characters,
    more than the field holds. *)
Definition example_file_long_name : list string :=
  ["NAME          LONG";
   "* a comment";
   "ROWS";
   " N  TOTAL COST ROW";
   " G  R1";
   "COLUMNS";
   "    X1        TOTAL COST ROW  1.0   R1        1.0";
   "RHS";
   "    RHS       R1        1.0";
   "ENDATA"].

(** The reader at the ROWS keyword of a file: three turns of the loop read
    the NAME line, the comment and the ROWS line. *)
Definition example_rows_reader (file : list string) : HMpsFF :=
  match
    run_sections is_space example_is_empty example_is_end example_first_word
                 example_first_word_end example_trim example_toupper
                 example_wall_clock example_parseSection 3
                 (Parsekey.kNone, parse_init example_wall_clock example_reader, file)
  with
  | Some c => snd (fst c)
  | None => example_reader
  end.

Example example_trim_first_word :
  example_trim " N  MY OBJ" = "N  MY OBJ" /\
  example_first_word "N  MY OBJ" 1 = "MY" /\
  example_first_word_end "N  MY OBJ" 1 = 5%Z /\
  example_is_end "N  MY OBJ" 5 = false /\
  example_is_end "G  R1" 5 = true /\
  example_toupper "Rows" = "ROWS".
Proof. vm_compute. repeat split; reflexivity. Qed.

Lemma fixed_format_escalation_witness :
  option_map fst (example_parse 4 example_reader (Some example_file_short_name)) =
  Some FreeFormatParserReturnCode.kFixedFormat.
Proof.
  set (st := example_rows_reader example_file_short_name).
  assert (H1 : run_sections is_space example_is_empty example_is_end example_first_word
                 example_first_word_end example_trim example_toupper
                 example_wall_clock example_parseSection 3
                 (Parsekey.kNone, parse_init example_wall_clock example_reader,
                  example_file_short_name) =
               Some (Parsekey.kRows, st,
                     ([] ++ " N  MY OBJ" :: skipn 4 example_file_short_name)%list))
    by (vm_compute; reflexivity).
  assert (H2 : snd (mps_line example_is_empty example_trim " N  MY OBJ") = false)
    by (vm_compute; reflexivity).
  assert (H3 : fst (timeout example_wall_clock (set_objective_name st "Objective")) = false)
    by (vm_compute; reflexivity).
  assert (H4 : detects_fixed_format is_space example_is_end example_first_word_end
                 example_toupper
                 (snd (timeout example_wall_clock (set_objective_name st "Objective")))
                 false (fst (mps_line example_is_empty example_trim " N  MY OBJ")) = true)
    by (vm_compute; reflexivity).
  pose proof (@fixed_format_escalation is_space example_is_empty example_is_end
                example_first_word example_first_word_end example_trim example_toupper
                example_wall_clock example_parseSection
                3%nat example_reader st example_file_short_name []
                (skipn 4 example_file_short_name) " N  MY OBJ"
                H1 (Forall_nil _) H2 H3 H4 4%nat (le_n 4)) as H.
  vm_compute in H |- *. exact H.
Defined.

(** C7, counterexample to the claim as stated.  The first row name of
    [example_file_long_name] has a space, so the heuristic fires, and it
    overflows the 8 characters of the name field; the parse fails with
    kParserError and does not return kFixedFormat. *)
Lemma first_row_name_overflow_is_parser_error :
  detects_fixed_format is_space example_is_end example_first_word_end example_toupper
    (set_objective_name (example_rows_reader example_file_long_name) "Objective")
    false "N  TOTAL COST ROW" = true /\
  example_trim (substr_from "N  TOTAL COST ROW" 1) = "TOTAL COST ROW" /\
  (8 < size "TOTAL COST ROW")%Z /\
  option_map fst (example_parse 4 example_reader (Some example_file_long_name)) =
  Some FreeFormatParserReturnCode.kParserError.
Proof. vm_compute. repeat split; reflexivity. Qed.

End MpsParser.

(* ================================================================== *)
(** * Deleting columns and rows: the basis (deleteBasisEntries)        *)
(* ================================================================== *)

(** The four bounds and the set cursor that updateOutInIndex maintains. *)
Record OutIn : Type := mkOutIn {
  delete_from_entry : Z;
  delete_to_entry : Z;
  keep_from_entry : Z;
  keep_to_entry : Z;
  current_set_entry : Z
}.

(** Modelled from the spec: [limits] of util/HighsUtils (section 4.6: "the
    index collection admits three forms - interval [lo,hi], sorted set of
    indices, or boolean mask"): the range of the counter of a loop over the
    collection. *)
Definition limits (ic : HighsIndexCollection) : Z * Z :=
  if is_interval_ ic then (from_ ic, to_ ic)
  else if is_set_ ic then (0, set_num_entries_ ic - 1)
  else (0, dimension_ ic - 1).

(** The set form: the block to delete grows over the set entries that
    follow each other without a gap. *)
Fixpoint set_run (n : nat) (set_entry : Z) (set : list Z) (out_to_ix cur : Z) : Z * Z :=
  match n with
  | O => (out_to_ix, cur)
  | S n' =>
      let ix := vget set set_entry 0 in
      if out_to_ix + 1 <? ix then (out_to_ix, cur)
      else set_run n' (set_entry + 1) set (vget set cur 0) (cur + 1)
  end.

(** The mask form: the entry before the first one from [ix] on whose mask
    is set ([want = true]) or clear ([want = false]); [dflt] without one. *)
Fixpoint mask_scan (want : bool) (n : nat) (ix : Z) (mask : list Z) (dflt : Z) : Z :=
  match n with
  | O => dflt
  | S n' =>
      if Bool.eqb (negb (vget mask ix 0 =? 0)) want then ix - 1
      else mask_scan want n' (ix + 1) mask dflt
  end.

(** Modelled from the spec: [updateOutInIndex] of util/HighsUtils (section
    4.6, the three forms of the collection "with equivalent semantics"): the
    next block of entries to delete, [delete_from_entry..delete_to_entry],
    and the block of entries to keep that follows it,
    [keep_from_entry..keep_to_entry]. *)
Definition updateOutInIndex (ic : HighsIndexCollection) (o : OutIn) : OutIn :=
  if is_interval_ ic
  then mkOutIn (from_ ic) (to_ ic) (to_ ic + 1) (dimension_ ic - 1) (current_set_entry o)
  else if is_set_ ic
  then
    let out_from_ix := vget (set_ ic) (current_set_entry o) 0 in
    let cur := current_set_entry o + 1 in
    let '(out_to_ix, cur) :=
      set_run (Z.to_nat (set_num_entries_ ic - cur)) cur (set_ ic) out_from_ix cur in
    let in_to_ix :=
      if cur <? set_num_entries_ ic then vget (set_ ic) cur 0 - 1
      else dimension_ ic - 1 in
    mkOutIn out_from_ix out_to_ix (out_to_ix + 1) in_to_ix cur
  else
    let out_from_ix := keep_to_entry o + 1 in
    let out_to_ix :=
      mask_scan false (Z.to_nat (dimension_ ic - out_from_ix)) out_from_ix (mask_ ic)
                (dimension_ ic - 1) in
    let in_from_ix := out_to_ix + 1 in
    let in_to_ix :=
      mask_scan true (Z.to_nat (dimension_ ic - in_from_ix)) in_from_ix (mask_ ic)
                (dimension_ ic - 1) in
    mkOutIn out_from_ix out_to_ix in_from_ix in_to_ix (current_set_entry o).

Definition is_basic (s : HighsBasisStatus.t) : bool :=
  HighsBasisStatus.eqb s HighsBasisStatus.kBasic.

(** Lines 701-708: identify whether a basic or a nonbasic entry has been
    deleted.  [flags] is [(deleted_basic, deleted_nonbasic)]. *)
Fixpoint scan_deleted (n : nat) (entry : Z) (status : list HighsBasisStatus.t)
  (flags : bool * bool) : bool * bool :=
  match n with
  | O => flags
  | S n' =>
      let flags :=
        if is_basic (vget status entry HighsBasisStatus.kLower)
        then (true, snd flags) else (fst flags, true) in
      scan_deleted n' (entry + 1) status flags
  end.

(** Lines 710-713: move the kept entries down. *)
Fixpoint copy_kept (n : nat) (entry : Z) (status : list HighsBasisStatus.t)
  (new_num_entry : Z) : list HighsBasisStatus.t * Z :=
  match n with
  | O => (status, new_num_entry)
  | S n' =>
      let status :=
        vset status new_num_entry (vget status entry HighsBasisStatus.kLower) in
      copy_kept n' (entry + 1) status (new_num_entry + 1)
  end.

(** The number of turns of [for (i = from; i <= to; i++)]. *)
Definition turns (from to : Z) : nat := Z.to_nat (to - from + 1).

(** [for (k = from_k; k <= to_k; k++)], lines 695-715, with [n] turns
    left. *)
Fixpoint deleteBasisEntries_loop (n : nat) (k from_k : Z) (ic : HighsIndexCollection)
  (entry_dim : Z) (o : OutIn) (status : list HighsBasisStatus.t) (new_num_entry : Z)
  (flags : bool * bool) : list HighsBasisStatus.t * Z * (bool * bool) :=
  match n with
  | O => (status, new_num_entry, flags)
  | S n' =>
      let o := updateOutInIndex ic o in
      (* Account for the initial entries being kept *)
      let new_num_entry := if k =? from_k then delete_from_entry o else new_num_entry in
      let flags :=
        scan_deleted (turns (delete_from_entry o) (delete_to_entry o))
                     (delete_from_entry o) status flags in
      if entry_dim - 1 <=? delete_to_entry o then (status, new_num_entry, flags) else
      let '(status, new_num_entry) :=
        copy_kept (turns (keep_from_entry o) (keep_to_entry o)) (keep_from_entry o)
                  status new_num_entry in
      if entry_dim - 1 <=? keep_to_entry o then (status, new_num_entry, flags) else
      deleteBasisEntries_loop n' (k + 1) from_k ic entry_dim o status new_num_entry flags
  end.

(** [v.resize(n)] *)
Definition resize {A : Type} (v : list A) (n : Z) (d : A) : list A :=
  firstn (Z.to_nat n) v ++ repeat d (Z.to_nat n - List.length v).

(** [deleteBasisEntries], lines 676-717.  The flags are [None] when the
    function returns at line 685 without having set them. *)
Definition deleteBasisEntries (status : list HighsBasisStatus.t)
  (ic : HighsIndexCollection) (entry_dim : Z)
  : list HighsBasisStatus.t * option (bool * bool) :=
  let '(from_k, to_k) := limits ic in
  if to_k <? from_k then (status, None) else
  let o := mkOutIn 0 0 0 (-1) 0 in
  let '(status, new_num_entry, flags) :=
    deleteBasisEntries_loop (turns from_k to_k) from_k from_k ic entry_dim o status 0
                            (false, false) in
  (resize status new_num_entry HighsBasisStatus.kLower, Some flags).

(** [deleteBasisCols], lines 719-727, and [deleteBasisRows], lines 729-737.
    The result is [None] when the flag that is tested was never set. *)
Definition deleteBasisCols (basis : HighsBasis) (ic : HighsIndexCollection)
  (original_num_col : Z) : option HighsBasis :=
  match deleteBasisEntries (col_status basis) ic original_num_col with
  | (status, Some (deleted_basic, deleted_nonbasic)) =>
      let basis := set_col_status basis status in
      Some (if deleted_basic then set_basis_valid basis false else basis)
  | (_, None) => None
  end.

Definition deleteBasisRows (basis : HighsBasis) (ic : HighsIndexCollection)
  (original_num_row : Z) : option HighsBasis :=
  match deleteBasisEntries (row_status basis) ic original_num_row with
  | (status, Some (deleted_basic, deleted_nonbasic)) =>
      let basis := set_row_status basis status in
      Some (if deleted_nonbasic then set_basis_valid basis false else basis)
  | (_, None) => None
  end.

(** ** What the deletion computes *)

(** The entries of [l] whose index, counted from [i], satisfies [keep]. *)
Fixpoint kept_from {A : Type} (keep : Z -> bool) (i : Z) (l : list A) : list A :=
  match l with
  | [] => []
  | x :: l' =>
      if keep i then x :: kept_from keep (i + 1) l' else kept_from keep (i + 1) l'
  end.

(** Whether index [i] is in the collection: in the interval, an entry of
    the set, or with a nonzero mask. *)
Definition in_collection (ic : HighsIndexCollection) (i : Z) : bool :=
  if is_interval_ ic then (from_ ic <=? i) && (i <=? to_ ic)
  else if is_set_ ic
  then existsb (Z.eqb i) (firstn (Z.to_nat (set_num_entries_ ic)) (set_ ic))
  else negb (vget (mask_ ic) i 0 =? 0).

Definition kept_entries {A : Type} (ic : HighsIndexCollection) (l : list A) : list A :=
  kept_from (fun i => negb (in_collection ic i)) 0 l.

Definition deleted_entries {A : Type} (ic : HighsIndexCollection) (l : list A) : list A :=
  kept_from (in_collection ic) 0 l.

Lemma kept_from_app {A : Type} (keep : Z -> bool) (i : Z) (l1 l2 : list A) :
  kept_from keep i (l1 ++ l2) =
  kept_from keep i l1 ++ kept_from keep (i + Z.of_nat (List.length l1)) l2.
Proof.
  revert i. induction l1 as [|x l1 IH]; intros i.
  - cbn. rewrite Z.add_0_r. reflexivity.
  - cbn [app kept_from List.length]. rewrite IH.
    replace (i + 1 + Z.of_nat (List.length l1)) with (i + Z.of_nat (S (List.length l1)))
      by lia.
    destruct (keep i); reflexivity.
Qed.

Lemma kept_from_all {A : Type} (keep : Z -> bool) (i : Z) (l : list A) :
  (forall j, i <= j < i + Z.of_nat (List.length l) -> keep j = true) ->
  kept_from keep i l = l.
Proof.
  revert i. induction l as [|x l IH]; intros i H; [reflexivity|].
  cbn [kept_from]. cbn [List.length] in H. rewrite (H i) by lia.
  rewrite IH; [reflexivity|]. intros j Hj. apply H. lia.
Qed.

Lemma kept_from_none {A : Type} (keep : Z -> bool) (i : Z) (l : list A) :
  (forall j, i <= j < i + Z.of_nat (List.length l) -> keep j = false) ->
  kept_from keep i l = [].
Proof.
  revert i. induction l as [|x l IH]; intros i H; [reflexivity|].
  cbn [kept_from]. cbn [List.length] in H. rewrite (H i) by lia.
  apply IH. intros j Hj. apply H. lia.
Qed.

(** [l[a..b)] *)
Definition slice {A : Type} (a b : nat) (l : list A) : list A :=
  firstn (b - a) (skipn a l).

Lemma firstn_slice {A : Type} (a b : nat) (l : list A) :
  (a <= b)%nat -> firstn b l = firstn a l ++ slice a b l.
Proof.
  intros H. unfold slice.
  rewrite <- (firstn_skipn a l) at 1.
  rewrite firstn_app, firstn_firstn, Nat.min_r by lia.
  rewrite length_firstn.
  destruct (Nat.le_ge_cases a (List.length l)) as [Hl|Hl].
  - rewrite Nat.min_l by lia. reflexivity.
  - rewrite (skipn_all2 l) by lia. rewrite !firstn_nil. reflexivity.
Qed.

Lemma slice_length {A : Type} (a b : nat) (l : list A) :
  (a <= b <= List.length l)%nat -> List.length (slice a b l) = (b - a)%nat.
Proof.
  intros H. unfold slice. rewrite length_firstn, length_skipn. lia.
Qed.

Lemma kept_from_extend_kept {A : Type} (keep : Z -> bool) (a b : nat) (l : list A) :
  (a <= b <= List.length l)%nat ->
  (forall j, Z.of_nat a <= j < Z.of_nat b -> keep j = true) ->
  kept_from keep 0 (firstn b l) = kept_from keep 0 (firstn a l) ++ slice a b l.
Proof.
  intros H Hk. rewrite (firstn_slice l (proj1 H)), kept_from_app.
  f_equal. apply kept_from_all. intros j Hj.
  rewrite length_firstn, slice_length in Hj by assumption. apply Hk. lia.
Qed.

Lemma kept_from_extend_deleted {A : Type} (keep : Z -> bool) (a b : nat) (l : list A) :
  (a <= b <= List.length l)%nat ->
  (forall j, Z.of_nat a <= j < Z.of_nat b -> keep j = false) ->
  kept_from keep 0 (firstn b l) = kept_from keep 0 (firstn a l).
Proof.
  intros H Hk. rewrite (firstn_slice l (proj1 H)), kept_from_app.
  rewrite (@kept_from_none _ keep _ (slice a b l)); [apply app_nil_r|].
  intros j Hj.
  rewrite length_firstn, slice_length in Hj by assumption. apply Hk. lia.
Qed.

Lemma skipn_more {A : Type} (a b : nat) (l l' : list A) :
  (a <= b)%nat -> skipn a l = skipn a l' -> skipn b l = skipn b l'.
Proof.
  intros H E. replace b with ((b - a) + a)%nat by lia.
  rewrite <- !skipn_skipn, E. reflexivity.
Qed.

Lemma slice_skipn_eq {A : Type} (a b c : nat) (l l' : list A) :
  (a <= b)%nat -> skipn a l = skipn a l' -> slice b c l = slice b c l'.
Proof.
  intros H E. unfold slice. rewrite (skipn_more l l' H E). reflexivity.
Qed.

Lemma firstn_upd_nat_S {A : Type} (v : list A) (n : nat) (x : A) :
  (n < List.length v)%nat -> firstn (S n) (upd_nat v n x) = firstn n v ++ [x].
Proof.
  revert n. induction v as [|h t IH]; intros n H; cbn [List.length] in H; [lia|].
  destruct n as [|n]; [reflexivity|].
  cbn [upd_nat]. rewrite !firstn_cons. rewrite IH by lia. reflexivity.
Qed.

Lemma skipn_upd_nat {A : Type} (v : list A) (n k : nat) (x : A) :
  (n < k)%nat -> skipn k (upd_nat v n x) = skipn k v.
Proof.
  revert n k. induction v as [|h t IH]; intros n k H; [destruct n; reflexivity|].
  destruct k as [|k]; [lia|].
  destruct n as [|n]; [reflexivity|].
  cbn [upd_nat skipn]. apply IH. lia.
Qed.

Lemma firstn_S_skipn {A : Type} (a m : nat) (l : list A) (d : A) :
  (a < List.length l)%nat ->
  firstn (S m) (skipn a l) = nth a l d :: firstn m (skipn (S a) l).
Proof.
  revert a. induction l as [|h t IH]; intros a Hl; cbn [List.length] in Hl; [lia|].
  destruct a as [|a]; [reflexivity|].
  cbn [skipn nth]. apply IH. lia.
Qed.

Lemma slice_S {A : Type} (a b : nat) (l : list A) (d : A) :
  (a < b)%nat -> (a < List.length l)%nat ->
  slice a b l = nth a l d :: slice (S a) b l.
Proof.
  intros H Hl. unfold slice.
  replace (b - a)%nat with (S (b - S a)) by lia.
  apply firstn_S_skipn. assumption.
Qed.

Lemma copy_kept_spec (n : nat) (entry : Z) (status : list HighsBasisStatus.t)
  (new_num_entry : Z) :
  0 <= new_num_entry <= entry -> entry + Z.of_nat n <= vsize status ->
  let r := copy_kept n entry status new_num_entry in
  snd r = new_num_entry + Z.of_nat n /\
  vsize (fst r) = vsize status /\
  firstn (Z.to_nat (snd r)) (fst r) =
    firstn (Z.to_nat new_num_entry) status ++
    slice (Z.to_nat entry) (Z.to_nat entry + n) status /\
  skipn (Z.to_nat entry + n) (fst r) = skipn (Z.to_nat entry + n) status.
Proof.
  revert entry status new_num_entry.
  induction n as [|n IH]; intros entry status new_num Hn Hs; cbn [copy_kept].
  - cbn [fst snd]. unfold slice. rewrite Nat.add_0_r, Nat.sub_diag, Z.add_0_r.
    cbn [firstn]. rewrite app_nil_r. auto.
  - set (status1 := vset status new_num (vget status entry HighsBasisStatus.kLower)).
    assert (Hs1 : vsize status1 = vsize status) by apply vsize_vset.
    destruct (IH (entry + 1) status1 (new_num + 1)) as (R1 & R2 & R3 & R4);
      [lia | rewrite Hs1; lia |].
    unfold vsize in *.
    assert (E1 : status1 = upd_nat status (Z.to_nat new_num)
                             (nth (Z.to_nat entry) status HighsBasisStatus.kLower)).
    { unfold status1, vset, vget.
      destruct (Z.ltb_spec new_num 0); [lia|]. destruct (Z.ltb_spec entry 0); [lia|].
      reflexivity. }
    cbv zeta. split; [rewrite R1; lia|]. split; [rewrite R2; assumption|].
    replace (Z.to_nat (entry + 1)) with (S (Z.to_nat entry)) in * by lia.
    replace (S (Z.to_nat entry) + n)%nat with (Z.to_nat entry + S n)%nat in * by lia.
    split.
    + rewrite R3.
      replace (Z.to_nat (new_num + 1)) with (S (Z.to_nat new_num)) by lia.
      rewrite E1, firstn_upd_nat_S by lia.
      rewrite <- app_assoc. f_equal. cbn [app].
      rewrite (@slice_S _ (Z.to_nat entry) _ status HighsBasisStatus.kLower) by lia.
      f_equal. unfold slice. rewrite skipn_upd_nat by lia. reflexivity.
    + rewrite R4, E1. apply skipn_upd_nat. lia.
Qed.

Lemma scan_deleted_spec (n : nat) (entry : Z) (status : list HighsBasisStatus.t)
  (flags : bool * bool) :
  0 <= entry -> entry + Z.of_nat n <= vsize status ->
  let s := slice (Z.to_nat entry) (Z.to_nat entry + n) status in
  scan_deleted n entry status flags =
  (fst flags || existsb is_basic s, snd flags || existsb (fun x => negb (is_basic x)) s).
Proof.
  revert entry flags. induction n as [|n IH]; intros entry flags He Hs; cbn [scan_deleted].
  - unfold slice. rewrite Nat.add_0_r, Nat.sub_diag. cbn. rewrite !orb_false_r.
    destruct flags; reflexivity.
  - unfold vsize in *. cbv zeta.
    rewrite (@slice_S _ (Z.to_nat entry) _ status HighsBasisStatus.kLower) by lia.
    rewrite IH by (unfold vsize; lia).
    replace (Z.to_nat (entry + 1)) with (S (Z.to_nat entry)) by lia.
    replace (S (Z.to_nat entry) + n)%nat with (Z.to_nat entry + S n)%nat by lia.
    unfold vget. destruct (Z.ltb_spec entry 0); [lia|].
    cbn [existsb].
    destruct (is_basic (nth (Z.to_nat entry) status HighsBasisStatus.kLower));
      destruct flags as [b1 b2]; cbn [fst snd negb orb];
      rewrite ?orb_true_r, ?orb_true_l; reflexivity.
Qed.

Section DeleteLoop.

Variable ic : HighsIndexCollection.
Variable orig : list HighsBasisStatus.t.
Variable dim : Z.
Hypothesis Hdim : vsize orig = dim.

(** The flags after the entries before [p] have been looked at. *)
Definition flags_upto (p : nat) : bool * bool :=
  let deleted := kept_from (in_collection ic) 0 (firstn p orig) in
  (existsb is_basic deleted, existsb (fun x => negb (is_basic x)) deleted).

(** The entries before [p] have been dealt with: the kept ones among them
    are the first [new_num_entry] entries of [status], and the entries from
    [p] on are as they were. *)
Record processed (p : Z) (status : list HighsBasisStatus.t) (new_num_entry : Z)
  (flags : bool * bool) : Prop := {
  pr_size : vsize status = dim;
  pr_p : 0 <= p <= dim;
  pr_num : 0 <= new_num_entry <= p;
  pr_kept : firstn (Z.to_nat new_num_entry) status =
            kept_from (fun i => negb (in_collection ic i)) 0 (firstn (Z.to_nat p) orig);
  pr_rest : skipn (Z.to_nat p) status = skipn (Z.to_nat p) orig;
  pr_flags : flags = flags_upto (Z.to_nat p)
}.

Lemma processed_init (flags : bool * bool) :
  flags = (false, false) -> processed 0 orig 0 flags.
Proof.
  intros ->. constructor; try reflexivity; unfold vsize in *; lia.
Qed.

Lemma processed_skip (p q : Z) (status : list HighsBasisStatus.t) (flags : bool * bool) :
  processed p status p flags -> p <= q <= dim ->
  (forall i, p <= i < q -> in_collection ic i = false) ->
  processed q status q flags.
Proof.
  intros [Hs Hp Hn Hk Hr Hf] Hq Hall. unfold vsize in *.
  assert (Hsl : slice (Z.to_nat p) (Z.to_nat q) status =
                slice (Z.to_nat p) (Z.to_nat q) orig).
  { apply (@slice_skipn_eq _ (Z.to_nat p)); [lia | assumption]. }
  constructor; unfold vsize; try lia.
  - rewrite (@firstn_slice _ (Z.to_nat p) (Z.to_nat q) status) by lia.
    rewrite Hk, Hsl. symmetry. apply kept_from_extend_kept; [lia|].
    intros j Hj. rewrite Hall by lia. reflexivity.
  - apply (@skipn_more _ (Z.to_nat p)); [lia | assumption].
  - rewrite Hf. unfold flags_upto.
    rewrite (@kept_from_extend_deleted _ (in_collection ic) (Z.to_nat p) (Z.to_nat q))
      by (try lia; intros j Hj; apply Hall; lia).
    reflexivity.
Qed.

Lemma processed_scan (df dt : Z) (status : list HighsBasisStatus.t) (new_num_entry : Z)
  (flags : bool * bool) :
  processed df status new_num_entry flags -> df <= dt + 1 -> dt <= dim - 1 ->
  (forall i, df <= i <= dt -> in_collection ic i = true) ->
  processed (dt + 1) status new_num_entry
            (scan_deleted (turns df dt) df status flags).
Proof.
  intros [Hs Hp Hn Hk Hr Hf] Hd Hdt Hall. unfold vsize in *.
  assert (Ht : (Z.to_nat df + turns df dt)%nat = Z.to_nat (dt + 1))
    by (unfold turns; lia).
  assert (Hsl : slice (Z.to_nat df) (Z.to_nat (dt + 1)) status =
                slice (Z.to_nat df) (Z.to_nat (dt + 1)) orig).
  { apply (@slice_skipn_eq _ (Z.to_nat df)); [lia | assumption]. }
  constructor; unfold vsize; try lia.
  - rewrite Hk. symmetry. apply kept_from_extend_deleted; [lia|].
    intros j Hj. rewrite Hall by lia. reflexivity.
  - apply (@skipn_more _ (Z.to_nat df)); [lia | assumption].
  - rewrite scan_deleted_spec by (unfold vsize, turns; lia).
    rewrite Ht, Hsl, Hf. unfold flags_upto. cbn [fst snd].
    rewrite (@kept_from_extend_kept _ (in_collection ic) (Z.to_nat df)
                                    (Z.to_nat (dt + 1)))
      by (try lia; intros j Hj; apply Hall; lia).
    rewrite !existsb_app. reflexivity.
Qed.

Lemma processed_copy (kf kt : Z) (status : list HighsBasisStatus.t) (new_num_entry : Z)
  (flags : bool * bool) :
  processed kf status new_num_entry flags -> kf <= kt + 1 -> kt <= dim - 1 ->
  (forall i, kf <= i <= kt -> in_collection ic i = false) ->
  let r := copy_kept (turns kf kt) kf status new_num_entry in
  processed (kt + 1) (fst r) (snd r) flags.
Proof.
  intros [Hs Hp Hn Hk Hr Hf] Hd Hkt Hall r.
  assert (Ht : (Z.to_nat kf + turns kf kt)%nat = Z.to_nat (kt + 1))
    by (unfold turns; lia).
  destruct (@copy_kept_spec (turns kf kt) kf status new_num_entry) as (R1 & R2 & R3 & R4);
    [lia | unfold turns; lia |].
  fold r in R1, R2, R3, R4. rewrite Ht in R3, R4. unfold vsize in *.
  assert (Hsl : slice (Z.to_nat kf) (Z.to_nat (kt + 1)) status =
                slice (Z.to_nat kf) (Z.to_nat (kt + 1)) orig).
  { apply (@slice_skipn_eq _ (Z.to_nat kf)); [lia | assumption]. }
  constructor; unfold vsize; try lia.
  - rewrite R3, Hk, Hsl. symmetry. apply kept_from_extend_kept; [lia|].
    intros j Hj. rewrite Hall by lia. reflexivity.
  - rewrite R4. apply (@skipn_more _ (Z.to_nat kf)); [lia | assumption].
  - rewrite Hf. unfold flags_upto.
    rewrite (@kept_from_extend_deleted _ (in_collection ic) (Z.to_nat kf)
                                       (Z.to_nat (kt + 1)))
      by (try lia; intros j Hj; apply Hall; lia).
    reflexivity.
Qed.

(** What a call of updateOutInIndex delivers when the entries before [p]
    have been dealt with: a block of entries to delete and a block of
    entries to keep that follow the entries dealt with. *)
Variable Inv : bool -> Z -> OutIn -> nat -> Prop.

Definition block_contract (first : bool) (p : Z) (o : OutIn) (n : nat) : Prop :=
  let o' := updateOutInIndex ic o in
  (first = true -> p = 0) /\
  (first = false -> delete_from_entry o' = p) /\
  p <= delete_from_entry o' /\
  (forall i, p <= i < delete_from_entry o' -> in_collection ic i = false) /\
  delete_from_entry o' <= delete_to_entry o' + 1 /\
  delete_to_entry o' <= dim - 1 /\
  (forall i, delete_from_entry o' <= i <= delete_to_entry o' ->
             in_collection ic i = true) /\
  keep_from_entry o' = delete_to_entry o' + 1 /\
  delete_to_entry o' <= keep_to_entry o' <= dim - 1 /\
  (forall i, keep_from_entry o' <= i <= keep_to_entry o' ->
             in_collection ic i = false) /\
  (delete_to_entry o' < dim - 1 -> keep_to_entry o' < dim - 1 ->
   Inv false (keep_to_entry o' + 1) o' n).

Hypothesis Inv_contract :
  forall first p o n, Inv first p o (S n) -> block_contract first p o n.
Hypothesis Inv_fuel : forall first p o, ~ Inv first p o O.

Lemma deleteBasisEntries_loop_processed (n : nat) (k from_k : Z) (o : OutIn)
  (status : list HighsBasisStatus.t) (new_num_entry : Z) (flags : bool * bool) (p : Z) :
  Inv (k =? from_k) p o n -> from_k <= k ->
  processed p status (if k =? from_k then 0 else new_num_entry) flags ->
  ((k =? from_k) = false -> new_num_entry <= p) ->
  let r := deleteBasisEntries_loop n k from_k ic dim o status new_num_entry flags in
  processed dim (fst (fst r)) (snd (fst r)) (snd r).
Proof.
  revert k o status new_num_entry flags p.
  induction n as [|n IH]; intros k o status new_num flags p HI Hk HP Hnn;
    [destruct (Inv_fuel HI)|].
  cbn [deleteBasisEntries_loop].
  destruct (Inv_contract HI) as (C1 & C2 & C3 & C4 & C5 & C6 & C7 & C8 & C9 & C10 & C11).
  set (o' := updateOutInIndex ic o) in *.
  (* Account for the initial entries being kept *)
  assert (HA : processed (delete_from_entry o') status
                 (if k =? from_k then delete_from_entry o' else new_num) flags).
  { destruct (k =? from_k) eqn:Ek.
    - rewrite (C1 eq_refl) in *. apply (@processed_skip 0); [assumption | | assumption].
      destruct HP. lia.
    - rewrite (C2 eq_refl). assumption. }
  pose proof (processed_scan HA C5 C6 C7) as HB.
  set (new_num1 := if k =? from_k then delete_from_entry o' else new_num) in *.
  set (flags1 := scan_deleted _ _ status flags) in *.
  destruct (Z.leb_spec (dim - 1) (delete_to_entry o')) as [Hbreak|Hgo].
  { cbn [fst snd]. replace dim with (delete_to_entry o' + 1) at 1 by lia. exact HB. }
  rewrite <- C8 in HB.
  pose proof (@processed_copy (keep_from_entry o') (keep_to_entry o') status new_num1
                flags1 HB ltac:(lia) ltac:(lia) C10) as HC.
  cbv zeta in HC.
  destruct (copy_kept _ (keep_from_entry o') status new_num1) as [status2 new_num2].
  cbn [fst snd] in HC.
  destruct (Z.leb_spec (dim - 1) (keep_to_entry o')) as [Hbreak|Hgo2].
  { cbn [fst snd]. replace dim with (keep_to_entry o' + 1) at 1 by lia. exact HC. }
  assert (Ek : (k + 1 =? from_k) = false) by (apply Z.eqb_neq; lia).
  apply (IH (k + 1) o' status2 new_num2 flags1 (keep_to_entry o' + 1)).
  - rewrite Ek. apply C11; assumption.
  - lia.
  - rewrite Ek. exact HC.
  - intros _. destruct HC. lia.
Qed.

(** deleteBasisEntries keeps the entries that are not in the collection, in
    their order, and sets the two flags from the entries that are. *)
Lemma deleteBasisEntries_processed :
  fst (limits ic) <= snd (limits ic) ->
  Inv true 0 (mkOutIn 0 0 0 (-1) 0) (turns (fst (limits ic)) (snd (limits ic))) ->
  deleteBasisEntries orig ic dim =
  (kept_entries ic orig,
   Some (existsb is_basic (deleted_entries ic orig),
         existsb (fun x => negb (is_basic x)) (deleted_entries ic orig))).
Proof.
  intros Hlim HI. unfold deleteBasisEntries.
  destruct (limits ic) as [from_k to_k]. cbn [fst snd] in *.
  destruct (Z.ltb_spec to_k from_k); [lia|].
  pose proof (@deleteBasisEntries_loop_processed (turns from_k to_k) from_k from_k
                (mkOutIn 0 0 0 (-1) 0) orig 0 (false, false) 0) as HP.
  rewrite Z.eqb_refl in HP. specialize (HP HI (Z.le_refl _) (processed_init eq_refl)).
  cbv zeta in HP. specialize (HP ltac:(discriminate)).
  destruct (deleteBasisEntries_loop _ from_k from_k ic dim _ orig 0 _)
    as [[status new_num] flags].
  cbn [fst snd] in HP. destruct HP as [Hs Hp Hn Hk Hr Hf]. unfold vsize in *.
  f_equal.
  - unfold resize. replace (Z.to_nat new_num - List.length status)%nat with O by lia.
    cbn [repeat]. rewrite app_nil_r, Hk.
    replace (Z.to_nat dim) with (List.length orig) by lia.
    rewrite firstn_all. reflexivity.
  - rewrite Hf. unfold flags_upto, deleted_entries.
    replace (Z.to_nat dim) with (List.length orig) by lia.
    rewrite firstn_all. reflexivity.
Qed.

End DeleteLoop.

(** Modelled from the spec: [ok] of util/HighsUtils (section 4.6: an
    interval [lo,hi], a sorted set of indices, or a boolean mask): an
    interval within the dimension, a set of strictly ascending indices
    within the dimension, or a mask over the dimension. *)
Definition index_collection_ok (ic : HighsIndexCollection) : Prop :=
  if is_interval_ ic
  then 0 <= from_ ic /\ to_ ic <= dimension_ ic - 1
  else if is_set_ ic
  then
    set_num_entries_ ic <= vsize (set_ ic) /\
    (forall j, 0 <= j < set_num_entries_ ic ->
       0 <= vget (set_ ic) j 0 <= dimension_ ic - 1) /\
    (forall j, 0 <= j -> j + 1 < set_num_entries_ ic ->
       vget (set_ ic) j 0 < vget (set_ ic) (j + 1) 0)
  else vsize (mask_ ic) = dimension_ ic.

(** *** The interval form *)

Definition interval_inv (first : bool) (p : Z) (o : OutIn) (n : nat) : Prop :=
  first = true /\ p = 0 /\ (0 < n)%nat.

Lemma interval_contract (ic : HighsIndexCollection) :
  is_interval_ ic = true -> index_collection_ok ic -> from_ ic <= to_ ic ->
  forall first p o n,
    interval_inv first p o (S n) ->
    block_contract ic (dimension_ ic) interval_inv first p o n.
Proof.
  intros Hi Hok Hft first p o n (-> & -> & _).
  unfold index_collection_ok in Hok. rewrite Hi in Hok.
  unfold block_contract, updateOutInIndex, in_collection. rewrite Hi.
  cbn [delete_from_entry delete_to_entry keep_from_entry keep_to_entry].
  repeat split; try lia; try discriminate; intros i Hi';
    rewrite ?andb_true_iff, ?andb_false_iff, ?Z.leb_le, ?Z.leb_gt; lia.
Qed.

(** *** The mask form *)

Definition mask_inv (dim : Z) (first : bool) (p : Z) (o : OutIn) (n : nat) : Prop :=
  keep_to_entry o = p - 1 /\ 0 <= p < dim /\ dim - p <= Z.of_nat n /\
  (first = true -> p = 0).

Lemma mask_scan_spec (want : bool) (mask : list Z) (dim : Z) (n : nat) (ix : Z) :
  Z.of_nat n = dim - ix ->
  let r := mask_scan want n ix mask (dim - 1) in
  ix - 1 <= r <= dim - 1 /\
  (forall i, ix <= i <= r -> negb (vget mask i 0 =? 0) = negb want) /\
  (r < dim - 1 -> negb (vget mask (r + 1) 0 =? 0) = want).
Proof.
  revert ix. induction n as [|n IH]; intros ix Hn; cbn [mask_scan].
  - cbv zeta. repeat split; try lia.
  - destruct (Bool.eqb (negb (vget mask ix 0 =? 0)) want) eqn:E.
    + apply eqb_prop in E. cbv zeta. repeat split; try lia.
      intros _. replace (ix - 1 + 1) with ix by lia. exact E.
    + apply eqb_false_iff in E.
      destruct (IH (ix + 1)) as (R1 & R2 & R3); [lia|].
      cbv zeta. repeat split; try lia; [|exact R3].
      intros i Hi. destruct (Z.eq_dec i ix) as [-> | Hne]; [|apply R2; lia].
      destruct (negb (vget mask ix 0 =? 0)), want; try reflexivity; congruence.
Qed.

Lemma mask_contract (ic : HighsIndexCollection) :
  is_interval_ ic = false -> is_set_ ic = false ->
  forall first p o n,
    mask_inv (dimension_ ic) first p o (S n) ->
    block_contract ic (dimension_ ic) (mask_inv (dimension_ ic)) first p o n.
Proof.
  intros Hi Hs first p o n (Hk & Hp & Hn & Hf).
  unfold block_contract, updateOutInIndex, in_collection. rewrite Hi, Hs.
  cbn [delete_from_entry delete_to_entry keep_from_entry keep_to_entry].
  rewrite Hk. replace (p - 1 + 1) with p by lia.
  destruct (@mask_scan_spec false (mask_ ic) (dimension_ ic)
              (Z.to_nat (dimension_ ic - p)) p) as (A1 & A2 & A3); [lia|].
  set (dt := mask_scan false _ p (mask_ ic) (dimension_ ic - 1)) in *.
  destruct (@mask_scan_spec true (mask_ ic) (dimension_ ic)
              (Z.to_nat (dimension_ ic - (dt + 1))) (dt + 1)) as (B1 & B2 & B3); [lia|].
  set (kt := mask_scan true _ (dt + 1) (mask_ ic) (dimension_ ic - 1)) in *.
  cbn [negb] in *.
  assert (Hkt : dt < dimension_ ic - 1 -> kt < dimension_ ic - 1 -> p <= kt).
  { intros H H0. specialize (A3 H). specialize (B3 H0).
    destruct (Z.eq_dec kt (p - 1)) as [E|E]; [|lia].
    assert (E' : dt = p - 1) by lia. rewrite E in B3. rewrite E' in A3.
    replace (p - 1 + 1) with p in * by lia. congruence. }
  repeat split; try lia; try assumption; cbn [keep_to_entry]; try lia;
    discriminate.
Qed.

(** *** The set form *)

Section SetForm.

Variable ic : HighsIndexCollection.
Hypothesis Hi : is_interval_ ic = false.
Hypothesis Hs : is_set_ ic = true.
Hypothesis Hok : index_collection_ok ic.

Let s (j : Z) : Z := vget (set_ ic) j 0.
Let m : Z := set_num_entries_ ic.

Lemma set_ok :
  m <= vsize (set_ ic) /\
  (forall j, 0 <= j < m -> 0 <= s j <= dimension_ ic - 1) /\
  (forall j, 0 <= j -> j + 1 < m -> s j < s (j + 1)).
Proof. unfold index_collection_ok in Hok. rewrite Hi, Hs in Hok. exact Hok. Qed.

Lemma set_mono (j k : Z) : 0 <= j -> j < k -> k < m -> s j < s k.
Proof.
  intros Hj Hjk Hk. destruct set_ok as (_ & _ & Hsorted).
  replace k with (j + 1 + Z.of_nat (Z.to_nat (k - j - 1))) in * by lia.
  induction (Z.to_nat (k - j - 1)) as [|d IH].
  - rewrite Z.add_0_r. apply Hsorted; lia.
  - specialize (IH ltac:(lia) ltac:(lia)).
    specialize (Hsorted (j + 1 + Z.of_nat d) ltac:(lia) ltac:(lia)).
    replace (j + 1 + Z.of_nat (S d)) with (j + 1 + Z.of_nat d + 1) by lia. lia.
Qed.

Lemma set_mono_le (j k : Z) : 0 <= j -> j <= k -> k < m -> s j <= s k.
Proof.
  intros Hj Hjk Hk. destruct (Z.eq_dec j k) as [-> | Hne]; [lia|].
  pose proof (@set_mono j k Hj ltac:(lia) Hk). lia.
Qed.

Lemma in_collection_set (i : Z) :
  in_collection ic i = true <-> exists j, 0 <= j < m /\ s j = i.
Proof.
  destruct set_ok as (Hm & _ & _). unfold vsize in Hm.
  unfold in_collection. rewrite Hi, Hs. rewrite existsb_exists. split.
  - intros (x & Hin & Hx). apply Z.eqb_eq in Hx. subst x.
    destruct (In_nth _ _ 0 Hin) as (k & Hk & Hnth).
    rewrite length_firstn in Hk. rewrite nth_firstn in Hnth.
    destruct (Nat.ltb_spec k (Z.to_nat (set_num_entries_ ic))); [|lia].
    exists (Z.of_nat k). split; [unfold m; lia|].
    unfold s, vget. destruct (Z.ltb_spec (Z.of_nat k) 0); [lia|].
    rewrite Nat2Z.id. exact Hnth.
  - intros (j & Hj & Hsj). exists i. split; [|apply Z.eqb_refl].
    unfold s, vget in Hsj. destruct (Z.ltb_spec j 0); [lia|].
    rewrite <- Hsj.
    replace (nth (Z.to_nat j) (set_ ic) 0)
      with (nth (Z.to_nat j) (firstn (Z.to_nat (set_num_entries_ ic)) (set_ ic)) 0).
    + apply nth_In. rewrite length_firstn. unfold m in *. lia.
    + rewrite nth_firstn.
      destruct (Nat.ltb_spec (Z.to_nat j) (Z.to_nat (set_num_entries_ ic)));
        [reflexivity | unfold m in *; lia].
Qed.

Lemma not_in_collection_set (i : Z) :
  (forall j, 0 <= j < m -> s j <> i) -> in_collection ic i = false.
Proof.
  intros H. destruct (in_collection ic i) eqn:E; [|reflexivity].
  apply in_collection_set in E. destruct E as (j & Hj & Hsj).
  destruct (H j Hj Hsj).
Qed.

Lemma set_run_spec (n : nat) (cur : Z) :
  1 <= cur <= m -> Z.of_nat n = m - cur ->
  let r := set_run n cur (set_ ic) (s (cur - 1)) cur in
  cur <= snd r <= m /\ fst r = s (snd r - 1) /\
  (forall j, cur <= j < snd r -> s j = s (j - 1) + 1) /\
  (snd r < m -> fst r + 1 < s (snd r)).
Proof.
  revert cur. induction n as [|n IH]; intros cur Hc Hn; cbn [set_run].
  - cbn [fst snd]. repeat split; try lia.
  - fold (s cur). destruct (Z.ltb_spec (s (cur - 1) + 1) (s cur)) as [Hlt|Hge].
    + cbn [fst snd]. repeat split; try lia.
    + destruct set_ok as (_ & _ & Hsorted).
      specialize (Hsorted (cur - 1) ltac:(lia) ltac:(lia)).
      replace (cur - 1 + 1) with cur in Hsorted by lia.
      destruct (IH (cur + 1) ltac:(lia) ltac:(lia)) as (R1 & R2 & R3 & R4).
      replace (cur + 1 - 1) with cur in * by lia.
      cbv zeta. repeat split; try lia; try assumption.
      intros j Hj. destruct (Z.eq_dec j cur) as [-> | Hne]; [lia | apply R3; lia].
Qed.

Lemma set_run_consecutive (c c' : Z) :
  0 <= c ->
  (forall j, c + 1 <= j < c' -> s j = s (j - 1) + 1) ->
  forall j, c <= j < c' -> s j = s c + (j - c).
Proof.
  intros Hc Hrun j Hj.
  replace j with (c + Z.of_nat (Z.to_nat (j - c))) in * by lia.
  induction (Z.to_nat (j - c)) as [|d IH].
  - rewrite Z.add_0_r. lia.
  - specialize (IH ltac:(lia)).
    specialize (Hrun (c + Z.of_nat (S d)) ltac:(lia)).
    replace (c + Z.of_nat (S d) - 1) with (c + Z.of_nat d) in Hrun by lia. lia.
Qed.

Definition set_inv (first : bool) (p : Z) (o : OutIn) (n : nat) : Prop :=
  0 <= current_set_entry o < m /\ m - current_set_entry o <= Z.of_nat n /\
  (first = true -> p = 0 /\ current_set_entry o = 0) /\
  (first = false -> p = s (current_set_entry o)).

Lemma set_contract (first : bool) (p : Z) (o : OutIn) (n : nat) :
  set_inv first p o (S n) ->
  block_contract ic (dimension_ ic) set_inv first p o n.
Proof.
  intros (Hc & Hn & Hf & Hnf).
  destruct set_ok as (Hm & Hrange & Hsorted).
  set (c := current_set_entry o) in *.
  destruct (@set_run_spec (Z.to_nat (m - (c + 1))) (c + 1) ltac:(lia) ltac:(lia))
    as (R1 & R2 & R3 & R4).
  replace (c + 1 - 1) with c in * by lia.
  unfold block_contract, updateOutInIndex. rewrite Hi, Hs.
  fold c. fold m. fold (s c).
  destruct (set_run (Z.to_nat (m - (c + 1))) (c + 1) (set_ ic) (s c) (c + 1))
    as [out_to c'].
  cbn [fst snd] in *. fold (s c').
  cbn [delete_from_entry delete_to_entry keep_from_entry keep_to_entry
       current_set_entry].
  pose proof (@set_run_consecutive c c' ltac:(lia) R3) as Hrun.
  pose proof (Hrange c ltac:(lia)) as Hsc.
  pose proof (Hrange (c' - 1) ltac:(lia)) as Hsc'.
  pose proof (Hrun (c' - 1) ltac:(lia)) as Hlast.
  assert (Hin_to : out_to <= (if c' <? m then s c' - 1 else dimension_ ic - 1)
                   <= dimension_ ic - 1).
  { destruct (Z.ltb_spec c' m) as [Hlt|Hge]; [|lia].
    specialize (R4 Hlt). pose proof (Hrange c' ltac:(lia)). lia. }
  split; [intros Ht; apply Hf; exact Ht|].
  split; [intros Ht; rewrite (Hnf Ht); reflexivity|].
  split.
  { destruct first; [destruct (Hf eq_refl) as [-> _]; lia | rewrite (Hnf eq_refl); lia]. }
  split.
  { intros i Hir. destruct first; [|rewrite (Hnf eq_refl) in Hir; lia].
    destruct (Hf eq_refl) as [-> Hc0]. apply not_in_collection_set.
    intros j Hj Hsj. fold c in Hc0.
    pose proof (@set_mono_le c j ltac:(lia) ltac:(lia) ltac:(lia)). lia. }
  split; [lia|]. split; [lia|].
  split.
  { intros i Hir. apply in_collection_set. exists (c + (i - s c)).
    split; [lia|]. rewrite Hrun by lia. lia. }
  split; [reflexivity|]. split; [exact Hin_to|].
  split.
  { intros i Hir. apply not_in_collection_set. intros j Hj Hsj.
    destruct (Z.lt_ge_cases j c') as [Hlt|Hge].
    - pose proof (@set_mono_le j (c' - 1) ltac:(lia) ltac:(lia) ltac:(lia)). lia.
    - destruct (Z.ltb_spec c' m) as [Hlt'|Hge']; [|lia].
      pose proof (@set_mono_le c' j ltac:(lia) ltac:(lia) ltac:(lia)). lia. }
  intros _ Hkt. destruct (Z.ltb_spec c' m) as [Hlt|Hge]; [|lia].
  unfold set_inv. cbn [current_set_entry].
  repeat split; try lia; discriminate.
Qed.

End SetForm.

(** *** All three forms *)

Lemma deleteBasisEntries_spec (ic : HighsIndexCollection)
  (status : list HighsBasisStatus.t) :
  index_collection_ok ic -> fst (limits ic) <= snd (limits ic) ->
  dimension_ ic = vsize status ->
  deleteBasisEntries status ic (dimension_ ic) =
  (kept_entries ic status,
   Some (existsb is_basic (deleted_entries ic status),
         existsb (fun x => negb (is_basic x)) (deleted_entries ic status))).
Proof.
  intros Hok Hlim Hdim. symmetry in Hdim.
  destruct (is_interval_ ic) eqn:Hi; [|destruct (is_set_ ic) eqn:Hs].
  - assert (Hft : from_ ic <= to_ ic) by (unfold limits in Hlim; rewrite Hi in Hlim; exact Hlim).
    apply (@deleteBasisEntries_processed ic status (dimension_ ic) Hdim interval_inv).
    + apply interval_contract; assumption.
    + intros first p o (_ & _ & H). lia.
    + assumption.
    + unfold limits. rewrite Hi. cbn [fst snd]. unfold interval_inv, turns.
      repeat split; lia.
  - assert (Hm : 0 <= set_num_entries_ ic - 1)
      by (unfold limits in Hlim; rewrite Hi, Hs in Hlim; exact Hlim).
    apply (@deleteBasisEntries_processed ic status (dimension_ ic) Hdim (set_inv ic)).
    + apply set_contract; assumption.
    + intros first p o (H1 & H2 & _). cbn in H2. lia.
    + assumption.
    + unfold limits. rewrite Hi, Hs. cbn [fst snd]. unfold set_inv, turns.
      cbn [current_set_entry]. repeat split; try lia; discriminate.
  - assert (Hm : 0 <= dimension_ ic - 1)
      by (unfold limits in Hlim; rewrite Hi, Hs in Hlim; exact Hlim).
    apply (@deleteBasisEntries_processed ic status (dimension_ ic) Hdim
             (mask_inv (dimension_ ic))).
    + apply mask_contract; assumption.
    + intros first p o (_ & H1 & H2 & _). cbn in H2. lia.
    + assumption.
    + unfold limits. rewrite Hi, Hs. cbn [fst snd]. unfold mask_inv, turns.
      cbn [keep_to_entry]. repeat split; try lia.
Qed.

(** ** The interface functions *)

Definition set_mask_ (ic : HighsIndexCollection) (mask : list Z) : HighsIndexCollection :=
  mkIndexCollection (dimension_ ic) (is_interval_ ic) (from_ ic) (to_ ic) (is_set_ ic)
                    (set_num_entries_ ic) (set_ ic) (is_mask_ ic) mask.

(** Lines 779-791 and 834-845: set the mask values to indicate the new
    index value of the remaining columns or rows. *)
Fixpoint new_index_mask (n : nat) (col : Z) (mask : list Z) (new_col : Z) : list Z :=
  match n with
  | O => mask
  | S n' =>
      if vget mask col 0 =? 0
      then new_index_mask n' (col + 1) (vset mask col new_col) (new_col + 1)
      else new_index_mask n' (col + 1) (vset mask col (-1)) new_col
  end.

Section DeleteInterface.

(** [HighsLp::ensureColwise], [HighsLp::deleteCols] and [HighsLp::deleteRows],
    the deletion of the scaling factors of lines 768-772 and 824-828,
    [HEkk::deleteCols] and [HEkk::deleteRows], and the clearing of the name
    hash of lines 794 and 847.  The Hessian of the model is not part of the
    embedded state. *)
Variable ensureColwise : HighsLp -> HighsLp.
Variable lp_deleteCols : HighsLp -> HighsIndexCollection -> HighsLp.
Variable lp_deleteRows : HighsLp -> HighsIndexCollection -> HighsLp.
Variable deleteScale : bool -> HighsLp -> HighsIndexCollection -> HighsLp.
Variable ekk_deleteCols : HEkk -> HighsIndexCollection -> HEkk.
Variable ekk_deleteRows : HEkk -> HighsIndexCollection -> HEkk.
Variable clear_name2index : bool -> HighsLp -> HighsLp.

(** [Highs::deleteColsInterface], lines 739-795.  The collection is passed
    by reference; the result is [None] when deleteBasisCols tests a flag
    that was never set. *)
Definition deleteColsInterface (h : Highs) (ic : HighsIndexCollection)
  : option (Highs * HighsIndexCollection) :=
  let h := set_lp h (ensureColwise (lp_ h)) in
  let original_num_col := num_col_ (lp_ h) in
  let h := set_lp h (lp_deleteCols (lp_ h) ic) in
  (* Bail out if no columns were actually deleted *)
  if num_col_ (lp_ h) =? original_num_col then Some (h, ic) else
  let h := set_model_status h HighsModelStatus.kNotset in
  match
    (if useful (basis_ h) then deleteBasisCols (basis_ h) ic original_num_col
     else Some (basis_ h))
  with
  | None => None
  | Some basis =>
      let h := set_basis h basis in
      let h := set_lp h (deleteScale true (lp_ h) ic) in
      let h := invalidateModelStatusSolutionAndInfo h in
      let h := set_ekk h (ekk_deleteCols (ekk_instance_ h) ic) in
      let ic :=
        if is_mask_ ic
        then set_mask_ ic (new_index_mask (Z.to_nat original_num_col) 0 (mask_ ic) 0)
        else ic in
      Some (set_lp h (clear_name2index true (lp_ h)), ic)
  end.

(** [Highs::deleteRowsInterface], lines 797-848. *)
Definition deleteRowsInterface (h : Highs) (ic : HighsIndexCollection)
  : option (Highs * HighsIndexCollection) :=
  let h := set_lp h (ensureColwise (lp_ h)) in
  let original_num_row := num_row_ (lp_ h) in
  let h := set_lp h (lp_deleteRows (lp_ h) ic) in
  (* Bail out if no rows were actually deleted *)
  if num_row_ (lp_ h) =? original_num_row then Some (h, ic) else
  let h := set_model_status h HighsModelStatus.kNotset in
  match
    (if useful (basis_ h) then deleteBasisRows (basis_ h) ic original_num_row
     else Some (basis_ h))
  with
  | None => None
  | Some basis =>
      let h := set_basis h basis in
      let h := set_lp h (deleteScale false (lp_ h) ic) in
      let h := invalidateModelStatusSolutionAndInfo h in
      let h := set_ekk h (ekk_deleteRows (ekk_instance_ h) ic) in
      let ic :=
        if is_mask_ ic
        then set_mask_ ic (new_index_mask (Z.to_nat original_num_row) 0 (mask_ ic) 0)
        else ic in
      Some (set_lp h (clear_name2index false (lp_ h)), ic)
  end.

Lemma deleteBasisCols_spec (basis : HighsBasis) (ic : HighsIndexCollection) :
  index_collection_ok ic -> fst (limits ic) <= snd (limits ic) ->
  dimension_ ic = vsize (col_status basis) ->
  deleteBasisCols basis ic (dimension_ ic) =
  Some (mkBasis (valid basis &&
                 negb (existsb is_basic (deleted_entries ic (col_status basis))))
                (alien basis) (useful basis) (was_alien basis)
                (kept_entries ic (col_status basis)) (row_status basis)).
Proof.
  intros Hok Hlim Hdim. unfold deleteBasisCols.
  rewrite deleteBasisEntries_spec by assumption.
  destruct (existsb is_basic _); destruct basis as [v a u w cs rs]; cbn;
    rewrite ?andb_false_r, ?andb_true_r; reflexivity.
Qed.

Lemma deleteBasisRows_spec (basis : HighsBasis) (ic : HighsIndexCollection) :
  index_collection_ok ic -> fst (limits ic) <= snd (limits ic) ->
  dimension_ ic = vsize (row_status basis) ->
  deleteBasisRows basis ic (dimension_ ic) =
  Some (mkBasis (valid basis &&
                 negb (existsb (fun x => negb (is_basic x))
                               (deleted_entries ic (row_status basis))))
                (alien basis) (useful basis) (was_alien basis)
                (col_status basis) (kept_entries ic (row_status basis))).
Proof.
  intros Hok Hlim Hdim. unfold deleteBasisRows.
  rewrite deleteBasisEntries_spec by assumption.
  destruct (existsb (fun x => negb (is_basic x)) _);
    destruct basis as [v a u w cs rs]; cbn;
    rewrite ?andb_false_r, ?andb_true_r; reflexivity.
Qed.

Lemma negb_existsb_negb {A : Type} (f : A -> bool) (l : list A) :
  negb (existsb (fun x => negb (f x)) l) = forallb f l.
Proof.
  induction l as [|x l IH]; [reflexivity|].
  cbn [existsb forallb]. rewrite <- IH. destruct (f x); reflexivity.
Qed.

Lemma deleteColsInterface_basis (h : Highs) (ic : HighsIndexCollection) :
  useful (basis_ h) = true ->
  index_collection_ok ic -> fst (limits ic) <= snd (limits ic) ->
  dimension_ ic = vsize (col_status (basis_ h)) ->
  num_col_ (ensureColwise (lp_ h)) = dimension_ ic ->
  num_col_ (lp_deleteCols (ensureColwise (lp_ h)) ic) <> dimension_ ic ->
  exists h' ic',
    deleteColsInterface h ic = Some (h', ic') /\
    basis_ h' =
    mkBasis (valid (basis_ h) &&
             negb (existsb is_basic (deleted_entries ic (col_status (basis_ h)))))
            (alien (basis_ h)) true (was_alien (basis_ h))
            (kept_entries ic (col_status (basis_ h))) (row_status (basis_ h)).
Proof.
  intros Hu Hok Hlim Hdim Hnum Hdel. unfold deleteColsInterface.
  cbn [lp_ set_lp]. rewrite Hnum.
  destruct (Z.eqb_spec (num_col_ (lp_deleteCols (ensureColwise (lp_ h)) ic))
                       (dimension_ ic)) as [E|_]; [contradiction|].
  change (basis_ (set_model_status (set_lp (set_lp h ?a) ?b) ?c)) with (basis_ h).
  rewrite Hu, deleteBasisCols_spec by assumption. rewrite Hu.
  eexists. eexists. split; reflexivity.
Qed.

Lemma deleteRowsInterface_basis (h : Highs) (ic : HighsIndexCollection) :
  useful (basis_ h) = true ->
  index_collection_ok ic -> fst (limits ic) <= snd (limits ic) ->
  dimension_ ic = vsize (row_status (basis_ h)) ->
  num_row_ (ensureColwise (lp_ h)) = dimension_ ic ->
  num_row_ (lp_deleteRows (ensureColwise (lp_ h)) ic) <> dimension_ ic ->
  exists h' ic',
    deleteRowsInterface h ic = Some (h', ic') /\
    basis_ h' =
    mkBasis (valid (basis_ h) &&
             negb (existsb (fun x => negb (is_basic x))
                           (deleted_entries ic (row_status (basis_ h)))))
            (alien (basis_ h)) true (was_alien (basis_ h))
            (col_status (basis_ h)) (kept_entries ic (row_status (basis_ h))).
Proof.
  intros Hu Hok Hlim Hdim Hnum Hdel. unfold deleteRowsInterface.
  cbn [lp_ set_lp]. rewrite Hnum.
  destruct (Z.eqb_spec (num_row_ (lp_deleteRows (ensureColwise (lp_ h)) ic))
                       (dimension_ ic)) as [E|_]; [contradiction|].
  change (basis_ (set_model_status (set_lp (set_lp h ?a) ?b) ?c)) with (basis_ h).
  rewrite Hu, deleteBasisRows_spec by assumption. rewrite Hu.
  eexists. eexists. split; reflexivity.
Qed.

(** C4.  A deletion of columns through the interface while a useful basis
    is held, for a collection in any of the three forms that deletes
    something, whatever the rows of the model are: the column status vector
    of the basis is compacted over the kept entries, in their order, the row
    status vector is left alone, and the basis is valid afterwards exactly
    when it was valid and no deleted column was basic.  And, on its own, a
    deletion of rows, whatever the columns of the model are: the row status
    vector is compacted over the kept entries, the column status vector is
    left alone, and the basis is valid afterwards exactly when it was valid
    and every deleted row was basic. *)
Theorem delete_basis_compacted (h : Highs) (cols rows : HighsIndexCollection) :
  useful (basis_ h) = true ->
  (index_collection_ok cols -> fst (limits cols) <= snd (limits cols) ->
   dimension_ cols = vsize (col_status (basis_ h)) ->
   num_col_ (ensureColwise (lp_ h)) = dimension_ cols ->
   num_col_ (lp_deleteCols (ensureColwise (lp_ h)) cols) <> dimension_ cols ->
   exists h' ic',
     deleteColsInterface h cols = Some (h', ic') /\
     col_status (basis_ h') = kept_entries cols (col_status (basis_ h)) /\
     row_status (basis_ h') = row_status (basis_ h) /\
     valid (basis_ h') =
       valid (basis_ h) &&
       negb (existsb is_basic (deleted_entries cols (col_status (basis_ h))))) /\
  (index_collection_ok rows -> fst (limits rows) <= snd (limits rows) ->
   dimension_ rows = vsize (row_status (basis_ h)) ->
   num_row_ (ensureColwise (lp_ h)) = dimension_ rows ->
   num_row_ (lp_deleteRows (ensureColwise (lp_ h)) rows) <> dimension_ rows ->
   exists h' ic',
     deleteRowsInterface h rows = Some (h', ic') /\
     row_status (basis_ h') = kept_entries rows (row_status (basis_ h)) /\
     col_status (basis_ h') = col_status (basis_ h) /\
     valid (basis_ h') =
       valid (basis_ h) &&
       forallb is_basic (deleted_entries rows (row_status (basis_ h)))).
Proof.
  intros Hu. split.
  - intros Hc1 Hc2 Hc3 Hc4 Hc5.
    destruct (@deleteColsInterface_basis h cols Hu Hc1 Hc2 Hc3 Hc4 Hc5) as (h' & ic' & E & Hb).
    exists h', ic'. rewrite Hb. cbn [col_status row_status valid].
    split; [exact E|]. split; [reflexivity|]. split; reflexivity.
  - intros Hr1 Hr2 Hr3 Hr4 Hr5.
    destruct (@deleteRowsInterface_basis h rows Hu Hr1 Hr2 Hr3 Hr4 Hr5) as (h' & ic' & E & Hb).
    exists h', ic'. rewrite Hb. cbn [col_status row_status valid].
    split; [exact E|]. split; [reflexivity|]. split; [reflexivity|].
    f_equal. apply negb_existsb_negb.
Qed.

End DeleteInterface.

Lemma deleteBasisEntries_nothing (status : list HighsBasisStatus.t)
  (ic : HighsIndexCollection) (entry_dim : Z) :
  snd (limits ic) < fst (limits ic) ->
  deleteBasisEntries status ic entry_dim = (status, None).
Proof.
  intros H. unfold deleteBasisEntries. destruct (limits ic) as [from_k to_k].
  cbn [fst snd] in H. apply Z.ltb_lt in H. rewrite H. reflexivity.
Qed.

(** ** Deletions on the example *)

(** Modelled from the spec: [HighsLp::deleteCols] and [HighsLp::deleteRows]
    (section 4.6, delete semantics): the entries of the column or row
    vectors that are in the collection go, and the dimension follows.  The
    matrix belongs to HighsSparseMatrix and is left as it is. *)
Definition example_lp_deleteCols (lp : HighsLp) (ic : HighsIndexCollection) : HighsLp :=
  let lp := set_col_cost_ lp (kept_entries ic (col_cost_ lp)) in
  let lp := set_col_lower_ lp (kept_entries ic (col_lower_ lp)) in
  let lp := set_col_upper_ lp (kept_entries ic (col_upper_ lp)) in
  let lp := set_integrality_ lp (kept_entries ic (integrality_ lp)) in
  set_num_col_ lp (vsize (col_cost_ lp)).

Definition example_lp_deleteRows (lp : HighsLp) (ic : HighsIndexCollection) : HighsLp :=
  let lp := set_row_lower_ lp (kept_entries ic (row_lower_ lp)) in
  let lp := set_row_upper_ lp (kept_entries ic (row_upper_ lp)) in
  set_num_row_ lp (vsize (row_lower_ lp)).

(** Stand-ins: no scaling factors and no names are held, and the simplex
    engine keeps its data. *)
Definition example_deleteScale (cols : bool) (lp : HighsLp) (ic : HighsIndexCollection)
  : HighsLp := lp.
Definition example_ekk_delete (e : HEkk) (ic : HighsIndexCollection) : HEkk := e.
Definition example_clear_name2index (cols : bool) (lp : HighsLp) : HighsLp := lp.

Definition example_deleteColsInterface
  : Highs -> HighsIndexCollection -> option (Highs * HighsIndexCollection) :=
  deleteColsInterface example_ensureColwise example_lp_deleteCols example_deleteScale
                      example_ekk_delete example_clear_name2index.

Definition example_deleteRowsInterface
  : Highs -> HighsIndexCollection -> option (Highs * HighsIndexCollection) :=
  deleteRowsInterface example_ensureColwise example_lp_deleteRows example_deleteScale
                      example_ekk_delete example_clear_name2index.

Definition example_status : list HighsBasisStatus.t :=
  [HighsBasisStatus.kLower; HighsBasisStatus.kBasic; HighsBasisStatus.kUpper;
   HighsBasisStatus.kBasic; HighsBasisStatus.kLower].

(** The three forms of the collection {1, 3} of 5 entries, and some other
    collections. *)
Example deleteBasisEntries_examples :
  deleteBasisEntries example_status (mkIndexCollection 5 false 0 0 true 2 [1; 3] false []) 5
    = ([HighsBasisStatus.kLower; HighsBasisStatus.kUpper; HighsBasisStatus.kLower],
       Some (true, false)) /\
  deleteBasisEntries example_status
    (mkIndexCollection 5 false 0 0 false 0 [] true [0; 1; 0; 1; 0]) 5
    = ([HighsBasisStatus.kLower; HighsBasisStatus.kUpper; HighsBasisStatus.kLower],
       Some (true, false)) /\
  deleteBasisEntries example_status (interval_collection 5 1 3) 5
    = ([HighsBasisStatus.kLower; HighsBasisStatus.kLower], Some (true, true)) /\
  deleteBasisEntries example_status (interval_collection 5 2 2) 5
    = ([HighsBasisStatus.kLower; HighsBasisStatus.kBasic; HighsBasisStatus.kBasic;
        HighsBasisStatus.kLower], Some (false, true)) /\
  deleteBasisEntries example_status
    (mkIndexCollection 5 false 0 0 true 3 [0; 1; 4] false []) 5
    = ([HighsBasisStatus.kUpper; HighsBasisStatus.kBasic], Some (true, true)) /\
  deleteBasisEntries example_status (interval_collection 5 3 2) 5
    = (example_status, None).
Proof. vm_compute. repeat split; reflexivity. Qed.

(** Column 0 of [example_highs] is nonbasic and row 0 is nonbasic: deleting
    the column keeps the basis valid, deleting the row does not. *)
Definition example_delete_cols : HighsIndexCollection := interval_collection 2 0 0.
Definition example_delete_rows : HighsIndexCollection :=
  mkIndexCollection 1 false 0 0 true 1 [0] false [].

Lemma delete_basis_compacted_witness :
  (exists h' ic',
     example_deleteColsInterface example_highs example_delete_cols = Some (h', ic') /\
     col_status (basis_ h') = [HighsBasisStatus.kBasic] /\
     row_status (basis_ h') = [HighsBasisStatus.kLower] /\
     valid (basis_ h') = true) /\
  (exists h' ic',
     example_deleteRowsInterface example_highs example_delete_rows = Some (h', ic') /\
     row_status (basis_ h') = [] /\
     col_status (basis_ h') = [HighsBasisStatus.kLower; HighsBasisStatus.kBasic] /\
     valid (basis_ h') = false) /\
  (exists h' ic',
     example_deleteColsInterface example_highs_no_rows (interval_collection 1 0 0)
       = Some (h', ic') /\
     col_status (basis_ h') = [] /\
     row_status (basis_ h') = [] /\
     valid (basis_ h') = true).
Proof.
  assert (Hu : useful (basis_ example_highs) = true) by reflexivity.
  assert (Hu0 : useful (basis_ example_highs_no_rows) = true) by reflexivity.
  assert (Hrows : index_collection_ok example_delete_rows).
  { cbn. split; [lia|]. split; intros j Hj; [|lia].
    assert (j = 0) as -> by lia. cbn. lia. }
  pose proof (@delete_basis_compacted example_ensureColwise example_lp_deleteCols
                example_lp_deleteRows example_deleteScale example_ekk_delete
                example_ekk_delete example_clear_name2index
                example_highs example_delete_cols example_delete_rows Hu) as H.
  pose proof (@delete_basis_compacted example_ensureColwise example_lp_deleteCols
                example_lp_deleteRows example_deleteScale example_ekk_delete
                example_ekk_delete example_clear_name2index
                example_highs_no_rows (interval_collection 1 0 0) example_delete_rows
                Hu0) as H0.
  split; [|split].
  - apply (proj1 H); try reflexivity; cbn; try lia; discriminate.
  - apply (proj2 H); try reflexivity; try exact Hrows; cbn; try lia; discriminate.
  - apply (proj1 H0); try reflexivity; cbn; try lia; discriminate.
Defined.

(* ================================================================== *)
(** * The elasticity filter (elasticityFilter, elasticityFilterReturn) *)
(* ================================================================== *)

(** The vectors that elasticityFilter accumulates for the e-LP, lines
    2085-2100, 2147-2148 and 2273-2275, and the count of elastic variables.
    The names of the elastic columns and rows are not held. *)
Record ElasticData : Type := mkElasticData {
  col_of_ecol : list Z;
  row_of_ecol : list Z;
  bound_of_row_of_ecol : list double;
  bound_of_col_of_ecol : list double;
  erow_lower : list double;
  erow_upper : list double;
  erow_start : list Z;
  erow_index : list Z;
  erow_value : list double;
  ecol_cost : list double;
  ecol_start : list Z;
  ecol_index : list Z;
  ecol_value : list double;
  col_lower : list double;
  col_upper : list double;
  evar_ix : Z
}.

Definition set_col_of_ecol (e : ElasticData) (v : list Z) : ElasticData :=
  mkElasticData v (row_of_ecol e) (bound_of_row_of_ecol e) (bound_of_col_of_ecol e)
    (erow_lower e) (erow_upper e) (erow_start e) (erow_index e) (erow_value e)
    (ecol_cost e) (ecol_start e) (ecol_index e) (ecol_value e) (col_lower e)
    (col_upper e) (evar_ix e).

Definition set_row_of_ecol (e : ElasticData) (v : list Z) : ElasticData :=
  mkElasticData (col_of_ecol e) v (bound_of_row_of_ecol e) (bound_of_col_of_ecol e)
    (erow_lower e) (erow_upper e) (erow_start e) (erow_index e) (erow_value e)
    (ecol_cost e) (ecol_start e) (ecol_index e) (ecol_value e) (col_lower e)
    (col_upper e) (evar_ix e).

Definition set_bound_of_row_of_ecol (e : ElasticData) (v : list double) : ElasticData :=
  mkElasticData (col_of_ecol e) (row_of_ecol e) v (bound_of_col_of_ecol e)
    (erow_lower e) (erow_upper e) (erow_start e) (erow_index e) (erow_value e)
    (ecol_cost e) (ecol_start e) (ecol_index e) (ecol_value e) (col_lower e)
    (col_upper e) (evar_ix e).

Definition set_bound_of_col_of_ecol (e : ElasticData) (v : list double) : ElasticData :=
  mkElasticData (col_of_ecol e) (row_of_ecol e) (bound_of_row_of_ecol e) v
    (erow_lower e) (erow_upper e) (erow_start e) (erow_index e) (erow_value e)
    (ecol_cost e) (ecol_start e) (ecol_index e) (ecol_value e) (col_lower e)
    (col_upper e) (evar_ix e).

Definition set_erow_lower (e : ElasticData) (v : list double) : ElasticData :=
  mkElasticData (col_of_ecol e) (row_of_ecol e) (bound_of_row_of_ecol e)
    (bound_of_col_of_ecol e) v (erow_upper e) (erow_start e) (erow_index e)
    (erow_value e) (ecol_cost e) (ecol_start e) (ecol_index e) (ecol_value e)
    (col_lower e) (col_upper e) (evar_ix e).

Definition set_erow_upper (e : ElasticData) (v : list double) : ElasticData :=
  mkElasticData (col_of_ecol e) (row_of_ecol e) (bound_of_row_of_ecol e)
    (bound_of_col_of_ecol e) (erow_lower e) v (erow_start e) (erow_index e)
    (erow_value e) (ecol_cost e) (ecol_start e) (ecol_index e) (ecol_value e)
    (col_lower e) (col_upper e) (evar_ix e).

Definition set_erow_start (e : ElasticData) (v : list Z) : ElasticData :=
  mkElasticData (col_of_ecol e) (row_of_ecol e) (bound_of_row_of_ecol e)
    (bound_of_col_of_ecol e) (erow_lower e) (erow_upper e) v (erow_index e)
    (erow_value e) (ecol_cost e) (ecol_start e) (ecol_index e) (ecol_value e)
    (col_lower e) (col_upper e) (evar_ix e).

Definition set_erow_index (e : ElasticData) (v : list Z) : ElasticData :=
  mkElasticData (col_of_ecol e) (row_of_ecol e) (bound_of_row_of_ecol e)
    (bound_of_col_of_ecol e) (erow_lower e) (erow_upper e) (erow_start e) v
    (erow_value e) (ecol_cost e) (ecol_start e) (ecol_index e) (ecol_value e)
    (col_lower e) (col_upper e) (evar_ix e).

Definition set_erow_value (e : ElasticData) (v : list double) : ElasticData :=
  mkElasticData (col_of_ecol e) (row_of_ecol e) (bound_of_row_of_ecol e)
    (bound_of_col_of_ecol e) (erow_lower e) (erow_upper e) (erow_start e)
    (erow_index e) v (ecol_cost e) (ecol_start e) (ecol_index e) (ecol_value e)
    (col_lower e) (col_upper e) (evar_ix e).

Definition set_ecol_cost (e : ElasticData) (v : list double) : ElasticData :=
  mkElasticData (col_of_ecol e) (row_of_ecol e) (bound_of_row_of_ecol e)
    (bound_of_col_of_ecol e) (erow_lower e) (erow_upper e) (erow_start e)
    (erow_index e) (erow_value e) v (ecol_start e) (ecol_index e) (ecol_value e)
    (col_lower e) (col_upper e) (evar_ix e).

Definition set_ecol_start (e : ElasticData) (v : list Z) : ElasticData :=
  mkElasticData (col_of_ecol e) (row_of_ecol e) (bound_of_row_of_ecol e)
    (bound_of_col_of_ecol e) (erow_lower e) (erow_upper e) (erow_start e)
    (erow_index e) (erow_value e) (ecol_cost e) v (ecol_index e) (ecol_value e)
    (col_lower e) (col_upper e) (evar_ix e).

Definition set_ecol_index (e : ElasticData) (v : list Z) : ElasticData :=
  mkElasticData (col_of_ecol e) (row_of_ecol e) (bound_of_row_of_ecol e)
    (bound_of_col_of_ecol e) (erow_lower e) (erow_upper e) (erow_start e)
    (erow_index e) (erow_value e) (ecol_cost e) (ecol_start e) v (ecol_value e)
    (col_lower e) (col_upper e) (evar_ix e).

Definition set_ecol_value (e : ElasticData) (v : list double) : ElasticData :=
  mkElasticData (col_of_ecol e) (row_of_ecol e) (bound_of_row_of_ecol e)
    (bound_of_col_of_ecol e) (erow_lower e) (erow_upper e) (erow_start e)
    (erow_index e) (erow_value e) (ecol_cost e) (ecol_start e) (ecol_index e) v
    (col_lower e) (col_upper e) (evar_ix e).

Definition set_col_lower (e : ElasticData) (v : list double) : ElasticData :=
  mkElasticData (col_of_ecol e) (row_of_ecol e) (bound_of_row_of_ecol e)
    (bound_of_col_of_ecol e) (erow_lower e) (erow_upper e) (erow_start e)
    (erow_index e) (erow_value e) (ecol_cost e) (ecol_start e) (ecol_index e)
    (ecol_value e) v (col_upper e) (evar_ix e).

Definition set_col_upper (e : ElasticData) (v : list double) : ElasticData :=
  mkElasticData (col_of_ecol e) (row_of_ecol e) (bound_of_row_of_ecol e)
    (bound_of_col_of_ecol e) (erow_lower e) (erow_upper e) (erow_start e)
    (erow_index e) (erow_value e) (ecol_cost e) (ecol_start e) (ecol_index e)
    (ecol_value e) (col_lower e) v (evar_ix e).

Definition set_evar_ix (e : ElasticData) (v : Z) : ElasticData :=
  mkElasticData (col_of_ecol e) (row_of_ecol e) (bound_of_row_of_ecol e)
    (bound_of_col_of_ecol e) (erow_lower e) (erow_upper e) (erow_start e)
    (erow_index e) (erow_value e) (ecol_cost e) (ecol_start e) (ecol_index e)
    (ecol_value e) (col_lower e) (col_upper e) v.

Definition empty_elastic_data (evar_ix : Z) : ElasticData :=
  mkElasticData [] [] [] [] [] [] [] [] [] [] [] [] [] [] [] evar_ix.

(** [local_penalty ? local_penalty[i] : global_penalty] *)
Definition penalty_of (local_penalty : option (list double)) (global_penalty : double)
  (i : Z) : double :=
  match local_penalty with
  | Some p => vget p i 0%float
  | None => global_penalty
  end.

(** The body of the column loop, lines 2153-2219. *)
Definition elastic_column (lp : HighsLp) (global_lower_penalty global_upper_penalty : double)
  (local_lower_penalty local_upper_penalty : option (list double))
  (e : ElasticData) (iCol : Z) : ElasticData :=
  let lower := vget (col_lower_ lp) iCol 0%float in
  let upper := vget (col_upper_ lp) iCol 0%float in
  (* Original bounds used unless e-variable introduced *)
  let e := set_col_lower e (col_lower e ++ [lower]) in
  let e := set_col_upper e (col_upper e ++ [upper]) in
  (* Free columns have no erow *)
  if (lower <=? - kHighsInf)%float && (kHighsInf <=? upper)%float then e else
  let lower_penalty := penalty_of local_lower_penalty global_lower_penalty iCol in
  if (lower_penalty <? 0)%float && (kHighsInf <=? upper)%float then e else
  let upper_penalty := penalty_of local_upper_penalty global_upper_penalty iCol in
  if (lower <=? - kHighsInf)%float && (upper_penalty <? 0)%float then e else
  let e := set_erow_lower e (erow_lower e ++ [lower]) in
  let e := set_erow_upper e (erow_upper e ++ [upper]) in
  (* Define the entry for x[iCol] *)
  let e := set_erow_index e (erow_index e ++ [iCol]) in
  let e := set_erow_value e (erow_value e ++ [1%float]) in
  let e :=
    if (- kHighsInf <? lower)%float && (0 <=? lower_penalty)%float
    then
      (* New e_l variable *)
      let e := set_col_of_ecol e (col_of_ecol e ++ [iCol]) in
      let e := set_bound_of_col_of_ecol e (bound_of_col_of_ecol e ++ [lower]) in
      let e := set_col_lower e (vset (col_lower e) iCol (- kHighsInf)%float) in
      let e := set_erow_index e (erow_index e ++ [evar_ix e]) in
      let e := set_erow_value e (erow_value e ++ [1%float]) in
      let e := set_ecol_cost e (ecol_cost e ++ [lower_penalty]) in
      set_evar_ix e (evar_ix e + 1)
    else e in
  let e :=
    if (upper <? kHighsInf)%float && (0 <=? upper_penalty)%float
    then
      (* New e_u variable *)
      let e := set_col_of_ecol e (col_of_ecol e ++ [iCol]) in
      let e := set_bound_of_col_of_ecol e (bound_of_col_of_ecol e ++ [upper]) in
      let e := set_col_upper e (vset (col_upper e) iCol kHighsInf) in
      let e := set_erow_index e (erow_index e ++ [evar_ix e]) in
      let e := set_erow_value e (erow_value e ++ [(-1)%float]) in
      let e := set_ecol_cost e (ecol_cost e ++ [upper_penalty]) in
      set_evar_ix e (evar_ix e + 1)
    else e in
  set_erow_start e (erow_start e ++ [vsize (erow_index e)]).

(** [for (iCol = 0; iCol < lp.num_col_; iCol++)], line 2152. *)
Fixpoint elastic_columns (n : nat) (iCol : Z) (lp : HighsLp)
  (global_lower_penalty global_upper_penalty : double)
  (local_lower_penalty local_upper_penalty : option (list double))
  (e : ElasticData) : ElasticData :=
  match n with
  | O => e
  | S n' =>
      elastic_columns n' (iCol + 1) lp global_lower_penalty global_upper_penalty
        local_lower_penalty local_upper_penalty
        (elastic_column lp global_lower_penalty global_upper_penalty
                        local_lower_penalty local_upper_penalty e iCol)
  end.

(** The body of the row loop, lines 2279-2314. *)
Definition elastic_row (lp : HighsLp) (global_rhs_penalty : double)
  (local_rhs_penalty : option (list double)) (e : ElasticData) (iRow : Z) : ElasticData :=
  let penalty := penalty_of local_rhs_penalty global_rhs_penalty iRow in
  (* Negative penalty implies that the bounds cannot be violated *)
  if (penalty <? 0)%float then e else
  let lower := vget (row_lower_ lp) iRow 0%float in
  let upper := vget (row_upper_ lp) iRow 0%float in
  let e :=
    if (- kHighsInf <? lower)%float
    then
      (* Create an e-var for the row lower bound *)
      let e := set_row_of_ecol e (row_of_ecol e ++ [iRow]) in
      let e := set_bound_of_row_of_ecol e (bound_of_row_of_ecol e ++ [lower]) in
      let e := set_ecol_index e (ecol_index e ++ [iRow]) in
      let e := set_ecol_value e (ecol_value e ++ [1%float]) in
      let e := set_ecol_start e (ecol_start e ++ [vsize (ecol_index e)]) in
      let e := set_ecol_cost e (ecol_cost e ++ [penalty]) in
      set_evar_ix e (evar_ix e + 1)
    else e in
  if (upper <? kHighsInf)%float
  then
    (* Create an e-var for the row upper bound *)
    let e := set_row_of_ecol e (row_of_ecol e ++ [iRow]) in
    let e := set_bound_of_row_of_ecol e (bound_of_row_of_ecol e ++ [upper]) in
    let e := set_ecol_index e (ecol_index e ++ [iRow]) in
    let e := set_ecol_value e (ecol_value e ++ [(-1)%float]) in
    let e := set_ecol_start e (ecol_start e ++ [vsize (ecol_index e)]) in
    let e := set_ecol_cost e (ecol_cost e ++ [penalty]) in
    set_evar_ix e (evar_ix e + 1)
  else e.

(** [for (iRow = 0; iRow < original_num_row; iRow++)], line 2278. *)
Fixpoint elastic_rows (n : nat) (iRow : Z) (lp : HighsLp) (global_rhs_penalty : double)
  (local_rhs_penalty : option (list double)) (e : ElasticData) : ElasticData :=
  match n with
  | O => e
  | S n' =>
      elastic_rows n' (iRow + 1) lp global_rhs_penalty local_rhs_penalty
                   (elastic_row lp global_rhs_penalty local_rhs_penalty e iRow)
  end.

(** [v.assign(n, x)] *)
Definition assign {A : Type} (n : Z) (x : A) : list A := repeat x (Z.to_nat n).

Section ElasticityFilter.

(** The methods of the Highs class that the filter calls (Highs.cpp):
    changeColsCost, changeColsBounds, changeColBounds, changeColsIntegrality,
    addCols, addRows, deleteRows, deleteCols and run; passColName and
    passRowName for the names of the elastic columns and rows of the bounds
    of the columns ([pass_col_bound_names]) and of the rows
    ([pass_row_bound_names]); the record of time and iterations of an LP
    solve that goes to iis_.info_ ([record_lp_solve before after]);
    HighsSparseMatrix::productQuad and getKktFailures. *)
Variable changeColsCost : Highs -> Z -> Z -> list double -> HighsStatus.t * Highs.
Variable changeColsBounds :
  Highs -> Z -> Z -> list double -> list double -> HighsStatus.t * Highs.
Variable changeColBounds : Highs -> Z -> double -> double -> HighsStatus.t * Highs.
Variable changeColsIntegrality :
  Highs -> Z -> Z -> list HighsVarType.t -> HighsStatus.t * Highs.
Variable addCols :
  Highs -> Z -> list double -> list double -> list double ->
  Z -> option (list Z) -> option (list Z) -> option (list double) ->
  HighsStatus.t * Highs.
Variable addRows :
  Highs -> Z -> list double -> list double ->
  Z -> option (list Z) -> option (list Z) -> option (list double) ->
  HighsStatus.t * Highs.
Variable deleteRows : Highs -> Z -> Z -> HighsStatus.t * Highs.
Variable deleteCols : Highs -> Z -> Z -> HighsStatus.t * Highs.
Variable run : Highs -> HighsStatus.t * Highs.
Variable pass_col_bound_names : Highs -> ElasticData -> Z -> Z -> Highs.
Variable pass_row_bound_names : Highs -> ElasticData -> Z -> Highs.
Variable record_lp_solve : Highs -> Highs -> Highs.
Variable productQuad : HighsSparseMatrix -> list double -> list double.
Variable getKktFailures : Highs -> Highs.

(** [Highs::elasticityFilterReturn], lines 1991-2050.  The status of the
    calls is only tested by asserts. *)
Definition elasticityFilterReturn (h : Highs) (return_status : HighsStatus.t)
  (feasible_model : bool) (original_num_col original_num_row : Z)
  (original_col_cost original_col_lower original_col_upper : list double)
  (original_integrality : list HighsVarType.t) : HighsStatus.t * Highs :=
  let saved_objective_function_value := objective_function_value (info_ h) in
  (* Delete any additional rows and columns, and restore the original
     column costs and bounds *)
  let h := snd (deleteRows h original_num_row (num_row_ (lp_ h) - 1)) in
  let h := snd (deleteCols h original_num_col (num_col_ (lp_ h) - 1)) in
  let h := set_basis h (set_basis_valid (basis_ h) false) in
  let h := snd (changeColsCost h 0 (original_num_col - 1) original_col_cost) in
  let h := snd (changeColsBounds h 0 (original_num_col - 1) original_col_lower
                                 original_col_upper) in
  let h :=
    if negb (vsize original_integrality =? 0)
    then snd (changeColsIntegrality h 0 (original_num_col - 1) original_integrality)
    else h in
  let h :=
    match return_status with
    | HighsStatus.kOk =>
        let h := set_solution h
                   (set_row_value (solution_ h)
                      (productQuad (a_matrix_ (lp_ h)) (col_value (solution_ h)))) in
        let h := set_solution h (set_value_valid (solution_ h) true) in
        (* Set the feasibility objective and any KKT failures *)
        let h := set_info h (set_objective_function_value (info_ h)
                               saved_objective_function_value) in
        let h := getKktFailures h in
        set_info h (set_info_valid (info_ h) true)
    | _ => h
    end in
  (* If the model is feasible, then the status of model is not known *)
  let h := if feasible_model then set_model_status h HighsModelStatus.kNotset else h in
  (return_status, h).

(** The lambda [solveLp], lines 2347-2358. *)
Definition solveLp (h : Highs) : HighsStatus.t * Highs :=
  let '(run_status, h') := run h in
  match run_status with
  | HighsStatus.kOk => (run_status, record_lp_solve h h')
  | _ => (run_status, h')
  end.

(** Lines 2385-2402 and 2403-2420: fix at zero the elastic variables that
    are positive in the solution; [offset] is [col_ecol_offset] or
    [row_ecol_offset] and [n] the number of elastic variables left. *)
Fixpoint fix_positive (n : nat) (eCol offset : Z) (h : Highs) (num_fixed : Z) : Highs * Z :=
  match n with
  | O => (h, num_fixed)
  | S n' =>
      if (primal_feasibility_tolerance (options_ h) <?
          vget (col_value (solution_ h)) (offset + eCol) 0%float)%float
      then fix_positive n' (eCol + 1) offset
                        (snd (changeColBounds h (offset + eCol) 0%float 0%float))
                        (num_fixed + 1)
      else fix_positive n' (eCol + 1) offset h num_fixed
  end.

(** Lines 2455-2469: the rows whose elastic variable has been fixed. *)
Fixpoint enforced_rows (row_of_ecol : list Z) (eCol row_ecol_offset : Z) (lp : HighsLp)
  : list Z :=
  match row_of_ecol with
  | [] => []
  | iRow :: rest =>
      let tail := enforced_rows rest (eCol + 1) row_ecol_offset lp in
      if (vget (col_upper_ lp) (row_ecol_offset + eCol) 0%float =? 0)%float
      then iRow :: tail else tail
  end.

(** What the loop [for (;;)] of lines 2381-2436 ends in: a return from the
    function with the status of a failed solve, or a break. *)
Inductive FilterLoop : Type :=
| LoopReturn (run_status : HighsStatus.t) (h : Highs)
| LoopBreak (feasible_model : bool) (h : Highs).

Fixpoint filter_loop (fuel : nat) (has_elastic_columns has_elastic_rows : bool)
  (e : ElasticData) (col_ecol_offset row_ecol_offset : Z) (h : Highs)
  : option FilterLoop :=
  match fuel with
  | O => None
  | S fuel' =>
      let num_fixed := 0 in
      let '(h, num_fixed) :=
        if has_elastic_columns
        then fix_positive (List.length (col_of_ecol e)) 0 col_ecol_offset h num_fixed
        else (h, num_fixed) in
      let '(h, num_fixed) :=
        if has_elastic_rows
        then fix_positive (List.length (row_of_ecol e)) 0 row_ecol_offset h num_fixed
        else (h, num_fixed) in
      if num_fixed =? 0
      then (* No elastic variables were positive, so problem is feasible *)
        Some (LoopBreak true h)
      else
        let '(run_status, h) := solveLp h in
        match run_status with
        | HighsStatus.kOk =>
            match model_status_ h with
            | HighsModelStatus.kInfeasible => Some (LoopBreak false h)
            | _ => filter_loop fuel' has_elastic_columns has_elastic_rows e
                               col_ecol_offset row_ecol_offset h
            end
        | _ => Some (LoopReturn run_status h)
        end
  end.

Definition is_given {A : Type} (p : option A) : bool :=
  match p with Some _ => true | None => false end.

(** Lines 2145-2266: the elastic variables and rows for the bounds of the
    columns. *)
Definition elastic_column_bounds (h : Highs) (e : ElasticData)
  (global_lower_penalty global_upper_penalty : double)
  (local_lower_penalty local_upper_penalty : option (list double))
  (col_ecol_offset original_num_row : Z) : Highs * ElasticData :=
  let e := set_erow_start e [0] in
  let e :=
    elastic_columns (Z.to_nat (num_col_ (lp_ h))) 0 (lp_ h) global_lower_penalty
                    global_upper_penalty local_lower_penalty local_upper_penalty e in
  let num_new_col := vsize (col_of_ecol e) in
  let num_new_row := vsize (erow_start e) - 1 in
  let num_new_nz := vget (erow_start e) num_new_row 0 in
  (* Apply the original column bound changes *)
  let h := snd (changeColsBounds h 0 (num_col_ (lp_ h) - 1) (col_lower e) (col_upper e)) in
  (* Add the new columns *)
  let ecol_lower := assign num_new_col 0%float in
  let ecol_upper := assign num_new_col kHighsInf in
  let h := snd (addCols h num_new_col (ecol_cost e) ecol_lower ecol_upper
                        0 None None None) in
  (* Add the new rows *)
  let h := snd (addRows h num_new_row (erow_lower e) (erow_upper e) num_new_nz
                        (Some (erow_start e)) (Some (erow_index e))
                        (Some (erow_value e))) in
  (pass_col_bound_names h e col_ecol_offset original_num_row, e).

(** Lines 2268-2342: the elastic variables for the bounds of the rows. *)
Definition elastic_row_bounds (h : Highs) (e : ElasticData) (global_rhs_penalty : double)
  (local_rhs_penalty : option (list double)) (row_ecol_offset original_num_row : Z)
  : Highs * ElasticData :=
  let e := set_ecol_cost e [] in
  let e := set_ecol_start e [0] in
  let e :=
    elastic_rows (Z.to_nat original_num_row) 0 (lp_ h) global_rhs_penalty
                 local_rhs_penalty e in
  let num_new_col := vsize (ecol_start e) - 1 in
  let num_new_nz := vget (ecol_start e) num_new_col 0 in
  let ecol_lower := assign num_new_col 0%float in
  let ecol_upper := assign num_new_col kHighsInf in
  let h := snd (addCols h num_new_col (ecol_cost e) ecol_lower ecol_upper num_new_nz
                        (Some (ecol_start e)) (Some (ecol_index e))
                        (Some (ecol_value e))) in
  (pass_row_bound_names h e row_ecol_offset, e).

(** [Highs::elasticityFilter], lines 2052-2489.  [infeasible_row_subset] is
    passed by reference; [fuel] bounds the number of passes of the loop of
    line 2381, and the result is [None] when they do not suffice. *)
Definition elasticityFilter (fuel : nat) (h : Highs)
  (global_lower_penalty global_upper_penalty global_rhs_penalty : double)
  (local_lower_penalty local_upper_penalty local_rhs_penalty : option (list double))
  (get_infeasible_row : bool) (infeasible_row_subset : list Z)
  : option (HighsStatus.t * Highs * list Z) :=
  let e := empty_elastic_data (num_col_ (lp_ h)) in
  (* Take copies of the original model dimensions and column data
     vectors, as they will be modified in forming the e-LP *)
  let original_num_col := num_col_ (lp_ h) in
  let original_num_row := num_row_ (lp_ h) in
  let original_col_cost := col_cost_ (lp_ h) in
  let original_col_lower := col_lower_ (lp_ h) in
  let original_col_upper := col_upper_ (lp_ h) in
  let original_integrality := integrality_ (lp_ h) in
  let finish h return_status feasible_model :=
    elasticityFilterReturn h return_status feasible_model original_num_col
      original_num_row original_col_cost original_col_lower original_col_upper
      original_integrality in
  (* Zero the column costs *)
  let zero_costs := assign original_num_col 0%float in
  let h := snd (changeColsCost h 0 (num_col_ (lp_ h) - 1) zero_costs) in
  let h :=
    if get_infeasible_row && negb (vsize (integrality_ (lp_ h)) =? 0)
    then
      (* Set any integrality to continuous *)
      let all_continuous := assign original_num_col HighsVarType.kContinuous in
      snd (changeColsIntegrality h 0 (num_col_ (lp_ h) - 1) all_continuous)
    else h in
  (* For the columns *)
  let has_elastic_lower := is_given local_lower_penalty || (0 <=? global_lower_penalty)%float in
  let has_elastic_upper := is_given local_upper_penalty || (0 <=? global_upper_penalty)%float in
  let has_elastic_columns := has_elastic_lower || has_elastic_upper in
  (* For the rows *)
  let has_elastic_rows := is_given local_rhs_penalty || (0 <=? global_rhs_penalty)%float in
  let col_ecol_offset := num_col_ (lp_ h) in
  let '(h, e) :=
    if has_elastic_columns
    then elastic_column_bounds h e global_lower_penalty global_upper_penalty
                               local_lower_penalty local_upper_penalty
                               col_ecol_offset original_num_row
    else (h, e) in
  let row_ecol_offset := num_col_ (lp_ h) in
  let '(h, e) :=
    if has_elastic_rows
    then elastic_row_bounds h e global_rhs_penalty local_rhs_penalty row_ecol_offset
                            original_num_row
    else (h, e) in
  let '(run_status, h) := solveLp h in
  match run_status with
  | HighsStatus.kOk =>
      if negb get_infeasible_row
      then Some (finish h HighsStatus.kOk false, infeasible_row_subset)
      else
        (* Now fix e-variables that are positive and re-solve until e-LP is
           infeasible *)
        match filter_loop fuel has_elastic_columns has_elastic_rows e col_ecol_offset
                          row_ecol_offset h with
        | None => None
        | Some (LoopReturn run_status h) =>
            Some (finish h run_status false, infeasible_row_subset)
        | Some (LoopBreak feasible_model h) =>
            let infeasible_row_subset :=
              if has_elastic_rows
              then enforced_rows (row_of_ecol e) 0 row_ecol_offset (lp_ h)
              else [] in
            Some (finish h HighsStatus.kOk feasible_model, infeasible_row_subset)
        end
  | _ => Some (finish h run_status false, infeasible_row_subset)
  end.

(** On every path elasticityFilter returns through elasticityFilterReturn,
    with the dimensions, costs, bounds and integrality that the LP had at
    entry. *)
Lemma elasticityFilter_returns_through_restore (fuel : nat) (h : Highs)
  (global_lower_penalty global_upper_penalty global_rhs_penalty : double)
  (local_lower_penalty local_upper_penalty local_rhs_penalty : option (list double))
  (get_infeasible_row : bool) (subset subset' : list Z) (r : HighsStatus.t * Highs) :
  elasticityFilter fuel h global_lower_penalty global_upper_penalty global_rhs_penalty
                   local_lower_penalty local_upper_penalty local_rhs_penalty
                   get_infeasible_row subset = Some (r, subset') ->
  exists h1 return_status feasible_model,
    r = elasticityFilterReturn h1 return_status feasible_model
          (num_col_ (lp_ h)) (num_row_ (lp_ h)) (col_cost_ (lp_ h))
          (col_lower_ (lp_ h)) (col_upper_ (lp_ h)) (integrality_ (lp_ h)).
Proof.
  unfold elasticityFilter.
  repeat match goal with
         | |- context [let '(_, _) := ?x in _] => destruct x
         end.
  destruct t; try (intros H; injection H as <- _; eauto; fail).
  destruct (negb get_infeasible_row); [intros H; injection H as <- _; eauto|].
  destruct (filter_loop _ _ _ _ _ _ _) as [[st h3|fm h3]|]; [| |discriminate];
    intros H; injection H as <- _; eauto.
Qed.

End ElasticityFilter.

(** ** The filter on an example *)

(** Modelled from the spec: the methods of Highs.cpp that take a range of
    columns or rows (section 4.G, Model Mutation API): the range becomes an
    interval collection, refused when it leaves the dimension, and the
    interface function of HighsInterface.cpp does the work. *)
Definition create_interval (from to dimension : Z) : option HighsIndexCollection :=
  if (from <? 0) || (dimension - 1 <? to) then None
  else Some (interval_collection dimension from to).

Definition example_changeColsCost (h : Highs) (from_col to_col : Z) (cost : list double)
  : HighsStatus.t * Highs :=
  match create_interval from_col to_col (num_col_ (lp_ h)) with
  | None => (HighsStatus.kError, h)
  | Some ic => example_changeCostsInterface h ic (Some cost)
  end.

Definition example_changeColsBounds (h : Highs) (from_col to_col : Z)
  (lower upper : list double) : HighsStatus.t * Highs :=
  match create_interval from_col to_col (num_col_ (lp_ h)) with
  | None => (HighsStatus.kError, h)
  | Some ic => example_changeColBoundsInterface h ic (Some lower) (Some upper)
  end.

Definition example_changeColBounds (h : Highs) (col : Z) (lower upper : double)
  : HighsStatus.t * Highs :=
  example_changeColsBounds h col col [lower] [upper].

Definition example_changeColsIntegrality (h : Highs) (from_col to_col : Z)
  (integrality : list HighsVarType.t) : HighsStatus.t * Highs :=
  match create_interval from_col to_col (num_col_ (lp_ h)) with
  | None => (HighsStatus.kError, h)
  | Some ic =>
      let lp := lp_ h in
      let resized := resize (integrality_ lp) (num_col_ lp) HighsVarType.kContinuous in
      (HighsStatus.kOk,
       set_model_status
         (set_lp h (set_integrality_ lp (write_from resized from_col integrality)))
         HighsModelStatus.kNotset)
  end.

Definition example_addCols (h : Highs) (num_new_col : Z) (cost lower upper : list double)
  (num_new_nz : Z) (starts indices : option (list Z)) (values : option (list double))
  : HighsStatus.t * Highs :=
  example_addColsInterface h num_new_col (Some cost) (Some lower) (Some upper)
                           num_new_nz starts indices values.

Definition example_addRows (h : Highs) (num_new_row : Z) (lower upper : list double)
  (num_new_nz : Z) (starts indices : option (list Z)) (values : option (list double))
  : HighsStatus.t * Highs :=
  example_addRowsInterface h num_new_row (Some lower) (Some upper)
                           num_new_nz starts indices values.

Definition example_deleteCols (h : Highs) (from_col to_col : Z) : HighsStatus.t * Highs :=
  match create_interval from_col to_col (num_col_ (lp_ h)) with
  | None => (HighsStatus.kError, h)
  | Some ic =>
      match example_deleteColsInterface h ic with
      | Some (h, _) => (HighsStatus.kOk, h)
      | None => (HighsStatus.kError, h)
      end
  end.

Definition example_deleteRows (h : Highs) (from_row to_row : Z) : HighsStatus.t * Highs :=
  match create_interval from_row to_row (num_row_ (lp_ h)) with
  | None => (HighsStatus.kError, h)
  | Some ic =>
      match example_deleteRowsInterface h ic with
      | Some (h, _) => (HighsStatus.kOk, h)
      | None => (HighsStatus.kError, h)
      end
  end.

(** Stand-ins that fit the example: the solver reports the first variable
    at 1 and every other variable at 0, which is optimal for the e-LP of
    [example_lp] (the row x0 + x1 >= 1 holds without its elastic variable),
    and the row activity is the sum of the variables; no names, no record of
    the solves, no KKT data. *)
Definition example_run (h : Highs) : HighsStatus.t * Highs :=
  let n := num_col_ (lp_ h) in
  let col_value := vset (assign n 0%float) 0 1%float in
  let row_value := assign (num_row_ (lp_ h)) 1%float in
  (HighsStatus.kOk,
   set_model_status
     (set_solution h
        (mkSolution true true col_value (assign n 0%float) row_value
                    (assign (num_row_ (lp_ h)) 0%float)))
     HighsModelStatus.kOptimal).

Definition example_productQuad (a : HighsSparseMatrix) (col_value : list double)
  : list double := [fold_left PrimFloat.add col_value 0%float].

Definition example_elasticityFilter (fuel : nat) (h : Highs)
  : option (HighsStatus.t * Highs * list Z) :=
  elasticityFilter example_changeColsCost example_changeColsBounds
    example_changeColBounds example_changeColsIntegrality example_addCols
    example_addRows example_deleteRows example_deleteCols example_run
    (fun h e c r => h) (fun h e c => h) (fun before after => after)
    example_productQuad (fun h => h)
    fuel h (-1)%float (-1)%float 1%float None None None true [].

(** A model without a basis, as getIisInterface has it when it calls the
    filter (line 1935), and the same with user cost scale exponent 1: the
    costs [1; 1] that the LP holds are the scaled costs. *)
Definition elastic_highs : Highs :=
  set_basis example_highs (mkBasis false false false false [] []).

Definition elastic_highs_cost_scaled : Highs :=
  set_options (set_lp elastic_highs (set_user_cost_scale_ example_lp 1))
              (set_user_cost_scale example_options 1).

Definition elastic_highs_bound_scaled : Highs :=
  set_options (set_lp elastic_highs (set_user_bound_scale_ example_lp 1))
              (set_user_bound_scale example_options 1).

Definition lp_after_filter (h : Highs) : option HighsLp :=
  option_map (fun r => lp_ (snd (fst r))) (example_elasticityFilter 1 h).

(** Without user scaling the LP of the example is as it was at entry. *)
Example elasticityFilter_restores_unscaled_example :
  lp_after_filter elastic_highs = Some (lp_ elastic_highs).
Proof. vm_compute. reflexivity. Qed.

(** C1, failing input.  With user cost scale exponent 1 the filter returns
    kOk and the dimensions and bounds are those at entry, but the costs
    [1; 1] of the LP have become [2; 2]: elasticityFilterReturn writes the
    saved costs back with changeColsCost, which scales them once more. *)
Theorem elasticityFilter_rescales_costs :
  let h := elastic_highs_cost_scaled in
  col_cost_ (lp_ h) = [1%float; 1%float] /\
  option_map (fun r => fst (fst r)) (example_elasticityFilter 1 h) =
    Some HighsStatus.kOk /\
  option_map num_col_ (lp_after_filter h) = Some (num_col_ (lp_ h)) /\
  option_map num_row_ (lp_after_filter h) = Some (num_row_ (lp_ h)) /\
  option_map col_lower_ (lp_after_filter h) = Some (col_lower_ (lp_ h)) /\
  option_map col_upper_ (lp_after_filter h) = Some (col_upper_ (lp_ h)) /\
  option_map col_cost_ (lp_after_filter h) = Some [2%float; 2%float].
Proof. vm_compute. repeat split; reflexivity. Qed.

(** Likewise with user bound scale exponent 1: the bounds [0, 4] of the
    columns have become [0, 8]. *)
Example elasticityFilter_rescales_bounds :
  let h := elastic_highs_bound_scaled in
  col_upper_ (lp_ h) = [4%float; 4%float] /\
  option_map col_upper_ (lp_after_filter h) = Some [8%float; 8%float] /\
  option_map col_cost_ (lp_after_filter h) = Some (col_cost_ (lp_ h)).
Proof. vm_compute. repeat split; reflexivity. Qed.

(* ================================================================== *)
(** * Reading a matrix coefficient (getCoefficientInterface)           *)
(* ================================================================== *)

(** The loops of lines 893-899 and 901-907, with [n] entries left from
    [el] on: the value of the first entry whose index is [ix]; without one,
    the 0 that line 890 has set. *)
Fixpoint coefficient_scan (n : nat) (el : Z) (index : list Z) (value : list double)
  (ix : Z) : double :=
  match n with
  | O => 0%float
  | S n' =>
      if vget index el 0 =? ix then vget value el 0%float (* break *)
      else coefficient_scan n' (el + 1) index value ix
  end.

Section GetCoefficient.

(** [HighsSparseMatrix::isColwise]. *)
Variable isColwise : HighsSparseMatrix -> bool.

(** [Highs::getCoefficientInterface], lines 884-909; the result is the
    [value] passed by reference. *)
Definition getCoefficientInterface (h : Highs) (ext_row ext_col : Z) : double :=
  let m := a_matrix_ (lp_ h) in
  if isColwise m
  then
    let el := vget (start_ m) ext_col 0 in
    coefficient_scan (Z.to_nat (vget (start_ m) (ext_col + 1) 0 - el)) el
                     (index_ m) (value_ m) ext_row
  else
    let el := vget (start_ m) ext_row 0 in
    coefficient_scan (Z.to_nat (vget (start_ m) (ext_row + 1) 0 - el)) el
                     (index_ m) (value_ m) ext_col.

Lemma coefficient_scan_none (n : nat) (el : Z) (index : list Z) (value : list double)
  (ix : Z) :
  (forall e, el <= e < el + Z.of_nat n -> vget index e 0 <> ix) ->
  coefficient_scan n el index value ix = 0%float.
Proof.
  revert el. induction n as [|n IH]; intros el H; cbn [coefficient_scan]; [reflexivity|].
  destruct (Z.eqb_spec (vget index el 0) ix) as [E|_].
  - exfalso. apply (H el); [lia | exact E].
  - apply IH. intros e He. apply H. lia.
Qed.

Lemma coefficient_scan_first (n : nat) (el : Z) (index : list Z) (value : list double)
  (ix e : Z) :
  el <= e < el + Z.of_nat n ->
  vget index e 0 = ix ->
  (forall e', el <= e' < e -> vget index e' 0 <> ix) ->
  coefficient_scan n el index value ix = vget value e 0%float.
Proof.
  revert el. induction n as [|n IH]; intros el He Hix Hfirst; [lia|].
  cbn [coefficient_scan].
  destruct (Z.eqb_spec (vget index el 0) ix) as [E|NE].
  - destruct (Z.eq_dec e el) as [->|Hne]; [reflexivity|].
    exfalso. apply (Hfirst el); [lia | exact E].
  - destruct (Z.eq_dec e el) as [->|Hne]; [contradiction|].
    apply IH; [lia | exact Hix |]. intros e' He'. apply Hfirst. lia.
Qed.

(** X1.  getCoefficientInterface scans the entries of one column of a
    column-wise matrix (of one row of a row-wise matrix): without an entry
    for the other index the coefficient read is 0, and otherwise it is the
    value of the first such entry, so that of a duplicate entry is never
    read. *)
Theorem getCoefficientInterface_first_entry (h : Highs) (ext_row ext_col : Z) :
  let m := a_matrix_ (lp_ h) in
  let major := if isColwise m then ext_col else ext_row in
  let minor := if isColwise m then ext_row else ext_col in
  let from_el := vget (start_ m) major 0 in
  let to_el := vget (start_ m) (major + 1) 0 in
  ((forall el, from_el <= el < to_el -> vget (index_ m) el 0 <> minor) ->
   getCoefficientInterface h ext_row ext_col = 0%float) /\
  (forall el,
     from_el <= el < to_el ->
     vget (index_ m) el 0 = minor ->
     (forall el', from_el <= el' < el -> vget (index_ m) el' 0 <> minor) ->
     getCoefficientInterface h ext_row ext_col = vget (value_ m) el 0%float).
Proof.
  intros m major minor from_el to_el. unfold getCoefficientInterface.
  fold m. subst major minor from_el to_el.
  destruct (isColwise m); split.
  - intros H. apply coefficient_scan_none. intros e He. apply H. lia.
  - intros el He Hix Hfirst. apply coefficient_scan_first with (e := el); [lia | auto | auto].
  - intros H. apply coefficient_scan_none. intros e He. apply H. lia.
  - intros el He Hix Hfirst. apply coefficient_scan_first with (e := el); [lia | auto | auto].
Qed.

End GetCoefficient.

(* ================================================================== *)
(** * Extending and reading the basis                                  *)
(* ================================================================== *)

(** Modelled from the spec: the nonbasic flags and the illegal move of
    SimplexConst.h (not among the embedded sources); the spec's data model
    has the simplex-internal [nonbasic_flag] beside [nonbasic_move]. *)
Definition kNonbasicFlagTrue : Z := 1.
Definition kNonbasicFlagFalse : Z := 0.
Definition kIllegalMoveValue : Z := -99.

Definition set_ekk_basis (h : Highs) (sb : SimplexBasis) : Highs :=
  set_ekk h (mkEkk (status_ (ekk_instance_ h)) sb).

(** ** Vector lemmas for resize *)

Lemma vsize_resize {A : Type} (v : list A) (n : Z) (d : A) :
  0 <= n -> vsize (resize v n d) = n.
Proof.
  intros Hn. unfold vsize, resize.
  rewrite length_app, length_firstn, repeat_length. lia.
Qed.

Lemma vget_resize {A : Type} (v : list A) (n i : Z) (d d' : A) :
  0 <= i < n ->
  vget (resize v n d) i d' = if i <? vsize v then vget v i d' else d.
Proof.
  intros Hi. unfold vget, resize, vsize.
  destruct (Z.ltb_spec i 0); [lia|].
  destruct (Z.ltb_spec i (Z.of_nat (List.length v))).
  - rewrite app_nth1 by (rewrite length_firstn; lia).
    rewrite nth_firstn.
    destruct (Nat.ltb_spec (Z.to_nat i) (Z.to_nat n)); [reflexivity | lia].
  - rewrite app_nth2 by (rewrite length_firstn; lia).
    rewrite length_firstn. apply nth_repeat_lt. lia.
Qed.

Lemma vget_ext {A : Type} (a b : list A) (d : A) :
  vsize a = vsize b ->
  (forall i, 0 <= i < vsize a -> vget a i d = vget b i d) ->
  a = b.
Proof.
  unfold vsize, vget. intros Hs H.
  apply nth_ext with (d := d) (d' := d); [lia|].
  intros n Hn. specialize (H (Z.of_nat n)).
  destruct (Z.ltb_spec (Z.of_nat n) 0); [lia|].
  rewrite Nat2Z.id in H. apply H. lia.
Qed.

Lemma vget_app1 {A : Type} (a b : list A) (i : Z) (d : A) :
  i < vsize a -> vget (a ++ b) i d = vget a i d.
Proof.
  unfold vsize, vget. intros H. destruct (Z.ltb_spec i 0); [reflexivity|].
  apply app_nth1. lia.
Qed.

Lemma vget_app2 {A : Type} (a b : list A) (i : Z) (d : A) :
  vsize a <= i -> vget (a ++ b) i d = vget b (i - vsize a) d.
Proof.
  unfold vsize, vget. intros H.
  destruct (Z.ltb_spec i 0); [lia|].
  destruct (Z.ltb_spec (i - Z.of_nat (List.length a)) 0); [lia|].
  rewrite app_nth2 by lia. f_equal. lia.
Qed.

Lemma vget_repeat {A : Type} (x d : A) (n : nat) (i : Z) :
  0 <= i < Z.of_nat n -> vget (repeat x n) i d = x.
Proof.
  unfold vget. intros H. destruct (Z.ltb_spec i 0); [lia|].
  apply nth_repeat_lt. lia.
Qed.

Lemma vsize_app {A : Type} (a b : list A) : vsize (a ++ b) = vsize a + vsize b.
Proof. unfold vsize. rewrite length_app. lia. Qed.

Lemma vsize_nonneg {A : Type} (a : list A) : 0 <= vsize a.
Proof. unfold vsize. lia. Qed.

(** ** Loops that write a block of a vector *)

(** [for (i = from; ...; i++) v[off + i] = f(i)], with [n] turns left. *)
Fixpoint fill {A : Type} (n : nat) (i off : Z) (f : Z -> A) (v : list A) : list A :=
  match n with
  | O => v
  | S n' => fill n' (i + 1) off f (vset v (off + i) (f i))
  end.

Lemma vsize_fill {A : Type} (n : nat) (i off : Z) (f : Z -> A) (v : list A) :
  vsize (fill n i off f v) = vsize v.
Proof.
  revert i v. induction n as [|n IH]; intros i v; cbn [fill]; [reflexivity|].
  rewrite IH. apply vsize_vset.
Qed.

Lemma vget_fill {A : Type} (n : nat) (i off : Z) (f : Z -> A) (v : list A) (j : Z) (d : A) :
  0 <= off + i -> off + i + Z.of_nat n <= vsize v ->
  vget (fill n i off f v) j d =
  if (off + i <=? j) && (j <? off + i + Z.of_nat n) then f (j - off) else vget v j d.
Proof.
  revert i v. induction n as [|n IH]; intros i v H0 Hn; cbn [fill].
  - destruct (Z.leb_spec (off + i) j), (Z.ltb_spec j (off + i + Z.of_nat 0));
      cbn; try reflexivity; lia.
  - rewrite IH by (rewrite ?vsize_vset; lia).
    rewrite vget_vset by lia.
    destruct (Z.leb_spec (off + (i + 1)) j), (Z.ltb_spec j (off + (i + 1) + Z.of_nat n)),
      (Z.leb_spec (off + i) j), (Z.ltb_spec j (off + i + Z.of_nat (S n))),
      (Z.eqb_spec j (off + i)); cbn; try reflexivity; try lia.
    f_equal. lia.
Qed.

(** [for (i = n - 1; i >= 0; i--) v[dst + i] = v[src + i]], with [n] turns
    left. *)
Fixpoint shift_up {A : Type} (n : nat) (src dst : Z) (d : A) (v : list A) : list A :=
  match n with
  | O => v
  | S n' =>
      shift_up n' src dst d (vset v (dst + Z.of_nat n') (vget v (src + Z.of_nat n') d))
  end.

Lemma vsize_shift_up {A : Type} (n : nat) (src dst : Z) (d : A) (v : list A) :
  vsize (shift_up n src dst d v) = vsize v.
Proof.
  revert v. induction n as [|n IH]; intros v; cbn [shift_up]; [reflexivity|].
  rewrite IH. apply vsize_vset.
Qed.

(** Going down, no entry is overwritten before it is read. *)
Lemma vget_shift_up {A : Type} (n : nat) (src dst : Z) (d : A) (v : list A) (j : Z) :
  0 <= src <= dst -> dst + Z.of_nat n <= vsize v ->
  vget (shift_up n src dst d v) j d =
  if (dst <=? j) && (j <? dst + Z.of_nat n) then vget v (src + (j - dst)) d
  else vget v j d.
Proof.
  revert v. induction n as [|n IH]; intros v H0 Hn; cbn [shift_up].
  - destruct (Z.leb_spec dst j), (Z.ltb_spec j (dst + Z.of_nat 0));
      cbn; try reflexivity; lia.
  - rewrite IH by (rewrite ?vsize_vset; lia).
    rewrite !vget_vset by lia.
    destruct (Z.leb_spec dst j), (Z.ltb_spec j (dst + Z.of_nat n)),
      (Z.ltb_spec j (dst + Z.of_nat (S n))); cbn; try lia.
    + destruct (Z.eqb_spec (src + (j - dst)) (dst + Z.of_nat n)); [lia | reflexivity].
    + destruct (Z.eqb_spec j (dst + Z.of_nat n)); [|lia].
      f_equal. lia.
    + destruct (Z.eqb_spec j (dst + Z.of_nat n)); [lia | reflexivity].
    + destruct (Z.eqb_spec j (dst + Z.of_nat n)); [lia | reflexivity].
Qed.

(** ** The number of basic entries *)

Definition num_basic_entries (status : list HighsBasisStatus.t) : Z :=
  Z.of_nat (List.length (filter is_basic status)).

(** The basic entries of a HiGHS basis, columns and rows. *)
Definition num_basic (b : HighsBasis) : Z :=
  num_basic_entries (col_status b) + num_basic_entries (row_status b).

Lemma num_basic_entries_app (a b : list HighsBasisStatus.t) :
  num_basic_entries (a ++ b) = num_basic_entries a + num_basic_entries b.
Proof. unfold num_basic_entries. rewrite filter_app, length_app. lia. Qed.

Lemma num_basic_entries_all (l : list HighsBasisStatus.t) :
  (forall s, In s l -> is_basic s = true) -> num_basic_entries l = vsize l.
Proof.
  unfold num_basic_entries, vsize. induction l as [|x l IH]; intros H; [reflexivity|].
  cbn [filter]. rewrite (H x) by (left; reflexivity). cbn [List.length].
  rewrite !Nat2Z.inj_succ, IH; [reflexivity|]. intros s Hs. apply H. right. exact Hs.
Qed.

Lemma num_basic_entries_none (l : list HighsBasisStatus.t) :
  (forall s, In s l -> is_basic s = false) -> num_basic_entries l = 0.
Proof.
  unfold num_basic_entries. induction l as [|x l IH]; intros H; [reflexivity|].
  cbn [filter]. rewrite (H x) by (left; reflexivity).
  apply IH. intros s Hs. apply H. right. exact Hs.
Qed.

(** ** appendBasicRowsToBasisInterface *)

(** Lines 1455-1456, [for (iRow = lp.num_row_; iRow < newNumRow; iRow++)],
    with [n] rows left. *)
Fixpoint basic_rows_status (n : nat) (iRow : Z) (status : list HighsBasisStatus.t)
  : list HighsBasisStatus.t :=
  match n with
  | O => status
  | S n' => basic_rows_status n' (iRow + 1) (vset status iRow HighsBasisStatus.kBasic)
  end.

(** Lines 1463-1467, the same loop over the simplex basis. *)
Fixpoint basic_rows_simplex (n : nat) (iRow num_col : Z) (sb : SimplexBasis)
  : SimplexBasis :=
  match n with
  | O => sb
  | S n' =>
      basic_rows_simplex n' (iRow + 1) num_col
        (mkSimplexBasis (vset (basicIndex_ sb) iRow (num_col + iRow))
                        (vset (nonbasicFlag_ sb) (num_col + iRow) kNonbasicFlagFalse)
                        (vset (nonbasicMove_ sb) (num_col + iRow) 0))
  end.

(** [Highs::appendBasicRowsToBasisInterface], lines 1440-1469.  A vector
    that grows is filled with zeros, which is kLower for a status. *)
Definition appendBasicRowsToBasisInterface (h : Highs) (ext_num_new_row : Z) : Highs :=
  if ext_num_new_row =? 0 then h else
  if negb (useful (basis_ h)) then h else
  let has_simplex_basis := has_basis (status_ (ekk_instance_ h)) in
  let lp := lp_ h in
  (* Add the new rows to the Highs basis *)
  let newNumRow := num_row_ lp + ext_num_new_row in
  let n := Z.to_nat (newNumRow - num_row_ lp) in
  let status := resize (row_status (basis_ h)) newNumRow HighsBasisStatus.kLower in
  let h := set_basis h (set_row_status (basis_ h)
                          (basic_rows_status n (num_row_ lp) status)) in
  if has_simplex_basis
  then
    (* Add the new rows to the simplex basis *)
    let sb := ekk_basis_ (ekk_instance_ h) in
    let newNumTot := num_col_ lp + newNumRow in
    let sb := mkSimplexBasis (resize (basicIndex_ sb) newNumRow 0)
                             (resize (nonbasicFlag_ sb) newNumTot 0)
                             (resize (nonbasicMove_ sb) newNumTot 0) in
    set_ekk_basis h (basic_rows_simplex n (num_row_ lp) (num_col_ lp) sb)
  else h.

Lemma basic_rows_status_fill (n : nat) (iRow : Z) (status : list HighsBasisStatus.t) :
  basic_rows_status n iRow status = fill n iRow 0 (fun _ => HighsBasisStatus.kBasic) status.
Proof.
  revert iRow status. induction n as [|n IH]; intros iRow status; cbn [basic_rows_status fill];
    [reflexivity | apply IH].
Qed.

Lemma basic_rows_simplex_fill (n : nat) (iRow num_col : Z) (sb : SimplexBasis) :
  basic_rows_simplex n iRow num_col sb =
  mkSimplexBasis (fill n iRow 0 (fun i => num_col + i) (basicIndex_ sb))
                 (fill n iRow num_col (fun _ => kNonbasicFlagFalse) (nonbasicFlag_ sb))
                 (fill n iRow num_col (fun _ => 0) (nonbasicMove_ sb)).
Proof.
  revert iRow sb. induction n as [|n IH]; intros iRow sb; cbn [basic_rows_simplex fill].
  - destruct sb; reflexivity.
  - rewrite IH. reflexivity.
Qed.

Lemma nth_map_seq {A : Type} (g : nat -> A) (n i : nat) (d : A) :
  (i < n)%nat -> nth i (map g (seq 0 n)) d = g i.
Proof.
  intros H. rewrite nth_indep with (d' := g O) by (rewrite length_map, length_seq; lia).
  rewrite (map_nth g). rewrite seq_nth by lia. reflexivity.
Qed.

(** A vector of [n0] entries, grown by [k] and with the new block written
    by [fill]. *)
Lemma fill_resize {A : Type} (v : list A) (n0 k off : Z) (d0 : A) (f : Z -> A) :
  vsize v = off + n0 -> 0 <= off -> 0 <= n0 -> 0 <= k ->
  fill (Z.to_nat k) n0 off f (resize v (off + n0 + k) d0) =
  v ++ map (fun i => f (n0 + Z.of_nat i)) (seq 0 (Z.to_nat k)).
Proof.
  intros Hv Hoff Hn0 Hk.
  assert (Hlen : vsize (v ++ map (fun i => f (n0 + Z.of_nat i)) (seq 0 (Z.to_nat k)))
                 = off + n0 + k).
  { rewrite vsize_app. unfold vsize at 2. rewrite length_map, length_seq. lia. }
  apply vget_ext with (d := d0).
  - rewrite vsize_fill, vsize_resize by lia. symmetry. exact Hlen.
  - intros i Hi. rewrite vsize_fill, vsize_resize in Hi by lia.
    rewrite vget_fill by (rewrite ?vsize_resize; lia).
    destruct (Z.leb_spec (off + n0) i), (Z.ltb_spec i (off + n0 + Z.of_nat (Z.to_nat k)));
      cbn [andb]; try lia.
    + rewrite vget_app2 by lia. unfold vget.
      destruct (Z.ltb_spec (i - vsize v) 0); [lia|].
      rewrite nth_map_seq by lia. f_equal. lia.
    + rewrite vget_resize by lia.
      destruct (Z.ltb_spec i (vsize v)); [|lia].
      rewrite vget_app1 by lia. reflexivity.
Qed.

Lemma map_const_seq {A : Type} (x : A) (a n : nat) :
  map (fun _ => x) (seq a n) = repeat x n.
Proof. revert a. induction n as [|n IH]; intros a; cbn; [reflexivity | f_equal; apply IH]. Qed.

(** X2.  appendBasicRowsToBasisInterface, for a useful basis whose row
    statuses match the LP: the statuses it had are kept and the new rows are
    appended as basic, so the basis has as many more basic entries as the LP
    gets rows; in a simplex basis of matching size the basic variable of each
    new row is that row's own slack, flagged as basic with move 0. *)
Theorem appendBasicRowsToBasisInterface_appends_basic (h : Highs) (ext_num_new_row : Z) :
  useful (basis_ h) = true ->
  0 < ext_num_new_row ->
  vsize (row_status (basis_ h)) = num_row_ (lp_ h) ->
  let h' := appendBasicRowsToBasisInterface h ext_num_new_row in
  let k := Z.to_nat ext_num_new_row in
  let sb := ekk_basis_ (ekk_instance_ h) in
  let sb' := ekk_basis_ (ekk_instance_ h') in
  row_status (basis_ h') = row_status (basis_ h) ++ repeat HighsBasisStatus.kBasic k /\
  col_status (basis_ h') = col_status (basis_ h) /\
  num_basic (basis_ h') = num_basic (basis_ h) + ext_num_new_row /\
  lp_ h' = lp_ h /\
  (has_basis (status_ (ekk_instance_ h)) = false -> ekk_instance_ h' = ekk_instance_ h) /\
  (has_basis (status_ (ekk_instance_ h)) = true ->
   0 <= num_col_ (lp_ h) ->
   vsize (basicIndex_ sb) = num_row_ (lp_ h) ->
   vsize (nonbasicFlag_ sb) = num_col_ (lp_ h) + num_row_ (lp_ h) ->
   vsize (nonbasicMove_ sb) = num_col_ (lp_ h) + num_row_ (lp_ h) ->
   basicIndex_ sb' =
     basicIndex_ sb ++
     map (fun i => num_col_ (lp_ h) + (num_row_ (lp_ h) + Z.of_nat i)) (seq 0 k) /\
   nonbasicFlag_ sb' = nonbasicFlag_ sb ++ repeat kNonbasicFlagFalse k /\
   nonbasicMove_ sb' = nonbasicMove_ sb ++ repeat 0 k).
Proof.
  intros Huseful Hext Hrows.
  pose proof (vsize_nonneg (row_status (basis_ h))) as Hm.
  assert (Hst : basic_rows_status (Z.to_nat ext_num_new_row) (num_row_ (lp_ h))
                  (resize (row_status (basis_ h)) (num_row_ (lp_ h) + ext_num_new_row)
                          HighsBasisStatus.kLower)
                = row_status (basis_ h) ++
                  repeat HighsBasisStatus.kBasic (Z.to_nat ext_num_new_row)).
  { rewrite basic_rows_status_fill.
    pose proof (@fill_resize _ (row_status (basis_ h)) (num_row_ (lp_ h)) ext_num_new_row 0
                  HighsBasisStatus.kLower (fun _ => HighsBasisStatus.kBasic)) as F.
    cbn [Z.add] in F. rewrite F by lia.
    rewrite map_const_seq. reflexivity. }
  cbv zeta. unfold appendBasicRowsToBasisInterface.
  destruct (Z.eqb_spec ext_num_new_row 0) as [E|_]; [lia|].
  rewrite Huseful. cbn [negb].
  replace (num_row_ (lp_ h) + ext_num_new_row - num_row_ (lp_ h)) with ext_num_new_row
    by lia.
  rewrite Hst.
  assert (Hnb : num_basic_entries (col_status (basis_ h)) +
                num_basic_entries (row_status (basis_ h) ++
                                   repeat HighsBasisStatus.kBasic (Z.to_nat ext_num_new_row))
                = num_basic (basis_ h) + ext_num_new_row).
  { rewrite num_basic_entries_app.
    rewrite (@num_basic_entries_all
               (repeat HighsBasisStatus.kBasic (Z.to_nat ext_num_new_row))).
    - unfold num_basic, vsize. rewrite repeat_length. lia.
    - intros s Hs. apply repeat_spec in Hs. subst s. reflexivity. }
  destruct (has_basis (status_ (ekk_instance_ h))) eqn:Hsb.
  - unfold num_basic at 1.
    cbn [set_ekk_basis set_ekk set_basis set_row_status ekk_instance_ ekk_basis_ basis_
         row_status col_status lp_ status_].
    do 2 (split; [reflexivity|]). split; [exact Hnb|].
    split; [reflexivity|]. split; [discriminate|].
    intros _ Hn Hbi Hfl Hmv. rewrite basic_rows_simplex_fill.
    cbn [basicIndex_ nonbasicFlag_ nonbasicMove_].
    split; [|split].
    + pose proof (@fill_resize _ (basicIndex_ (ekk_basis_ (ekk_instance_ h)))
                    (num_row_ (lp_ h)) ext_num_new_row 0
                    0 (fun i => num_col_ (lp_ h) + i)) as F.
      cbn [Z.add] in F. apply F; lia.
    + pose proof (@fill_resize _ (nonbasicFlag_ (ekk_basis_ (ekk_instance_ h)))
                    (num_row_ (lp_ h)) ext_num_new_row
                    (num_col_ (lp_ h)) 0 (fun _ => kNonbasicFlagFalse)) as F.
      cbv beta in F. rewrite map_const_seq in F.
      rewrite <- F by lia. f_equal. f_equal. lia.
    + pose proof (@fill_resize _ (nonbasicMove_ (ekk_basis_ (ekk_instance_ h)))
                    (num_row_ (lp_ h)) ext_num_new_row
                    (num_col_ (lp_ h)) 0 (fun _ => 0)) as F.
      cbv beta in F. rewrite map_const_seq in F.
      rewrite <- F by lia. f_equal. f_equal. lia.
  - unfold num_basic at 1.
    cbn [set_basis set_row_status ekk_instance_ basis_ row_status col_status lp_].
    do 2 (split; [reflexivity|]). split; [exact Hnb|].
    split; [reflexivity|]. split; [reflexivity | discriminate].
Qed.

(** ** appendNonbasicColsToBasisInterface *)

Lemma vget_firstn {A : Type} (v : list A) (n : nat) (i : Z) (d : A) :
  i < Z.of_nat n -> vget (firstn n v) i d = vget v i d.
Proof.
  unfold vget. intros H. destruct (Z.ltb_spec i 0); [reflexivity|].
  rewrite nth_firstn. destruct (Nat.ltb_spec (Z.to_nat i) n); [reflexivity | lia].
Qed.

Lemma vget_skipn {A : Type} (v : list A) (n : nat) (i : Z) (d : A) :
  0 <= i -> vget (skipn n v) i d = vget v (Z.of_nat n + i) d.
Proof.
  unfold vget. intros H.
  destruct (Z.ltb_spec i 0); [lia|]. destruct (Z.ltb_spec (Z.of_nat n + i) 0); [lia|].
  rewrite nth_skipn. f_equal. lia.
Qed.

Lemma vget_map {A B : Type} (g : A -> B) (v : list A) (i : Z) (d : A) :
  0 <= i < vsize v -> vget (map g v) i (g d) = g (vget v i d).
Proof.
  unfold vget, vsize. intros H. destruct (Z.ltb_spec i 0); [lia|]. apply map_nth.
Qed.

Lemma vget_map_seq {A : Type} (g : nat -> A) (n : nat) (i : Z) (d : A) :
  0 <= i < Z.of_nat n -> vget (map g (seq 0 n)) i d = g (Z.to_nat i).
Proof.
  unfold vget. intros H. destruct (Z.ltb_spec i 0); [lia|].
  apply nth_map_seq. lia.
Qed.

Section NonbasicStatus.

(** [highs_isInfinity] of util/HighsUtils. *)
Variable highs_isInfinity : double -> bool.

(** Lines 1397-1429: the status and the move of a new column with the
    bounds [lower] and [upper]. *)
Definition new_col_status_move (lower upper : double) : HighsBasisStatus.t * Z :=
  if (lower =? upper)%float
  then (* Fixed *) (HighsBasisStatus.kLower, kNonbasicMoveZe)
  else if negb (highs_isInfinity (- lower)%float)
  then
    (* Finite lower bound so boxed or lower *)
    if negb (highs_isInfinity upper)
    then
      (* Finite upper bound so boxed *)
      if (abs lower <? abs upper)%float
      then (HighsBasisStatus.kLower, kNonbasicMoveUp)
      else (HighsBasisStatus.kUpper, kNonbasicMoveDn)
    else (* Lower *) (HighsBasisStatus.kLower, kNonbasicMoveUp)
  else if negb (highs_isInfinity upper)
  then (* Upper *) (HighsBasisStatus.kUpper, kNonbasicMoveDn)
  else (* FREE *) (HighsBasisStatus.kZero, kNonbasicMoveZe).

(** Lines 1383-1393, [for (iRow = lp.num_row_ - 1; iRow >= 0; iRow--)],
    with the rows below [n] left. *)
Fixpoint shift_row_data (n : nat) (num_col newNumCol ext_num_new_col : Z)
  (sb : SimplexBasis) : SimplexBasis :=
  match n with
  | O => sb
  | S n' =>
      let iRow := Z.of_nat n' in
      let iCol := vget (basicIndex_ sb) iRow 0 in
      let basicIndex :=
        if num_col <=? iCol
        then (* This basic variable is a row, so shift its index *)
          vset (basicIndex_ sb) iRow (iCol + ext_num_new_col)
        else basicIndex_ sb in
      let nonbasicFlag :=
        vset (nonbasicFlag_ sb) (newNumCol + iRow)
             (vget (nonbasicFlag_ sb) (num_col + iRow) 0) in
      let nonbasicMove :=
        vset (nonbasicMove_ sb) (newNumCol + iRow)
             (vget (nonbasicMove_ sb) (num_col + iRow) 0) in
      shift_row_data n' num_col newNumCol ext_num_new_col
                     (mkSimplexBasis basicIndex nonbasicFlag nonbasicMove)
  end.

(** Lines 1396-1437, [for (iCol = lp.num_col_; iCol < newNumCol; iCol++)],
    with [n] columns left. *)
Fixpoint nonbasic_new_cols (n : nat) (iCol : Z) (lp : HighsLp) (has_simplex_basis : bool)
  (st : list HighsBasisStatus.t * SimplexBasis) : list HighsBasisStatus.t * SimplexBasis :=
  match n with
  | O => st
  | S n' =>
      let lower := vget (col_lower_ lp) iCol 0%float in
      let upper := vget (col_upper_ lp) iCol 0%float in
      let '(status, move) := new_col_status_move lower upper in
      let col_status := vset (fst st) iCol status in
      let sb :=
        if has_simplex_basis
        then mkSimplexBasis (basicIndex_ (snd st))
                            (vset (nonbasicFlag_ (snd st)) iCol kNonbasicFlagTrue)
                            (vset (nonbasicMove_ (snd st)) iCol move)
        else snd st in
      nonbasic_new_cols n' (iCol + 1) lp has_simplex_basis (col_status, sb)
  end.

(** [Highs::appendNonbasicColsToBasisInterface], lines 1363-1438. *)
Definition appendNonbasicColsToBasisInterface (h : Highs) (ext_num_new_col : Z) : Highs :=
  if ext_num_new_col =? 0 then h else
  if negb (useful (basis_ h)) then h else
  let has_simplex_basis := has_basis (status_ (ekk_instance_ h)) in
  let lp := lp_ h in
  (* Add nonbasic structurals *)
  let newNumCol := num_col_ lp + ext_num_new_col in
  let newNumTot := newNumCol + num_row_ lp in
  let col_status := resize (col_status (basis_ h)) newNumCol HighsBasisStatus.kLower in
  let sb := ekk_basis_ (ekk_instance_ h) in
  let sb :=
    if has_simplex_basis
    then
      shift_row_data (Z.to_nat (num_row_ lp)) (num_col_ lp) newNumCol ext_num_new_col
        (mkSimplexBasis (basicIndex_ sb) (resize (nonbasicFlag_ sb) newNumTot 0)
                        (resize (nonbasicMove_ sb) newNumTot 0))
    else sb in
  (* Make any new columns nonbasic *)
  let '(col_status, sb) :=
    nonbasic_new_cols (Z.to_nat (newNumCol - num_col_ lp)) (num_col_ lp) lp
                      has_simplex_basis (col_status, sb) in
  set_ekk_basis (set_basis h (set_col_status (basis_ h) col_status)) sb.

(** *** What the two loops compute *)

(** The basic variables that are rows, shifted. *)
Fixpoint shift_basic (n : nat) (num_col ext_num_new_col : Z) (basicIndex : list Z) : list Z :=
  match n with
  | O => basicIndex
  | S n' =>
      let iCol := vget basicIndex (Z.of_nat n') 0 in
      shift_basic n' num_col ext_num_new_col
        (if num_col <=? iCol then vset basicIndex (Z.of_nat n') (iCol + ext_num_new_col)
         else basicIndex)
  end.

Definition shifted_index (num_col ext_num_new_col var : Z) : Z :=
  if num_col <=? var then var + ext_num_new_col else var.

Lemma shift_row_data_parts (n : nat) (num_col newNumCol ext : Z) (sb : SimplexBasis) :
  shift_row_data n num_col newNumCol ext sb =
  mkSimplexBasis (shift_basic n num_col ext (basicIndex_ sb))
                 (shift_up n num_col newNumCol 0 (nonbasicFlag_ sb))
                 (shift_up n num_col newNumCol 0 (nonbasicMove_ sb)).
Proof.
  revert sb. induction n as [|n IH]; intros sb; cbn [shift_row_data shift_basic shift_up].
  - destruct sb; reflexivity.
  - rewrite IH. reflexivity.
Qed.

Lemma vsize_shift_basic (n : nat) (num_col ext : Z) (bi : list Z) :
  vsize (shift_basic n num_col ext bi) = vsize bi.
Proof.
  revert bi. induction n as [|n IH]; intros bi; cbn [shift_basic]; [reflexivity|].
  rewrite IH. destruct (num_col <=? _); [apply vsize_vset | reflexivity].
Qed.

Lemma vget_shift_basic (n : nat) (num_col ext : Z) (bi : list Z) (j : Z) :
  Z.of_nat n <= vsize bi ->
  vget (shift_basic n num_col ext bi) j 0 =
  if (0 <=? j) && (j <? Z.of_nat n) then shifted_index num_col ext (vget bi j 0)
  else vget bi j 0.
Proof.
  revert bi. induction n as [|n IH]; intros bi Hn; cbn [shift_basic].
  - destruct (Z.leb_spec 0 j), (Z.ltb_spec j (Z.of_nat 0)); cbn; try reflexivity; lia.
  - assert (Hs : vsize (if num_col <=? vget bi (Z.of_nat n) 0
                        then vset bi (Z.of_nat n) (vget bi (Z.of_nat n) 0 + ext)
                        else bi) = vsize bi)
      by (destruct (num_col <=? _); [apply vsize_vset | reflexivity]).
    rewrite IH by lia.
    assert (Hj : vget (if num_col <=? vget bi (Z.of_nat n) 0
                       then vset bi (Z.of_nat n) (vget bi (Z.of_nat n) 0 + ext)
                       else bi) j 0 =
                 if j =? Z.of_nat n then shifted_index num_col ext (vget bi j 0)
                 else vget bi j 0).
    { unfold shifted_index.
      destruct (Z.eqb_spec j (Z.of_nat n)) as [->|Hne].
      - destruct (num_col <=? vget bi (Z.of_nat n) 0); [|reflexivity].
        rewrite vget_vset by lia. rewrite Z.eqb_refl. reflexivity.
      - destruct (num_col <=? vget bi (Z.of_nat n) 0); [|reflexivity].
        apply vget_vset_other. lia. }
    rewrite Hj.
    destruct (Z.leb_spec 0 j), (Z.ltb_spec j (Z.of_nat n)), (Z.ltb_spec j (Z.of_nat (S n))),
      (Z.eqb_spec j (Z.of_nat n)); cbn; try reflexivity; lia.
Qed.

Lemma shift_basic_map (num_col ext : Z) (bi : list Z) :
  shift_basic (List.length bi) num_col ext bi = map (shifted_index num_col ext) bi.
Proof.
  apply vget_ext with (d := 0).
  - rewrite vsize_shift_basic. unfold vsize. rewrite length_map. reflexivity.
  - intros i Hi. rewrite vsize_shift_basic in Hi.
    rewrite vget_shift_basic by (unfold vsize; lia).
    unfold vsize in Hi.
    destruct (Z.leb_spec 0 i), (Z.ltb_spec i (Z.of_nat (List.length bi))); cbn; try lia.
    unfold vget. destruct (Z.ltb_spec i 0); [lia|].
    rewrite (nth_indep (map (shifted_index num_col ext) bi) 0 (shifted_index num_col ext 0))
      by (rewrite length_map; lia).
    rewrite map_nth. reflexivity.
Qed.

Lemma nonbasic_new_cols_parts (n : nat) (iCol : Z) (lp : HighsLp) (has_simplex_basis : bool)
  (cs : list HighsBasisStatus.t) (sb : SimplexBasis) :
  nonbasic_new_cols n iCol lp has_simplex_basis (cs, sb) =
  (fill n iCol 0
        (fun i => fst (new_col_status_move (vget (col_lower_ lp) i 0%float)
                                           (vget (col_upper_ lp) i 0%float))) cs,
   if has_simplex_basis
   then mkSimplexBasis (basicIndex_ sb)
          (fill n iCol 0 (fun _ => kNonbasicFlagTrue) (nonbasicFlag_ sb))
          (fill n iCol 0
                (fun i => snd (new_col_status_move (vget (col_lower_ lp) i 0%float)
                                                   (vget (col_upper_ lp) i 0%float)))
                (nonbasicMove_ sb))
   else sb).
Proof.
  revert iCol cs sb. induction n as [|n IH]; intros iCol cs sb; cbn [nonbasic_new_cols fill].
  - destruct has_simplex_basis, sb; reflexivity.
  - destruct (new_col_status_move _ _) as [status move] eqn:E. cbn [fst snd].
    rewrite IH. destruct has_simplex_basis; reflexivity.
Qed.

(** A new column is never basic and never left at kNonbasic (the assert of
    line 1430), and its move is a legal one (the assert of line 1433). *)
Lemma new_col_status_move_nonbasic (lower upper : double) :
  let '(status, move) := new_col_status_move lower upper in
  is_basic status = false /\ status <> HighsBasisStatus.kNonbasic /\
  (move = kNonbasicMoveUp \/ move = kNonbasicMoveDn \/ move = kNonbasicMoveZe).
Proof.
  unfold new_col_status_move.
  destruct (lower =? upper)%float; [cbn; repeat split; try discriminate; auto|].
  destruct (highs_isInfinity (- lower)%float), (highs_isInfinity upper); cbn [negb];
    try destruct (abs lower <? abs upper)%float;
    cbn; repeat split; try discriminate; auto.
Qed.

(** A vector of [n0 + m] entries that grows by [k]: its last [m] entries
    are moved up by [shift_up] and the block in between is written by
    [fill]. *)
Lemma insert_block {A : Type} (v : list A) (n0 m k : Z) (d0 : A) (f : Z -> A) :
  vsize v = n0 + m -> 0 <= n0 -> 0 <= m -> 0 <= k ->
  fill (Z.to_nat k) n0 0 f
       (shift_up (Z.to_nat m) n0 (n0 + k) d0 (resize v (n0 + k + m) d0)) =
  firstn (Z.to_nat n0) v ++
  map (fun i => f (n0 + Z.of_nat i)) (seq 0 (Z.to_nat k)) ++
  skipn (Z.to_nat n0) v.
Proof.
  intros Hv Hn0 Hm Hk.
  assert (L1 : vsize (firstn (Z.to_nat n0) v) = n0)
    by (unfold vsize in *; rewrite length_firstn; lia).
  assert (L2 : vsize (map (fun i => f (n0 + Z.of_nat i)) (seq 0 (Z.to_nat k))) = k)
    by (unfold vsize; rewrite length_map, length_seq; lia).
  assert (L3 : vsize (skipn (Z.to_nat n0) v) = m)
    by (unfold vsize in *; rewrite length_skipn; lia).
  apply vget_ext with (d := d0).
  - rewrite vsize_fill, vsize_shift_up, vsize_resize by lia.
    rewrite !vsize_app, L1, L2, L3. lia.
  - intros j Hj. rewrite vsize_fill, vsize_shift_up, vsize_resize in Hj by lia.
    rewrite vget_fill by (rewrite ?vsize_shift_up, ?vsize_resize; lia).
    rewrite vget_shift_up by (rewrite ?vsize_resize; lia).
    cbn [Z.add].
    destruct (Z.leb_spec n0 j), (Z.ltb_spec j (n0 + Z.of_nat (Z.to_nat k))); cbn [andb].
    + rewrite vget_app2 by lia. rewrite L1. rewrite vget_app1 by lia.
      rewrite vget_map_seq by lia. f_equal. lia.
    + rewrite vget_app2 by lia. rewrite L1. rewrite vget_app2 by lia. rewrite L2.
      rewrite vget_skipn by lia.
      destruct (Z.leb_spec (n0 + k) j), (Z.ltb_spec j (n0 + k + Z.of_nat (Z.to_nat m)));
        cbn [andb]; try lia.
      rewrite vget_resize by lia.
      destruct (Z.ltb_spec (n0 + (j - (n0 + k))) (vsize v)); [|lia].
      f_equal. lia.
    + rewrite vget_app1 by lia. rewrite vget_firstn by lia.
      destruct (Z.leb_spec (n0 + k) j); cbn [andb]; [lia|].
      rewrite vget_resize by lia.
      destruct (Z.ltb_spec j (vsize v)); [reflexivity | lia].
    + lia.
Qed.

(** X3.  appendNonbasicColsToBasisInterface, for a useful basis whose
    column statuses match the LP: the statuses it had are kept and the new
    columns are appended with the status their bounds give, none of them
    basic, so the number of basic entries is as it was; in a simplex basis
    of matching size the entries of the new columns are inserted between those
    of the old columns and those of the rows, which keep their values, and a
    basic variable that is a row has its index moved up by the number of new
    columns. *)
Theorem appendNonbasicColsToBasisInterface_inserts (h : Highs) (ext_num_new_col : Z) :
  useful (basis_ h) = true ->
  0 < ext_num_new_col ->
  vsize (col_status (basis_ h)) = num_col_ (lp_ h) ->
  let h' := appendNonbasicColsToBasisInterface h ext_num_new_col in
  let k := Z.to_nat ext_num_new_col in
  let num_col := num_col_ (lp_ h) in
  let new_col i :=
    new_col_status_move (vget (col_lower_ (lp_ h)) (num_col + Z.of_nat i) 0%float)
                        (vget (col_upper_ (lp_ h)) (num_col + Z.of_nat i) 0%float) in
  let sb := ekk_basis_ (ekk_instance_ h) in
  let sb' := ekk_basis_ (ekk_instance_ h') in
  col_status (basis_ h') = col_status (basis_ h) ++ map (fun i => fst (new_col i)) (seq 0 k) /\
  row_status (basis_ h') = row_status (basis_ h) /\
  num_basic (basis_ h') = num_basic (basis_ h) /\
  lp_ h' = lp_ h /\
  (has_basis (status_ (ekk_instance_ h)) = false -> sb' = sb) /\
  (has_basis (status_ (ekk_instance_ h)) = true ->
   vsize (basicIndex_ sb) = num_row_ (lp_ h) ->
   vsize (nonbasicFlag_ sb) = num_col + num_row_ (lp_ h) ->
   vsize (nonbasicMove_ sb) = num_col + num_row_ (lp_ h) ->
   basicIndex_ sb' = map (shifted_index num_col ext_num_new_col) (basicIndex_ sb) /\
   nonbasicFlag_ sb' =
     firstn (Z.to_nat num_col) (nonbasicFlag_ sb) ++ repeat kNonbasicFlagTrue k ++
     skipn (Z.to_nat num_col) (nonbasicFlag_ sb) /\
   nonbasicMove_ sb' =
     firstn (Z.to_nat num_col) (nonbasicMove_ sb) ++ map (fun i => snd (new_col i)) (seq 0 k) ++
     skipn (Z.to_nat num_col) (nonbasicMove_ sb)).
Proof.
  intros Huseful Hext Hcols.
  pose proof (vsize_nonneg (col_status (basis_ h))) as Hn.
  cbv zeta. unfold appendNonbasicColsToBasisInterface.
  destruct (Z.eqb_spec ext_num_new_col 0) as [E|_]; [lia|].
  rewrite Huseful. cbn [negb].
  replace (num_col_ (lp_ h) + ext_num_new_col - num_col_ (lp_ h)) with ext_num_new_col
    by lia.
  rewrite nonbasic_new_cols_parts.
  unfold num_basic at 1.
  cbn [set_ekk_basis set_ekk set_basis set_col_status ekk_instance_ ekk_basis_ basis_
       row_status col_status lp_ status_].
  assert (Hcs :
    fill (Z.to_nat ext_num_new_col) (num_col_ (lp_ h)) 0
      (fun i => fst (new_col_status_move (vget (col_lower_ (lp_ h)) i 0%float)
                                         (vget (col_upper_ (lp_ h)) i 0%float)))
      (resize (col_status (basis_ h)) (num_col_ (lp_ h) + ext_num_new_col)
              HighsBasisStatus.kLower) =
    col_status (basis_ h) ++
    map (fun i =>
           fst (new_col_status_move
                  (vget (col_lower_ (lp_ h)) (num_col_ (lp_ h) + Z.of_nat i) 0%float)
                  (vget (col_upper_ (lp_ h)) (num_col_ (lp_ h) + Z.of_nat i) 0%float)))
        (seq 0 (Z.to_nat ext_num_new_col))).
  { pose proof (@fill_resize _ (col_status (basis_ h)) (num_col_ (lp_ h)) ext_num_new_col 0
                  HighsBasisStatus.kLower
                  (fun i => fst (new_col_status_move (vget (col_lower_ (lp_ h)) i 0%float)
                                                     (vget (col_upper_ (lp_ h)) i 0%float))))
      as F.
    cbn [Z.add] in F. apply F; lia. }
  rewrite Hcs. split; [reflexivity|]. split; [reflexivity|].
  split.
  { rewrite num_basic_entries_app.
    rewrite (@num_basic_entries_none (map _ _)); [unfold num_basic; lia|].
    intros s Hs. apply in_map_iff in Hs. destruct Hs as [i [<- _]].
    pose proof (new_col_status_move_nonbasic
                  (vget (col_lower_ (lp_ h)) (num_col_ (lp_ h) + Z.of_nat i) 0%float)
                  (vget (col_upper_ (lp_ h)) (num_col_ (lp_ h) + Z.of_nat i) 0%float)) as P.
    destruct (new_col_status_move _ _) as [status move]. apply P. }
  split; [reflexivity|].
  destruct (has_basis (status_ (ekk_instance_ h))) eqn:Hsb.
  - split; [discriminate|]. intros _ Hbi Hfl Hmv.
    pose proof (vsize_nonneg (basicIndex_ (ekk_basis_ (ekk_instance_ h)))) as Hm.
    rewrite shift_row_data_parts.
    cbn [basicIndex_ nonbasicFlag_ nonbasicMove_].
    split; [|split].
    + replace (Z.to_nat (num_row_ (lp_ h)))
        with (List.length (basicIndex_ (ekk_basis_ (ekk_instance_ h))))
        by (unfold vsize in Hbi; lia).
      apply shift_basic_map.
    + pose proof (@insert_block _ (nonbasicFlag_ (ekk_basis_ (ekk_instance_ h)))
                    (num_col_ (lp_ h)) (num_row_ (lp_ h)) ext_num_new_col 0
                    (fun _ => kNonbasicFlagTrue)) as F.
      cbv beta in F. rewrite map_const_seq in F. apply F; lia.
    + apply (@insert_block _ (nonbasicMove_ (ekk_basis_ (ekk_instance_ h)))
               (num_col_ (lp_ h)) (num_row_ (lp_ h)) ext_num_new_col 0
               (fun i => snd (new_col_status_move (vget (col_lower_ (lp_ h)) i 0%float)
                                                  (vget (col_upper_ (lp_ h)) i 0%float))));
        lia.
  - split; [|discriminate]. intros _. reflexivity.
Qed.

(** ** setNonbasicStatusInterface *)

(** Lines 1262-1299: the status and the move of the nonbasic column with
    status [status] and the bounds [lower] and [upper]. *)
Definition nonbasic_col_status_move (status : HighsBasisStatus.t) (lower upper : double)
  : HighsBasisStatus.t * Z :=
  if (lower =? upper)%float
  then
    ((if HighsBasisStatus.eqb status HighsBasisStatus.kNonbasic
      then HighsBasisStatus.kLower else status), kNonbasicMoveZe)
  else if negb (highs_isInfinity (- lower)%float)
  then
    (* Finite lower bound so boxed or lower *)
    if negb (highs_isInfinity upper)
    then
      (* Finite upper bound so boxed *)
      if HighsBasisStatus.eqb status HighsBasisStatus.kNonbasic
      then
        (* No definitive status, so set to bound nearer to zero *)
        if (abs lower <? abs upper)%float
        then (HighsBasisStatus.kLower, kNonbasicMoveUp)
        else (HighsBasisStatus.kUpper, kNonbasicMoveDn)
      else if HighsBasisStatus.eqb status HighsBasisStatus.kLower
      then (status, kNonbasicMoveUp)
      else (status, kNonbasicMoveDn)
    else (* Lower *) (HighsBasisStatus.kLower, kNonbasicMoveUp)
  else if negb (highs_isInfinity upper)
  then (* Upper *) (HighsBasisStatus.kUpper, kNonbasicMoveDn)
  else (* FREE *) (HighsBasisStatus.kZero, kNonbasicMoveZe).

(** Lines 1313-1350: the same for a row, whose moves are the other way
    round. *)
Definition nonbasic_row_status_move (status : HighsBasisStatus.t) (lower upper : double)
  : HighsBasisStatus.t * Z :=
  if (lower =? upper)%float
  then
    ((if HighsBasisStatus.eqb status HighsBasisStatus.kNonbasic
      then HighsBasisStatus.kLower else status), kNonbasicMoveZe)
  else if negb (highs_isInfinity (- lower)%float)
  then
    if negb (highs_isInfinity upper)
    then
      if HighsBasisStatus.eqb status HighsBasisStatus.kNonbasic
      then
        if (abs lower <? abs upper)%float
        then (HighsBasisStatus.kLower, kNonbasicMoveDn)
        else (HighsBasisStatus.kUpper, kNonbasicMoveUp)
      else if HighsBasisStatus.eqb status HighsBasisStatus.kLower
      then (status, kNonbasicMoveDn)
      else (status, kNonbasicMoveUp)
    else (HighsBasisStatus.kLower, kNonbasicMoveDn)
  else if negb (highs_isInfinity upper)
  then (HighsBasisStatus.kUpper, kNonbasicMoveUp)
  else (HighsBasisStatus.kZero, kNonbasicMoveZe).

(** The bodies of the loops of lines 1257-1306 (columns: [status_move] is
    [nonbasic_col_status_move], the bounds are the column bounds and [os] is
    0) and of lines 1308-1357 (rows: [nonbasic_row_status_move], the row
    bounds, and [os] is [lp.num_col_]), for the entry [ix]. *)
Definition set_nonbasic_entry
  (status_move : HighsBasisStatus.t -> double -> double -> HighsBasisStatus.t * Z)
  (lower upper : list double) (os : Z) (has_simplex_basis : bool)
  (st : list HighsBasisStatus.t * SimplexBasis) (ix : Z)
  : list HighsBasisStatus.t * SimplexBasis :=
  if is_basic (vget (fst st) ix HighsBasisStatus.kLower) then st (* continue *) else
  let '(status, move) :=
    status_move (vget (fst st) ix HighsBasisStatus.kLower)
                (vget lower ix 0%float) (vget upper ix 0%float) in
  (vset (fst st) ix status,
   if has_simplex_basis
   then mkSimplexBasis (basicIndex_ (snd st))
                       (vset (nonbasicFlag_ (snd st)) (os + ix) kNonbasicFlagTrue)
                       (vset (nonbasicMove_ (snd st)) (os + ix) move)
   else snd st).

(** [for (ix = set_from_ix; ix <= set_to_ix; ix++)], with [n] entries
    left. *)
Fixpoint set_nonbasic_entries
  (status_move : HighsBasisStatus.t -> double -> double -> HighsBasisStatus.t * Z)
  (lower upper : list double) (os : Z) (has_simplex_basis : bool)
  (n : nat) (ix : Z) (st : list HighsBasisStatus.t * SimplexBasis)
  : list HighsBasisStatus.t * SimplexBasis :=
  match n with
  | O => st
  | S n' =>
      set_nonbasic_entries status_move lower upper os has_simplex_basis n' (ix + 1)
        (set_nonbasic_entry status_move lower upper os has_simplex_basis st ix)
  end.

(** Lines 1256-1358: the columns or the rows from [set_from_ix] to
    [set_to_ix]. *)
Definition set_nonbasic_block (columns : bool) (lp : HighsLp) (has_simplex_basis : bool)
  (set_from_ix set_to_ix : Z) (st : HighsBasis * SimplexBasis) : HighsBasis * SimplexBasis :=
  if columns
  then
    let '(status, sb) :=
      set_nonbasic_entries nonbasic_col_status_move (col_lower_ lp) (col_upper_ lp) 0
        has_simplex_basis (turns set_from_ix set_to_ix) set_from_ix
        (col_status (fst st), snd st) in
    (set_col_status (fst st) status, sb)
  else
    let '(status, sb) :=
      set_nonbasic_entries nonbasic_row_status_move (row_lower_ lp) (row_upper_ lp)
        (num_col_ lp) has_simplex_basis (turns set_from_ix set_to_ix) set_from_ix
        (row_status (fst st), snd st) in
    (set_row_status (fst st) status, sb).

(** [for (k = from_k; k <= to_k; k++)], lines 1251-1360, with [n] turns
    left.  The entries to set are those that updateOutInIndex gives as its
    first block, the entries to ignore are its second block. *)
Fixpoint setNonbasicStatus_loop (n : nat) (ic : HighsIndexCollection) (columns : bool)
  (ix_dim : Z) (lp : HighsLp) (has_simplex_basis : bool) (o : OutIn)
  (st : HighsBasis * SimplexBasis) : HighsBasis * SimplexBasis :=
  match n with
  | O => st
  | S n' =>
      let o := updateOutInIndex ic o in
      let st :=
        set_nonbasic_block columns lp has_simplex_basis
                           (delete_from_entry o) (delete_to_entry o) st in
      if ix_dim - 1 <=? keep_to_entry o then st (* break *) else
      setNonbasicStatus_loop n' ic columns ix_dim lp has_simplex_basis o st
  end.

(** [Highs::setNonbasicStatusInterface], lines 1221-1361. *)
Definition setNonbasicStatusInterface (h : Highs) (ic : HighsIndexCollection)
  (columns : bool) : Highs :=
  if negb (valid (basis_ h)) then h else
  let has_simplex_basis := has_basis (status_ (ekk_instance_ h)) in
  let lp := lp_ h in
  let '(from_k, to_k) := limits ic in
  let ix_dim := if columns then num_col_ lp else num_row_ lp in
  let o := mkOutIn 0 0 0 (-1) 0 in
  let '(b, sb) :=
    setNonbasicStatus_loop (turns from_k to_k) ic columns ix_dim lp has_simplex_basis o
                           (basis_ h, ekk_basis_ (ekk_instance_ h)) in
  set_ekk_basis (set_basis h b) sb.

(** *** Properties *)

(** What [status_move] has to satisfy: lines 1262-1299 and 1313-1350 both
    do. *)
Record status_move_ok
  (status_move : HighsBasisStatus.t -> double -> double -> HighsBasisStatus.t * Z)
  : Prop := {
  (** a nonbasic entry stays nonbasic *)
  sm_nonbasic : forall s l u, is_basic s = false -> is_basic (fst (status_move s l u)) = false;
  (** the status set is a definitive one *)
  sm_definitive : forall s l u,
      is_basic s = false -> fst (status_move s l u) <> HighsBasisStatus.kNonbasic;
  (** a definitive status is changed only for one that the bounds force *)
  sm_idempotent : forall s l u,
      is_basic s = false ->
      status_move (fst (status_move s l u)) l u = status_move s l u;
  (** the move is a legal one *)
  sm_move : forall s l u,
      is_basic s = false ->
      let m := snd (status_move s l u) in
      m = kNonbasicMoveUp \/ m = kNonbasicMoveDn \/ m = kNonbasicMoveZe
}.

Lemma nonbasic_col_status_move_ok : status_move_ok nonbasic_col_status_move.
Proof.
  constructor; intros s l u Hs; unfold nonbasic_col_status_move;
    destruct (l =? u)%float, (highs_isInfinity (- l)%float), (highs_isInfinity u),
      (abs l <? abs u)%float, s; cbn in *; try discriminate; auto.
Qed.

Lemma nonbasic_row_status_move_ok : status_move_ok nonbasic_row_status_move.
Proof.
  constructor; intros s l u Hs; unfold nonbasic_row_status_move;
    destruct (l =? u)%float, (highs_isInfinity (- l)%float), (highs_isInfinity u),
      (abs l <? abs u)%float, s; cbn in *; try discriminate; auto.
Qed.

(** The move of a row is the move of a column with the same status and
    bounds, the other way round. *)
Lemma nonbasic_row_status_move_col (s : HighsBasisStatus.t) (l u : double) :
  nonbasic_row_status_move s l u =
  (fst (nonbasic_col_status_move s l u), - snd (nonbasic_col_status_move s l u)).
Proof.
  unfold nonbasic_row_status_move, nonbasic_col_status_move.
  destruct (l =? u)%float, (highs_isInfinity (- l)%float), (highs_isInfinity u),
    (abs l <? abs u)%float, s; reflexivity.
Qed.

(** **** One block of entries *)

Section SetNonbasicEntries.

Variable status_move : HighsBasisStatus.t -> double -> double -> HighsBasisStatus.t * Z.
Hypothesis status_move_is_ok : status_move_ok status_move.
Variables (lower upper : list double) (os : Z) (has_simplex_basis : bool).

(** The status and the move that the loop body computes for entry [j] of
    [cs]. *)
Definition set_status (cs : list HighsBasisStatus.t) (j : Z) : HighsBasisStatus.t :=
  fst (status_move (vget cs j HighsBasisStatus.kLower)
                   (vget lower j 0%float) (vget upper j 0%float)).

Definition set_move (cs : list HighsBasisStatus.t) (j : Z) : Z :=
  snd (status_move (vget cs j HighsBasisStatus.kLower)
                   (vget lower j 0%float) (vget upper j 0%float)).

(** Whether entry [j] is one of the [n] entries from [ix] on and nonbasic
    in [cs]. *)
Definition is_set (cs : list HighsBasisStatus.t) (ix : Z) (n : nat) (j : Z) : bool :=
  (ix <=? j) && (j <? ix + Z.of_nat n) &&
  negb (is_basic (vget cs j HighsBasisStatus.kLower)).

Lemma set_nonbasic_entry_spec (st : list HighsBasisStatus.t * SimplexBasis) (ix : Z) :
  0 <= ix < vsize (fst st) -> 0 <= os ->
  (has_simplex_basis = true ->
   os + vsize (fst st) <= vsize (nonbasicFlag_ (snd st)) /\
   os + vsize (fst st) <= vsize (nonbasicMove_ (snd st))) ->
  let st' := set_nonbasic_entry status_move lower upper os has_simplex_basis st ix in
  vsize (fst st') = vsize (fst st) /\
  (forall j, vget (fst st') j HighsBasisStatus.kLower =
             if is_set (fst st) ix 1 j then set_status (fst st) j
             else vget (fst st) j HighsBasisStatus.kLower) /\
  basicIndex_ (snd st') = basicIndex_ (snd st) /\
  (has_simplex_basis = false -> snd st' = snd st) /\
  (has_simplex_basis = true ->
   vsize (nonbasicFlag_ (snd st')) = vsize (nonbasicFlag_ (snd st)) /\
   vsize (nonbasicMove_ (snd st')) = vsize (nonbasicMove_ (snd st)) /\
   forall p,
     vget (nonbasicFlag_ (snd st')) p 0 =
       (if is_set (fst st) ix 1 (p - os) then kNonbasicFlagTrue
        else vget (nonbasicFlag_ (snd st)) p 0) /\
     vget (nonbasicMove_ (snd st')) p 0 =
       (if is_set (fst st) ix 1 (p - os) then set_move (fst st) (p - os)
        else vget (nonbasicMove_ (snd st)) p 0)).
Proof.
  intros Hix Hos Hsz. cbv zeta. unfold set_nonbasic_entry, is_set, set_status, set_move.
  destruct (is_basic (vget (fst st) ix HighsBasisStatus.kLower)) eqn:Eb.
  - split; [reflexivity|]. split.
    { intros j.
      destruct (Z.leb_spec ix j), (Z.ltb_spec j (ix + Z.of_nat 1)); cbn [andb]; try reflexivity.
      replace j with ix by lia. rewrite Eb. reflexivity. }
    split; [reflexivity|]. split; [reflexivity|].
    intros _. split; [reflexivity|]. split; [reflexivity|]. intros p.
    destruct (Z.leb_spec ix (p - os)), (Z.ltb_spec (p - os) (ix + Z.of_nat 1)); cbn [andb];
      try (split; reflexivity).
    replace (p - os) with ix by lia. rewrite Eb. split; reflexivity.
  - destruct (status_move _ _ _) as [status move] eqn:Esm. cbn [fst snd].
    split; [apply vsize_vset|]. split.
    { intros j. rewrite vget_vset by lia.
      destruct (Z.eqb_spec j ix) as [->|Hne].
      - rewrite Z.leb_refl. destruct (Z.ltb_spec ix (ix + Z.of_nat 1)); [|lia].
        rewrite Eb, Esm. reflexivity.
      - destruct (Z.leb_spec ix j), (Z.ltb_spec j (ix + Z.of_nat 1)); cbn [andb];
          try reflexivity; lia. }
    destruct has_simplex_basis.
    + cbn [basicIndex_ nonbasicFlag_ nonbasicMove_].
      split; [reflexivity|]. split; [discriminate|]. intros _.
      destruct (Hsz eq_refl) as [Hf Hm].
      split; [apply vsize_vset|]. split; [apply vsize_vset|]. intros p.
      rewrite !vget_vset by lia.
      destruct (Z.eqb_spec p (os + ix)) as [->|Hne].
      * replace (os + ix - os) with ix by lia.
        rewrite Z.leb_refl. destruct (Z.ltb_spec ix (ix + Z.of_nat 1)); [|lia].
        rewrite Eb, Esm. split; reflexivity.
      * destruct (Z.leb_spec ix (p - os)), (Z.ltb_spec (p - os) (ix + Z.of_nat 1));
          cbn [andb]; try (split; reflexivity); lia.
    + split; [reflexivity|]. split; [reflexivity | discriminate].
Qed.

Lemma set_nonbasic_entries_spec (n : nat) (ix : Z)
  (st : list HighsBasisStatus.t * SimplexBasis) :
  0 <= ix -> ix + Z.of_nat n <= vsize (fst st) -> 0 <= os ->
  (has_simplex_basis = true ->
   os + vsize (fst st) <= vsize (nonbasicFlag_ (snd st)) /\
   os + vsize (fst st) <= vsize (nonbasicMove_ (snd st))) ->
  let st' := set_nonbasic_entries status_move lower upper os has_simplex_basis n ix st in
  vsize (fst st') = vsize (fst st) /\
  (forall j, vget (fst st') j HighsBasisStatus.kLower =
             if is_set (fst st) ix n j then set_status (fst st) j
             else vget (fst st) j HighsBasisStatus.kLower) /\
  basicIndex_ (snd st') = basicIndex_ (snd st) /\
  (has_simplex_basis = false -> snd st' = snd st) /\
  (has_simplex_basis = true ->
   vsize (nonbasicFlag_ (snd st')) = vsize (nonbasicFlag_ (snd st)) /\
   vsize (nonbasicMove_ (snd st')) = vsize (nonbasicMove_ (snd st)) /\
   forall p,
     vget (nonbasicFlag_ (snd st')) p 0 =
       (if is_set (fst st) ix n (p - os) then kNonbasicFlagTrue
        else vget (nonbasicFlag_ (snd st)) p 0) /\
     vget (nonbasicMove_ (snd st')) p 0 =
       (if is_set (fst st) ix n (p - os) then set_move (fst st) (p - os)
        else vget (nonbasicMove_ (snd st)) p 0)).
Proof.
  revert ix st. induction n as [|n IH]; intros ix st Hix Hn Hos Hsz; cbv zeta.
  - cbn [set_nonbasic_entries]. unfold is_set.
    assert (E : forall j, (ix <=? j) && (j <? ix + Z.of_nat 0) = false)
      by (intros j; destruct (Z.leb_spec ix j), (Z.ltb_spec j (ix + Z.of_nat 0));
          cbn; try reflexivity; lia).
    split; [reflexivity|]. split; [intros j; rewrite E; reflexivity|].
    split; [reflexivity|]. split; [reflexivity|].
    intros _. split; [reflexivity|]. split; [reflexivity|].
    intros p. rewrite E. split; reflexivity.
  - cbn [set_nonbasic_entries].
    pose proof (@set_nonbasic_entry_spec st ix ltac:(lia) Hos Hsz) as H1. cbv zeta in H1.
    set (st1 := set_nonbasic_entry status_move lower upper os has_simplex_basis st ix) in *.
    destruct H1 as (S1 & V1 & B1 & N1 & X1).
    assert (Hsz1 : has_simplex_basis = true ->
                   os + vsize (fst st1) <= vsize (nonbasicFlag_ (snd st1)) /\
                   os + vsize (fst st1) <= vsize (nonbasicMove_ (snd st1))).
    { intros Hh. destruct (X1 Hh) as (F1 & M1 & _). destruct (Hsz Hh).
      rewrite S1, F1, M1. split; assumption. }
    pose proof (@IH (ix + 1) st1 ltac:(lia) ltac:(rewrite S1; lia) Hos Hsz1) as H2.
    cbv zeta in H2.
    set (st2 := set_nonbasic_entries status_move lower upper os has_simplex_basis n
                                     (ix + 1) st1) in *.
    destruct H2 as (S2 & V2 & B2 & N2 & X2).
    (* the entries other than [ix] are as they were after the first turn *)
    assert (Hother : forall j, j <> ix ->
              vget (fst st1) j HighsBasisStatus.kLower =
              vget (fst st) j HighsBasisStatus.kLower).
    { intros j Hj. rewrite V1. unfold is_set.
      destruct (Z.leb_spec ix j), (Z.ltb_spec j (ix + Z.of_nat 1)); cbn [andb];
        try reflexivity; lia. }
    assert (Hset : forall j, j <> ix ->
              is_set (fst st1) (ix + 1) n j = is_set (fst st) ix (S n) j).
    { intros j Hj. unfold is_set. rewrite (Hother j Hj).
      destruct (Z.leb_spec (ix + 1) j), (Z.ltb_spec j (ix + 1 + Z.of_nat n)),
        (Z.leb_spec ix j), (Z.ltb_spec j (ix + Z.of_nat (S n))); cbn [andb];
        try reflexivity; lia. }
    assert (Hix1 : forall cs, is_set cs (ix + 1) n ix = false).
    { intros cs. unfold is_set. destruct (Z.leb_spec (ix + 1) ix); [lia | reflexivity]. }
    assert (Hix2 : forall cs, is_set cs ix (S n) ix = is_set cs ix 1 ix).
    { intros cs. unfold is_set. rewrite Z.leb_refl.
      destruct (Z.ltb_spec ix (ix + Z.of_nat (S n))), (Z.ltb_spec ix (ix + Z.of_nat 1));
        try reflexivity; lia. }
    split; [rewrite S2; exact S1|]. split.
    { intros j. rewrite V2. destruct (Z.eq_dec j ix) as [->|Hne].
      - rewrite Hix1, Hix2. apply V1.
      - rewrite (Hset j Hne). unfold set_status. rewrite (Hother j Hne). reflexivity. }
    split; [rewrite B2; exact B1|].
    split; [intros Hh; rewrite (N2 Hh); exact (N1 Hh)|].
    intros Hh. destruct (X1 Hh) as (F1 & M1 & P1). destruct (X2 Hh) as (F2 & M2 & P2).
    split; [rewrite F2; exact F1|]. split; [rewrite M2; exact M1|].
    intros p. destruct (P2 p) as [Pf Pm]. destruct (P1 p) as [Qf Qm]. rewrite Pf, Pm.
    destruct (Z.eq_dec (p - os) ix) as [E|Hne].
    + rewrite E in *. rewrite Hix1, Hix2. split; assumption.
    + rewrite (Hset _ Hne). unfold set_move. rewrite (Hother _ Hne).
      rewrite Qf, Qm.
      assert (E1 : is_set (fst st) ix 1 (p - os) = false).
      { unfold is_set. destruct (Z.leb_spec ix (p - os)),
          (Z.ltb_spec (p - os) (ix + Z.of_nat 1)); cbn [andb]; try reflexivity; lia. }
      rewrite E1. split; reflexivity.
Qed.

(** Setting a block of entries again changes nothing. *)
Lemma is_set_again (cs cs' : list HighsBasisStatus.t) (ix : Z) (n : nat) :
  (forall j, vget cs' j HighsBasisStatus.kLower =
             if is_set cs ix n j then set_status cs j
             else vget cs j HighsBasisStatus.kLower) ->
  forall j,
    is_set cs' ix n j = is_set cs ix n j /\
    (is_set cs ix n j = true ->
     set_status cs' j = set_status cs j /\ set_move cs' j = set_move cs j).
Proof.
  intros H j. specialize (H j). unfold is_set in *.
  destruct ((ix <=? j) && (j <? ix + Z.of_nat n)); cbn [andb] in *;
    [|split; [reflexivity | discriminate]].
  destruct (is_basic (vget cs j HighsBasisStatus.kLower)) eqn:Eb; cbn [negb] in *.
  - rewrite H, Eb. split; [reflexivity | discriminate].
  - rewrite H. unfold set_status at 1.
    rewrite (sm_nonbasic status_move_is_ok _ _ _ Eb). split; [reflexivity|]. intros _.
    unfold set_status, set_move. rewrite H. unfold set_status.
    rewrite (sm_idempotent status_move_is_ok _ _ _ Eb). split; reflexivity.
Qed.

End SetNonbasicEntries.

(** **** The partition into basic and nonbasic entries *)

Lemma upd_nat_out {A : Type} (v : list A) (n : nat) (x : A) :
  (List.length v <= n)%nat -> upd_nat v n x = v.
Proof.
  revert n. induction v as [|a v IH]; intros n H; [reflexivity|].
  destruct n as [|n]; cbn in *; [lia|]. f_equal. apply IH. lia.
Qed.

Lemma vset_out {A : Type} (v : list A) (i : Z) (x : A) :
  ~ (0 <= i < vsize v) -> vset v i x = v.
Proof.
  unfold vset, vsize. intros H. destruct (Z.ltb_spec i 0); [reflexivity|].
  apply upd_nat_out. lia.
Qed.

Lemma map_vset_same {A B : Type} (f : A -> B) (v : list A) (i : Z) (x d : A) :
  f x = f (vget v i d) -> map f (vset v i x) = map f v.
Proof.
  intros H. destruct (Z.le_gt_cases 0 i) as [H0|H0];
    [destruct (Z.lt_ge_cases i (vsize v)) as [H1|H1]|].
  - apply vget_ext with (d := f d).
    + unfold vsize. rewrite !length_map. apply (vsize_vset v i x).
    + intros j Hj. unfold vsize in Hj. rewrite length_map in Hj.
      pose proof (vsize_vset v i x) as Hs. unfold vsize in Hs.
      rewrite !vget_map by (unfold vsize; lia).
      rewrite vget_vset by lia.
      destruct (Z.eqb_spec j i) as [->|_]; [exact H | reflexivity].
  - rewrite vset_out by lia. reflexivity.
  - rewrite vset_out by lia. reflexivity.
Qed.

Lemma vget_vset_cases {A : Type} (v : list A) (i j : Z) (x d : A) :
  vget (vset v i x) j d = x \/ vget (vset v i x) j d = vget v j d.
Proof.
  destruct (Z.le_gt_cases 0 i) as [H0|H0];
    [destruct (Z.lt_ge_cases i (vsize v)) as [H1|H1]|].
  - rewrite vget_vset by lia. destruct (j =? i); auto.
  - rewrite vset_out by lia. auto.
  - rewrite vset_out by lia. auto.
Qed.

(** [cs'] has its basic entries where [cs] has them, and no entry of it has
    lost a definitive status. *)
Definition keeps_partition (cs cs' : list HighsBasisStatus.t) : Prop :=
  map is_basic cs' = map is_basic cs /\
  (forall j, vget cs' j HighsBasisStatus.kLower = HighsBasisStatus.kNonbasic ->
             vget cs j HighsBasisStatus.kLower = HighsBasisStatus.kNonbasic).

Lemma keeps_partition_refl (cs : list HighsBasisStatus.t) : keeps_partition cs cs.
Proof. split; auto. Qed.

Lemma keeps_partition_trans (a b c : list HighsBasisStatus.t) :
  keeps_partition a b -> keeps_partition b c -> keeps_partition a c.
Proof.
  intros [M1 N1] [M2 N2]. split; [rewrite M2; exact M1 | auto].
Qed.

Section KeepsPartition.

Variable status_move : HighsBasisStatus.t -> double -> double -> HighsBasisStatus.t * Z.
Hypothesis status_move_is_ok : status_move_ok status_move.
Variables (lower upper : list double) (os : Z) (has_simplex_basis : bool).

Lemma set_nonbasic_entry_partition (st : list HighsBasisStatus.t * SimplexBasis) (ix : Z) :
  let st' := set_nonbasic_entry status_move lower upper os has_simplex_basis st ix in
  keeps_partition (fst st) (fst st') /\ basicIndex_ (snd st') = basicIndex_ (snd st).
Proof.
  cbv zeta. unfold set_nonbasic_entry.
  destruct (is_basic (vget (fst st) ix HighsBasisStatus.kLower)) eqn:Eb;
    [split; [apply keeps_partition_refl | reflexivity]|].
  pose proof (sm_nonbasic status_move_is_ok _ (vget lower ix 0%float)
                          (vget upper ix 0%float) Eb) as Hnb.
  pose proof (sm_definitive status_move_is_ok _ (vget lower ix 0%float)
                            (vget upper ix 0%float) Eb) as Hdef.
  destruct (status_move _ _ _) as [status move]. cbn [fst snd] in *.
  split; [|destruct has_simplex_basis; reflexivity].
  split.
  - apply map_vset_same with (d := HighsBasisStatus.kLower). rewrite Hnb, Eb. reflexivity.
  - intros j Hj.
    destruct (vget_vset_cases (fst st) ix j status HighsBasisStatus.kLower) as [E|E];
      rewrite E in Hj; [contradiction | exact Hj].
Qed.

Lemma set_nonbasic_entries_partition (n : nat) (ix : Z)
  (st : list HighsBasisStatus.t * SimplexBasis) :
  let st' := set_nonbasic_entries status_move lower upper os has_simplex_basis n ix st in
  keeps_partition (fst st) (fst st') /\ basicIndex_ (snd st') = basicIndex_ (snd st).
Proof.
  revert ix st. induction n as [|n IH]; intros ix st; cbn [set_nonbasic_entries].
  - split; [apply keeps_partition_refl | reflexivity].
  - destruct (set_nonbasic_entry_partition st ix) as [P1 B1].
    destruct (IH (ix + 1)
                 (set_nonbasic_entry status_move lower upper os has_simplex_basis st ix))
      as [P2 B2].
    split; [eapply keeps_partition_trans; eassumption | rewrite B2; exact B1].
Qed.

End KeepsPartition.

(** The basis and the simplex basis [st'] against [st]. *)
Record basis_partition_kept (st st' : HighsBasis * SimplexBasis) : Prop := {
  bp_col : keeps_partition (col_status (fst st)) (col_status (fst st'));
  bp_row : keeps_partition (row_status (fst st)) (row_status (fst st'));
  bp_valid : valid (fst st') = valid (fst st);
  bp_basicIndex : basicIndex_ (snd st') = basicIndex_ (snd st)
}.

Lemma basis_partition_kept_refl (st : HighsBasis * SimplexBasis) : basis_partition_kept st st.
Proof. constructor; try reflexivity; apply keeps_partition_refl. Qed.

Lemma basis_partition_kept_trans (a b c : HighsBasis * SimplexBasis) :
  basis_partition_kept a b -> basis_partition_kept b c -> basis_partition_kept a c.
Proof.
  intros [C1 R1 V1 B1] [C2 R2 V2 B2].
  constructor; try (eapply keeps_partition_trans; eassumption); congruence.
Qed.

Lemma set_nonbasic_block_partition (columns : bool) (lp : HighsLp) (has_simplex_basis : bool)
  (set_from_ix set_to_ix : Z) (st : HighsBasis * SimplexBasis) :
  basis_partition_kept st
    (set_nonbasic_block columns lp has_simplex_basis set_from_ix set_to_ix st).
Proof.
  unfold set_nonbasic_block. destruct columns.
  - pose proof (@set_nonbasic_entries_partition _ nonbasic_col_status_move_ok
                  (col_lower_ lp) (col_upper_ lp) 0 has_simplex_basis
                  (turns set_from_ix set_to_ix) set_from_ix (col_status (fst st), snd st))
      as [P B].
    destruct (set_nonbasic_entries _ _ _ _ _ _ _ _) as [status sb]. cbn [fst snd] in *.
    constructor; cbn; auto. apply keeps_partition_refl.
  - pose proof (@set_nonbasic_entries_partition _ nonbasic_row_status_move_ok
                  (row_lower_ lp) (row_upper_ lp) (num_col_ lp) has_simplex_basis
                  (turns set_from_ix set_to_ix) set_from_ix (row_status (fst st), snd st))
      as [P B].
    destruct (set_nonbasic_entries _ _ _ _ _ _ _ _) as [status sb]. cbn [fst snd] in *.
    constructor; cbn; auto. apply keeps_partition_refl.
Qed.

Lemma setNonbasicStatus_loop_partition (n : nat) (ic : HighsIndexCollection)
  (columns : bool) (ix_dim : Z) (lp : HighsLp) (has_simplex_basis : bool) (o : OutIn)
  (st : HighsBasis * SimplexBasis) :
  basis_partition_kept st
    (setNonbasicStatus_loop n ic columns ix_dim lp has_simplex_basis o st).
Proof.
  revert o st. induction n as [|n IH]; intros o st; cbn [setNonbasicStatus_loop].
  - apply basis_partition_kept_refl.
  - pose proof (set_nonbasic_block_partition columns lp has_simplex_basis
                  (delete_from_entry (updateOutInIndex ic o))
                  (delete_to_entry (updateOutInIndex ic o)) st) as H1.
    destruct (ix_dim - 1 <=? keep_to_entry (updateOutInIndex ic o)); [exact H1|].
    eapply basis_partition_kept_trans; [exact H1 | apply IH].
Qed.

(** X4.  setNonbasicStatusInterface, for an interval, a set or a mask of
    columns or of rows: an entry is basic afterwards exactly when it was
    before, a status that was definitive is not replaced by kNonbasic, the
    basic variables of the simplex basis and the LP are as they were, and
    without a valid basis nothing is changed at all. *)
Theorem setNonbasicStatusInterface_keeps_partition (h : Highs) (ic : HighsIndexCollection)
  (columns : bool) :
  let h' := setNonbasicStatusInterface h ic columns in
  keeps_partition (col_status (basis_ h)) (col_status (basis_ h')) /\
  keeps_partition (row_status (basis_ h)) (row_status (basis_ h')) /\
  num_basic (basis_ h') = num_basic (basis_ h) /\
  basicIndex_ (ekk_basis_ (ekk_instance_ h')) = basicIndex_ (ekk_basis_ (ekk_instance_ h)) /\
  lp_ h' = lp_ h /\
  (valid (basis_ h) = false -> h' = h).
Proof.
  cbv zeta. unfold setNonbasicStatusInterface.
  destruct (valid (basis_ h)) eqn:Ev; cbn [negb].
  - destruct (limits ic) as [from_k to_k].
    pose proof (setNonbasicStatus_loop_partition (turns from_k to_k) ic columns
                  (if columns then num_col_ (lp_ h) else num_row_ (lp_ h)) (lp_ h)
                  (has_basis (status_ (ekk_instance_ h))) (mkOutIn 0 0 0 (-1) 0)
                  (basis_ h, ekk_basis_ (ekk_instance_ h))) as [C R V B].
    destruct (setNonbasicStatus_loop _ _ _ _ _ _ _ _) as [b sb]. cbn [fst snd] in *.
    cbn [set_ekk_basis set_ekk set_basis ekk_instance_ ekk_basis_ basis_ lp_].
    repeat split; try apply C; try apply R; try exact B; try discriminate.
    unfold num_basic, num_basic_entries.
    destruct C as [C _], R as [R _].
    assert (L : forall a b : list HighsBasisStatus.t,
              map is_basic a = map is_basic b ->
              List.length (filter is_basic a) = List.length (filter is_basic b)).
    { induction a as [|x a IHa]; intros [|y b'] E; cbn in E; try discriminate; [reflexivity|].
      injection E as E1 E2. cbn [filter]. rewrite E1.
      destruct (is_basic y); cbn [List.length]; rewrite (IHa b' E2); reflexivity. }
    rewrite (L _ _ C), (L _ _ R). reflexivity.
  - repeat split; try apply keeps_partition_refl; reflexivity.
Qed.

(** **** An interval of entries *)

Definition sel_status (columns : bool) (b : HighsBasis) : list HighsBasisStatus.t :=
  if columns then col_status b else row_status b.

Definition sel_status_move (columns : bool)
  : HighsBasisStatus.t -> double -> double -> HighsBasisStatus.t * Z :=
  if columns then nonbasic_col_status_move else nonbasic_row_status_move.

Definition sel_lower (columns : bool) (lp : HighsLp) : list double :=
  if columns then col_lower_ lp else row_lower_ lp.

Definition sel_upper (columns : bool) (lp : HighsLp) : list double :=
  if columns then col_upper_ lp else row_upper_ lp.

(** Where the entries of the columns (of the rows) start in the simplex
    basis. *)
Definition sel_offset (columns : bool) (lp : HighsLp) : Z :=
  if columns then 0 else num_col_ lp.

Lemma sel_status_move_ok (columns : bool) : status_move_ok (sel_status_move columns).
Proof.
  destruct columns; [apply nonbasic_col_status_move_ok | apply nonbasic_row_status_move_ok].
Qed.

Lemma set_nonbasic_block_sel (columns : bool) (lp : HighsLp) (has_simplex_basis : bool)
  (a b : Z) (st : HighsBasis * SimplexBasis) :
  let r := set_nonbasic_entries (sel_status_move columns) (sel_lower columns lp)
             (sel_upper columns lp) (sel_offset columns lp) has_simplex_basis
             (turns a b) a (sel_status columns (fst st), snd st) in
  let st' := set_nonbasic_block columns lp has_simplex_basis a b st in
  sel_status columns (fst st') = fst r /\
  sel_status (negb columns) (fst st') = sel_status (negb columns) (fst st) /\
  snd st' = snd r.
Proof.
  cbv zeta. unfold set_nonbasic_block.
  destruct columns; cbn [sel_status sel_status_move sel_lower sel_upper sel_offset negb];
    destruct (set_nonbasic_entries _ _ _ _ _ _ _ _) as [status sb]; cbn; auto.
Qed.

Section Interval.

Variables (columns : bool) (lp : HighsLp) (has_simplex_basis : bool).
Variables (from to : Z) (st0 : HighsBasis * SimplexBasis).

Let cs0 := sel_status columns (fst st0).
Let sm := sel_status_move columns.
Let lo := sel_lower columns lp.
Let up := sel_upper columns lp.
Let os := sel_offset columns lp.

Hypothesis from_nonneg : 0 <= from.
Hypothesis from_le_to : from <= to.
Hypothesis to_lt_size : to < vsize cs0.
Hypothesis os_nonneg : 0 <= os.
Hypothesis simplex_sizes :
  has_simplex_basis = true ->
  os + vsize cs0 <= vsize (nonbasicFlag_ (snd st0)) /\
  os + vsize cs0 <= vsize (nonbasicMove_ (snd st0)).

(** The entries from [from] to [to] of [st0] have been set. *)
Record interval_done (st : HighsBasis * SimplexBasis) : Prop := {
  id_size : vsize (sel_status columns (fst st)) = vsize cs0;
  id_status : forall j,
      vget (sel_status columns (fst st)) j HighsBasisStatus.kLower =
      if is_set cs0 from (turns from to) j then set_status sm lo up cs0 j
      else vget cs0 j HighsBasisStatus.kLower;
  id_other : sel_status (negb columns) (fst st) = sel_status (negb columns) (fst st0);
  id_no_simplex : has_simplex_basis = false -> snd st = snd st0;
  id_simplex : has_simplex_basis = true ->
      vsize (nonbasicFlag_ (snd st)) = vsize (nonbasicFlag_ (snd st0)) /\
      vsize (nonbasicMove_ (snd st)) = vsize (nonbasicMove_ (snd st0)) /\
      forall p,
        vget (nonbasicFlag_ (snd st)) p 0 =
          (if is_set cs0 from (turns from to) (p - os) then kNonbasicFlagTrue
           else vget (nonbasicFlag_ (snd st0)) p 0) /\
        vget (nonbasicMove_ (snd st)) p 0 =
          (if is_set cs0 from (turns from to) (p - os) then set_move sm lo up cs0 (p - os)
           else vget (nonbasicMove_ (snd st0)) p 0)
}.

Lemma turns_end : from + Z.of_nat (turns from to) = to + 1.
Proof. unfold turns. lia. Qed.

Lemma interval_first : interval_done (set_nonbasic_block columns lp has_simplex_basis from to st0).
Proof.
  pose proof (set_nonbasic_block_sel columns lp has_simplex_basis from to st0) as H.
  cbv zeta in H. destruct H as (Hs & Ho & Hb).
  pose proof (@set_nonbasic_entries_spec sm lo up os has_simplex_basis (turns from to) from
                (cs0, snd st0) from_nonneg
                ltac:(cbn [fst]; rewrite turns_end; lia) os_nonneg simplex_sizes) as H.
  cbv zeta in H. cbn [fst snd] in H. destruct H as (S1 & V1 & _ & N1 & X1).
  constructor.
  - rewrite Hs. exact S1.
  - intros j. rewrite Hs. apply V1.
  - exact Ho.
  - intros Hh. rewrite Hb. apply N1. exact Hh.
  - intros Hh. rewrite Hb. apply X1. exact Hh.
Qed.

Lemma interval_again (st : HighsBasis * SimplexBasis) :
  interval_done st ->
  interval_done (set_nonbasic_block columns lp has_simplex_basis from to st).
Proof.
  intros [S0 V0 O0 N0 X0].
  pose proof (set_nonbasic_block_sel columns lp has_simplex_basis from to st) as H.
  cbv zeta in H. destruct H as (Hs & Ho & Hb).
  assert (Hsz : has_simplex_basis = true ->
                os + vsize (sel_status columns (fst st)) <= vsize (nonbasicFlag_ (snd st)) /\
                os + vsize (sel_status columns (fst st)) <= vsize (nonbasicMove_ (snd st))).
  { intros Hh. destruct (X0 Hh) as (F & M & _). destruct (simplex_sizes Hh).
    rewrite S0, F, M. split; assumption. }
  pose proof (@set_nonbasic_entries_spec sm lo up os has_simplex_basis (turns from to) from
                (sel_status columns (fst st), snd st) from_nonneg
                ltac:(cbn [fst]; rewrite turns_end, S0; lia) os_nonneg Hsz) as H.
  cbv zeta in H. cbn [fst snd] in H. unfold sm, lo, up, os in H.
  destruct H as (S1 & V1 & _ & N1 & X1).
  pose proof (@is_set_again sm (sel_status_move_ok columns) lo up cs0
                (sel_status columns (fst st)) from (turns from to) V0) as Hag.
  constructor.
  - rewrite Hs, S1. exact S0.
  - intros j. rewrite Hs, V1. destruct (Hag j) as [E1 E2]. rewrite E1.
    destruct (is_set cs0 from (turns from to) j) eqn:E.
    + apply (E2 eq_refl).
    + rewrite V0, E. reflexivity.
  - rewrite Ho. exact O0.
  - intros Hh. rewrite Hb, (N1 Hh). exact (N0 Hh).
  - intros Hh. rewrite Hb. destruct (X1 Hh) as (F1 & M1 & P1).
    destruct (X0 Hh) as (F0 & M0 & P0).
    split; [rewrite F1; exact F0|]. split; [rewrite M1; exact M0|].
    intros p. destruct (P1 p) as [Pf Pm]. destruct (P0 p) as [Qf Qm].
    unfold os in *.
    rewrite Pf, Pm. destruct (Hag (p - sel_offset columns lp)) as [E1 E2]. rewrite E1.
    destruct (is_set cs0 from (turns from to) (p - sel_offset columns lp)) eqn:E.
    + split; [reflexivity | apply (E2 eq_refl)].
    + rewrite Qf, Qm. split; reflexivity.
Qed.

Variable ic : HighsIndexCollection.
Hypothesis ic_interval : is_interval_ ic = true.
Hypothesis ic_from : from_ ic = from.
Hypothesis ic_to : to_ ic = to.

Lemma setNonbasicStatus_loop_again (n : nat) (ix_dim : Z) (o : OutIn)
  (st : HighsBasis * SimplexBasis) :
  interval_done st ->
  interval_done (setNonbasicStatus_loop n ic columns ix_dim lp has_simplex_basis o st).
Proof.
  revert o st. induction n as [|n IH]; intros o st H; cbn [setNonbasicStatus_loop];
    [exact H|].
  unfold updateOutInIndex. rewrite ic_interval. cbn [delete_from_entry delete_to_entry
                                                     keep_to_entry].
  rewrite ic_from, ic_to.
  destruct (ix_dim - 1 <=? dimension_ ic - 1); [apply interval_again; exact H|].
  apply IH. apply interval_again. exact H.
Qed.

Lemma setNonbasicStatus_loop_interval (ix_dim : Z) (o : OutIn) :
  interval_done (setNonbasicStatus_loop (turns from to) ic columns ix_dim lp
                                        has_simplex_basis o st0).
Proof.
  destruct (turns from to) as [|n] eqn:E; [unfold turns in E; lia|].
  cbn [setNonbasicStatus_loop].
  unfold updateOutInIndex. rewrite ic_interval. cbn [delete_from_entry delete_to_entry
                                                     keep_to_entry].
  rewrite ic_from, ic_to.
  destruct (ix_dim - 1 <=? dimension_ ic - 1); [apply interval_first|].
  apply setNonbasicStatus_loop_again. apply interval_first.
Qed.

End Interval.

Lemma is_set_interval (cs : list HighsBasisStatus.t) (from to j : Z) :
  from <= to ->
  is_set cs from (turns from to) j =
  (from <=? j) && (j <=? to) && negb (is_basic (vget cs j HighsBasisStatus.kLower)).
Proof.
  intros H. unfold is_set, turns. f_equal. f_equal.
  destruct (Z.ltb_spec j (from + Z.of_nat (Z.to_nat (to - from + 1)))), (Z.leb_spec j to);
    try reflexivity; lia.
Qed.

(** X5.  setNonbasicStatusInterface for an interval of columns (of rows)
    that lies within a valid basis: each nonbasic entry of the interval gets
    the status that its bounds give it, which is never kNonbasic, and in a
    simplex basis its flag is set and its move is the one that goes with the
    status; the basic entries, the entries outside the interval and the
    statuses of the rows (of the columns) are as they were. *)
Theorem setNonbasicStatusInterface_interval (h : Highs) (ic : HighsIndexCollection)
  (columns : bool) :
  valid (basis_ h) = true ->
  is_interval_ ic = true ->
  let status := sel_status columns (basis_ h) in
  let os := sel_offset columns (lp_ h) in
  let sb := ekk_basis_ (ekk_instance_ h) in
  0 <= from_ ic -> from_ ic <= to_ ic -> to_ ic < vsize status ->
  0 <= os ->
  (has_basis (status_ (ekk_instance_ h)) = true ->
   os + vsize status <= vsize (nonbasicFlag_ sb) /\
   os + vsize status <= vsize (nonbasicMove_ sb)) ->
  let h' := setNonbasicStatusInterface h ic columns in
  let sb' := ekk_basis_ (ekk_instance_ h') in
  let is_set j :=
    (from_ ic <=? j) && (j <=? to_ ic) &&
    negb (is_basic (vget status j HighsBasisStatus.kLower)) in
  let status_move j :=
    sel_status_move columns (vget status j HighsBasisStatus.kLower)
                    (vget (sel_lower columns (lp_ h)) j 0%float)
                    (vget (sel_upper columns (lp_ h)) j 0%float) in
  (forall j, vget (sel_status columns (basis_ h')) j HighsBasisStatus.kLower =
             if is_set j then fst (status_move j)
             else vget status j HighsBasisStatus.kLower) /\
  (forall j, is_set j = true ->
             vget (sel_status columns (basis_ h')) j HighsBasisStatus.kLower
             <> HighsBasisStatus.kNonbasic) /\
  sel_status (negb columns) (basis_ h') = sel_status (negb columns) (basis_ h) /\
  (has_basis (status_ (ekk_instance_ h)) = false -> sb' = sb) /\
  (has_basis (status_ (ekk_instance_ h)) = true ->
   forall p,
     vget (nonbasicFlag_ sb') p 0 =
       (if is_set (p - os) then kNonbasicFlagTrue else vget (nonbasicFlag_ sb) p 0) /\
     vget (nonbasicMove_ sb') p 0 =
       (if is_set (p - os) then snd (status_move (p - os))
        else vget (nonbasicMove_ sb) p 0)).
Proof.
  intros Hvalid Hint status os sb H0 Hle Hto Hos Hsz. cbv zeta.
  unfold setNonbasicStatusInterface. rewrite Hvalid. cbn [negb].
  unfold limits. rewrite Hint.
  pose proof (@setNonbasicStatus_loop_interval columns (lp_ h)
                (has_basis (status_ (ekk_instance_ h))) (from_ ic) (to_ ic)
                (basis_ h, ekk_basis_ (ekk_instance_ h)) H0 Hle Hto Hos Hsz ic Hint
                eq_refl eq_refl
                (if columns then num_col_ (lp_ h) else num_row_ (lp_ h))
                (mkOutIn 0 0 0 (-1) 0)) as [S V O N X].
  destruct (setNonbasicStatus_loop _ _ _ _ _ _ _ _) as [b sb1]. cbn [fst snd] in *.
  cbn [set_ekk_basis set_ekk set_basis ekk_instance_ ekk_basis_ basis_ lp_].
  fold status in V, X. fold os in X. fold sb in N, X.
  assert (Hset : forall j,
            is_set status (from_ ic) (turns (from_ ic) (to_ ic)) j =
            (from_ ic <=? j) && (j <=? to_ ic) &&
            negb (is_basic (vget status j HighsBasisStatus.kLower)))
    by (intros j; apply is_set_interval; exact Hle).
  split; [|split; [|split; [|split]]].
  - intros j. rewrite V, Hset. reflexivity.
  - intros j Hj. rewrite V, Hset, Hj. unfold set_status.
    apply (sm_definitive (sel_status_move_ok columns)).
    apply andb_prop in Hj. destruct Hj as [_ Hj]. apply negb_true_iff in Hj. exact Hj.
  - exact O.
  - exact N.
  - intros Hh p. destruct (X Hh) as (_ & _ & P). destruct (P p) as [Pf Pm].
    rewrite Pf, Pm, Hset. split; reflexivity.
Qed.

End NonbasicStatus.

(** ** getBasicVariablesInterface *)

(** Lines 1502-1506: how the basic variable [var] of a row is reported, a
    column by its index and a row by minus its index, less one. *)
Definition basic_variable (num_col var : Z) : Z :=
  if var <? num_col then var else - (1 + var - num_col).

(** Lines 1500-1507, [for (row = 0; row < num_row; row++)], with [n] rows
    left. *)
Fixpoint basic_variables_rows (n : nat) (row num_col : Z) (basicIndex : list Z)
  (basic_variables : list Z) : list Z :=
  match n with
  | O => basic_variables
  | S n' =>
      let var := vget basicIndex row 0 in
      basic_variables_rows n' (row + 1) num_col basicIndex
                           (vset basic_variables row (basic_variable num_col var))
  end.

Section GetBasicVariables.

(** [interpretCallStatus] of lp_data/HighsStatus and
    [formSimplexLpBasisAndFactor] of simplex/HApp.h, called with
    [only_from_known_basis]. *)
Variable interpretCallStatus : HighsStatus.t -> HighsStatus.t -> HighsStatus.t.
Variable formSimplexLpBasisAndFactor : Highs -> bool -> HighsStatus.t * Highs.

(** [Highs::getBasicVariablesInterface], lines 1472-1509.  [basic_variables]
    is the array that the caller passes; the result has the array as the call
    leaves it. *)
Definition getBasicVariablesInterface (h : Highs) (basic_variables : list Z)
  : HighsStatus.t * Highs * list Z :=
  let return_status := HighsStatus.kOk in
  let num_row := num_row_ (lp_ h) in
  let num_col := num_col_ (lp_ h) in
  (* For an LP with no rows the solution is vacuous *)
  if num_row =? 0 then (return_status, h, basic_variables) else
  if negb (valid (basis_ h)) then (HighsStatus.kError, h, basic_variables) else
  let '(return_status, h) :=
    if negb (has_invert (status_ (ekk_instance_ h)))
    then
      let only_from_known_basis := true in
      let '(call_status, h) := formSimplexLpBasisAndFactor h only_from_known_basis in
      (interpretCallStatus call_status return_status, h)
    else (return_status, h) in
  if negb (HighsStatus.eqb return_status HighsStatus.kOk)
  then (return_status, h, basic_variables)
  else
    (return_status, h,
     basic_variables_rows (Z.to_nat num_row) 0 num_col
                          (basicIndex_ (ekk_basis_ (ekk_instance_ h))) basic_variables).

Lemma basic_variables_rows_fill (n : nat) (row num_col : Z) (basicIndex bv : list Z) :
  basic_variables_rows n row num_col basicIndex bv =
  fill n row 0 (fun r => basic_variable num_col (vget basicIndex r 0)) bv.
Proof.
  revert row bv. induction n as [|n IH]; intros row bv; cbn [basic_variables_rows fill];
    [reflexivity | apply IH].
Qed.

Lemma vget_fill0 {A : Type} (n : nat) (f : Z -> A) (v : list A) (j : Z) (d : A) :
  Z.of_nat n <= vsize v ->
  vget (fill n 0 0 f v) j d =
  if (0 <=? j) && (j <? Z.of_nat n) then f j else vget v j d.
Proof.
  intros H. rewrite vget_fill by lia.
  replace (0 + 0) with 0 by lia. replace (0 + Z.of_nat n) with (Z.of_nat n) by lia.
  rewrite Z.sub_0_r. reflexivity.
Qed.

(** A row is reported as a negative number and a column as its index, so
    that the variable can be read back from the number. *)
Lemma basic_variable_decode (num_col var : Z) :
  0 <= var ->
  (0 <= basic_variable num_col var -> var = basic_variable num_col var /\ var < num_col) /\
  (basic_variable num_col var < 0 ->
   var = num_col + (- basic_variable num_col var - 1) /\ num_col <= var).
Proof.
  unfold basic_variable. intros H. destruct (Z.ltb_spec var num_col); split; lia.
Qed.

(** X6.  getBasicVariablesInterface: for an LP without rows it returns kOk
    and writes nothing, also without a valid basis; with rows and no valid
    basis it returns kError and changes nothing; a status other than kOk,
    which may be a warning from forming the factor, leaves the array
    unwritten.  When it returns kOk for an LP with rows, the number written
    for each row tells its basic variable: a number that is not negative is
    the index of a column, and a negative number -(1 + r) stands for row r. *)
Theorem getBasicVariablesInterface_reports (h : Highs) (bv : list Z) :
  let num_row := num_row_ (lp_ h) in
  let num_col := num_col_ (lp_ h) in
  let '(status, h', out) := getBasicVariablesInterface h bv in
  (num_row = 0 -> status = HighsStatus.kOk /\ h' = h /\ out = bv) /\
  (num_row <> 0 -> valid (basis_ h) = false ->
   status = HighsStatus.kError /\ h' = h /\ out = bv) /\
  (status <> HighsStatus.kOk -> out = bv) /\
  vsize out = vsize bv /\
  (status = HighsStatus.kOk -> num_row <> 0 ->
   (forall row, 0 <= row < num_row -> row < vsize bv ->
      let var := vget (basicIndex_ (ekk_basis_ (ekk_instance_ h'))) row 0 in
      0 <= var ->
      (0 <= vget out row 0 -> var = vget out row 0 /\ var < num_col) /\
      (vget out row 0 < 0 -> var = num_col + (- vget out row 0 - 1) /\ num_col <= var)) /\
   (forall row, num_row <= row -> vget out row 0 = vget bv row 0)).
Proof.
  cbv zeta. unfold getBasicVariablesInterface.
  destruct (Z.eqb_spec (num_row_ (lp_ h)) 0) as [E0|N0].
  { repeat split; auto; try congruence; try contradiction. }
  destruct (valid (basis_ h)) eqn:Ev; cbn [negb].
  2: { repeat split; auto; try congruence; try discriminate. }
  set (r := if negb (has_invert (status_ (ekk_instance_ h)))
            then let '(call_status, h0) := formSimplexLpBasisAndFactor h true in
                 (interpretCallStatus call_status HighsStatus.kOk, h0)
            else (HighsStatus.kOk, h)).
  destruct r as [status h'].
  destruct (HighsStatus.eqb status HighsStatus.kOk) eqn:Es; cbn [negb].
  - apply HighsStatus_eqb_eq in Es. subst status.
    rewrite basic_variables_rows_fill.
    split; [contradiction|]. split; [discriminate|]. split; [congruence|].
    split; [apply vsize_fill|]. intros _ _.
    pose proof (vsize_nonneg bv) as Hbv.
    destruct (Z.le_gt_cases (num_row_ (lp_ h)) (vsize bv)) as [Hle|Hgt].
    + split.
      * intros row Hrow Hsz Hvar.
        rewrite vget_fill0 by lia.
        destruct (Z.leb_spec 0 row), (Z.ltb_spec row (Z.of_nat (Z.to_nat (num_row_ (lp_ h)))));
          cbn [andb]; try lia.
        apply basic_variable_decode. exact Hvar.
      * intros row Hrow. rewrite vget_fill0 by lia.
        destruct (Z.leb_spec 0 row), (Z.ltb_spec row (Z.of_nat (Z.to_nat (num_row_ (lp_ h)))));
          cbn [andb]; try reflexivity; lia.
    + (* the array is shorter than the number of rows *)
      assert (Hfill : forall m n row (v : list Z) (f : Z -> Z),
                0 <= row -> row + Z.of_nat n <= vsize v ->
                fill (n + m) row 0 f v = fill m (row + Z.of_nat n) 0 f (fill n row 0 f v)).
      { intros m n. induction n as [|n IHn]; intros row v f Hr Hs.
        - cbn [fill Nat.add]. rewrite Z.add_0_r. reflexivity.
        - cbn [fill Nat.add]. rewrite IHn by (rewrite ?vsize_vset; lia).
          f_equal. lia. }
      assert (Hout : forall m row (v : list Z) (f : Z -> Z),
                vsize v <= row -> fill m row 0 f v = v).
      { induction m as [|m IHm]; intros row v f Hr; cbn [fill]; [reflexivity|].
        cbn [Z.add]. rewrite vset_out by lia. apply IHm. lia. }
      replace (Z.to_nat (num_row_ (lp_ h)))
        with (Z.to_nat (vsize bv) + (Z.to_nat (num_row_ (lp_ h)) - Z.to_nat (vsize bv)))%nat
        by lia.
      rewrite Hfill by lia. rewrite Hout by (rewrite vsize_fill; lia).
      split.
      * intros row Hrow Hsz Hvar.
        rewrite vget_fill0 by lia.
        destruct (Z.leb_spec 0 row), (Z.ltb_spec row (Z.of_nat (Z.to_nat (vsize bv))));
          cbn [andb]; try lia.
        apply basic_variable_decode. exact Hvar.
      * intros row Hrow. rewrite vget_fill0 by lia.
        destruct (Z.leb_spec 0 row), (Z.ltb_spec row (Z.of_nat (Z.to_nat (vsize bv))));
          cbn [andb]; try reflexivity; lia.
  - split; [contradiction|]. split; [discriminate|]. split; [reflexivity|].
    split; [reflexivity|]. intros ->. cbn in Es. discriminate.
Qed.

End GetBasicVariables.

(** ** The basis functions on examples *)

(** Reference model of [highs_isInfinity] (lp_data/HConst.h, not among the
    embedded sources), used to run the embedded code on the examples: the
    value is at least [kHighsInf]. *)
Definition example_highs_isInfinity (val : double) : bool := (kHighsInf <=? val)%float.

(** [example_highs] after addColsInterface has appended the bounds of a new
    column x2 >= 1 to the LP and before it counts the column in. *)
Definition example_highs_new_col : Highs :=
  set_lp example_highs
    (set_col_upper_
       (set_col_lower_
          (set_col_cost_ example_lp [1%float; 1%float; 0%float])
          [0%float; 0%float; 1%float])
       [4%float; 4%float; kHighsInf]).

(** [example_highs] with no definitive status for x0. *)
Definition example_highs_nonbasic : Highs :=
  set_basis example_highs
    (set_col_status (basis_ example_highs)
                    [HighsBasisStatus.kNonbasic; HighsBasisStatus.kBasic]).

Lemma appendBasicRowsToBasisInterface_appends_basic_witness :
  let h' := appendBasicRowsToBasisInterface example_highs 1 in
  row_status (basis_ h') = [HighsBasisStatus.kLower; HighsBasisStatus.kBasic] /\
  num_basic (basis_ h') = 2 /\
  basicIndex_ (ekk_basis_ (ekk_instance_ h')) = [1; 3] /\
  nonbasicFlag_ (ekk_basis_ (ekk_instance_ h')) = [1; 0; 1; 0].
Proof.
  assert (H1 : useful (basis_ example_highs) = true) by (vm_compute; reflexivity).
  assert (H2 : 0 < 1) by (vm_compute; reflexivity).
  assert (H3 : vsize (row_status (basis_ example_highs)) = num_row_ (lp_ example_highs))
    by (vm_compute; reflexivity).
  pose proof (@appendBasicRowsToBasisInterface_appends_basic example_highs 1 H1 H2 H3) as H.
  cbv zeta in H. destruct H as (Hr & _ & Hn & _ & _ & Hs).
  assert (S1 : has_basis (status_ (ekk_instance_ example_highs)) = true)
    by (vm_compute; reflexivity).
  assert (S2 : 0 <= num_col_ (lp_ example_highs)) by (vm_compute; discriminate).
  assert (S3 : vsize (basicIndex_ (ekk_basis_ (ekk_instance_ example_highs))) =
               num_row_ (lp_ example_highs)) by (vm_compute; reflexivity).
  assert (S4 : vsize (nonbasicFlag_ (ekk_basis_ (ekk_instance_ example_highs))) =
               num_col_ (lp_ example_highs) + num_row_ (lp_ example_highs))
    by (vm_compute; reflexivity).
  assert (S5 : vsize (nonbasicMove_ (ekk_basis_ (ekk_instance_ example_highs))) =
               num_col_ (lp_ example_highs) + num_row_ (lp_ example_highs))
    by (vm_compute; reflexivity).
  destruct (Hs S1 S2 S3 S4 S5) as (Hb & Hf & _).
  vm_compute in Hr, Hn, Hb, Hf |- *.
  split; [exact Hr|]. split; [exact Hn|]. split; [exact Hb | exact Hf].
Defined.

Lemma appendNonbasicColsToBasisInterface_inserts_witness :
  let h' := appendNonbasicColsToBasisInterface example_highs_isInfinity
              example_highs_new_col 1 in
  col_status (basis_ h') =
    [HighsBasisStatus.kLower; HighsBasisStatus.kBasic; HighsBasisStatus.kLower] /\
  num_basic (basis_ h') = 1 /\
  basicIndex_ (ekk_basis_ (ekk_instance_ h')) = [1] /\
  nonbasicFlag_ (ekk_basis_ (ekk_instance_ h')) = [1; 0; 1; 1] /\
  nonbasicMove_ (ekk_basis_ (ekk_instance_ h')) =
    [kNonbasicMoveUp; 0; kNonbasicMoveUp; kNonbasicMoveUp].
Proof.
  assert (H1 : useful (basis_ example_highs_new_col) = true) by (vm_compute; reflexivity).
  assert (H2 : 0 < 1) by (vm_compute; reflexivity).
  assert (H3 : vsize (col_status (basis_ example_highs_new_col)) =
               num_col_ (lp_ example_highs_new_col)) by (vm_compute; reflexivity).
  pose proof (@appendNonbasicColsToBasisInterface_inserts example_highs_isInfinity
                example_highs_new_col 1 H1 H2 H3) as H.
  cbv zeta in H. destruct H as (Hc & _ & Hn & _ & _ & Hs).
  assert (S1 : has_basis (status_ (ekk_instance_ example_highs_new_col)) = true)
    by (vm_compute; reflexivity).
  assert (S3 : vsize (basicIndex_ (ekk_basis_ (ekk_instance_ example_highs_new_col))) =
               num_row_ (lp_ example_highs_new_col)) by (vm_compute; reflexivity).
  assert (S4 : vsize (nonbasicFlag_ (ekk_basis_ (ekk_instance_ example_highs_new_col))) =
               num_col_ (lp_ example_highs_new_col) + num_row_ (lp_ example_highs_new_col))
    by (vm_compute; reflexivity).
  assert (S5 : vsize (nonbasicMove_ (ekk_basis_ (ekk_instance_ example_highs_new_col))) =
               num_col_ (lp_ example_highs_new_col) + num_row_ (lp_ example_highs_new_col))
    by (vm_compute; reflexivity).
  destruct (Hs S1 S3 S4 S5) as (Hb & Hf & Hm).
  vm_compute in Hc, Hn, Hb, Hf, Hm |- *.
  split; [exact Hc|]. split; [exact Hn|]. split; [exact Hb|].
  split; [exact Hf | exact Hm].
Defined.

Lemma setNonbasicStatusInterface_interval_witness :
  let h' := setNonbasicStatusInterface example_highs_isInfinity example_highs_nonbasic
              (interval_collection 2 0 1) true in
  vget (col_status (basis_ h')) 0 HighsBasisStatus.kLower = HighsBasisStatus.kLower /\
  vget (col_status (basis_ h')) 1 HighsBasisStatus.kLower = HighsBasisStatus.kBasic /\
  vget (nonbasicMove_ (ekk_basis_ (ekk_instance_ h'))) 0 0 = kNonbasicMoveUp.
Proof.
  set (h := example_highs_nonbasic). set (ic := interval_collection 2 0 1).
  assert (H1 : valid (basis_ h) = true) by (vm_compute; reflexivity).
  assert (H2 : is_interval_ ic = true) by (vm_compute; reflexivity).
  assert (H3 : 0 <= from_ ic) by (vm_compute; discriminate).
  assert (H4 : from_ ic <= to_ ic) by (vm_compute; discriminate).
  assert (H5 : to_ ic < vsize (sel_status true (basis_ h))) by (vm_compute; reflexivity).
  assert (H6 : 0 <= sel_offset true (lp_ h)) by (vm_compute; discriminate).
  assert (H7 : has_basis (status_ (ekk_instance_ h)) = true ->
               sel_offset true (lp_ h) + vsize (sel_status true (basis_ h)) <=
                 vsize (nonbasicFlag_ (ekk_basis_ (ekk_instance_ h))) /\
               sel_offset true (lp_ h) + vsize (sel_status true (basis_ h)) <=
                 vsize (nonbasicMove_ (ekk_basis_ (ekk_instance_ h))))
    by (intros _; split; vm_compute; discriminate).
  pose proof (@setNonbasicStatusInterface_interval example_highs_isInfinity h ic true
                H1 H2 H3 H4 H5 H6 H7) as H.
  cbv zeta in H. destruct H as (Hs & _ & _ & _ & Hm).
  assert (S1 : has_basis (status_ (ekk_instance_ h)) = true) by (vm_compute; reflexivity).
  pose proof (Hs 0) as Hs0. pose proof (Hs 1) as Hs1.
  pose proof (proj2 (Hm S1 0)) as Hm0.
  vm_compute in Hs0, Hs1, Hm0 |- *.
  split; [exact Hs0|]. split; [exact Hs1 | exact Hm0].
Defined.

(* ================================================================== *)
(** * Multiple linear objectives: repeated priorities                  *)
(* ================================================================== *)

(** Modelled from the spec: [HighsLinearObjective] (lp_data/HStruct.h is not
    among the embedded sources).  Section 4.H: an objective has a weight, an
    offset, coefficients c_k, an absolute and a relative tolerance, and a
    priority. *)
Record HighsLinearObjective : Type := mkLinearObjective {
  weight : double;
  offset : double;
  coefficients : list double;
  abs_tolerance : double;
  rel_tolerance : double;
  priority : Z
}.

(** Lines 3863-3866, [for (iObj1 = iObj0 + 1; iObj1 < num_linear_objective;
    iObj1++)], over the objectives after [iObj0]. *)
Fixpoint repeated_priority_after (priority0 : Z) (rest : list HighsLinearObjective) : bool :=
  match rest with
  | [] => false
  | o :: rest' =>
      if priority o =? priority0 then true else repeated_priority_after priority0 rest'
  end.

(** Lines 3861-3870, [for (iObj0 = 0; iObj0 < num_linear_objective;
    iObj0++)], over the objectives from [iObj0] on. *)
Fixpoint repeated_priority_from (objs : list HighsLinearObjective)
  (linear_objective : option HighsLinearObjective) : bool :=
  match objs with
  | [] => false
  | o :: rest =>
      let priority0 := priority o in
      if repeated_priority_after priority0 rest then true else
      if match linear_objective with
         | Some lo => priority lo =? priority0
         | None => false
         end
      then true
      else repeated_priority_from rest linear_objective
  end.

(** [Highs::hasRepeatedLinearObjectivePriorities], lines 3852-3872, for the
    objectives [multi_linear_objective_] of the Highs object;
    [linear_objective] is [None] for the null pointer. *)
Definition hasRepeatedLinearObjectivePriorities
  (multi_linear_objective_ : list HighsLinearObjective)
  (linear_objective : option HighsLinearObjective) : bool :=
  let num_linear_objective := vsize multi_linear_objective_ in
  if (num_linear_objective <=? 0) ||
     ((num_linear_objective <=? 1) && is_null linear_objective)
  then false
  else repeated_priority_from multi_linear_objective_ linear_objective.

(** The priorities that are compared: those of the stored objectives, and
    that of [linear_objective] when there is one. *)
Definition compared_priorities (objs : list HighsLinearObjective)
  (linear_objective : option HighsLinearObjective) : list Z :=
  map priority objs ++
  match linear_objective with Some lo => [priority lo] | None => [] end.

Lemma repeated_priority_after_spec (priority0 : Z) (rest : list HighsLinearObjective) :
  repeated_priority_after priority0 rest = true <-> In priority0 (map priority rest).
Proof.
  induction rest as [|o rest IH]; cbn [repeated_priority_after map In].
  - split; [discriminate | contradiction].
  - destruct (Z.eqb_spec (priority o) priority0) as [E|NE].
    + split; auto.
    + rewrite IH. split; [auto | intros [H|H]; [contradiction | exact H]].
Qed.

Lemma repeated_priority_from_spec (objs : list HighsLinearObjective)
  (linear_objective : option HighsLinearObjective) :
  repeated_priority_from objs linear_objective = false <->
  NoDup (compared_priorities objs linear_objective).
Proof.
  unfold compared_priorities.
  induction objs as [|o rest IH]; cbn [repeated_priority_from map app].
  - split; [|reflexivity]. intros _.
    destruct linear_objective; repeat constructor; intros [].
  - destruct (repeated_priority_after (priority o) rest) eqn:Eafter.
    + split; [discriminate|]. intros H. apply NoDup_cons_iff in H. destruct H as [Hn _].
      exfalso. apply Hn. apply in_or_app. left.
      apply repeated_priority_after_spec. exact Eafter.
    + assert (Hrest : ~ In (priority o) (map priority rest)).
      { intros H. apply repeated_priority_after_spec in H. congruence. }
      destruct linear_objective as [lo|].
      * destruct (Z.eqb_spec (priority lo) (priority o)) as [E|NE].
        -- split; [discriminate|]. intros H. apply NoDup_cons_iff in H.
           destruct H as [Hn _]. exfalso. apply Hn. apply in_or_app. right.
           left. exact E.
        -- rewrite IH. rewrite NoDup_cons_iff. split; [|tauto]. intros H.
           split; [|exact H]. intros Hin. apply in_app_or in Hin.
           destruct Hin as [Hin|[Hin|[]]]; [contradiction | congruence].
      * rewrite IH. rewrite NoDup_cons_iff. split; [|tauto]. intros H.
        split; [|exact H]. rewrite app_nil_r. exact Hrest.
Qed.

Lemma hasRepeatedLinearObjectivePriorities_false
  (multi_linear_objective_ : list HighsLinearObjective)
  (linear_objective : option HighsLinearObjective) :
  hasRepeatedLinearObjectivePriorities multi_linear_objective_ linear_objective = false <->
  NoDup (compared_priorities multi_linear_objective_ linear_objective).
Proof.
  unfold hasRepeatedLinearObjectivePriorities, vsize.
  destruct multi_linear_objective_ as [|o [|o' rest]].
  - cbn [List.length Z.of_nat Z.leb Z.compare orb].
    split; [|reflexivity]. intros _. unfold compared_priorities. cbn [map app].
    destruct linear_objective; repeat constructor; intros [].
  - destruct linear_objective as [lo|].
    + replace ((Z.of_nat (List.length [o]) <=? 0) ||
               (Z.of_nat (List.length [o]) <=? 1) && is_null (Some lo)) with false
        by reflexivity.
      apply repeated_priority_from_spec.
    + replace ((Z.of_nat (List.length [o]) <=? 0) ||
               (Z.of_nat (List.length [o]) <=? 1) &&
               is_null (@None HighsLinearObjective)) with true by reflexivity.
      split; [|reflexivity]. intros _. unfold compared_priorities. cbn [map app].
      repeat constructor; intros [].
  - replace (Z.of_nat (List.length (o :: o' :: rest)) <=? 0) with false
      by (symmetry; apply Z.leb_gt; cbn [List.length]; lia).
    replace (Z.of_nat (List.length (o :: o' :: rest)) <=? 1) with false
      by (symmetry; apply Z.leb_gt; cbn [List.length]; lia).
    cbn [orb andb]. apply repeated_priority_from_spec.
Qed.

(** X7.  hasRepeatedLinearObjectivePriorities answers true exactly when
    two of the priorities it compares are equal: those of the stored
    objectives and, if an objective is passed to it, that one's as well.  With
    no stored objective, or a single one and none passed, nothing is repeated
    and it answers false. *)
Theorem hasRepeatedLinearObjectivePriorities_iff
  (multi_linear_objective_ : list HighsLinearObjective)
  (linear_objective : option HighsLinearObjective) :
  (hasRepeatedLinearObjectivePriorities multi_linear_objective_ linear_objective = false <->
   NoDup (compared_priorities multi_linear_objective_ linear_objective)) /\
  (hasRepeatedLinearObjectivePriorities multi_linear_objective_ linear_objective = true <->
   ~ NoDup (compared_priorities multi_linear_objective_ linear_objective)).
Proof.
  pose proof (hasRepeatedLinearObjectivePriorities_false multi_linear_objective_
                linear_objective) as Hfalse.
  split; [exact Hfalse|].
  destruct (hasRepeatedLinearObjectivePriorities multi_linear_objective_ linear_objective).
  - split; [|reflexivity]. intros _ N. apply Hfalse in N. discriminate.
  - split; [discriminate|]. intros N. exfalso. apply N. apply Hfalse. reflexivity.
Qed.

(* ================================================================== *)
(** * Free-format MPS reader: the column starts (HMpsFF::fillMatrix)   *)
(* ================================================================== *)

(** An entry of [entries]: [std::tuple<HighsInt, HighsInt, double>], the
    column, the row and the value of a nonzero. *)
Definition Entry : Type := (Z * Z * double)%type.
Definition get0 (e : Entry) : Z := fst (fst e).
Definition get1 (e : Entry) : Z := snd (fst e).
Definition get2 (e : Entry) : double := snd e.

(** [v.at(i) = x]; [None] when [at] throws std::out_of_range. *)
Definition at_put {A : Type} (v : list A) (i : Z) (x : A) : option (list A) :=
  if (0 <=? i) && (i <? vsize v) then Some (vset v i x) else None.

(** What fillMatrix gives: an exception from [at], or the value returned
    and the vectors [a_start], [a_index] and [a_value] of the reader. *)
Inductive FillMatrix : Type :=
| Thrown
| Filled (code : Z) (a_start a_index : list Z) (a_value : list double).

(** Lines 157-159, [for (i = 1; i < nEmptyCols; i++)], with [n] turns
    left. *)
Fixpoint fill_empty_cols (n : nat) (i newColIndex k : Z) (a_start : list Z)
  : option (list Z) :=
  match n with
  | O => Some a_start
  | S n' =>
      match at_put a_start (newColIndex - i) k with
      | None => None
      | Some a_start => fill_empty_cols n' (i + 1) newColIndex k a_start
      end
  end.

(** How the loop over the entries ends. *)
Inductive FillLoop : Type :=
| LoopThrown
| LoopReturn1 (a_start a_index : list Z) (a_value : list double)
| LoopDone (newColIndex : Z) (a_start a_index : list Z) (a_value : list double).

(** Lines 147-161, [for (k = 0; k < num_nz; k++)]: [rest] holds the entries
    from [entries.at(k)] on. *)
Fixpoint fillMatrix_entries (rest : list Entry) (k num_col newColIndex : Z)
  (a_start a_index : list Z) (a_value : list double) : FillLoop :=
  match rest with
  | [] => LoopDone newColIndex a_start a_index a_value
  | e :: rest' =>
      match at_put a_value k (get2 e) with
      | None => LoopThrown
      | Some a_value =>
      match at_put a_index k (get1 e) with
      | None => LoopThrown
      | Some a_index =>
          if negb (get0 e =? newColIndex)
          then
            let nEmptyCols := get0 e - newColIndex in
            let newColIndex := get0 e in
            if num_col <=? newColIndex then LoopReturn1 a_start a_index a_value else
            match at_put a_start newColIndex k with
            | None => LoopThrown
            | Some a_start =>
            match fill_empty_cols (Z.to_nat (nEmptyCols - 1)) 1 newColIndex k a_start with
            | None => LoopThrown
            | Some a_start =>
                fillMatrix_entries rest' (k + 1) num_col newColIndex a_start a_index a_value
            end
            end
          else fillMatrix_entries rest' (k + 1) num_col newColIndex a_start a_index a_value
      end
      end
  end.

(** Lines 166-172, [for (i = 0; i < num_col; i++)], with [n] columns left:
    whether no start is greater than the next one. *)
Fixpoint starts_monotonic (n : nat) (i : Z) (a_start : list Z) : bool :=
  match n with
  | O => true
  | S n' =>
      if vget a_start (i + 1) 0 <? vget a_start i 0 then false
      else starts_monotonic n' (i + 1) a_start
  end.

(** [HMpsFF::fillMatrix], lines 135-175, for the members [entries],
    [num_nz], [num_col], [a_start], [a_index] and [a_value] of the reader.
    [a_start.assign(num_col + 1, 0)] throws for a negative size. *)
Definition fillMatrix (entries : list Entry) (num_nz num_col : Z)
  (a_start a_index : list Z) (a_value : list double) : FillMatrix :=
  let num_entries := vsize entries in
  if negb (num_entries =? HMpsFF.size_t_wrap num_nz) then Filled 1 a_start a_index a_value
  else
  let a_value := resize a_value num_nz 0%float in
  let a_index := resize a_index num_nz 0 in
  if num_col + 1 <? 0 then Thrown else
  let a_start := repeat 0 (Z.to_nat (num_col + 1)) in
  (* Nothing to do if there are no entries in the matrix *)
  match entries with
  | [] => Filled 0 a_start a_index a_value
  | e0 :: _ =>
      let newColIndex := get0 e0 in
      match fillMatrix_entries entries 0 num_col newColIndex a_start a_index a_value with
      | LoopThrown => Thrown
      | LoopReturn1 a_start a_index a_value => Filled 1 a_start a_index a_value
      | LoopDone newColIndex a_start a_index a_value =>
          let a_start :=
            fill (Z.to_nat (num_col - newColIndex)) (newColIndex + 1) 0
                 (fun _ => num_nz) a_start in
          if starts_monotonic (Z.to_nat num_col) 0 a_start
          then Filled 0 a_start a_index a_value
          else Filled 1 a_start a_index a_value
      end
  end.

(** ** The starts of entries that are sorted by column *)

(** The number of entries in the columns before [c]. *)
Definition entries_before (entries : list Entry) (c : Z) : Z :=
  vsize (filter (fun e => get0 e <? c) entries).

Lemma entries_before_app (a b : list Entry) (c : Z) :
  entries_before (a ++ b) c = entries_before a c + entries_before b c.
Proof. unfold entries_before. rewrite filter_app. apply vsize_app. Qed.

Lemma entries_before_all (a : list Entry) (c : Z) :
  (forall e, In e a -> get0 e < c) -> entries_before a c = vsize a.
Proof.
  unfold entries_before. intros H. f_equal.
  induction a as [|e a IH]; [reflexivity|]. cbn [filter].
  destruct (Z.ltb_spec (get0 e) c) as [_|Hge].
  - f_equal. apply IH. intros e' He'. apply H. right. exact He'.
  - specialize (H e (or_introl eq_refl)). lia.
Qed.

Lemma entries_before_none (a : list Entry) (c : Z) :
  (forall e, In e a -> c <= get0 e) -> entries_before a c = 0.
Proof.
  unfold entries_before. intros H.
  replace (filter (fun e => get0 e <? c) a) with (@nil Entry); [reflexivity|].
  induction a as [|e a IH]; [reflexivity|]. cbn [filter].
  destruct (Z.ltb_spec (get0 e) c) as [Hlt|_].
  - specialize (H e (or_introl eq_refl)). lia.
  - apply IH. intros e' He'. apply H. right. exact He'.
Qed.

Lemma entries_before_mono (a : list Entry) (c c' : Z) :
  c <= c' -> entries_before a c <= entries_before a c'.
Proof.
  unfold entries_before, vsize. intros H.
  induction a as [|e a IH]; [reflexivity|]. cbn [filter].
  destruct (Z.ltb_spec (get0 e) c), (Z.ltb_spec (get0 e) c'); cbn [List.length]; lia.
Qed.

Lemma at_put_ok {A : Type} (v : list A) (i : Z) (x : A) :
  0 <= i < vsize v -> at_put v i x = Some (vset v i x).
Proof.
  intros H. unfold at_put.
  destruct (Z.leb_spec 0 i), (Z.ltb_spec i (vsize v)); try lia. reflexivity.
Qed.

(** The columns [newColIndex - i], ..., [newColIndex - (i + n - 1)] get the
    start [k]. *)
Lemma fill_empty_cols_spec (n : nat) (i newColIndex k : Z) (a_start : list Z) :
  0 <= newColIndex - i - Z.of_nat n + 1 -> newColIndex - i < vsize a_start ->
  exists a_start',
    fill_empty_cols n i newColIndex k a_start = Some a_start' /\
    vsize a_start' = vsize a_start /\
    forall c, vget a_start' c 0 =
              if (newColIndex - i - Z.of_nat n <? c) && (c <=? newColIndex - i) then k
              else vget a_start c 0.
Proof.
  revert i a_start. induction n as [|n IH]; intros i a_start Hlo Hhi;
    cbn [fill_empty_cols].
  - exists a_start. split; [reflexivity|]. split; [reflexivity|]. intros c.
    destruct (Z.ltb_spec (newColIndex - i - Z.of_nat 0) c), (Z.leb_spec c (newColIndex - i));
      cbn [andb]; try reflexivity; lia.
  - rewrite at_put_ok by lia.
    destruct (IH (i + 1) (vset a_start (newColIndex - i) k)
                 ltac:(lia) ltac:(rewrite vsize_vset; lia)) as (a' & E & S' & V').
    exists a'. split; [exact E|]. split; [rewrite S'; apply vsize_vset|].
    intros c. rewrite V'. rewrite vget_vset by lia.
    destruct (Z.ltb_spec (newColIndex - (i + 1) - Z.of_nat n) c),
      (Z.leb_spec c (newColIndex - (i + 1))),
      (Z.ltb_spec (newColIndex - i - Z.of_nat (S n)) c),
      (Z.leb_spec c (newColIndex - i)),
      (Z.eqb_spec c (newColIndex - i)); cbn [andb]; try reflexivity; lia.
Qed.

Lemma firstn_vset_next {A : Type} (v : list A) (x : A) (k : nat) :
  (k < List.length v)%nat ->
  firstn (S k) (vset v (Z.of_nat k) x) = firstn k v ++ [x].
Proof.
  unfold vset. destruct (Z.ltb_spec (Z.of_nat k) 0) as [H|_]; [lia|]. rewrite Nat2Z.id.
  revert k. induction v as [|a v IH]; intros k Hk; cbn in Hk; [lia|].
  destruct k as [|k]; [reflexivity|].
  cbn [upd_nat firstn app]. f_equal. apply IH. lia.
Qed.

Lemma starts_monotonic_true (n : nat) (i : Z) (a_start : list Z) :
  (forall c, i <= c < i + Z.of_nat n -> vget a_start c 0 <= vget a_start (c + 1) 0) ->
  starts_monotonic n i a_start = true.
Proof.
  revert i. induction n as [|n IH]; intros i H; cbn [starts_monotonic]; [reflexivity|].
  destruct (Z.ltb_spec (vget a_start (i + 1) 0) (vget a_start i 0)) as [Hlt|_].
  - specialize (H i ltac:(lia)). lia.
  - apply IH. intros c Hc. apply H. lia.
Qed.

(** Whether no entry is in a column before that of an earlier entry. *)
Fixpoint column_sorted (l : list Entry) : bool :=
  match l with
  | [] => true
  | e :: l' => forallb (fun x => get0 e <=? get0 x) l' && column_sorted l'
  end.

Section FillSorted.

Variables (entries : list Entry) (num_col : Z).

(** The entries are in columns of the matrix and sorted by column. *)
Hypothesis cols_in_range : forall e, In e entries -> 0 <= get0 e < num_col.

(** When [done] has been read and [rest] is left. *)
Record fill_inv (done rest : list Entry) (newColIndex : Z) (a_start a_index : list Z)
  (a_value : list double) : Prop := {
  fi_split : entries = done ++ rest;
  fi_sorted : column_sorted rest = true;
  fi_done : forall e, In e done -> get0 e <= newColIndex;
  fi_rest : forall e, In e rest -> newColIndex <= get0 e;
  fi_col : 0 <= newColIndex < num_col;
  fi_start_size : vsize a_start = num_col + 1;
  fi_start : forall c, 0 <= c <= num_col ->
             vget a_start c 0 = if c <=? newColIndex then entries_before entries c else 0;
  fi_index_size : vsize a_index = vsize entries;
  fi_index : firstn (List.length done) a_index = map get1 done;
  fi_value_size : vsize a_value = vsize entries;
  fi_value : firstn (List.length done) a_value = map get2 done
}.

Lemma fillMatrix_entries_sorted (rest done : list Entry) (newColIndex : Z)
  (a_start a_index : list Z) (a_value : list double) :
  fill_inv done rest newColIndex a_start a_index a_value ->
  exists newColIndex' a_start' a_index' a_value',
    fillMatrix_entries rest (vsize done) num_col newColIndex a_start a_index a_value =
    LoopDone newColIndex' a_start' a_index' a_value' /\
    fill_inv entries [] newColIndex' a_start' a_index' a_value'.
Proof.
  revert done newColIndex a_start a_index a_value.
  induction rest as [|e rest IH]; intros done newColIndex a_start a_index a_value Hinv.
  - cbn [fillMatrix_entries]. exists newColIndex, a_start, a_index, a_value.
    split; [reflexivity|]. destruct Hinv as [Hs Hso Hd Hr Hc Hss Hst His Hi Hvs Hv].
    rewrite app_nil_r in Hs. subst done.
    constructor; auto; try (rewrite app_nil_r; reflexivity); intros x [].
  - destruct Hinv as [Hs Hso Hd Hr Hc Hss Hst His Hi Hvs Hv].
    assert (Hlen : vsize entries = vsize done + 1 + vsize rest).
    { rewrite Hs. unfold vsize. rewrite length_app. cbn [List.length]. lia. }
    pose proof (vsize_nonneg done) as Hdn. pose proof (vsize_nonneg rest) as Hrn.
    assert (He : In e entries) by (rewrite Hs; apply in_or_app; right; left; reflexivity).
    pose proof (cols_in_range e He) as Hce.
    pose proof (Hr e (or_introl eq_refl)) as Hge.
    assert (Hsplit' : entries = (done ++ [e]) ++ rest)
      by (rewrite <- app_assoc; exact Hs).
    cbn [column_sorted] in Hso. apply andb_prop in Hso. destruct Hso as [Hall Hso'].
    assert (Hrest' : forall x, In x rest -> get0 e <= get0 x).
    { intros x Hx. rewrite forallb_forall in Hall. apply Z.leb_le. apply Hall. exact Hx. }
    assert (Hk1 : vsize done + 1 = vsize (done ++ [e]))
      by (unfold vsize; rewrite length_app; cbn [List.length]; lia).
    assert (Hi' : firstn (List.length (done ++ [e]))
                    (vset a_index (vsize done) (get1 e)) = map get1 (done ++ [e])).
    { rewrite length_app. cbn [List.length]. rewrite Nat.add_1_r.
      unfold vsize at 1. rewrite firstn_vset_next by (unfold vsize in *; lia).
      rewrite Hi, map_app. reflexivity. }
    assert (Hv' : firstn (List.length (done ++ [e]))
                    (vset a_value (vsize done) (get2 e)) = map get2 (done ++ [e])).
    { rewrite length_app. cbn [List.length]. rewrite Nat.add_1_r.
      unfold vsize at 1. rewrite firstn_vset_next by (unfold vsize in *; lia).
      rewrite Hv, map_app. reflexivity. }
    cbn [fillMatrix_entries].
    rewrite (at_put_ok a_value (get2 e)) by lia.
    rewrite (at_put_ok a_index (get1 e)) by lia.
    destruct (Z.eqb_spec (get0 e) newColIndex) as [Eq|Ne]; cbn [negb].
    + (* the same column *)
      rewrite Hk1. apply IH. constructor; auto; rewrite ?vsize_vset; auto.
      * intros x Hx. apply in_app_or in Hx. destruct Hx as [Hx|[<-|[]]]; [auto | lia].
      * intros x Hx. apply Hr. right. exact Hx.
    + (* a new column *)
      cbv zeta.
      destruct (Z.leb_spec num_col (get0 e)); [lia|].
      rewrite at_put_ok by lia.
      destruct (@fill_empty_cols_spec (Z.to_nat (get0 e - newColIndex - 1)) 1 (get0 e)
                  (vsize done) (vset a_start (get0 e) (vsize done))
                  ltac:(lia) ltac:(rewrite vsize_vset; lia)) as (a' & E & S' & V').
      rewrite E. rewrite Hk1. apply IH.
      constructor; auto; rewrite ?vsize_vset; auto.
      * intros x Hx. apply in_app_or in Hx. destruct Hx as [Hx|[<-|[]]];
          [specialize (Hd x Hx); lia | lia].
      * rewrite S', vsize_vset. exact Hss.
      * intros c Hc'. rewrite V'. rewrite vget_vset by lia.
        destruct (Z.leb_spec c (get0 e)) as [Hle|Hgt].
        -- destruct (Z.leb_spec c newColIndex) as [Hle0|Hgt0].
           ++ (* a column that had its start *)
              destruct (Z.ltb_spec (get0 e - 1 - Z.of_nat (Z.to_nat (get0 e - newColIndex - 1))) c);
                [lia|]. cbn [andb].
              destruct (Z.eqb_spec c (get0 e)); [lia|].
              rewrite Hst by lia. destruct (Z.leb_spec c newColIndex); [reflexivity | lia].
           ++ (* a column that gets the start k *)
              assert (Hk : entries_before entries c = vsize done).
              { rewrite Hs, entries_before_app.
                rewrite entries_before_all
                  by (intros x Hx; specialize (Hd x Hx); lia).
                rewrite entries_before_none; [lia|].
                intros x [<-|Hx]; [lia | specialize (Hrest' x Hx); lia]. }
              rewrite Hk.
              destruct (Z.ltb_spec (get0 e - 1 - Z.of_nat (Z.to_nat (get0 e - newColIndex - 1))) c),
                (Z.leb_spec c (get0 e - 1)), (Z.eqb_spec c (get0 e)); cbn [andb];
                try reflexivity; lia.
        -- destruct (Z.ltb_spec (get0 e - 1 - Z.of_nat (Z.to_nat (get0 e - newColIndex - 1))) c),
             (Z.leb_spec c (get0 e - 1)), (Z.eqb_spec c (get0 e)); cbn [andb]; try lia.
           rewrite Hst by lia. destruct (Z.leb_spec c newColIndex); [lia | reflexivity].
Qed.

End FillSorted.

(** X8.  fillMatrix on entries that are sorted by column and lie in the
    columns of the matrix (as many as [num_nz]) returns 0 with the row
    indices and the values in the order of the entries and with the start of
    each column equal to the number of entries in the columns before it: the
    entries of column [c] are those from [a_start[c]] up to [a_start[c + 1]],
    the first start is 0 and the last one is [num_nz]. *)
Theorem fillMatrix_sorted_entries (entries : list Entry) (num_nz num_col : Z)
  (a_start0 a_index0 : list Z) (a_value0 : list double) :
  vsize entries = num_nz ->
  num_nz < HMpsFF.size_t_modulus ->
  0 <= num_col ->
  forallb (fun e => (0 <=? get0 e) && (get0 e <? num_col)) entries = true ->
  column_sorted entries = true ->
  exists a_start,
    fillMatrix entries num_nz num_col a_start0 a_index0 a_value0 =
    Filled 0 a_start (map get1 entries) (map get2 entries) /\
    vsize a_start = num_col + 1 /\
    (forall c, 0 <= c <= num_col -> vget a_start c 0 = entries_before entries c) /\
    vget a_start 0 0 = 0 /\
    vget a_start num_col 0 = num_nz.
Proof.
  intros Hnz Hmod Hnc Hrange Hsorted.
  pose proof (vsize_nonneg entries) as Hn0.
  assert (Hin : forall e, In e entries -> 0 <= get0 e < num_col).
  { intros e He. rewrite forallb_forall in Hrange. specialize (Hrange e He).
    apply andb_prop in Hrange. destruct Hrange as [H1 H2].
    apply Z.leb_le in H1. apply Z.ltb_lt in H2. lia. }
  assert (Hfirst : entries_before entries 0 = 0)
    by (apply entries_before_none; intros e He; specialize (Hin e He); lia).
  assert (Hlast : entries_before entries num_col = num_nz)
    by (rewrite entries_before_all; [exact Hnz|];
        intros e He; specialize (Hin e He); lia).
  assert (Hfinish : forall a_start,
            vsize a_start = num_col + 1 ->
            (forall c, 0 <= c <= num_col -> vget a_start c 0 = entries_before entries c) ->
            vget a_start 0 0 = 0 /\ vget a_start num_col 0 = num_nz).
  { intros a Hs Ha. rewrite !Ha by lia. split; assumption. }
  unfold fillMatrix.
  replace (HMpsFF.size_t_wrap num_nz) with num_nz
    by (unfold HMpsFF.size_t_wrap; rewrite Z.mod_small; lia).
  rewrite Hnz, Z.eqb_refl. cbn [negb].
  destruct (Z.ltb_spec (num_col + 1) 0); [lia|].
  assert (Hrep : forall c, 0 <= c <= num_col ->
                 vget (repeat 0 (Z.to_nat (num_col + 1))) c 0 = 0)
    by (intros c Hc; apply vget_repeat; lia).
  assert (Hreps : vsize (repeat 0 (Z.to_nat (num_col + 1))) = num_col + 1)
    by (unfold vsize; rewrite repeat_length; lia).
  destruct entries as [|e0 rest].
  - exists (repeat 0 (Z.to_nat (num_col + 1))).
    assert (Hb : forall c, 0 <= c <= num_col ->
                 vget (repeat 0 (Z.to_nat (num_col + 1))) c 0 = entries_before [] c)
      by (intros c Hc; rewrite Hrep by lia; reflexivity).
    cbn in Hnz. subst num_nz. split; [reflexivity|]. split; [exact Hreps|].
    split; [exact Hb | apply Hfinish; assumption].
  - cbv beta iota.
    assert (Hinit : fill_inv (e0 :: rest) num_col [] (e0 :: rest) (get0 e0)
                      (repeat 0 (Z.to_nat (num_col + 1)))
                      (resize a_index0 num_nz 0) (resize a_value0 num_nz 0%float)).
    { assert (He0 : forall x, In x (e0 :: rest) -> get0 e0 <= get0 x).
      { intros x [<-|Hx]; [lia|].
        cbn [column_sorted] in Hsorted.
        apply andb_prop in Hsorted. destruct Hsorted as [Hall _].
        rewrite forallb_forall in Hall. apply Z.leb_le. apply Hall. exact Hx. }
      constructor; auto.
      - intros x [].
      - apply Hin. left. reflexivity.
      - intros c Hc. rewrite Hrep by lia.
        destruct (Z.leb_spec c (get0 e0)); [|reflexivity].
        symmetry. apply entries_before_none. intros x Hx. specialize (He0 x Hx). lia.
      - rewrite vsize_resize by lia. symmetry. exact Hnz.
      - rewrite vsize_resize by lia. symmetry. exact Hnz. }
    destruct (fillMatrix_entries_sorted Hin Hinit) as (nci & a' & i' & v' & Eloop & Hfin).
    change (vsize (@nil Entry)) with 0 in Eloop. rewrite Eloop.
    destruct Hfin as [_ _ Hd _ Hc Hss Hst His Hi Hvs Hv].
    set (a'' := fill (Z.to_nat (num_col - nci)) (nci + 1) 0 (fun _ => num_nz) a').
    assert (Hs'' : vsize a'' = num_col + 1) by (unfold a''; rewrite vsize_fill; exact Hss).
    assert (Ha'' : forall c, 0 <= c <= num_col ->
                   vget a'' c 0 = entries_before (e0 :: rest) c).
    { intros c Hc'. unfold a''. rewrite vget_fill by lia.
      destruct (Z.leb_spec (0 + (nci + 1)) c),
        (Z.ltb_spec c (0 + (nci + 1) + Z.of_nat (Z.to_nat (num_col - nci)))); cbn [andb];
        try lia.
      - rewrite entries_before_all; [symmetry; exact Hnz|].
        intros x Hx. specialize (Hd x Hx). lia.
      - rewrite Hst by lia. destruct (Z.leb_spec c nci); [reflexivity | lia]. }
    rewrite starts_monotonic_true.
    2:{ intros c Hc'. rewrite !Ha'' by lia. apply entries_before_mono. lia. }
    assert (Ei : i' = map get1 (e0 :: rest)).
    { rewrite <- Hi. symmetry. apply firstn_all2. unfold vsize in His. lia. }
    assert (Ev : v' = map get2 (e0 :: rest)).
    { rewrite <- Hv. symmetry. apply firstn_all2. unfold vsize in Hvs. lia. }
    exists a''. rewrite Ei, Ev. split; [reflexivity|]. split; [exact Hs''|].
    split; [exact Ha'' | apply Hfinish; assumption].
Qed.

(** An example: the entries (column, row, value) of a matrix with three
    columns, the second of which is empty. *)
Definition example_entries : list Entry :=
  [(0, 0, 1%float); (0, 1, 2%float); (2, 1, 3%float)].

Lemma fillMatrix_sorted_entries_witness :
  fillMatrix example_entries 3 3 [] [] [] =
  Filled 0 [0; 2; 2; 3] [0; 1; 1] [1%float; 2%float; 3%float].
Proof.
  assert (H1 : vsize example_entries = 3) by (vm_compute; reflexivity).
  assert (H2 : 3 < HMpsFF.size_t_modulus) by (vm_compute; reflexivity).
  assert (H3 : 0 <= 3) by (vm_compute; discriminate).
  assert (H4 : forallb (fun e => (0 <=? get0 e) && (get0 e <? 3)) example_entries = true)
    by (vm_compute; reflexivity).
  assert (H5 : column_sorted example_entries = true) by (vm_compute; reflexivity).
  destruct (@fillMatrix_sorted_entries example_entries 3 3 [] [] [] H1 H2 H3 H4 H5)
    as (a_start & E & _).
  rewrite E. vm_compute in E. injection E as E. subst a_start. reflexivity.
Defined.

(* ================================================================== *)
(** * Inconsistent bounds (infeasibleBoundsOk)                         *)
(* ================================================================== *)

Definition HighsVarType_is_semi (t : HighsVarType.t) : bool :=
  match t with
  | HighsVarType.kSemiContinuous | HighsVarType.kSemiInteger => true
  | _ => false
  end.

Section InfeasibleBounds.

(** The C library's [std::floor] and [std::ceil], and the options
    [solve_relaxation] and [mip_feasibility_tolerance], which are not among
    the members of [HighsOptions] above. *)
Variables floor ceil : double -> double.
Variable solve_relaxation : bool.
Variable mip_feasibility_tolerance : double.

(** The lambda [infeasibleBoundOk], lines 3717-3770: whether the bounds are
    acceptable, the bounds as it leaves them, and the counters
    [(num_true_infeasible_bound, num_ok_infeasible_bound)].  What it logs is
    left out. *)
Definition infeasibleBoundOk (o : HighsOptions) (lower upper : double) (count : Z * Z)
  : bool * (double * double) * (Z * Z) :=
  let range := (upper - lower)%float in
  if (0 <=? range)%float then (true, (lower, upper), count) else
  if (- primal_feasibility_tolerance o <? range)%float
  then
    (* Infeasibility is less than feasibility tolerance, so fix bounds *)
    let count := (fst count, snd count + 1) in
    let integer_lower := (lower =? floor (lower + 0.5))%float in
    let integer_upper := (upper =? floor (upper + 0.5))%float in
    if integer_lower then (true, (lower, lower), count)
    else if integer_upper then (true, (upper, upper), count)
    else
      let mid := (0.5 * (lower + upper))%float in
      (true, (mid, mid), count)
  else
    (* Infeasibility is greater than feasibility tolerance *)
    (false, (lower, upper), (fst count + 1, snd count)).

(** The bounds of a column that lines 3775-3795 assess; [None] for a
    semi-variable, which is passed over. *)
Definition assessed_col_bounds (has_integrality : bool) (kind : HighsVarType.t)
  (lower upper : double) : option (double * double) :=
  if has_integrality
  then
    (* Semi-variables cannot have inconsistent bounds *)
    if HighsVarType_is_semi kind then None
    else if negb solve_relaxation && HighsVarType_is_integer kind
    then
      (* Assess bounds after inward integer rounding *)
      let feastol := mip_feasibility_tolerance in
      Some (ceil (lower - feastol)%float, floor (upper + feastol)%float)
    else Some (lower, upper)
  else Some (lower, upper).

(** The state of the two loops: the lower and the upper bounds and the
    counters. *)
Definition BoundsState : Type := (list double * list double * (Z * Z))%type.

(** Lines 3773-3811, [for (iCol = 0; iCol < lp.num_col_; iCol++)], with [n]
    columns left. *)
Fixpoint infeasibleBounds_cols (o : HighsOptions) (integrality : list HighsVarType.t)
  (n : nat) (iCol : Z) (st : BoundsState) : BoundsState :=
  match n with
  | O => st
  | S n' =>
      let '(col_lower, col_upper, count) := st in
      let has_integrality := 0 <? vsize integrality in
      let st :=
        match assessed_col_bounds has_integrality
                (vget integrality iCol HighsVarType.kContinuous)
                (vget col_lower iCol 0%float) (vget col_upper iCol 0%float) with
        | None => st (* continue *)
        | Some (lower, upper) =>
            if (upper <? lower)%float
            then
              let '(ok, (lower, upper), count) := infeasibleBoundOk o lower upper count in
              if ok
              then (vset col_lower iCol lower, vset col_upper iCol upper, count)
              else (col_lower, col_upper, count)
            else st
        end in
      infeasibleBounds_cols o integrality n' (iCol + 1) st
  end.

(** Lines 3813-3816, [for (iRow = 0; iRow < lp.num_row_; iRow++)], with [n]
    rows left; the lambda writes to the bounds of the LP. *)
Fixpoint infeasibleBounds_rows (o : HighsOptions) (n : nat) (iRow : Z) (st : BoundsState)
  : BoundsState :=
  match n with
  | O => st
  | S n' =>
      let '(row_lower, row_upper, count) := st in
      let st :=
        if (vget row_upper iRow 0 <? vget row_lower iRow 0)%float
        then
          let '(_, (lower, upper), count) :=
            infeasibleBoundOk o (vget row_lower iRow 0%float) (vget row_upper iRow 0%float)
                              count in
          (vset row_lower iRow lower, vset row_upper iRow upper, count)
        else st in
      infeasibleBounds_rows o n' (iRow + 1) st
  end.

(** [Highs::infeasibleBoundsOk], lines 3708-3826. *)
Definition infeasibleBoundsOk (h : Highs) : bool * Highs :=
  let lp := lp_ h in
  let '(col_lower, col_upper, count) :=
    infeasibleBounds_cols (options_ h) (integrality_ lp) (Z.to_nat (num_col_ lp)) 0
                          (col_lower_ lp, col_upper_ lp, (0, 0)) in
  let '(row_lower, row_upper, count) :=
    infeasibleBounds_rows (options_ h) (Z.to_nat (num_row_ lp)) 0
                          (row_lower_ lp, row_upper_ lp, count) in
  let lp := set_col_upper_ (set_col_lower_ lp col_lower) col_upper in
  let lp := set_row_upper_ (set_row_lower_ lp row_lower) row_upper in
  (fst count =? 0, set_lp h lp).

(** ** What the assessment does to a pair of bounds *)

(** The bounds are inconsistent, [lower > upper] with a negative range, by
    less than the tolerance, or by more. *)
Definition small_infeasibility (o : HighsOptions) (lower upper : double) : bool :=
  (upper <? lower)%float && negb (0 <=? upper - lower)%float &&
  (- primal_feasibility_tolerance o <? upper - lower)%float.

Definition excessive_infeasibility (o : HighsOptions) (lower upper : double) : bool :=
  (upper <? lower)%float && negb (0 <=? upper - lower)%float &&
  negb (- primal_feasibility_tolerance o <? upper - lower)%float.

(** The value that both bounds get when the infeasibility is small: the
    bound that is an integer, else the middle. *)
Definition rectified (lower upper : double) : double :=
  if (lower =? floor (lower + 0.5))%float then lower
  else if (upper =? floor (upper + 0.5))%float then upper
  else (0.5 * (lower + upper))%float.

(** The bounds and the count of excessive infeasibilities after bounds
    with [lower > upper] have been passed to the lambda. *)
Lemma infeasibleBoundOk_spec (o : HighsOptions) (lower upper : double) (count : Z * Z) :
  (upper <? lower)%float = true ->
  let '(ok, (lower', upper'), count') := infeasibleBoundOk o lower upper count in
  ok = negb (excessive_infeasibility o lower upper) /\
  (lower', upper') =
    (if small_infeasibility o lower upper
     then (rectified lower upper, rectified lower upper) else (lower, upper)) /\
  fst count' = fst count + (if excessive_infeasibility o lower upper then 1 else 0).
Proof.
  intros Hlt. unfold infeasibleBoundOk, small_infeasibility, excessive_infeasibility,
    rectified. rewrite Hlt. cbn [andb].
  destruct (0 <=? upper - lower)%float; cbn [negb andb];
    [split; [reflexivity|]; split; [reflexivity | cbn; lia]|].
  destruct (- primal_feasibility_tolerance o <? upper - lower)%float; cbn [negb].
  - destruct (lower =? floor (lower + 0.5))%float;
      [|destruct (upper =? floor (upper + 0.5))%float];
      (split; [reflexivity|]; split; [reflexivity | cbn; lia]).
  - split; [reflexivity|]. split; [reflexivity | cbn; lia].
Qed.

(** [lower > upper] with a negative range: what the assessment is for. *)
Definition inconsistent (lower upper : double) : bool :=
  (upper <? lower)%float && negb (0 <=? upper - lower)%float.

(** The bounds after the assessment. *)
Definition assessed (o : HighsOptions) (lower upper : double) : double * double :=
  if small_infeasibility o lower upper
  then (rectified lower upper, rectified lower upper)
  else (lower, upper).

Definition in_block (ix : Z) (n : nat) (j : Z) : bool :=
  (ix <=? j) && (j <? ix + Z.of_nat n).

(** The number of the [n] entries from [ix] on that satisfy [f]. *)
Fixpoint count_from (f : Z -> bool) (n : nat) (ix : Z) : Z :=
  match n with
  | O => 0
  | S n' => (if f ix then 1 else 0) + count_from f n' (ix + 1)
  end.

Lemma count_from_nonneg (f : Z -> bool) (n : nat) (ix : Z) : 0 <= count_from f n ix.
Proof.
  revert ix. induction n as [|n IH]; intros ix; cbn [count_from]; [lia|].
  specialize (IH (ix + 1)). destruct (f ix); lia.
Qed.

Lemma count_from_zero (f : Z -> bool) (n : nat) (ix : Z) :
  count_from f n ix = 0 <-> forall j, ix <= j < ix + Z.of_nat n -> f j = false.
Proof.
  revert ix. induction n as [|n IH]; intros ix; cbn [count_from].
  - split; [intros _ j Hj; lia | reflexivity].
  - pose proof (count_from_nonneg f n (ix + 1)) as Hnn. split.
    + intros H j Hj. destruct (f ix) eqn:E; [lia|].
      destruct (Z.eq_dec j ix) as [->|Hne]; [exact E|].
      apply (proj1 (IH (ix + 1))); lia.
    + intros H. rewrite (H ix) by lia.
      rewrite (proj2 (IH (ix + 1))); [reflexivity|]. intros j Hj. apply H. lia.
Qed.

Lemma count_from_ext (f g : Z -> bool) (n : nat) (ix : Z) :
  (forall j, ix <= j < ix + Z.of_nat n -> f j = g j) ->
  count_from f n ix = count_from g n ix.
Proof.
  revert ix. induction n as [|n IH]; intros ix H; cbn [count_from]; [reflexivity|].
  rewrite (H ix) by lia. rewrite (IH (ix + 1)); [reflexivity|]. intros j Hj. apply H. lia.
Qed.

Lemma float_ltb_irrefl (x : double) : (x <? x)%float = false.
Proof.
  rewrite FloatAxioms.ltb_spec. unfold SFltb.
  destruct (Prim2SF x) as [s|s| |s m e]; cbn [SFcompare]; try reflexivity;
    try (destruct s; reflexivity).
  destruct s; rewrite Z.compare_refl;
    change (Pos.compare_cont Eq m m) with (Pos.compare m m);
    rewrite Pos.compare_refl; reflexivity.
Qed.

Lemma assessed_consistent (o : HighsOptions) (lower upper : double) :
  excessive_infeasibility o lower upper = false ->
  inconsistent (fst (assessed o lower upper)) (snd (assessed o lower upper)) = false.
Proof.
  unfold excessive_infeasibility, assessed, small_infeasibility, inconsistent.
  destruct (upper <? lower)%float eqn:E1;
    destruct (0 <=? upper - lower)%float eqn:E2;
    destruct (- primal_feasibility_tolerance o <? upper - lower)%float eqn:E3;
    cbn [andb negb fst snd]; try discriminate; intros _;
    rewrite ?E1, ?E2, ?float_ltb_irrefl; reflexivity.
Qed.

(** One step of either loop, for bounds that are written whatever the
    lambda answers or only when it accepts them. *)
Definition assess_entry (o : HighsOptions) (lower upper : list double) (j : Z)
  : double * double :=
  assessed o (vget lower j 0%float) (vget upper j 0%float).

Definition excessive_entry (o : HighsOptions) (lower upper : list double) (j : Z) : bool :=
  excessive_infeasibility o (vget lower j 0%float) (vget upper j 0%float).

Lemma infeasibleBounds_rows_spec (o : HighsOptions) (n : nat) (iRow : Z)
  (lower upper : list double) (count : Z * Z) :
  0 <= iRow -> iRow + Z.of_nat n <= vsize lower -> vsize upper = vsize lower ->
  let '(lower', upper', count') := infeasibleBounds_rows o n iRow (lower, upper, count) in
  vsize lower' = vsize lower /\ vsize upper' = vsize lower /\
  (forall j, (vget lower' j 0%float, vget upper' j 0%float) =
             if in_block iRow n j then assess_entry o lower upper j
             else (vget lower j 0%float, vget upper j 0%float)) /\
  fst count' = fst count + count_from (excessive_entry o lower upper) n iRow.
Proof.
  revert iRow lower upper count.
  induction n as [|n IH]; intros iRow lower upper count H0 Hn Hs;
    cbn [infeasibleBounds_rows count_from].
  - split; [reflexivity|]. split; [exact Hs|]. split; [|lia]. intros j.
    unfold in_block.
    destruct (Z.leb_spec iRow j), (Z.ltb_spec j (iRow + Z.of_nat 0)); cbn; try reflexivity; lia.
  - set (l := vget lower iRow 0%float). set (u := vget upper iRow 0%float).
    (* the step at [iRow] *)
    assert (Hstep : exists lower1 upper1 count1,
      (if (u <? l)%float
       then let '(_, (lower0, upper0), count0) := infeasibleBoundOk o l u count in
            (vset lower iRow lower0, vset upper iRow upper0, count0)
       else (lower, upper, count)) = (lower1, upper1, count1) /\
      vsize lower1 = vsize lower /\ vsize upper1 = vsize lower /\
      (forall j, (vget lower1 j 0%float, vget upper1 j 0%float) =
                 if j =? iRow then assessed o l u
                 else (vget lower j 0%float, vget upper j 0%float)) /\
      fst count1 = fst count + (if excessive_infeasibility o l u then 1 else 0)).
    { destruct (u <? l)%float eqn:Elt.
      - pose proof (@infeasibleBoundOk_spec o l u count Elt) as Hsp.
        destruct (infeasibleBoundOk o l u count) as [[ok [l' u']] count'].
        destruct Hsp as (_ & Hb & Hc). exists (vset lower iRow l'), (vset upper iRow u'), count'.
        split; [reflexivity|]. rewrite !vsize_vset. split; [reflexivity|].
        split; [exact Hs|]. split; [|exact Hc]. intros j.
        rewrite !vget_vset by lia. destruct (j =? iRow); [|reflexivity].
        unfold assessed. rewrite Hb. reflexivity.
      - exists lower, upper, count. split; [reflexivity|]. split; [reflexivity|].
        split; [exact Hs|]. split.
        + intros j. destruct (Z.eqb_spec j iRow) as [->|_]; [|reflexivity].
          unfold assessed, small_infeasibility. fold l u. rewrite Elt. reflexivity.
        + unfold excessive_infeasibility. rewrite Elt. cbn. lia. }
    destruct Hstep as (lower1 & upper1 & count1 & E & S1 & S2 & V1 & C1).
    fold l u. rewrite E.
    pose proof (IH (iRow + 1) lower1 upper1 count1 ltac:(lia) ltac:(rewrite S1; lia)
                   ltac:(rewrite S1, S2; reflexivity)) as H2.
    destruct (infeasibleBounds_rows o n (iRow + 1) (lower1, upper1, count1))
      as [[lower' upper'] count'].
    destruct H2 as (S1' & S2' & V2 & C2).
    assert (Hsame : forall j, j <> iRow ->
              vget lower1 j 0%float = vget lower j 0%float /\
              vget upper1 j 0%float = vget upper j 0%float).
    { intros j Hj. pose proof (V1 j) as Hv.
      destruct (Z.eqb_spec j iRow); [contradiction|].
      injection Hv as -> ->. split; reflexivity. }
    split; [rewrite S1'; exact S1|]. split; [rewrite S2'; exact S1|]. split.
    + intros j. rewrite V2. unfold in_block.
      destruct (Z.eq_dec j iRow) as [->|Hne].
      * destruct (Z.leb_spec (iRow + 1) iRow); [lia|]. cbn [andb].
        rewrite Z.leb_refl. destruct (Z.ltb_spec iRow (iRow + Z.of_nat (S n))); [|lia].
        cbn [andb]. rewrite V1, Z.eqb_refl. reflexivity.
      * destruct (Hsame j Hne) as [El Eu]. unfold assess_entry. rewrite El, Eu.
        destruct (Z.leb_spec (iRow + 1) j), (Z.ltb_spec j (iRow + 1 + Z.of_nat n)),
          (Z.leb_spec iRow j), (Z.ltb_spec j (iRow + Z.of_nat (S n))); cbn [andb];
          try reflexivity; lia.
    + rewrite C2, C1. unfold excessive_entry at 2. fold l u.
      rewrite (@count_from_ext (excessive_entry o lower1 upper1) (excessive_entry o lower upper))
        by (intros j Hj; unfold excessive_entry;
            destruct (Hsame j ltac:(lia)) as [-> ->]; reflexivity).
      lia.
Qed.

(** Without integrality the loop over the columns does what the loop over
    the rows does. *)
Lemma infeasibleBounds_cols_rows (o : HighsOptions) (n : nat) (iCol : Z) (st : BoundsState) :
  infeasibleBounds_cols o [] n iCol st = infeasibleBounds_rows o n iCol st.
Proof.
  revert iCol st. induction n as [|n IH]; intros iCol [[lower upper] count];
    cbn [infeasibleBounds_cols infeasibleBounds_rows]; [reflexivity|].
  change (0 <? vsize (@nil HighsVarType.t)) with false. cbn [assessed_col_bounds].
  destruct (vget upper iCol 0 <? vget lower iCol 0)%float eqn:Elt; [|apply IH].
  pose proof (@infeasibleBoundOk_spec o _ _ count Elt) as Hsp.
  destruct (infeasibleBoundOk o _ _ count) as [[ok [l' u']] count'].
  destruct Hsp as (Hok & Hb & _).
  destruct ok; [apply IH|].
  (* not acceptable: the lambda has left the bounds as they were *)
  symmetry in Hok. apply negb_false_iff in Hok.
  assert (Hsmall : small_infeasibility o (vget lower iCol 0%float) (vget upper iCol 0%float)
                   = false).
  { unfold excessive_infeasibility in Hok. unfold small_infeasibility.
    destruct (vget upper iCol 0 <? vget lower iCol 0)%float;
      destruct (0 <=? vget upper iCol 0 - vget lower iCol 0)%float;
      destruct (- primal_feasibility_tolerance o <?
                vget upper iCol 0 - vget lower iCol 0)%float;
      cbn in *; congruence. }
  rewrite Hsmall in Hb. injection Hb as -> ->.
  rewrite !vset_vget. apply IH.
Qed.

(** X9.  infeasibleBoundsOk for an LP without integrality whose bound
    vectors match its dimensions: the bounds of a column or a row with
    [lower > upper] by less than the primal feasibility tolerance are both set
    to one value (the bound that is an integer, else the middle) and all other
    bounds are left as they are; the answer is true exactly when no column or
    row has [lower > upper] by the tolerance or more, and then no column or
    row is left with inconsistent bounds. *)
Theorem infeasibleBoundsOk_rectifies (h : Highs) :
  integrality_ (lp_ h) = [] ->
  vsize (col_lower_ (lp_ h)) = num_col_ (lp_ h) ->
  vsize (col_upper_ (lp_ h)) = num_col_ (lp_ h) ->
  vsize (row_lower_ (lp_ h)) = num_row_ (lp_ h) ->
  vsize (row_upper_ (lp_ h)) = num_row_ (lp_ h) ->
  let lp := lp_ h in
  let o := options_ h in
  let lp' := lp_ (snd (infeasibleBoundsOk h)) in
  (forall j, (vget (col_lower_ lp') j 0%float, vget (col_upper_ lp') j 0%float) =
             assess_entry o (col_lower_ lp) (col_upper_ lp) j) /\
  (forall j, (vget (row_lower_ lp') j 0%float, vget (row_upper_ lp') j 0%float) =
             assess_entry o (row_lower_ lp) (row_upper_ lp) j) /\
  (fst (infeasibleBoundsOk h) = true <->
   (forall j, 0 <= j < num_col_ lp ->
              excessive_entry o (col_lower_ lp) (col_upper_ lp) j = false) /\
   (forall j, 0 <= j < num_row_ lp ->
              excessive_entry o (row_lower_ lp) (row_upper_ lp) j = false)) /\
  (fst (infeasibleBoundsOk h) = true ->
   (forall j, 0 <= j < num_col_ lp ->
              inconsistent (vget (col_lower_ lp') j 0%float)
                           (vget (col_upper_ lp') j 0%float) = false) /\
   (forall j, 0 <= j < num_row_ lp ->
              inconsistent (vget (row_lower_ lp') j 0%float)
                           (vget (row_upper_ lp') j 0%float) = false)).
Proof.
  intros Hint Hcl Hcu Hrl Hru. cbv zeta.
  pose proof (vsize_nonneg (col_lower_ (lp_ h))) as Hnc.
  pose proof (vsize_nonneg (row_lower_ (lp_ h))) as Hnr.
  unfold infeasibleBoundsOk. rewrite Hint, infeasibleBounds_cols_rows.
  pose proof (@infeasibleBounds_rows_spec (options_ h) (Z.to_nat (num_col_ (lp_ h))) 0
                (col_lower_ (lp_ h)) (col_upper_ (lp_ h)) (0, 0)
                ltac:(lia) ltac:(lia) ltac:(lia)) as Hc.
  destruct (infeasibleBounds_rows (options_ h) (Z.to_nat (num_col_ (lp_ h))) 0 _)
    as [[cl cu] count1].
  destruct Hc as (_ & _ & Vc & Cc).
  pose proof (@infeasibleBounds_rows_spec (options_ h) (Z.to_nat (num_row_ (lp_ h))) 0
                (row_lower_ (lp_ h)) (row_upper_ (lp_ h)) count1
                ltac:(lia) ltac:(lia) ltac:(lia)) as Hr.
  destruct (infeasibleBounds_rows (options_ h) (Z.to_nat (num_row_ (lp_ h))) 0 _)
    as [[rl ru] count2].
  destruct Hr as (_ & _ & Vr & Cr).
  cbn [fst snd set_lp lp_ set_col_lower_ set_col_upper_ set_row_lower_ set_row_upper_
       col_lower_ col_upper_ row_lower_ row_upper_].
  (* outside its range a vector reads as zero, and zero bounds are left alone *)
  assert (Hout : forall (lower upper : list double) j,
            vsize upper = vsize lower -> ~ (0 <= j < vsize lower) ->
            assess_entry (options_ h) lower upper j =
            (vget lower j 0%float, vget upper j 0%float)).
  { intros lower upper j Hs Hj. unfold assess_entry, assessed, small_infeasibility.
    assert (El : vget lower j 0%float = 0%float).
    { unfold vget, vsize in *. destruct (Z.ltb_spec j 0); [reflexivity|].
      apply nth_overflow. lia. }
    assert (Eu : vget upper j 0%float = 0%float).
    { unfold vget, vsize in *. destruct (Z.ltb_spec j 0); [reflexivity|].
      apply nth_overflow. lia. }
    rewrite El, Eu. reflexivity. }
  assert (Vc' : forall j, (vget cl j 0%float, vget cu j 0%float) =
                assess_entry (options_ h) (col_lower_ (lp_ h)) (col_upper_ (lp_ h)) j).
  { intros j. rewrite Vc. unfold in_block.
    destruct (Z.leb_spec 0 j), (Z.ltb_spec j (0 + Z.of_nat (Z.to_nat (num_col_ (lp_ h)))));
      cbn [andb]; try reflexivity; symmetry; apply Hout; lia. }
  assert (Vr' : forall j, (vget rl j 0%float, vget ru j 0%float) =
                assess_entry (options_ h) (row_lower_ (lp_ h)) (row_upper_ (lp_ h)) j).
  { intros j. rewrite Vr. unfold in_block.
    destruct (Z.leb_spec 0 j), (Z.ltb_spec j (0 + Z.of_nat (Z.to_nat (num_row_ (lp_ h)))));
      cbn [andb]; try reflexivity; symmetry; apply Hout; lia. }
  assert (Hok : (fst count2 =? 0) = true <->
    (forall j, 0 <= j < num_col_ (lp_ h) ->
       excessive_entry (options_ h) (col_lower_ (lp_ h)) (col_upper_ (lp_ h)) j = false) /\
    (forall j, 0 <= j < num_row_ (lp_ h) ->
       excessive_entry (options_ h) (row_lower_ (lp_ h)) (row_upper_ (lp_ h)) j = false)).
  { rewrite Z.eqb_eq, Cr, Cc. cbn [fst].
    pose proof (count_from_nonneg
                  (excessive_entry (options_ h) (col_lower_ (lp_ h)) (col_upper_ (lp_ h)))
                  (Z.to_nat (num_col_ (lp_ h))) 0) as P1.
    pose proof (count_from_nonneg
                  (excessive_entry (options_ h) (row_lower_ (lp_ h)) (row_upper_ (lp_ h)))
                  (Z.to_nat (num_row_ (lp_ h))) 0) as P2.
    split.
    - intros H. split; intros j Hj.
      + apply (proj1 (count_from_zero _ (Z.to_nat (num_col_ (lp_ h))) 0)); lia.
      + apply (proj1 (count_from_zero _ (Z.to_nat (num_row_ (lp_ h))) 0)); lia.
    - intros [H1 H2].
      rewrite (proj2 (count_from_zero _ (Z.to_nat (num_col_ (lp_ h))) 0))
        by (intros j Hj; apply H1; lia).
      rewrite (proj2 (count_from_zero _ (Z.to_nat (num_row_ (lp_ h))) 0))
        by (intros j Hj; apply H2; lia).
      reflexivity. }
  split; [exact Vc'|]. split; [exact Vr'|]. split; [exact Hok|].
  intros H. apply Hok in H. destruct H as [H1 H2]. split; intros j Hj.
  - pose proof (f_equal fst (Vc' j)) as E1. pose proof (f_equal snd (Vc' j)) as E2.
    cbn [fst snd] in E1, E2. rewrite E1, E2. apply assessed_consistent. apply H1. exact Hj.
  - pose proof (f_equal fst (Vr' j)) as E1. pose proof (f_equal snd (Vr' j)) as E2.
    cbn [fst snd] in E1, E2. rewrite E1, E2. apply assessed_consistent. apply H2. exact Hj.
Qed.

End InfeasibleBounds.

(** [example_highs] with bounds 1.00000001 <= x0 <= 1, inconsistent by less
    than the primal feasibility tolerance 1e-7. *)
Definition example_highs_small_infeasibility : Highs :=
  set_lp example_highs
    (set_col_upper_
       (set_col_lower_ example_lp [0x1.0000002af31dcp+0%float; 0%float])
       [1%float; 4%float]).

Lemma infeasibleBoundsOk_rectifies_witness :
  let r := infeasibleBoundsOk example_floor example_ceil false 0%float
             example_highs_small_infeasibility in
  fst r = true /\
  (vget (col_lower_ (lp_ (snd r))) 0 0%float, vget (col_upper_ (lp_ (snd r))) 0 0%float) =
  (1%float, 1%float) /\
  inconsistent (vget (col_lower_ (lp_ (snd r))) 0 0%float)
               (vget (col_upper_ (lp_ (snd r))) 0 0%float) = false.
Proof.
  set (h := example_highs_small_infeasibility).
  assert (H1 : integrality_ (lp_ h) = []) by (vm_compute; reflexivity).
  assert (H2 : vsize (col_lower_ (lp_ h)) = num_col_ (lp_ h)) by (vm_compute; reflexivity).
  assert (H3 : vsize (col_upper_ (lp_ h)) = num_col_ (lp_ h)) by (vm_compute; reflexivity).
  assert (H4 : vsize (row_lower_ (lp_ h)) = num_row_ (lp_ h)) by (vm_compute; reflexivity).
  assert (H5 : vsize (row_upper_ (lp_ h)) = num_row_ (lp_ h)) by (vm_compute; reflexivity).
  pose proof (@infeasibleBoundsOk_rectifies example_floor example_ceil false 0%float h
                H1 H2 H3 H4 H5) as H.
  cbv zeta in H. destruct H as (Hc & _ & _ & Hok).
  assert (Ht : fst (infeasibleBoundsOk example_floor example_ceil false 0%float h) = true)
    by (vm_compute; reflexivity).
  pose proof (Hc 0) as Hc0.
  assert (H0 : 0 <= 0 < num_col_ (lp_ h)) by (vm_compute; split; [discriminate | reflexivity]).
  pose proof (proj1 (Hok Ht) 0 H0) as Hi.
  vm_compute in Hc0. cbv zeta.
  split; [exact Ht|]. split; [|exact Hi].
  vm_compute. exact Hc0.
Defined.

(* ================================================================== *)
(** * Free-format MPS reader: the rows that parseRows records          *)
(* ================================================================== *)

Module MpsRows.
Import MpsParser.

Local Open Scope string_scope.

(** The row vectors and the name table of the reader agree: every vector
    has [num_row] entries; an index in the table that is not negative is the
    first row of that name; and the name of every row is in the table, with
    the index of that row or of an earlier one, or with the negative index
    of the objective or of a free row of the same name. *)
Record rows_ok (st : HMpsFF) : Prop := {
  ro_lower : vsize (row_lower st) = num_row st;
  ro_upper : vsize (row_upper st) = num_row st;
  ro_type : vsize (row_type st) = num_row st;
  ro_names : vsize (row_names st) = num_row st;
  ro_first : forall name i,
      map_find (rowname2idx st) name = Some i -> (0 <= i)%Z ->
      (i < num_row st)%Z /\ vget (row_names st) i "" = name /\
      forall j, (0 <= j < i)%Z -> vget (row_names st) j "" <> name;
  ro_found : forall j,
      (0 <= j < num_row st)%Z ->
      exists i, map_find (rowname2idx st) (vget (row_names st) j "") = Some i /\ (i <= j)%Z
}.

Lemma map_find_app (m : list (string * Z)) (k k' : string) (v : Z) :
  map_find (m ++ [(k, v)]) k' =
  match map_find m k' with
  | Some i => Some i
  | None => if String.eqb k k' then Some v else None
  end.
Proof.
  induction m as [|[k0 v0] m IH]; cbn [app map_find]; [reflexivity|].
  destruct (String.eqb k0 k'); [reflexivity | exact IH].
Qed.

(** After [emplace], a name that was in the table has the index it had, and
    the new name has the index given, if it was not there. *)
Lemma map_find_emplace (m : list (string * Z)) (k k' : string) (v : Z) :
  map_find (snd (emplace m k v)) k' =
  match map_find m k' with
  | Some i => Some i
  | None => if String.eqb k k' then Some v else None
  end.
Proof.
  unfold emplace. destruct (map_find m k) as [i|] eqn:E; cbn [snd].
  - destruct (map_find m k') as [i'|] eqn:E'; [reflexivity|].
    destruct (String.eqb_spec k k') as [->|_]; [congruence | reflexivity].
  - apply map_find_app.
Qed.

Lemma fst_emplace (m : list (string * Z)) (k : string) (v : Z) :
  fst (emplace m k v) = match map_find m k with Some _ => false | None => true end.
Proof. unfold emplace. destruct (map_find m k); reflexivity. Qed.

(** A name with a negative index changes nothing for the rows. *)
Lemma rows_ok_emplace_negative (st : HMpsFF) (name : string) (v : Z) :
  (v < 0)%Z -> rows_ok st ->
  forall st',
    row_lower st' = row_lower st -> row_upper st' = row_upper st ->
    row_type st' = row_type st -> row_names st' = row_names st ->
    num_row st' = num_row st ->
    rowname2idx st' = snd (emplace (rowname2idx st) name v) ->
    rows_ok st'.
Proof.
  intros Hv [Hl Hu Ht Hn Hf Hx] st' El Eu Et En Er Em.
  constructor; rewrite ?El, ?Eu, ?Et, ?En, ?Er, ?Em; auto.
  - intros name' i Hfind Hi. rewrite map_find_emplace in Hfind.
    destruct (map_find (rowname2idx st) name') as [i'|] eqn:E.
    + injection Hfind as <-. apply Hf; assumption.
    + destruct (String.eqb name name'); [injection Hfind as <-; lia | discriminate].
  - intros j Hj. destruct (Hx j Hj) as (i & Hi & Hle). exists i.
    rewrite map_find_emplace, Hi. split; [reflexivity | exact Hle].
Qed.

(** [st'] has the rows of [st]. *)
Record same_rows (st st' : HMpsFF) : Prop := {
  sr_lower : row_lower st' = row_lower st;
  sr_upper : row_upper st' = row_upper st;
  sr_type : row_type st' = row_type st;
  sr_names : row_names st' = row_names st;
  sr_num_row : num_row st' = num_row st;
  sr_index : rowname2idx st' = rowname2idx st
}.

Lemma same_rows_refl (st : HMpsFF) : same_rows st st.
Proof. constructor; reflexivity. Qed.

Lemma rows_ok_same (st st' : HMpsFF) : same_rows st st' -> rows_ok st -> rows_ok st'.
Proof.
  intros [El Eu Et En Er Em] [Hl Hu Ht Hn Hf Hx].
  constructor; rewrite ?El, ?Eu, ?Et, ?En, ?Er, ?Em; auto.
Qed.

(** A row is added: its bounds and type by [push_row], its name by
    [record_row_name]. *)
Lemma rows_ok_add_row (st st' : HMpsFF) (lower upper : double) (type : Boundtype.t)
  (name : string) :
  rows_ok st ->
  row_lower st' = (row_lower st ++ [lower])%list ->
  row_upper st' = (row_upper st ++ [upper])%list ->
  row_type st' = (row_type st ++ [type])%list ->
  row_names st' = (row_names st ++ [name])%list ->
  num_row st' = (num_row st + 1)%Z ->
  rowname2idx st' = snd (emplace (rowname2idx st) name (num_row st)) ->
  rows_ok st'.
Proof.
  intros [Hl Hu Ht Hn Hf Hx] El Eu Et En Er Em.
  pose proof (vsize_nonneg (row_names st)) as Hnn.
  assert (Hone : forall (A : Type) (x : A), vsize [x] = 1%Z) by reflexivity.
  constructor; rewrite ?El, ?Eu, ?Et, ?En, ?Er, ?Em, ?vsize_app, ?Hone; try lia.
  - intros name' i Hfind Hi. rewrite map_find_emplace in Hfind.
    destruct (map_find (rowname2idx st) name') as [i'|] eqn:E.
    + injection Hfind as <-. destruct (Hf name' i' E Hi) as (H1 & H2 & H3).
      split; [lia|]. split.
      * rewrite vget_app1 by lia. exact H2.
      * intros j Hj. rewrite vget_app1 by lia. apply H3. exact Hj.
    + destruct (String.eqb_spec name name') as [<-|_]; [|discriminate].
      injection Hfind as <-. split; [lia|]. split.
      * rewrite vget_app2 by lia. rewrite Hn, Z.sub_diag. reflexivity.
      * intros j Hj. rewrite vget_app1 by lia. intros Hname.
        destruct (Hx j Hj) as (i0 & Hi0 & _). rewrite Hname in Hi0. congruence.
  - intros j Hj. destruct (Z.lt_ge_cases j (num_row st)) as [Hlt|Hge].
    + destruct (Hx j ltac:(lia)) as (i & Hi' & Hle). exists i.
      rewrite vget_app1 by lia. rewrite map_find_emplace, Hi'. split; [reflexivity | exact Hle].
    + assert (j = num_row st) by lia. subst j.
      rewrite vget_app2 by lia. rewrite Hn, Z.sub_diag.
      change (vget [name] 0 "") with name. rewrite map_find_emplace.
      destruct (map_find (rowname2idx st) name) as [i|] eqn:E.
      * exists i. split; [reflexivity|].
        destruct (Z.lt_ge_cases i 0) as [Hneg|Hpos]; [lia|].
        destruct (Hf name i E Hpos) as (H1 & _). lia.
      * rewrite String.eqb_refl. exists (num_row st). split; [reflexivity | lia].
Qed.

Section Rows.

Variable is_empty_char : ascii -> bool.
Variable is_empty : string -> bool.
Variable is_end : string -> Z -> bool.
Variable first_word : string -> Z -> string.
Variable first_word_end : string -> Z -> Z.
Variable trim : string -> string.
Variable toupper : string -> string.
Variable wall_clock : nat -> double.

Lemma checkFirstWord_same_rows (st : HMpsFF) (strline : string) :
  same_rows st (snd (checkFirstWord is_empty_char is_end first_word_end toupper st strline)).
Proof.
  unfold checkFirstWord.
  destruct (_ || _); [apply same_rows_refl|].
  cbv zeta.
  match goal with
  | |- context [keyword_of ?w] => destruct (keyword_of w)
  end; cbn [snd];
  repeat match goal with
         | |- context [if ?b then _ else _] => destruct b
         end; cbn [snd]; constructor; reflexivity.
Qed.

Lemma timeout_same_rows (st : HMpsFF) : same_rows st (snd (timeout wall_clock st)).
Proof.
  unfold timeout, getWallTime. destruct (0 <? time_limit_ st)%float; constructor; reflexivity.
Qed.

(** The two steps that a line with a row takes. *)
Lemma record_row_name_rows_ok (st : HMpsFF) (hasobj : bool) (c : ascii) (rowname : string) :
  rows_ok st ->
  match row_type_letter st hasobj c with
  | None => True
  | Some (st1, hasobj1, isobj, isFreeRow) =>
      exists locals st',
        record_row_name st1 hasobj1 isobj isFreeRow rowname = Continue locals st' /\
        rows_ok st'
  end.
Proof.
  intros Hok. unfold row_type_letter.
  destruct (Ascii.eqb c "G"); [|destruct (Ascii.eqb c "E"); [|destruct (Ascii.eqb c "L");
    [|destruct (Ascii.eqb c "N"); [|exact I]]]].
  1-3: unfold record_row_name; cbn [negb andb]; eexists; eexists; (split; [reflexivity|]);
    match goal with
    | |- rows_ok (if ?b then _ else _) => destruct b
    end;
    (eapply rows_ok_add_row; [exact Hok | reflexivity ..]).
  destruct hasobj; cbn [negb].
  - (* a free row *)
    unfold record_row_name. eexists; eexists. split; [reflexivity|].
    eapply (@rows_ok_emplace_negative st rowname (-2)); [lia | exact Hok | reflexivity ..].
  - (* the objective *)
    unfold record_row_name. cbn [negb andb]. eexists; eexists. split; [reflexivity|].
    match goal with
    | |- rows_ok (if ?b then _ else _) => destruct b
    end;
    (eapply (@rows_ok_emplace_negative st rowname (-1)); [lia | exact Hok | reflexivity ..]).
Qed.

(** What a line of the ROWS section leaves, unless the line makes parseRows
    return for a name in fixed format. *)
Lemma parseRows_line_rows_ok (st : HMpsFF) (hasobj : bool) (strline : string) :
  rows_ok st ->
  match parseRows_line is_empty_char is_end first_word first_word_end trim toupper
                       st hasobj strline with
  | Continue _ st' => rows_ok st'
  | Return key st' =>
      detects_fixed_format is_empty_char is_end first_word_end toupper st hasobj strline
      = false -> rows_ok st'
  end.
Proof.
  intros Hok. unfold parseRows_line, detects_fixed_format.
  pose proof (checkFirstWord_same_rows st strline) as Hsame.
  destruct (checkFirstWord is_empty_char is_end first_word_end toupper st strline)
    as [fw st1]. cbn [snd] in Hsame.
  pose proof (rows_ok_same Hsame Hok) as Hok1.
  destruct (Parsekey.eqb (fw_key fw) Parsekey.kNone); cbn [negb andb].
  - pose proof (@record_row_name_rows_ok st1 hasobj (at_ strline (fw_start fw))
                  (first_word strline (HMpsFF.size_t_wrap (fw_start fw + 1))) Hok1) as Hrec.
    destruct (row_type_letter st1 hasobj (at_ strline (fw_start fw)))
      as [[[[st2 hasobj2] isobj] isFreeRow]|].
    + destruct (is_end strline _); cbn [negb].
      * destruct Hrec as (locals & st' & E & Hok'). rewrite E. exact Hok'.
      * discriminate.
    + intros _. exact Hok1.
  - intros _. destruct hasobj; cbn [negb]; [exact Hok1|].
    eapply (@rows_ok_emplace_negative st1 "artificial_empty_objective" (-1));
      [lia | exact Hok1 | reflexivity ..].
Qed.

Lemma parseRows_line_not_fixed (st : HMpsFF) (hasobj : bool) (strline : string)
  (key : Parsekey.t) (st' : HMpsFF) :
  parseRows_line is_empty_char is_end first_word first_word_end trim toupper
                 st hasobj strline = Return key st' ->
  key <> Parsekey.kFail -> key <> Parsekey.kFixedFormat ->
  detects_fixed_format is_empty_char is_end first_word_end toupper st hasobj strline = false.
Proof.
  intros E Hfail Hfixed.
  destruct (detects_fixed_format is_empty_char is_end first_word_end toupper st hasobj strline)
    eqn:Ed; [|reflexivity].
  destruct (@parseRows_line_detected is_empty_char is_end first_word first_word_end trim
              toupper st hasobj strline Ed) as [st0 E0].
  rewrite E0 in E. injection E as Ek _.
  destruct (8 <? size _)%Z; congruence.
Qed.

Lemma parseRows_loop_rows_ok (file : list string) (hasobj : bool) (st : HMpsFF) :
  rows_ok st ->
  let r := parseRows_loop is_empty_char is_empty is_end first_word first_word_end trim
                          toupper wall_clock file hasobj st in
  fst (fst r) <> Parsekey.kFail -> fst (fst r) <> Parsekey.kFixedFormat ->
  rows_ok (snd (fst r)).
Proof.
  revert hasobj st. induction file as [|line file IH]; intros hasobj st Hok;
    cbn [parseRows_loop].
  - cbn. congruence.
  - destruct (mps_line is_empty trim line) as [strline skip].
    destruct skip; [apply IH; exact Hok|].
    pose proof (timeout_same_rows st) as Hsame.
    destruct (timeout wall_clock st) as [late st1]. cbn [snd] in Hsame.
    pose proof (rows_ok_same Hsame Hok) as Hok1.
    destruct late; [cbn; intros _ _; exact Hok1|].
    pose proof (@parseRows_line_rows_ok st1 hasobj strline Hok1) as Hline.
    destruct (parseRows_line is_empty_char is_end first_word first_word_end trim toupper
                             st1 hasobj strline) as [key st2|hasobj2 st2] eqn:E.
    + cbn. intros Hfail Hfixed. apply Hline.
      exact (parseRows_line_not_fixed _ _ _ E Hfail Hfixed).
    + apply IH. exact Hline.
Qed.

(** X10.  parseRows, started on a reader whose row vectors and name table
    agree, leaves them in agreement whenever it returns a keyword other than
    kFail and kFixedFormat: the bounds, types and names have [num_row]
    entries, and a name looked up in the table gives the first row of that
    name, unless the objective or a free row had the name before. *)
Theorem parseRows_keeps_rows (st : HMpsFF) (file : list string) :
  rows_ok st ->
  let r := parseRows is_empty_char is_empty is_end first_word first_word_end trim
                     toupper wall_clock st file in
  fst (fst r) <> Parsekey.kFail -> fst (fst r) <> Parsekey.kFixedFormat ->
  rows_ok (snd (fst r)).
Proof.
  intros Hok. unfold parseRows. apply parseRows_loop_rows_ok.
  apply (rows_ok_same (st := st)); [constructor; reflexivity | exact Hok].
Qed.

(** ** A file without a section *)

Variable parseSection :
  Parsekey.t -> HMpsFF -> list string -> Parsekey.t * HMpsFF * list string.

Lemma parse_loop_only_comments (file : list string) (fuel : nat) (keyword : Parsekey.t)
  (st : HMpsFF) :
  keyword = Parsekey.kNone \/ keyword = Parsekey.kComment ->
  Forall (fun l => snd (mps_line is_empty trim l) = true) file ->
  (List.length file < fuel)%nat ->
  parse_loop is_empty_char is_empty is_end first_word first_word_end trim toupper
             wall_clock parseSection fuel keyword st file
  = Some (Exited Parsekey.kFail st).
Proof.
  revert fuel keyword. induction file as [|line file IH]; intros fuel keyword Hk Hskip Hfuel.
  - destruct fuel as [|fuel]; [cbn in Hfuel; lia|].
    destruct Hk as [-> | ->]; cbn [parse_loop parse_step cannotParseSection parseDefault];
      destruct fuel; reflexivity.
  - destruct fuel as [|fuel]; [cbn in Hfuel; lia|].
    inversion Hskip as [|? ? Hl Hrest]; subst.
    assert (E : parse_step is_empty_char is_empty is_end first_word first_word_end trim
                           toupper wall_clock parseSection keyword st (line :: file)
                = inr (Parsekey.kComment, st, file)).
    { destruct Hk as [-> | ->]; cbn [parse_step cannotParseSection parseDefault];
        destruct (mps_line is_empty trim line) as [strline skip]; cbn [snd] in Hl;
        subst skip; reflexivity. }
    cbn [parse_loop]. rewrite E. apply IH; [right; reflexivity | exact Hrest |].
    cbn [List.length] in Hfuel. lia.
Qed.

(** X11.  parse on a file that has only comment lines and blank lines, or
    no line at all, returns kParserError: the end of the file is reached
    without a section, which is kFail. *)
Theorem parse_only_comments (st : HMpsFF) (file : list string) :
  Forall (fun l => snd (mps_line is_empty trim l) = true) file ->
  option_map fst
    (parse is_empty_char is_empty is_end first_word first_word_end trim toupper
           wall_clock parseSection (S (List.length file)) st (Some file))
  = Some FreeFormatParserReturnCode.kParserError.
Proof.
  intros Hskip. unfold parse.
  rewrite parse_loop_only_comments by (auto; lia). reflexivity.
Qed.

End Rows.

(** ** Examples *)

(** A ROWS section with an objective, three rows, two of which have the
    same name, and a free row. *)
Definition example_rows : list string :=
  [" N  COST"; " G  R1"; " L  R2"; " E  R1"; " N  FREE"; "COLUMNS"].

Lemma parseRows_keeps_rows_witness :
  let r := parseRows is_space example_is_empty example_is_end example_first_word
                     example_first_word_end example_trim example_toupper
                     example_wall_clock example_reader example_rows in
  fst (fst r) = Parsekey.kCols /\
  rows_ok (snd (fst r)) /\
  row_names (snd (fst r)) = ["R1"; "R2"; "R1"] /\
  map_find (rowname2idx (snd (fst r))) "R1" = Some 0%Z /\
  map_find (rowname2idx (snd (fst r))) "COST" = Some (-1)%Z /\
  map_find (rowname2idx (snd (fst r))) "FREE" = Some (-2)%Z.
Proof.
  set (r := parseRows is_space example_is_empty example_is_end example_first_word
                      example_first_word_end example_trim example_toupper
                      example_wall_clock example_reader example_rows).
  assert (H0 : rows_ok example_reader).
  { constructor; try reflexivity.
    - intros name i H. vm_compute in H. discriminate.
    - intros j Hj. vm_compute in Hj. destruct Hj as [H1 H2].
      destruct j; try discriminate; exfalso; apply H1; reflexivity. }
  assert (H1 : fst (fst r) <> Parsekey.kFail) by (vm_compute; discriminate).
  assert (H2 : fst (fst r) <> Parsekey.kFixedFormat) by (vm_compute; discriminate).
  pose proof (@parseRows_keeps_rows is_space example_is_empty example_is_end
                example_first_word example_first_word_end example_trim example_toupper
                example_wall_clock example_reader example_rows H0 H1 H2) as H.
  split; [vm_compute; reflexivity|]. split; [exact H|].
  vm_compute. repeat split; reflexivity.
Defined.

Definition example_comments : list string := ["* nothing but a comment"; "   "].

Lemma parse_only_comments_witness :
  option_map fst (example_parse 3 example_reader (Some example_comments))
  = Some FreeFormatParserReturnCode.kParserError.
Proof.
  assert (H : Forall (fun l => snd (mps_line example_is_empty example_trim l) = true)
                     example_comments)
    by (repeat (constructor; [vm_compute; reflexivity|]); constructor).
  pose proof (@parse_only_comments is_space example_is_empty example_is_end example_first_word
                example_first_word_end example_trim example_toupper example_wall_clock
                example_parseSection example_reader example_comments H) as P.
  vm_compute in P |- *. exact P.
Defined.

End MpsRows.

(* ================================================================== *)
(** * Infinite costs: refusal and round trip (handleInfCost,
      restoreInfCost)                                                  *)
(* ================================================================== *)

Section InfCostRoundTrip.

Variable isMip : HighsLp -> bool.
Variable ceil floor : double -> double.
Variable setHighsModelStatusAndClearSolutionAndBasis :
  Highs -> HighsModelStatus.t -> Highs.
Variable highsStatusFromHighsModelStatus : HighsModelStatus.t -> HighsStatus.t.

(** [HighsLp::isMip] looks at the integrality of the columns only, and
    setHighsModelStatusAndClearSolutionAndBasis sets the model status
    without touching the LP. *)
Hypothesis isMip_integrality :
  forall lp lp',
    integrality_ lp = integrality_ lp' -> num_col_ lp = num_col_ lp' ->
    isMip lp = isMip lp'.
Hypothesis setHighsModelStatus_lp :
  forall h m, lp_ (setHighsModelStatusAndClearSolutionAndBasis h m) = lp_ h.
Hypothesis setHighsModelStatus_status :
  forall h m, model_status_ (setHighsModelStatusAndClearSolutionAndBasis h m) = m.

(** X12.  handleInfCost returns kOk or kError, never a warning.  It
    returns kError exactly when the LP is flagged as having infinite costs
    and some column with an infinite cost cannot be fixed at the bound its
    cost drives it to, that bound being infinite; and a refusal is atomic:
    the costs, bounds, log and flag are as they were, even if columns before
    the offending one could have been handled. *)
Theorem handleInfCost_refusal_atomic (h : Highs) :
  let r := handleInfCost isMip ceil floor h in
  (fst r = HighsStatus.kOk \/ fst r = HighsStatus.kError) /\
  (fst r = HighsStatus.kError <->
   has_infinite_cost_ (lp_ h) = true /\
   inf_cost_cols_ok isMip ceil floor (infinite_cost (options_ h)) (lp_ h)
                    (Z.to_nat (num_col_ (lp_ h))) 0 = false) /\
  (fst r = HighsStatus.kError -> snd r = h).
Proof.
  cbv zeta. destruct (has_infinite_cost_ (lp_ h)) eqn:Ef.
  - destruct (@handleInfCost_error_unmodified isMip ceil floor isMip_integrality h Ef)
      as [Hs Hu].
    destruct (inf_cost_cols_ok isMip ceil floor (infinite_cost (options_ h)) (lp_ h)
                               (Z.to_nat (num_col_ (lp_ h))) 0) eqn:Eok;
      rewrite Hs.
    + split; [left; reflexivity|]. split; [|discriminate].
      split; [discriminate | intros [_ H]; discriminate].
    + split; [right; reflexivity|]. split; [|intros _; apply Hu; reflexivity].
      split; [intros _; split; reflexivity | reflexivity].
  - unfold handleInfCost. rewrite Ef. cbn [negb fst snd].
    split; [left; reflexivity|]. split; [|discriminate].
    split; [discriminate | intros [H _]; discriminate].
Qed.

(** X13.  The round trip around a solve.  For an LP flagged as having
    infinite costs, with an empty log, in which no column with an infinite
    cost has its bounds rounded (it is not an integer column of a MIP, or
    its bounds are integers): when handleInfCost accepts the LP, and the
    solve in between leaves the LP as handleInfCost made it, restoreInfCost
    gives back the costs and both bounds of every column, whatever the
    return status it is called with. *)
Theorem handleInfCost_restoreInfCost_round_trip (h h2 : Highs) (st : HighsStatus.t) :
  has_infinite_cost_ (lp_ h) = true ->
  mods_ (lp_ h) = empty_mods ->
  no_rounding isMip ceil floor (infinite_cost (options_ h)) (lp_ h) ->
  fst (handleInfCost isMip ceil floor h) = HighsStatus.kOk ->
  lp_ h2 = lp_ (snd (handleInfCost isMip ceil floor h)) ->
  let h3 := snd (restoreInfCost setHighsModelStatusAndClearSolutionAndBasis
                                highsStatusFromHighsModelStatus h2 st) in
  col_cost_ (lp_ h3) = col_cost_ (lp_ h) /\
  col_lower_ (lp_ h3) = col_lower_ (lp_ h) /\
  col_upper_ (lp_ h3) = col_upper_ (lp_ h).
Proof.
  intros Hf Hm Hnr Hok Hlp. cbv zeta.
  exact (@restoreInfCost_restores_original isMip ceil floor
           setHighsModelStatusAndClearSolutionAndBasis highsStatusFromHighsModelStatus
           isMip_integrality setHighsModelStatus_lp h h2 st Hf Hm Hnr Hok Hlp).
Qed.

(** X14.  What restoreInfCost reports.  With an empty log it returns the
    status and the state it was given.  With entries in the log, a model
    status other than kInfeasible is kept and the status given is returned;
    a model status kInfeasible, which was found for the model with the
    columns fixed, becomes kUnknown, and the status returned is the one that
    belongs to kUnknown, not the one given. *)
Theorem restoreInfCost_reports (h : Highs) (st : HighsStatus.t) :
  let r := restoreInfCost setHighsModelStatusAndClearSolutionAndBasis
                          highsStatusFromHighsModelStatus h st in
  (save_inf_cost_variable_index (mods_ (lp_ h)) = [] -> r = (st, h)) /\
  (model_status_ h <> HighsModelStatus.kInfeasible ->
   model_status_ (snd r) = model_status_ h /\ fst r = st) /\
  (save_inf_cost_variable_index (mods_ (lp_ h)) <> [] ->
   model_status_ h = HighsModelStatus.kInfeasible ->
   model_status_ (snd r) = HighsModelStatus.kUnknown /\
   fst r = highsStatusFromHighsModelStatus HighsModelStatus.kUnknown).
Proof.
  cbv zeta. split; [|split].
  - intros E. unfold restoreInfCost. rewrite E. reflexivity.
  - apply restoreInfCost_other_status.
  - apply restoreInfCost_infeasible_unknown. exact setHighsModelStatus_status.
Qed.

End InfCostRoundTrip.

(** The refusal on an example: maximising with a cost at the infinite-cost
    threshold and an infinite upper bound. *)
Definition inf_cost_highs_refused : Highs :=
  set_lp inf_cost_highs
    (set_col_upper_ (set_sense_ inf_cost_lp ObjSense.kMaximize) [kHighsInf]).

Lemma handleInfCost_refusal_atomic_witness :
  fst (example_handleInfCost inf_cost_highs_refused) = HighsStatus.kError /\
  snd (example_handleInfCost inf_cost_highs_refused) = inf_cost_highs_refused.
Proof.
  pose proof (@handleInfCost_refusal_atomic example_isMip example_ceil example_floor
                example_isMip_integrality inf_cost_highs_refused) as H.
  cbv zeta in H. destruct H as (_ & _ & H).
  assert (E : fst (handleInfCost example_isMip example_ceil example_floor
                                 inf_cost_highs_refused) = HighsStatus.kError)
    by (vm_compute; reflexivity).
  split; [exact E | exact (H E)].
Defined.

Lemma handleInfCost_restoreInfCost_round_trip_witness :
  let h := inf_cost_highs_integral in
  let h1 := snd (example_handleInfCost h) in
  let h3 := snd (example_restoreInfCost h1 HighsStatus.kOk) in
  col_cost_ (lp_ h1) = [0%float] /\ col_upper_ (lp_ h1) = [1%float] /\
  col_cost_ (lp_ h3) = [1e20%float] /\
  col_lower_ (lp_ h3) = [1%float] /\ col_upper_ (lp_ h3) = [3%float].
Proof.
  assert (H1 : has_infinite_cost_ (lp_ inf_cost_highs_integral) = true)
    by (vm_compute; reflexivity).
  assert (H2 : mods_ (lp_ inf_cost_highs_integral) = empty_mods)
    by (vm_compute; reflexivity).
  assert (H3 : no_rounding example_isMip example_ceil example_floor
                 (infinite_cost (options_ inf_cost_highs_integral))
                 (lp_ inf_cost_highs_integral)).
  { intros j. destruct (Z.eq_dec j 0) as [-> | Hne]; [reflexivity|].
    cbn [inf_cost_highs_integral lp_ set_lp col_cost_ set_col_upper_ set_col_lower_
         inf_cost_lp options_ inf_cost_highs].
    rewrite vget_singleton by assumption.
    intros Hc. exfalso. vm_compute in Hc. discriminate. }
  assert (H4 : fst (handleInfCost example_isMip example_ceil example_floor
                                  inf_cost_highs_integral) = HighsStatus.kOk)
    by (vm_compute; reflexivity).
  pose proof (@handleInfCost_restoreInfCost_round_trip example_isMip example_ceil
                example_floor example_setHighsModelStatusAndClearSolutionAndBasis
                example_highsStatusFromHighsModelStatus example_isMip_integrality
                (fun h m => eq_refl) inf_cost_highs_integral
                (snd (handleInfCost example_isMip example_ceil example_floor
                                    inf_cost_highs_integral))
                HighsStatus.kOk H1 H2 H3 H4 eq_refl) as H.
  cbv zeta in H. destruct H as (Hc & Hl & Hu). cbv zeta.
  split; [vm_compute; reflexivity|]. split; [vm_compute; reflexivity|].
  split; [|split].
  - vm_compute in Hc |- *. exact Hc.
  - vm_compute in Hl |- *. exact Hl.
  - vm_compute in Hu |- *. exact Hu.
Defined.

Lemma restoreInfCost_reports_witness :
  let h1 := set_model_status (snd (example_handleInfCost inf_cost_highs))
                             HighsModelStatus.kInfeasible in
  model_status_ (snd (example_restoreInfCost h1 HighsStatus.kOk)) =
    HighsModelStatus.kUnknown /\
  fst (example_restoreInfCost h1 HighsStatus.kOk) = HighsStatus.kWarning.
Proof.
  cbv zeta.
  set (h1 := set_model_status (snd (example_handleInfCost inf_cost_highs))
                              HighsModelStatus.kInfeasible).
  pose proof (@restoreInfCost_reports example_setHighsModelStatusAndClearSolutionAndBasis
                example_highsStatusFromHighsModelStatus (fun h m => eq_refl)
                h1 HighsStatus.kOk) as H.
  cbv zeta in H. destruct H as (_ & _ & H).
  assert (E1 : save_inf_cost_variable_index (mods_ (lp_ h1)) <> [])
    by (vm_compute; discriminate).
  assert (E2 : model_status_ h1 = HighsModelStatus.kInfeasible)
    by (vm_compute; reflexivity).
  destruct (H E1 E2) as [Hm Hs]. split.
  - vm_compute in Hm |- *. exact Hm.
  - vm_compute in Hs |- *. exact Hs.
Defined.

(* ================================================================== *)
(** * Changes of costs and bounds: the basis and the error paths
      (changeCostsInterface, changeColBoundsInterface,
      changeRowBoundsInterface)                                        *)
(* ================================================================== *)

Lemma setNonbasicStatusInterface_basis_kept (highs_isInfinity : double -> bool)
  (h : Highs) (ic : HighsIndexCollection) (columns : bool) :
  basis_partition_kept
    (basis_ h, ekk_basis_ (ekk_instance_ h))
    (basis_ (setNonbasicStatusInterface highs_isInfinity h ic columns),
     ekk_basis_ (ekk_instance_ (setNonbasicStatusInterface highs_isInfinity h ic columns))).
Proof.
  unfold setNonbasicStatusInterface.
  destruct (valid (basis_ h)); cbn [negb]; [|apply basis_partition_kept_refl].
  destruct (limits ic) as [from_k to_k].
  pose proof (setNonbasicStatus_loop_partition highs_isInfinity (turns from_k to_k) ic
                columns (if columns then num_col_ (lp_ h) else num_row_ (lp_ h)) (lp_ h)
                (has_basis (status_ (ekk_instance_ h))) (mkOutIn 0 0 0 (-1) 0)
                (basis_ h, ekk_basis_ (ekk_instance_ h))) as H.
  destruct (setNonbasicStatus_loop _ _ _ _ _ _ _ _ _) as [b sb].
  exact H.
Qed.

Section ChangeInterfaces.

Variable interpretCallStatus : HighsStatus.t -> HighsStatus.t -> HighsStatus.t.
Variable assessCosts :
  HighsOptions -> Z -> HighsIndexCollection -> list double -> double ->
  HighsStatus.t * list double * bool.
Variable assessBounds :
  HighsOptions -> string -> Z -> HighsIndexCollection -> list double -> list double ->
  double -> HighsStatus.t * list double * list double.
Variable costScaleOk : list double -> Z -> double -> bool.
Variable boundScaleOk : list double -> list double -> Z -> double -> bool.
Variable dataSize : HighsIndexCollection -> Z.
Variable sortSetData :
  Z -> list Z -> list double -> list double -> list double * list double.
Variable changeLpCosts :
  HighsLp -> HighsIndexCollection -> list double -> double -> HighsLp.
Variable changeLpColBounds :
  HighsLp -> HighsIndexCollection -> list double -> list double -> HighsLp.
Variable changeLpRowBounds :
  HighsLp -> HighsIndexCollection -> list double -> list double -> HighsLp.
Variable updateStatus : HEkk -> LpAction.t -> HEkk.
Variable highs_isInfinity : double -> bool.

(** The HiGHS basis is as good as it was: the same entries are basic, no
    definitive status has become kNonbasic and the validity is the same. *)
Definition basis_as_good (b b' : HighsBasis) : Prop :=
  keeps_partition (col_status b) (col_status b') /\
  keeps_partition (row_status b) (row_status b') /\
  valid b' = valid b.

Lemma basis_as_good_refl (b : HighsBasis) : basis_as_good b b.
Proof. split; [|split]; [apply keeps_partition_refl .. | reflexivity]. Qed.

Lemma changeBounds_tail (h : Highs) (lp : HighsLp) (ic : HighsIndexCollection)
  (columns : bool) (a : LpAction.t) :
  basis_as_good (basis_ h)
    (basis_
       (set_ekk
          (invalidateModelStatusSolutionAndInfo
             (setNonbasicStatusInterface highs_isInfinity (set_lp h lp) ic columns))
          (updateStatus
             (ekk_instance_
                (invalidateModelStatusSolutionAndInfo
                   (setNonbasicStatusInterface highs_isInfinity (set_lp h lp) ic columns)))
             a))).
Proof.
  destruct (setNonbasicStatusInterface_basis_kept highs_isInfinity (set_lp h lp) ic columns)
    as [C R V _].
  cbn [fst snd] in C, R, V.
  split; [exact C|]. split; [exact R | exact V].
Qed.

(** X15.  A change of costs or of bounds through the interface returns kOk
    or kError, never a warning, and on kError the whole state is as it was;
    this also holds when nothing is to be changed.  A change of costs leaves
    the HiGHS basis alone.  A change of column or row bounds, with
    setNonbasicStatusInterface as the code has it, keeps the basis as good as
    it was: the same columns and rows are basic, no definitive status is
    replaced by kNonbasic, and a valid basis stays valid. *)
Theorem change_interfaces_keep_basis (h : Highs) (ic : HighsIndexCollection)
  (cost lower upper : option (list double)) :
  let rc := changeCostsInterface interpretCallStatus assessCosts costScaleOk dataSize
              changeLpCosts updateStatus h ic cost in
  let rl := changeColBoundsInterface interpretCallStatus assessBounds boundScaleOk
              dataSize sortSetData changeLpColBounds updateStatus
              (setNonbasicStatusInterface highs_isInfinity) h ic lower upper in
  let rr := changeRowBoundsInterface interpretCallStatus assessBounds boundScaleOk
              dataSize sortSetData changeLpRowBounds updateStatus
              (setNonbasicStatusInterface highs_isInfinity) h ic lower upper in
  ((fst rc = HighsStatus.kOk \/ (fst rc = HighsStatus.kError /\ snd rc = h)) /\
   basis_ (snd rc) = basis_ h) /\
  ((fst rl = HighsStatus.kOk \/ (fst rl = HighsStatus.kError /\ snd rl = h)) /\
   basis_as_good (basis_ h) (basis_ (snd rl))) /\
  ((fst rr = HighsStatus.kOk \/ (fst rr = HighsStatus.kError /\ snd rr = h)) /\
   basis_as_good (basis_ h) (basis_ (snd rr))).
Proof.
  cbv zeta. split; [|split].
  - unfold changeCostsInterface.
    destruct (dataSize ic <=? 0); [split; [left|]; reflexivity|].
    destruct (doubleUserDataNotNull cost); [split; [right; split|]; reflexivity|].
    destruct (assessCosts _ _ _ _ _) as [[call_status local_colCost] inf].
    destruct (HighsStatus.eqb _ HighsStatus.kError) eqn:E.
    { apply HighsStatus_eqb_eq in E. rewrite E. split; [right; split|]; reflexivity. }
    destruct (_ && _); [split; [right; split|]; reflexivity|].
    split; [left|]; reflexivity.
  - unfold changeColBoundsInterface.
    destruct (dataSize ic <=? 0);
      [split; [left; reflexivity | apply basis_as_good_refl]|].
    destruct (_ || _);
      [split; [right; split; reflexivity | apply basis_as_good_refl]|].
    destruct (if is_set_ ic then _ else _) as [l0 u0].
    destruct (assessBounds _ _ _ _ _ _ _) as [[call_status l1] u1].
    destruct (HighsStatus.eqb _ HighsStatus.kError) eqn:E.
    { apply HighsStatus_eqb_eq in E. rewrite E.
      split; [right; split; reflexivity | apply basis_as_good_refl]. }
    destruct (_ && _);
      [split; [right; split; reflexivity | apply basis_as_good_refl]|].
    cbn [fst snd]. split; [left; reflexivity|]. apply changeBounds_tail.
  - unfold changeRowBoundsInterface.
    destruct (dataSize ic <=? 0);
      [split; [left; reflexivity | apply basis_as_good_refl]|].
    destruct (_ || _);
      [split; [right; split; reflexivity | apply basis_as_good_refl]|].
    destruct (if is_set_ ic then _ else _) as [l0 u0].
    destruct (assessBounds _ _ _ _ _ _ _) as [[call_status l1] u1].
    destruct (HighsStatus.eqb _ HighsStatus.kError) eqn:E.
    { apply HighsStatus_eqb_eq in E. rewrite E.
      split; [right; split; reflexivity | apply basis_as_good_refl]. }
    destruct (_ && _);
      [split; [right; split; reflexivity | apply basis_as_good_refl]|].
    cbn [fst snd]. split; [left; reflexivity|]. apply changeBounds_tail.
Qed.

End ChangeInterfaces.

(* ================================================================== *)
(** * The mask after a deletion (deleteColsInterface,
      deleteRowsInterface)                                             *)
(* ================================================================== *)

Lemma vsize_new_index_mask (n : nat) (col : Z) (mask : list Z) (new_col : Z) :
  vsize (new_index_mask n col mask new_col) = vsize mask.
Proof.
  revert col mask new_col. induction n as [|n IH]; intros col mask new_col;
    cbn [new_index_mask]; [reflexivity|].
  destruct (vget mask col 0 =? 0); rewrite IH, vsize_vset; reflexivity.
Qed.

(** The loop of lines 782-789: an entry in the block is replaced by the
    number of zero entries before it, counted on from [new_col], when it is
    zero, and by -1 otherwise; the other entries are as they were. *)
Lemma vget_new_index_mask (n : nat) (col : Z) (mask : list Z) (new_col : Z) (j : Z) :
  0 <= col -> col + Z.of_nat n <= vsize mask ->
  vget (new_index_mask n col mask new_col) j 0 =
  if in_block col n j
  then if vget mask j 0 =? 0
       then new_col + count_from (fun i => vget mask i 0 =? 0) (Z.to_nat (j - col)) col
       else -1
  else vget mask j 0.
Proof.
  revert col mask new_col. induction n as [|n IH]; intros col mask new_col Hc Hn.
  - cbn [new_index_mask]. unfold in_block.
    destruct (Z.leb_spec col j), (Z.ltb_spec j (col + Z.of_nat 0)); cbn [andb];
      try reflexivity; lia.
  - cbn [new_index_mask].
    assert (Hin : 0 <= col < vsize mask) by lia.
    assert (Hcount : forall x k,
               count_from (fun i => vget (vset mask col x) i 0 =? 0) k (col + 1) =
               count_from (fun i => vget mask i 0 =? 0) k (col + 1)).
    { intros x k. apply count_from_ext. intros i Hi.
      rewrite vget_vset_other by lia. reflexivity. }
    assert (Hstep : forall x nc,
               vget (new_index_mask n (col + 1) (vset mask col x) nc) j 0 =
               if in_block (col + 1) n j
               then if vget mask j 0 =? 0
                    then nc + count_from (fun i => vget mask i 0 =? 0)
                                         (Z.to_nat (j - (col + 1))) (col + 1)
                    else -1
               else if j =? col then x else vget mask j 0).
    { intros x nc. rewrite IH by (rewrite ?vsize_vset; lia).
      rewrite Hcount. rewrite (vget_vset mask j x 0 Hin).
      unfold in_block.
      destruct (Z.leb_spec (col + 1) j), (Z.ltb_spec j (col + 1 + Z.of_nat n));
        cbn [andb]; try reflexivity.
      destruct (Z.eqb_spec j col); [lia | reflexivity]. }
    unfold in_block in *.
    destruct (vget mask col 0 =? 0) eqn:E0; rewrite Hstep; clear Hstep;
      destruct (Z.leb_spec (col + 1) j), (Z.ltb_spec j (col + 1 + Z.of_nat n)),
               (Z.leb_spec col j), (Z.ltb_spec j (col + Z.of_nat (S n)));
      cbn [andb]; try lia; try reflexivity.
    all: try (destruct (Z.eqb_spec j col); [lia | reflexivity]).
    all: try (assert (j = col) as -> by lia; rewrite Z.eqb_refl, ?E0;
              replace (Z.to_nat (col - col)) with O by lia; cbn [count_from];
              first [reflexivity | lia]).
    all: destruct (vget mask j 0 =? 0); [|reflexivity];
      replace (Z.to_nat (j - col)) with (S (Z.to_nat (j - (col + 1)))) by lia;
      cbn [count_from]; rewrite E0; cbv iota; lia.
Qed.

(** The number of entries that [kept_from] keeps. *)
Lemma vsize_kept_from {A : Type} (keep : Z -> bool) (i : Z) (l : list A) :
  vsize (kept_from keep i l) = count_from keep (List.length l) i.
Proof.
  revert i. induction l as [|x l IH]; intros i; [reflexivity|].
  cbn [kept_from List.length count_from]. specialize (IH (i + 1)).
  destruct (keep i); unfold vsize in *; cbn [List.length]; lia.
Qed.

(** A kept entry is found in the compacted vector at the number of kept
    entries before it. *)
Lemma vget_kept_from {A : Type} (keep : Z -> bool) (l : list A) (j : Z) (d : A) :
  0 <= j < vsize l -> keep j = true ->
  vget (kept_from keep 0 l) (count_from keep (Z.to_nat j) 0) d = vget l j d.
Proof.
  intros Hj Hk. unfold vsize in Hj.
  rewrite <- (firstn_skipn (Z.to_nat j) l) at 1.
  rewrite kept_from_app.
  assert (Hlen : List.length (firstn (Z.to_nat j) l) = Z.to_nat j)
    by (rewrite length_firstn; lia).
  rewrite vget_app2 by (rewrite vsize_kept_from, Hlen; lia).
  rewrite vsize_kept_from, Hlen, Z.sub_diag.
  rewrite Z2Nat.id, Z.add_0_l by lia.
  destruct (skipn (Z.to_nat j) l) as [|x rest] eqn:E.
  - apply (f_equal (@List.length A)) in E. rewrite length_skipn in E. cbn in E. lia.
  - cbn [kept_from]. rewrite Hk.
    assert (Hx : vget l j d = x).
    { unfold vget. destruct (Z.ltb_spec j 0); [lia|].
      rewrite <- (firstn_skipn (Z.to_nat j) l), E.
      rewrite app_nth2 by (rewrite Hlen; lia). rewrite Hlen, Nat.sub_diag. reflexivity. }
    rewrite Hx. reflexivity.
Qed.

Lemma count_from_le (f : Z -> bool) (n : nat) (ix : Z) : count_from f n ix <= Z.of_nat n.
Proof.
  revert ix. induction n as [|n IH]; intros ix; cbn [count_from]; [lia|].
  specialize (IH (ix + 1)). destruct (f ix); lia.
Qed.

Lemma count_from_app (f : Z -> bool) (a b : nat) (ix : Z) :
  count_from f (a + b) ix = count_from f a ix + count_from f b (ix + Z.of_nat a).
Proof.
  revert ix. induction a as [|a IH]; intros ix.
  - cbn [count_from Nat.add]. rewrite Z.add_0_r. reflexivity.
  - cbn [count_from Nat.add]. rewrite IH.
    replace (ix + 1 + Z.of_nat a) with (ix + Z.of_nat (S a)) by lia. lia.
Qed.

(** A mask collection, and the mask that the deletion leaves. *)
Definition is_mask_collection (ic : HighsIndexCollection) : Prop :=
  is_interval_ ic = false /\ is_set_ ic = false /\ is_mask_ ic = true /\
  vsize (mask_ ic) = dimension_ ic.

Definition new_mask (ic : HighsIndexCollection) : list Z :=
  new_index_mask (Z.to_nat (dimension_ ic)) 0 (mask_ ic) 0.

Lemma new_mask_spec {A : Type} (ic : HighsIndexCollection) (l : list A) (d : A) :
  is_mask_collection ic -> vsize l = dimension_ ic ->
  vsize (new_mask ic) = dimension_ ic /\
  forall j, 0 <= j < dimension_ ic ->
    if vget (mask_ ic) j 0 =? 0
    then 0 <= vget (new_mask ic) j 0 < vsize (kept_entries ic l) /\
         vget (new_mask ic) j 0 = vsize (kept_entries ic (firstn (Z.to_nat j) l)) /\
         vget (kept_entries ic l) (vget (new_mask ic) j 0) d = vget l j d
    else vget (new_mask ic) j 0 = -1.
Proof.
  intros (Hi & Hs & Hm & Hsize) Hl. unfold new_mask.
  split; [rewrite vsize_new_index_mask; exact Hsize|].
  intros j Hj.
  pose proof (vsize_nonneg (mask_ ic)) as Hnn.
  rewrite vget_new_index_mask by lia.
  unfold in_block.
  destruct (Z.leb_spec 0 j); [|lia].
  destruct (Z.ltb_spec j (0 + Z.of_nat (Z.to_nat (dimension_ ic)))); [|lia].
  cbn [andb].
  destruct (vget (mask_ ic) j 0 =? 0) eqn:E0; [|reflexivity].
  rewrite Z.sub_0_r, Z.add_0_l.
  assert (Hkeep : forall i, negb (in_collection ic i) = (vget (mask_ ic) i 0 =? 0)).
  { intros i. unfold in_collection. rewrite Hi, Hs. apply negb_involutive. }
  assert (Hext : forall k, count_from (fun i => vget (mask_ ic) i 0 =? 0) k 0 =
                           count_from (fun i => negb (in_collection ic i)) k 0).
  { intros k. apply count_from_ext. intros i _. symmetry. apply Hkeep. }
  rewrite Hext. unfold kept_entries.
  split; [|split].
  - split; [apply count_from_nonneg|].
    rewrite vsize_kept_from.
    replace (List.length l) with (Z.to_nat j + (1 + (List.length l - Z.to_nat j - 1)))%nat
      by (unfold vsize in Hl; lia).
    rewrite !count_from_app. cbn [count_from].
    rewrite Z.add_0_l, Z2Nat.id, Hkeep, E0 by lia.
    pose proof (count_from_nonneg (fun i => negb (in_collection ic i)) 0 (j + 1)).
    pose proof (count_from_nonneg (fun i => negb (in_collection ic i))
                  (List.length l - Z.to_nat j - 1) (j + Z.of_nat 1)).
    lia.
  - rewrite vsize_kept_from, length_firstn.
    unfold vsize in Hl. rewrite Nat.min_l by lia. reflexivity.
  - apply vget_kept_from; [lia|]. rewrite Hkeep. exact E0.
Qed.

Section DeleteMask.

Variable ensureColwise : HighsLp -> HighsLp.
Variable lp_deleteCols : HighsLp -> HighsIndexCollection -> HighsLp.
Variable lp_deleteRows : HighsLp -> HighsIndexCollection -> HighsLp.
Variable deleteScale : bool -> HighsLp -> HighsIndexCollection -> HighsLp.
Variable ekk_deleteCols : HEkk -> HighsIndexCollection -> HEkk.
Variable ekk_deleteRows : HEkk -> HighsIndexCollection -> HEkk.
Variable clear_name2index : bool -> HighsLp -> HighsLp.

Lemma is_mask_collection_ok (ic : HighsIndexCollection) :
  is_mask_collection ic -> 0 < dimension_ ic ->
  index_collection_ok ic /\ fst (limits ic) <= snd (limits ic).
Proof.
  intros (Hi & Hs & _ & Hsize) Hd. unfold index_collection_ok, limits.
  rewrite Hi, Hs. cbn [fst snd]. split; [exact Hsize | lia].
Qed.

Lemma deleteColsInterface_mask (h : Highs) (ic : HighsIndexCollection) :
  useful (basis_ h) = true ->
  is_mask_collection ic -> 0 < dimension_ ic ->
  dimension_ ic = vsize (col_status (basis_ h)) ->
  num_col_ (ensureColwise (lp_ h)) = dimension_ ic ->
  num_col_ (lp_deleteCols (ensureColwise (lp_ h)) ic) <> dimension_ ic ->
  exists h',
    deleteColsInterface ensureColwise lp_deleteCols deleteScale ekk_deleteCols
                        clear_name2index h ic = Some (h', set_mask_ ic (new_mask ic)) /\
    col_status (basis_ h') = kept_entries ic (col_status (basis_ h)).
Proof.
  intros Hu Hmask Hpos Hdim Hnum Hdel.
  destruct (is_mask_collection_ok Hmask Hpos) as [Hok Hlim].
  destruct Hmask as (_ & _ & Hm & _).
  unfold deleteColsInterface. cbn [lp_ set_lp]. rewrite Hnum.
  destruct (Z.eqb_spec (num_col_ (lp_deleteCols (ensureColwise (lp_ h)) ic))
                       (dimension_ ic)) as [E|_]; [contradiction|].
  change (basis_ (set_model_status (set_lp (set_lp h ?a) ?b) ?c)) with (basis_ h).
  rewrite Hu, deleteBasisCols_spec by assumption. rewrite Hm.
  eexists. split; reflexivity.
Qed.

Lemma deleteRowsInterface_mask (h : Highs) (ic : HighsIndexCollection) :
  useful (basis_ h) = true ->
  is_mask_collection ic -> 0 < dimension_ ic ->
  dimension_ ic = vsize (row_status (basis_ h)) ->
  num_row_ (ensureColwise (lp_ h)) = dimension_ ic ->
  num_row_ (lp_deleteRows (ensureColwise (lp_ h)) ic) <> dimension_ ic ->
  exists h',
    deleteRowsInterface ensureColwise lp_deleteRows deleteScale ekk_deleteRows
                        clear_name2index h ic = Some (h', set_mask_ ic (new_mask ic)) /\
    row_status (basis_ h') = kept_entries ic (row_status (basis_ h)).
Proof.
  intros Hu Hmask Hpos Hdim Hnum Hdel.
  destruct (is_mask_collection_ok Hmask Hpos) as [Hok Hlim].
  destruct Hmask as (_ & _ & Hm & _).
  unfold deleteRowsInterface. cbn [lp_ set_lp]. rewrite Hnum.
  destruct (Z.eqb_spec (num_row_ (lp_deleteRows (ensureColwise (lp_ h)) ic))
                       (dimension_ ic)) as [E|_]; [contradiction|].
  change (basis_ (set_model_status (set_lp (set_lp h ?a) ?b) ?c)) with (basis_ h).
  rewrite Hu, deleteBasisRows_spec by assumption. rewrite Hm.
  eexists. split; reflexivity.
Qed.

(** What the mask that comes back says about the entries of a status
    vector [old], compacted to [new]: a deleted entry has -1, and a kept
    entry has its new index, which is the number of kept entries before it
    and the place of its status in [new]. *)
Definition mask_gives_new_index (ic : HighsIndexCollection) (mask' : list Z)
  (old new : list HighsBasisStatus.t) : Prop :=
  vsize mask' = dimension_ ic /\
  forall j, 0 <= j < dimension_ ic ->
    if vget (mask_ ic) j 0 =? 0
    then 0 <= vget mask' j 0 < vsize new /\
         vget mask' j 0 = vsize (kept_entries ic (firstn (Z.to_nat j) old)) /\
         vget new (vget mask' j 0) HighsBasisStatus.kLower =
         vget old j HighsBasisStatus.kLower
    else vget mask' j 0 = -1.

(** X16.  A deletion of columns by a mask while a useful basis is held,
    when something is deleted, whatever the rows of the model are: the mask
    comes back with -1 for each deleted column and, for each kept one, its
    index in the model after the deletion, which counts the kept columns
    before it; the basis status of a kept column is found at that index.
    And, on its own, the same for a deletion of rows by a mask, whatever the
    columns of the model are. *)
Theorem delete_mask_gives_new_index (h : Highs) (cols rows : HighsIndexCollection) :
  useful (basis_ h) = true ->
  (is_mask_collection cols -> 0 < dimension_ cols ->
   dimension_ cols = vsize (col_status (basis_ h)) ->
   num_col_ (ensureColwise (lp_ h)) = dimension_ cols ->
   num_col_ (lp_deleteCols (ensureColwise (lp_ h)) cols) <> dimension_ cols ->
   exists h' ic',
     deleteColsInterface ensureColwise lp_deleteCols deleteScale ekk_deleteCols
                         clear_name2index h cols = Some (h', ic') /\
     mask_gives_new_index cols (mask_ ic') (col_status (basis_ h))
                          (col_status (basis_ h'))) /\
  (is_mask_collection rows -> 0 < dimension_ rows ->
   dimension_ rows = vsize (row_status (basis_ h)) ->
   num_row_ (ensureColwise (lp_ h)) = dimension_ rows ->
   num_row_ (lp_deleteRows (ensureColwise (lp_ h)) rows) <> dimension_ rows ->
   exists h' ic',
     deleteRowsInterface ensureColwise lp_deleteRows deleteScale ekk_deleteRows
                         clear_name2index h rows = Some (h', ic') /\
     mask_gives_new_index rows (mask_ ic') (row_status (basis_ h))
                          (row_status (basis_ h'))).
Proof.
  intros Hu. split.
  - intros Hc1 Hc2 Hc3 Hc4 Hc5.
    destruct (deleteColsInterface_mask h Hu Hc1 Hc2 Hc3 Hc4 Hc5) as (h' & E & Hb).
    exists h', (set_mask_ cols (new_mask cols)). split; [exact E|].
    rewrite Hb. cbn [set_mask_ mask_].
    exact (new_mask_spec (col_status (basis_ h)) HighsBasisStatus.kLower Hc1
                         (eq_sym Hc3)).
  - intros Hr1 Hr2 Hr3 Hr4 Hr5.
    destruct (deleteRowsInterface_mask h Hu Hr1 Hr2 Hr3 Hr4 Hr5) as (h' & E & Hb).
    exists h', (set_mask_ rows (new_mask rows)). split; [exact E|].
    rewrite Hb. cbn [set_mask_ mask_].
    exact (new_mask_spec (row_status (basis_ h)) HighsBasisStatus.kLower Hr1
                         (eq_sym Hr3)).
Qed.

End DeleteMask.

(** The masks that delete column 0 and row 0 of [example_highs]. *)
Definition example_mask_cols : HighsIndexCollection :=
  mkIndexCollection 2 false 0 0 false 0 [] true [1; 0].
Definition example_mask_rows : HighsIndexCollection :=
  mkIndexCollection 1 false 0 0 false 0 [] true [1].

Lemma delete_mask_gives_new_index_witness :
  ((exists h' ic',
      example_deleteColsInterface example_highs example_mask_cols = Some (h', ic') /\
      mask_gives_new_index example_mask_cols (mask_ ic')
        [HighsBasisStatus.kLower; HighsBasisStatus.kBasic] (col_status (basis_ h'))) /\
   (exists h' ic',
      example_deleteRowsInterface example_highs example_mask_rows = Some (h', ic') /\
      mask_gives_new_index example_mask_rows (mask_ ic')
        [HighsBasisStatus.kLower] (row_status (basis_ h')))) /\
  option_map (fun r => (mask_ (snd r), col_status (basis_ (fst r))))
             (example_deleteColsInterface example_highs example_mask_cols)
  = Some ([-1; 0], [HighsBasisStatus.kBasic]) /\
  option_map (fun r => (mask_ (snd r), row_status (basis_ (fst r))))
             (example_deleteRowsInterface example_highs example_mask_rows)
  = Some ([-1], []).
Proof.
  assert (Hu : useful (basis_ example_highs) = true) by (vm_compute; reflexivity).
  assert (Hc1 : is_mask_collection example_mask_cols)
    by (repeat split; vm_compute; reflexivity).
  assert (Hc2 : 0 < dimension_ example_mask_cols) by (vm_compute; reflexivity).
  assert (Hc3 : dimension_ example_mask_cols = vsize (col_status (basis_ example_highs)))
    by (vm_compute; reflexivity).
  assert (Hc4 : num_col_ (example_ensureColwise (lp_ example_highs)) =
                dimension_ example_mask_cols) by (vm_compute; reflexivity).
  assert (Hc5 : num_col_ (example_lp_deleteCols (example_ensureColwise (lp_ example_highs))
                                                example_mask_cols) <>
                dimension_ example_mask_cols) by (vm_compute; discriminate).
  assert (Hr1 : is_mask_collection example_mask_rows)
    by (repeat split; vm_compute; reflexivity).
  assert (Hr2 : 0 < dimension_ example_mask_rows) by (vm_compute; reflexivity).
  assert (Hr3 : dimension_ example_mask_rows = vsize (row_status (basis_ example_highs)))
    by (vm_compute; reflexivity).
  assert (Hr4 : num_row_ (example_ensureColwise (lp_ example_highs)) =
                dimension_ example_mask_rows) by (vm_compute; reflexivity).
  assert (Hr5 : num_row_ (example_lp_deleteRows (example_ensureColwise (lp_ example_highs))
                                                example_mask_rows) <>
                dimension_ example_mask_rows) by (vm_compute; discriminate).
  pose proof (@delete_mask_gives_new_index example_ensureColwise example_lp_deleteCols
                example_lp_deleteRows example_deleteScale example_ekk_delete
                example_ekk_delete example_clear_name2index example_highs
                example_mask_cols example_mask_rows Hu) as H.
  split; [split|].
  - exact (proj1 H Hc1 Hc2 Hc3 Hc4 Hc5).
  - exact (proj2 H Hr1 Hr2 Hr3 Hr4 Hr5).
  - split; vm_compute; reflexivity.
Defined.

(* ================================================================== *)
(** * The data of the e-LP (elasticityFilter, lines 2145-2342)        *)
(* ================================================================== *)

Lemma vget_last_app {A : Type} (l : list A) (x d : A) (i : Z) :
  i = vsize l -> vget (l ++ [x]) i d = x.
Proof.
  intros ->. rewrite vget_app2 by lia. rewrite Z.sub_diag. reflexivity.
Qed.

(** What holds of the vectors while the loop over the columns runs: [n]
    columns have been seen, [ix0] is the index of the first elastic
    variable. *)
Record elastic_cols_inv (ix0 n : Z) (e : ElasticData) : Prop := {
  ec_lower : vsize (col_lower e) = n;
  ec_upper : vsize (col_upper e) = n;
  ec_cost : vsize (ecol_cost e) = vsize (col_of_ecol e);
  ec_bound : vsize (bound_of_col_of_ecol e) = vsize (col_of_ecol e);
  ec_erow_lower : vsize (erow_lower e) = vsize (erow_start e) - 1;
  ec_erow_upper : vsize (erow_upper e) = vsize (erow_start e) - 1;
  ec_first : vget (erow_start e) 0 0 = 0;
  ec_index : vsize (erow_index e) = vget (erow_start e) (vsize (erow_start e) - 1) 0;
  ec_value : vsize (erow_value e) = vsize (erow_index e);
  ec_nz : vsize (erow_index e) = vsize (erow_start e) - 1 + vsize (col_of_ecol e);
  ec_evar : evar_ix e = ix0 + vsize (col_of_ecol e);
  ec_rows : 0 <= vsize (erow_start e) - 1 <= n;
  ec_cols : vsize (col_of_ecol e) <= 2 * (vsize (erow_start e) - 1);
  ec_row_nz : forall r, 0 <= r < vsize (erow_start e) - 1 ->
      1 <= vget (erow_start e) (r + 1) 0 - vget (erow_start e) r 0 <= 3;
  ec_range : Forall (fun c => 0 <= c < n) (col_of_ecol e);
  ec_row_data : row_of_ecol e = [] /\ bound_of_row_of_ecol e = [] /\
                ecol_index e = [] /\ ecol_value e = []
}.

Lemma elastic_cols_inv_init (ix0 : Z) :
  elastic_cols_inv ix0 0 (set_erow_start (empty_elastic_data ix0) [0]).
Proof.
  constructor; cbn; try reflexivity; try lia;
    try (intros r Hr; lia); try constructor; repeat split; reflexivity.
Qed.

(** An e-row is appended whose entries end at [last]. *)
Lemma erow_start_push (s : list Z) (nz last : Z) :
  1 <= vsize s -> vget s (vsize s - 1) 0 = nz -> 1 <= last - nz <= 3 ->
  (forall r, 0 <= r < vsize s - 1 -> 1 <= vget s (r + 1) 0 - vget s r 0 <= 3) ->
  forall r, 0 <= r < vsize (s ++ [last]) - 1 ->
    1 <= vget (s ++ [last]) (r + 1) 0 - vget (s ++ [last]) r 0 <= 3.
Proof.
  intros Hs Hnz Hlast Hrows r Hr. rewrite vsize_app in Hr. cbn in Hr.
  rewrite (@vget_app1 _ s [last] r 0) by lia.
  destruct (Z.eq_dec r (vsize s - 1)) as [->|Hne].
  - rewrite vget_last_app by lia. rewrite Hnz. exact Hlast.
  - rewrite vget_app1 by lia. apply Hrows. lia.
Qed.

Ltac elastic_fields :=
  cbv beta iota zeta delta
      [elastic_column elastic_row set_col_lower set_col_upper set_erow_lower set_erow_upper set_erow_index
       set_erow_value set_col_of_ecol set_bound_of_col_of_ecol set_ecol_cost
       set_evar_ix set_erow_start set_row_of_ecol set_bound_of_row_of_ecol
       set_ecol_index set_ecol_value set_ecol_start
       col_lower col_upper ecol_cost col_of_ecol
       bound_of_col_of_ecol erow_lower erow_upper erow_start erow_index erow_value
       evar_ix row_of_ecol bound_of_row_of_ecol ecol_index ecol_value ecol_start].

Ltac elastic_sizes :=
  rewrite ?vsize_vset; rewrite ?vsize_app;
  repeat match goal with
         | |- context [vsize [?x]] => change (vsize [x]) with 1
         end.

Lemma elastic_column_inv (lp : HighsLp) (gl gu : double) (ll lu : option (list double))
  (ix0 n : Z) (e : ElasticData) :
  elastic_cols_inv ix0 n e ->
  elastic_cols_inv ix0 (n + 1) (elastic_column lp gl gu ll lu e n).
Proof.
  intros [H1 H2 H3 H4 H5 H6 H7 H8 H9 H10 H11 H12 H13 H14 H16 H15].
  destruct e as [coe roe bre bce el eu es ei ev ec ecs eci ecv cl cu ix].
  cbn [col_lower col_upper ecol_cost col_of_ecol bound_of_col_of_ecol erow_lower
       erow_upper erow_start erow_index erow_value evar_ix row_of_ecol
       bound_of_row_of_ecol ecol_index ecol_value] in *.
  assert (Hs : 1 <= vsize es) by lia.
  assert (Hfirst : forall x, vget (es ++ [x]) 0 0 = 0)
    by (intros x; rewrite vget_app1 by lia; exact H7).
  assert (Hpush : forall last, 1 <= last - vsize ei <= 3 ->
            forall r, 0 <= r < vsize es + 1 - 1 ->
              1 <= vget (es ++ [last]) (r + 1) 0 - vget (es ++ [last]) r 0 <= 3).
  { intros last Hl r Hr. apply erow_start_push with (nz := vsize ei); auto.
    rewrite vsize_app. exact Hr. }
  assert (Hrange : Forall (fun c => 0 <= c < n + 1) coe)
    by (revert H16; apply Forall_impl; intros c Hc; lia).
  assert (Hrange1 : forall l, Forall (fun c => 0 <= c < n + 1) l ->
                              Forall (fun c => 0 <= c < n + 1) (l ++ [n])).
  { intros l Hl. apply Forall_app. split; [exact Hl|]. constructor; [lia | constructor]. }
  elastic_fields.
  repeat match goal with
         | |- context [if ?a && ?b then _ else _] => destruct (a && b)
         end;
    constructor; elastic_fields; elastic_sizes;
    try exact H15; try apply Hfirst; try assumption; try lia;
    try (repeat apply Hrange1; exact Hrange);
    try (rewrite vget_last_app by (elastic_sizes; lia); elastic_sizes; lia);
    try (apply Hpush; elastic_sizes; lia).
Qed.

Lemma elastic_columns_S (lp : HighsLp) (gl gu : double) (ll lu : option (list double))
  (k : nat) (n : Z) (e : ElasticData) :
  elastic_columns (S k) n lp gl gu ll lu e =
  elastic_columns k (n + 1) lp gl gu ll lu (elastic_column lp gl gu ll lu e n).
Proof. unfold elastic_columns at 1; fold elastic_columns. exact eq_refl. Qed.

Lemma elastic_columns_inv (lp : HighsLp) (gl gu : double) (ll lu : option (list double))
  (ix0 : Z) (k : nat) (n : Z) (e : ElasticData) :
  elastic_cols_inv ix0 n e ->
  elastic_cols_inv ix0 (n + Z.of_nat k) (elastic_columns k n lp gl gu ll lu e).
Proof.
  revert n e. induction k as [|k IH]; intros n e H.
  - rewrite Z.add_0_r. exact H.
  - rewrite elastic_columns_S.
    replace (n + Z.of_nat (S k)) with (n + 1 + Z.of_nat k) by lia.
    apply IH. apply elastic_column_inv. exact H.
Qed.

(** What holds of the vectors while the loop over the rows runs, started
    from the data [e0] that the columns left: [n] rows have been seen. *)
Record elastic_rows_inv (e0 : ElasticData) (n : Z) (e : ElasticData) : Prop := {
  er_cost : vsize (ecol_cost e) = vsize (ecol_start e) - 1;
  er_index : vsize (ecol_index e) = vsize (ecol_start e) - 1;
  er_value : vsize (ecol_value e) = vsize (ecol_start e) - 1;
  er_row_of : vsize (row_of_ecol e) = vsize (ecol_start e) - 1;
  er_bound : vsize (bound_of_row_of_ecol e) = vsize (ecol_start e) - 1;
  er_start : forall k, 0 <= k < vsize (ecol_start e) -> vget (ecol_start e) k 0 = k;
  er_evar : evar_ix e = evar_ix e0 + (vsize (ecol_start e) - 1);
  er_count : 0 <= vsize (ecol_start e) - 1 <= 2 * n;
  er_range : Forall (fun r => 0 <= r < n) (row_of_ecol e);
  er_frame : col_of_ecol e = col_of_ecol e0 /\
             bound_of_col_of_ecol e = bound_of_col_of_ecol e0 /\
             erow_lower e = erow_lower e0 /\ erow_upper e = erow_upper e0 /\
             erow_start e = erow_start e0 /\ erow_index e = erow_index e0 /\
             erow_value e = erow_value e0 /\
             col_lower e = col_lower e0 /\ col_upper e = col_upper e0
}.

Lemma elastic_rows_inv_init (e0 : ElasticData) :
  row_of_ecol e0 = [] /\ bound_of_row_of_ecol e0 = [] /\
  ecol_index e0 = [] /\ ecol_value e0 = [] ->
  elastic_rows_inv e0 0 (set_ecol_start (set_ecol_cost e0 []) [0]).
Proof.
  intros (H1 & H2 & H3 & H4).
  destruct e0 as [coe roe bre bce el eu es ei ev ec ecs eci ecv cl cu ix].
  cbn in H1, H2, H3, H4. subst.
  constructor; cbn; try reflexivity; try lia; try constructor; try (repeat split; reflexivity).
  intros k Hk. assert (k = 0) as -> by lia. reflexivity.
Qed.

(** An e-column with a single entry is appended. *)
Lemma ecol_start_push (s : list Z) :
  1 <= vsize s ->
  (forall k, 0 <= k < vsize s -> vget s k 0 = k) ->
  forall k, 0 <= k < vsize s + 1 -> vget (s ++ [vsize s]) k 0 = k.
Proof.
  intros Hs H k Hk. destruct (Z.eq_dec k (vsize s)) as [->|Hne].
  - apply vget_last_app. reflexivity.
  - rewrite vget_app1 by lia. apply H. lia.
Qed.

Lemma elastic_row_inv (lp : HighsLp) (gr : double) (lr : option (list double))
  (e0 : ElasticData) (n : Z) (e : ElasticData) :
  0 <= n ->
  elastic_rows_inv e0 n e ->
  elastic_rows_inv e0 (n + 1) (elastic_row lp gr lr e n).
Proof.
  intros Hn [H1 H2 H3 H4 H5 H6 H7 H8 H9 H10].
  destruct e as [coe roe bre bce el eu es ei ev ec ecs eci ecv cl cu ix].
  cbn [col_lower col_upper ecol_cost col_of_ecol bound_of_col_of_ecol erow_lower
       erow_upper erow_start erow_index erow_value evar_ix row_of_ecol
       bound_of_row_of_ecol ecol_index ecol_value ecol_start] in *.
  assert (Hrange : Forall (fun c => 0 <= c < n + 1) roe)
    by (revert H9; apply Forall_impl; intros c Hc; lia).
  assert (Hrange1 : forall l, Forall (fun c => 0 <= c < n + 1) l ->
                              Forall (fun c => 0 <= c < n + 1) (l ++ [n])).
  { intros l Hl. apply Forall_app. split; [exact Hl|]. constructor; [lia | constructor]. }
  assert (Hpush1 : forall k, 0 <= k < vsize ecs + 1 -> vget (ecs ++ [vsize ecs]) k 0 = k)
    by (apply ecol_start_push; [lia | exact H6]).
  assert (Hpush2 : forall k, 0 <= k < vsize ecs + 1 + 1 ->
                     vget ((ecs ++ [vsize ecs]) ++ [vsize ecs + 1]) k 0 = k).
  { intros k Hk.
    pose proof (@ecol_start_push (ecs ++ [vsize ecs])) as P.
    rewrite vsize_app in P. change (vsize [vsize ecs]) with 1 in P.
    apply P; [lia | exact Hpush1 | exact Hk]. }
  elastic_fields.
  repeat match goal with
         | |- context [if ?c then _ else _] => destruct c
         end;
    constructor; elastic_fields; elastic_sizes;
    try exact H10; try assumption; try lia;
    try (unfold evar_ix in H7; lia);
    try (repeat apply Hrange1; exact Hrange);
    rewrite ?H2; try exact Hpush1; try exact Hpush2;
    try (replace (vsize ecs - 1 + 1) with (vsize ecs) by lia; exact Hpush1);
    try (replace (vsize ecs - 1 + 1) with (vsize ecs) by lia;
         replace (vsize ecs - 1 + 1 + 1) with (vsize ecs + 1) by lia; exact Hpush2).
Qed.

Lemma elastic_rows_S (lp : HighsLp) (gr : double) (lr : option (list double))
  (k : nat) (n : Z) (e : ElasticData) :
  elastic_rows (S k) n lp gr lr e =
  elastic_rows k (n + 1) lp gr lr (elastic_row lp gr lr e n).
Proof. unfold elastic_rows at 1; fold elastic_rows. exact eq_refl. Qed.

Lemma elastic_rows_loop_inv (lp : HighsLp) (gr : double) (lr : option (list double))
  (e0 : ElasticData) (k : nat) (n : Z) (e : ElasticData) :
  0 <= n ->
  elastic_rows_inv e0 n e ->
  elastic_rows_inv e0 (n + Z.of_nat k) (elastic_rows k n lp gr lr e).
Proof.
  revert n e. induction k as [|k IH]; intros n e Hn H.
  - rewrite Z.add_0_r. exact H.
  - rewrite elastic_rows_S.
    replace (n + Z.of_nat (S k)) with (n + 1 + Z.of_nat k) by lia.
    apply IH; [lia|]. apply elastic_row_inv; assumption.
Qed.

Section ElasticData.

Variable changeColsBounds :
  Highs -> Z -> Z -> list double -> list double -> HighsStatus.t * Highs.
Variable addCols :
  Highs -> Z -> list double -> list double -> list double ->
  Z -> option (list Z) -> option (list Z) -> option (list double) ->
  HighsStatus.t * Highs.
Variable addRows :
  Highs -> Z -> list double -> list double ->
  Z -> option (list Z) -> option (list Z) -> option (list double) ->
  HighsStatus.t * Highs.
Variable pass_col_bound_names : Highs -> ElasticData -> Z -> Z -> Highs.
Variable pass_row_bound_names : Highs -> ElasticData -> Z -> Highs.

Lemma elastic_column_bounds_data (h : Highs) (e : ElasticData) (gl gu : double)
  (ll lu : option (list double)) (off orow : Z) :
  snd (elastic_column_bounds changeColsBounds addCols addRows pass_col_bound_names
                             h e gl gu ll lu off orow) =
  elastic_columns (Z.to_nat (num_col_ (lp_ h))) 0 (lp_ h) gl gu ll lu
                  (set_erow_start e [0]).
Proof. unfold elastic_column_bounds. cbv beta zeta. exact eq_refl. Qed.

Lemma elastic_row_bounds_data (h : Highs) (e : ElasticData) (gr : double)
  (lr : option (list double)) (off orow : Z) :
  snd (elastic_row_bounds addCols pass_row_bound_names h e gr lr off orow) =
  elastic_rows (Z.to_nat orow) 0 (lp_ h) gr lr
               (set_ecol_start (set_ecol_cost e []) [0]).
Proof. unfold elastic_row_bounds. cbv beta zeta. exact eq_refl. Qed.

(** X17.  The e-LP data for the bounds of the columns, as elasticityFilter
    builds it from empty vectors, for every LP and every choice of
    penalties.  The sizes that lines 2230-2257 assert hold: both bound
    vectors have one entry for each column of the LP, there is one cost and
    one saved bound for each elastic variable, one pair of bounds for each
    e-row, and the row starts begin at 0 and end at the number of indices,
    which is the number of values.  Each e-row has the entry of its column
    and one entry for each elastic variable made for it, so it has between
    one and three entries and the number of entries is the number of e-rows
    plus the number of elastic variables; there are at most two elastic
    variables for each e-row and one e-row for each column, every elastic
    variable belongs to a column of the LP, and the index for the next
    elastic variable has advanced by their number.  The vectors for the rows
    are still empty. *)
Theorem elastic_column_bounds_sizes (h : Highs) (ix : Z) (gl gu : double)
  (ll lu : option (list double)) (off orow : Z) :
  elastic_cols_inv ix (Z.max 0 (num_col_ (lp_ h)))
    (snd (elastic_column_bounds changeColsBounds addCols addRows pass_col_bound_names
                                h (empty_elastic_data ix) gl gu ll lu off orow)).
Proof.
  rewrite elastic_column_bounds_data.
  replace (Z.max 0 (num_col_ (lp_ h))) with (0 + Z.of_nat (Z.to_nat (num_col_ (lp_ h))))
    by lia.
  apply elastic_columns_inv. apply elastic_cols_inv_init.
Qed.

Lemma elastic_row_bounds_inv (h1 : Highs) (e1 : ElasticData) (gr : double)
  (lr : option (list double)) (off1 orow : Z) :
  row_of_ecol e1 = [] /\ bound_of_row_of_ecol e1 = [] /\
  ecol_index e1 = [] /\ ecol_value e1 = [] ->
  elastic_rows_inv e1 (Z.max 0 orow)
    (snd (elastic_row_bounds addCols pass_row_bound_names h1 e1 gr lr off1 orow)).
Proof.
  intros Hempty. rewrite elastic_row_bounds_data.
  replace (Z.max 0 orow) with (0 + Z.of_nat (Z.to_nat orow)) by lia.
  apply elastic_rows_loop_inv; [lia|]. apply elastic_rows_inv_init. exact Hempty.
Qed.

Lemma elastic_column_bounds_row_data (h : Highs) (ix : Z) (gl gu : double)
  (ll lu : option (list double)) (off orow : Z) (columns_first : bool) :
  let e1 :=
    if columns_first
    then snd (elastic_column_bounds changeColsBounds addCols addRows
                                    pass_col_bound_names h (empty_elastic_data ix)
                                    gl gu ll lu off orow)
    else empty_elastic_data ix in
  row_of_ecol e1 = [] /\ bound_of_row_of_ecol e1 = [] /\
  ecol_index e1 = [] /\ ecol_value e1 = [].
Proof.
  cbv zeta. destruct columns_first.
  - rewrite elastic_column_bounds_data.
    exact (ec_row_data (elastic_columns_inv (lp_ h) gl gu ll lu
                          (Z.to_nat (num_col_ (lp_ h))) (elastic_cols_inv_init ix))).
  - repeat split; reflexivity.
Qed.

(** X18.  The e-LP data for the bounds of the rows, built after the data
    for the columns ([columns_first]) or from empty vectors, for every LP
    and every choice of penalties.  The sizes that lines 2319-2324 assert
    hold: with [num_new_col] the number of column starts less one, there are
    that many costs, indices, values, rows and saved bounds of elastic
    variables; each elastic variable has a single entry, so the k-th column
    start is k; there are at most two for each row, each belongs to a row of
    the LP, and the index for the next elastic variable has advanced by
    their number.  What was built for the columns, the costs apart, is left
    as it was. *)
Theorem elastic_row_bounds_sizes (columns_first : bool) (h h1 : Highs) (ix : Z)
  (gl gu gr : double) (ll lu lr : option (list double)) (off off1 orow : Z) :
  let e1 :=
    if columns_first
    then snd (elastic_column_bounds changeColsBounds addCols addRows
                                    pass_col_bound_names h (empty_elastic_data ix)
                                    gl gu ll lu off orow)
    else empty_elastic_data ix in
  elastic_rows_inv e1 (Z.max 0 orow)
    (snd (elastic_row_bounds addCols pass_row_bound_names h1 e1 gr lr off1 orow)).
Proof.
  cbv zeta. apply elastic_row_bounds_inv.
  apply (elastic_column_bounds_row_data h ix gl gu ll lu off orow columns_first).
Qed.

End ElasticData.

(** An e-row with a single entry: a column with finite bounds whose
    penalties are both negative, while another column has a penalty that is
    not. *)
Example elastic_row_single_entry :
  let e := elastic_columns 2 0 example_lp 1%float (-1)%float
             (Some [(-1)%float; 1%float]) None
             (set_erow_start (empty_elastic_data 2) [0]) in
  erow_start e = [0; 1; 3] /\ erow_index e = [0; 1; 2] /\ col_of_ecol e = [1].
Proof. vm_compute. repeat split; reflexivity. Qed.

(** ** The rows that the filter reports *)

Lemma enforced_rows_Forall (P : Z -> Prop) (rows : list Z) (eCol offset : Z) (lp : HighsLp) :
  Forall P rows -> Forall P (enforced_rows rows eCol offset lp).
Proof.
  revert eCol. induction rows as [|iRow rest IH]; intros eCol H; cbn [enforced_rows];
    [constructor|].
  inversion H as [|? ? H1 H2]; subst.
  destruct (_ =? _)%float; [constructor; [exact H1|]|]; apply IH; exact H2.
Qed.

Section ElasticSubset.

Variable changeColsCost : Highs -> Z -> Z -> list double -> HighsStatus.t * Highs.
Variable changeColsBounds :
  Highs -> Z -> Z -> list double -> list double -> HighsStatus.t * Highs.
Variable changeColBounds : Highs -> Z -> double -> double -> HighsStatus.t * Highs.
Variable changeColsIntegrality :
  Highs -> Z -> Z -> list HighsVarType.t -> HighsStatus.t * Highs.
Variable addCols :
  Highs -> Z -> list double -> list double -> list double ->
  Z -> option (list Z) -> option (list Z) -> option (list double) ->
  HighsStatus.t * Highs.
Variable addRows :
  Highs -> Z -> list double -> list double ->
  Z -> option (list Z) -> option (list Z) -> option (list double) ->
  HighsStatus.t * Highs.
Variable deleteRows : Highs -> Z -> Z -> HighsStatus.t * Highs.
Variable deleteCols : Highs -> Z -> Z -> HighsStatus.t * Highs.
Variable run : Highs -> HighsStatus.t * Highs.
Variable pass_col_bound_names : Highs -> ElasticData -> Z -> Z -> Highs.
Variable pass_row_bound_names : Highs -> ElasticData -> Z -> Highs.
Variable record_lp_solve : Highs -> Highs -> Highs.
Variable productQuad : HighsSparseMatrix -> list double -> list double.
Variable getKktFailures : Highs -> Highs.

(** X23.  The rows that elasticityFilter reports.  Whenever the filter
    returns, the subset of infeasible rows is either the one passed to it,
    untouched, or it has been rebuilt and then every entry is the index of a
    row that the LP had at entry; without elastic rows the rebuilt subset is
    empty. *)
Theorem elasticityFilter_row_subset (fuel : nat) (h : Highs)
  (global_lower_penalty global_upper_penalty global_rhs_penalty : double)
  (local_lower_penalty local_upper_penalty local_rhs_penalty : option (list double))
  (get_infeasible_row : bool) (subset subset' : list Z) (r : HighsStatus.t * Highs) :
  elasticityFilter changeColsCost changeColsBounds changeColBounds changeColsIntegrality
                   addCols addRows deleteRows deleteCols run pass_col_bound_names
                   pass_row_bound_names record_lp_solve productQuad getKktFailures
                   fuel h global_lower_penalty global_upper_penalty global_rhs_penalty
                   local_lower_penalty local_upper_penalty local_rhs_penalty
                   get_infeasible_row subset = Some (r, subset') ->
  subset' = subset \/
  (get_infeasible_row = true /\
   Forall (fun iRow => 0 <= iRow < num_row_ (lp_ h)) subset' /\
   (is_given local_rhs_penalty || (0 <=? global_rhs_penalty)%float = false ->
    subset' = [])).
Proof.
  unfold elasticityFilter.
  set (has_cols := _ || _ || (_ || _)).
  set (has_rows := is_given local_rhs_penalty || (0 <=? global_rhs_penalty)%float).
  set (h0 := if get_infeasible_row && _ then _ else _).
  destruct (if has_cols then _ else _) as [h1 e1] eqn:E1.
  assert (He1 : row_of_ecol e1 = [] /\ bound_of_row_of_ecol e1 = [] /\
                ecol_index e1 = [] /\ ecol_value e1 = []).
  { destruct has_cols.
    - pose proof (@elastic_column_bounds_row_data changeColsBounds addCols addRows
                    pass_col_bound_names h0 (num_col_ (lp_ h)) global_lower_penalty
                    global_upper_penalty local_lower_penalty local_upper_penalty
                    (num_col_ (lp_ h0)) (num_row_ (lp_ h)) true) as Hempty.
      cbv zeta in Hempty. rewrite E1 in Hempty. exact Hempty.
    - injection E1 as _ <-. repeat split; reflexivity. }
  pose proof (@elastic_row_bounds_inv addCols pass_row_bound_names h1 e1 global_rhs_penalty
                local_rhs_penalty (num_col_ (lp_ h1)) (num_row_ (lp_ h)) He1) as Hrows.
  destruct (if has_rows then _ else _) as [h2 e2] eqn:E2.
  destruct (solveLp run record_lp_solve h2) as [run_status h3].
  destruct run_status; try (intros H; injection H as _ <-; left; reflexivity).
  destruct get_infeasible_row; cbn [negb];
    [|intros H; injection H as _ <-; left; reflexivity].
  destruct (filter_loop _ _ _ _ _ _ _ _ _ _) as [[st h4|fm h4]|]; [| |discriminate].
  - intros H; injection H as _ <-; left; reflexivity.
  - intros H. injection H as _ <-. right. split; [reflexivity|].
    destruct has_rows.
    + rewrite E2 in Hrows. cbn [snd] in Hrows.
      split; [|discriminate].
      apply enforced_rows_Forall.
      pose proof (er_range Hrows) as Hr. revert Hr. apply Forall_impl. intros a Ha. lia.
    + split; [constructor | reflexivity].
Qed.

End ElasticSubset.

Lemma elasticityFilter_row_subset_witness :
  option_map snd (example_elasticityFilter 1 elastic_highs) = Some [] /\
  exists r subset',
    elasticityFilter example_changeColsCost example_changeColsBounds
      example_changeColBounds example_changeColsIntegrality example_addCols
      example_addRows example_deleteRows example_deleteCols example_run
      (fun h e c r => h) (fun h e c => h) (fun before after => after)
      example_productQuad (fun h => h)
      1 elastic_highs (-1)%float (-1)%float 1%float None None None true []
    = Some (r, subset') /\
    (subset' = [] \/
     (true = true /\
      Forall (fun iRow => 0 <= iRow < num_row_ (lp_ elastic_highs)) subset' /\
      (is_given (@None (list double)) || (0 <=? 1)%float = false -> subset' = []))).
Proof.
  split; [vm_compute; reflexivity|].
  match goal with
  | |- exists r s, ?res = _ /\ _ =>
      assert (E : res =
                  Some (fst (match res with
                             | Some p => p
                             | None => (HighsStatus.kError, elastic_highs, [])
                             end),
                        snd (match res with
                             | Some p => p
                             | None => (HighsStatus.kError, elastic_highs, [])
                             end)))
        by (vm_compute; reflexivity)
  end.
  eexists. eexists. split; [exact E|].
  exact (elasticityFilter_row_subset _ _ _ _ _ _ _ _ _ _ _ _ _ _ _ _ _ _ _ _ _ _ _ _ E).
Defined.

(* ================================================================== *)
(** * Multiple linear objectives: validity (validLinearObjective)     *)
(* ================================================================== *)

(** [Highs::validLinearObjective], lines 3828-3850, for the stored
    objectives [multi_linear_objective_] and the option
    [blend_multi_objectives] of the Highs object; [iObj] is only logged. *)
Definition validLinearObjective (h : Highs) (blend_multi_objectives : bool)
  (multi_linear_objective_ : list HighsLinearObjective)
  (linear_objective : HighsLinearObjective) (iObj : Z) : bool :=
  let linear_objective_coefficients_size := vsize (coefficients linear_objective) in
  if negb (linear_objective_coefficients_size =? num_col_ (lp_ h)) then false else
  if negb blend_multi_objectives &&
     hasRepeatedLinearObjectivePriorities multi_linear_objective_ (Some linear_objective)
  then false
  else true.

(** X19.  validLinearObjective accepts an objective exactly when it has
    one coefficient for each column of the LP and, unless the objectives are
    blended, its priority and those of the stored objectives are all
    different.  So for lexicographic optimization an objective is refused not
    only when its priority is taken, but also when two stored objectives
    share a priority; an objective is compared even with a single stored
    one, and with none stored only the coefficients are checked. *)
Theorem validLinearObjective_iff (h : Highs) (blend_multi_objectives : bool)
  (multi_linear_objective_ : list HighsLinearObjective)
  (linear_objective : HighsLinearObjective) (iObj : Z) :
  let ok :=
    validLinearObjective h blend_multi_objectives multi_linear_objective_
                         linear_objective iObj in
  (ok = true <->
   vsize (coefficients linear_objective) = num_col_ (lp_ h) /\
   (blend_multi_objectives = true \/
    (NoDup (map priority multi_linear_objective_) /\
     ~ In (priority linear_objective) (map priority multi_linear_objective_)))) /\
  (multi_linear_objective_ = [] ->
   ok = (vsize (coefficients linear_objective) =? num_col_ (lp_ h))).
Proof.
  cbv zeta. unfold validLinearObjective.
  pose proof (hasRepeatedLinearObjectivePriorities_false multi_linear_objective_
                (Some linear_objective)) as Hrep.
  unfold compared_priorities in Hrep.
  assert (Hnodup : NoDup (map priority multi_linear_objective_ ++
                          [priority linear_objective]) <->
                   NoDup (map priority multi_linear_objective_) /\
                   ~ In (priority linear_objective)
                        (map priority multi_linear_objective_)).
  { split.
    - intros H. apply NoDup_remove in H. rewrite app_nil_r in H.
      destruct H as [H1 H2]. split; assumption.
    - intros [H1 H2]. apply NoDup_app; [exact H1 | repeat constructor; intros [] |].
      intros x Hx [<-|[]]. contradiction. }
  split.
  - destruct (Z.eqb_spec (vsize (coefficients linear_objective)) (num_col_ (lp_ h)))
      as [E|NE]; cbn [negb].
    + destruct blend_multi_objectives; cbn [negb andb].
      * split; [intros _; split; [exact E | left; reflexivity] | reflexivity].
      * destruct (hasRepeatedLinearObjectivePriorities multi_linear_objective_
                    (Some linear_objective)).
        -- split; [discriminate|]. intros [_ [H|H]]; [discriminate|].
           apply Hnodup, Hrep in H. discriminate.
        -- split; [|reflexivity]. intros _. split; [exact E|]. right.
           apply Hnodup, Hrep. reflexivity.
    + split; [discriminate|]. intros [E _]. contradiction.
  - intros ->. unfold hasRepeatedLinearObjectivePriorities.
    cbn [vsize List.length Z.of_nat Z.leb Z.compare orb].
    rewrite andb_false_r. destruct (_ =? _); reflexivity.
Qed.

(* ================================================================== *)
(** * Free-format MPS reader: the column table (getColIdx)            *)
(* ================================================================== *)

Module MpsCols.
Import MpsParser.

Local Open Scope string_scope.

(** The members of the reader for the columns that getColIdx uses besides
    those of [HMpsFF]: the name table, the names and the integrality. *)
Record ColData : Type := mkColData {
  colname2idx : list (string * Z);
  col_names : list string;
  col_integrality : list HighsVarType.t
}.

Definition set_col_binary (s : HMpsFF) (v : list bool) : HMpsFF :=
  mkHMpsFF (mps_name s) (objective_name s) (obj_sense s) (section_args s) (num_row s)
    (num_col s) (num_nz s) (cost_row_location s) (row_lower s) (row_upper s)
    (row_type s) (row_names s) (rowname2idx s) v (col_lower s) (col_upper s)
    (has_duplicate_row_name_ s) (has_duplicate_col_name_ s) (duplicate_row_name_ s)
    (duplicate_row_name_index0_ s) (duplicate_row_name_index1_ s) (warning_issued_ s)
    (time_limit_ s) (start_time s) (clock_calls s).

(** [HMpsFF::getColIdx], lines 490-505: the index returned, and the reader
    after the call. *)
Definition getColIdx (st : HMpsFF) (cd : ColData) (colname : string) (add_if_new : bool)
  : Z * HMpsFF * ColData :=
  (* look up column name *)
  match map_find (colname2idx cd) colname with
  | Some idx => (idx, st, cd)
  | None =>
      if negb add_if_new then (-1, st, cd) else
      (* add new continuous column with default bounds *)
      let cd := mkColData (snd (emplace (colname2idx cd) colname (num_col st)))
                          (col_names cd) (col_integrality cd) in
      let st := set_num_col st (num_col st + 1) in
      let cd := mkColData (colname2idx cd) (col_names cd ++ [colname])
                          (col_integrality cd) in
      let cd := mkColData (colname2idx cd) (col_names cd)
                          (col_integrality cd ++ [HighsVarType.kContinuous]) in
      let st := set_col_binary st (col_binary st ++ [false]) in
      let st := set_col_lower st (col_lower st ++ [0%float]) in
      let st := set_col_upper st (col_upper st ++ [kHighsInf]) in
      (num_col st - 1, st, cd)
  end.

(** The column vectors and the name table agree: every vector has
    [num_col] entries, an index in the table is that of the first column
    with the name, and the name of every column is in the table. *)
Record cols_ok (st : HMpsFF) (cd : ColData) : Prop := {
  co_names : vsize (col_names cd) = num_col st;
  co_integrality : vsize (col_integrality cd) = num_col st;
  co_binary : vsize (col_binary st) = num_col st;
  co_lower : vsize (col_lower st) = num_col st;
  co_upper : vsize (col_upper st) = num_col st;
  co_first : forall name i,
      map_find (colname2idx cd) name = Some i ->
      (0 <= i < num_col st)%Z /\ vget (col_names cd) i "" = name /\
      forall j, (0 <= j < i)%Z -> vget (col_names cd) j "" <> name;
  co_found : forall j,
      (0 <= j < num_col st)%Z ->
      exists i, map_find (colname2idx cd) (vget (col_names cd) j "") = Some i /\ (i <= j)%Z
}.

Lemma getColIdx_found (st : HMpsFF) (cd : ColData) (colname : string) (add : bool)
  (idx : Z) :
  map_find (colname2idx cd) colname = Some idx ->
  getColIdx st cd colname add = (idx, st, cd).
Proof. intros H. unfold getColIdx. rewrite H. reflexivity. Qed.

Lemma getColIdx_missing (st : HMpsFF) (cd : ColData) (colname : string) :
  map_find (colname2idx cd) colname = None ->
  getColIdx st cd colname false = (-1, st, cd)%Z.
Proof. intros H. unfold getColIdx. rewrite H. reflexivity. Qed.

Lemma getColIdx_new (st : HMpsFF) (cd : ColData) (colname : string) :
  map_find (colname2idx cd) colname = None ->
  getColIdx st cd colname true =
  (num_col st,
   set_col_upper
     (set_col_lower
        (set_col_binary (set_num_col st (num_col st + 1)) (col_binary st ++ [false]))
        (col_lower st ++ [0%float]))
     (col_upper st ++ [kHighsInf]),
   mkColData (colname2idx cd ++ [(colname, num_col st)]) (col_names cd ++ [colname])
             (col_integrality cd ++ [HighsVarType.kContinuous])).
Proof.
  intros H. unfold getColIdx, emplace. rewrite H. cbn [negb snd].
  cbv zeta. cbn [colname2idx col_names col_integrality].
  f_equal. f_equal. destruct st; cbn. lia.
Qed.

Lemma cols_ok_new (st : HMpsFF) (cd : ColData) (colname : string) :
  cols_ok st cd ->
  map_find (colname2idx cd) colname = None ->
  cols_ok
    (set_col_upper
       (set_col_lower
          (set_col_binary (set_num_col st (num_col st + 1)) (col_binary st ++ [false]))
          (col_lower st ++ [0%float]))
       (col_upper st ++ [kHighsInf]))
    (mkColData (colname2idx cd ++ [(colname, num_col st)]) (col_names cd ++ [colname])
               (col_integrality cd ++ [HighsVarType.kContinuous])).
Proof.
  intros [Hn Hi Hb Hl Hu Hf Hx] Hnone.
  pose proof (vsize_nonneg (col_names cd)) as Hnn.
  assert (Hone : forall (A : Type) (x : A), vsize [x] = 1%Z) by reflexivity.
  constructor;
    cbn [set_col_upper set_col_lower set_col_binary set_num_col num_col col_binary
         col_lower col_upper colname2idx col_names col_integrality];
    rewrite ?vsize_app, ?Hone; try lia.
  - intros name i Hfind. rewrite MpsRows.map_find_app in Hfind.
    destruct (map_find (colname2idx cd) name) as [i'|] eqn:E.
    + injection Hfind as <-. destruct (Hf name i' E) as (H1 & H2 & H3).
      split; [lia|]. split.
      * rewrite vget_app1 by lia. exact H2.
      * intros j Hj. rewrite vget_app1 by lia. apply H3. exact Hj.
    + destruct (String.eqb_spec colname name) as [<-|_]; [|discriminate].
      injection Hfind as <-. split; [lia|]. split.
      * rewrite vget_app2 by lia. rewrite Hn, Z.sub_diag. reflexivity.
      * intros j Hj. rewrite vget_app1 by lia. intros Hname.
        destruct (Hx j Hj) as (i0 & Hi0 & _). rewrite Hname in Hi0. congruence.
  - intros j Hj. destruct (Z.lt_ge_cases j (num_col st)) as [Hlt|Hge].
    + destruct (Hx j ltac:(lia)) as (i & Hi' & Hle). exists i.
      rewrite vget_app1 by lia. rewrite MpsRows.map_find_app, Hi'.
      split; [reflexivity | exact Hle].
    + assert (j = num_col st) by lia. subst j.
      rewrite vget_app2 by lia. rewrite Hn, Z.sub_diag.
      change (vget [colname] 0 "") with colname. rewrite MpsRows.map_find_app, Hnone.
      rewrite String.eqb_refl. exists (num_col st). split; [reflexivity | lia].
Qed.

(** X20.  getColIdx on a reader whose column vectors and name table agree
    leaves them in agreement, and every name that had an index keeps it.
    A name that is in the table gets its index and nothing changes.  A name
    that is not in the table gets -1 and nothing changes when it is not to
    be added; when it is to be added it becomes the last column, a
    continuous column that is not binary with bounds 0 and infinity, and its
    index is returned.  Looking the name up again gives the same index and
    changes nothing. *)
Theorem getColIdx_round_trip (st : HMpsFF) (cd : ColData) (colname : string)
  (add_if_new : bool) :
  cols_ok st cd ->
  let r := getColIdx st cd colname add_if_new in
  let idx := fst (fst r) in
  let st' := snd (fst r) in
  let cd' := snd r in
  cols_ok st' cd' /\
  (forall name i, map_find (colname2idx cd) name = Some i ->
                  map_find (colname2idx cd') name = Some i) /\
  (forall i, map_find (colname2idx cd) colname = Some i ->
             idx = i /\ st' = st /\ cd' = cd) /\
  (map_find (colname2idx cd) colname = None -> add_if_new = false ->
   idx = (-1)%Z /\ st' = st /\ cd' = cd) /\
  (map_find (colname2idx cd) colname = None -> add_if_new = true ->
   idx = num_col st /\ num_col st' = (num_col st + 1)%Z /\
   vget (col_names cd') idx "" = colname /\
   vget (col_integrality cd') idx HighsVarType.kInteger = HighsVarType.kContinuous /\
   vget (col_binary st') idx true = false /\
   vget (col_lower st') idx 1%float = 0%float /\
   vget (col_upper st') idx 0%float = kHighsInf) /\
  ((idx <> -1)%Z ->
   (0 <= idx < num_col st')%Z /\
   forall again, getColIdx st' cd' colname again = (idx, st', cd')).
Proof.
  intros Hok. cbv zeta.
  destruct (map_find (colname2idx cd) colname) as [i|] eqn:E.
  - rewrite (@getColIdx_found st cd colname add_if_new i E). cbn [fst snd].
    split; [exact Hok|]. split; [auto|]. split; [intros i' Hi'; injection Hi' as <-; auto|].
    split; [discriminate|]. split; [discriminate|].
    intros _. split; [apply (@co_first st cd Hok colname i E)|].
    intros again. apply getColIdx_found. exact E.
  - destruct add_if_new.
    + rewrite (@getColIdx_new st cd colname E). cbn [fst snd].
      pose proof (@cols_ok_new st cd colname Hok E) as Hok'.
      pose proof (co_names Hok) as Hn. pose proof (co_integrality Hok) as Hi.
      pose proof (co_binary Hok) as Hb. pose proof (co_lower Hok) as Hl.
      pose proof (co_upper Hok) as Hu.
      pose proof (vsize_nonneg (col_names cd)) as Hnn.
      split; [exact Hok'|].
      split.
      { intros name i Hfind. cbn [colname2idx].
        rewrite MpsRows.map_find_app, Hfind. reflexivity. }
      split; [discriminate|]. split; [discriminate|].
      split.
      { intros _ _.
        cbn [set_col_upper set_col_lower set_col_binary set_num_col num_col col_binary
             col_lower col_upper colname2idx col_names col_integrality].
        split; [reflexivity|]. split; [reflexivity|].
        rewrite !vget_app2 by lia. rewrite Hn, Hi, Hb, Hl, Hu, Z.sub_diag.
        repeat split; reflexivity. }
      intros _.
      split.
      { cbn [set_col_upper set_col_lower set_col_binary set_num_col num_col]. lia. }
      intros again. apply getColIdx_found. cbn [colname2idx].
      rewrite MpsRows.map_find_app, E, String.eqb_refl. reflexivity.
    + rewrite (@getColIdx_missing st cd colname E). cbn [fst snd].
      split; [exact Hok|]. split; [auto|]. split; [discriminate|].
      split; [auto|]. split; [discriminate|].
      intros H. contradiction H. reflexivity.
Qed.

(** Two columns are added and the first is looked up again. *)
Definition example_cols : Z * HMpsFF * ColData :=
  let '(_, st, cd) := getColIdx example_reader (mkColData [] [] []) "x" true in
  getColIdx st cd "y" true.

Lemma getColIdx_round_trip_witness :
  let st := snd (fst example_cols) in
  let cd := snd example_cols in
  fst (fst example_cols) = 1%Z /\ num_col st = 2%Z /\ col_names cd = ["x"; "y"] /\
  getColIdx st cd "x" true = (0%Z, st, cd) /\
  fst (fst (getColIdx st cd "z" false)) = (-1)%Z /\
  cols_ok (snd (fst (getColIdx st cd "z" true))) (snd (getColIdx st cd "z" true)).
Proof.
  cbv zeta.
  assert (H0 : cols_ok example_reader (mkColData [] [] [])).
  { constructor; try reflexivity.
    - intros name i H. vm_compute in H. discriminate.
    - intros j Hj. vm_compute in Hj. destruct Hj as [H1 H2].
      destruct j; try discriminate; exfalso; apply H1; reflexivity. }
  pose proof (@getColIdx_round_trip example_reader (mkColData [] [] []) "x" true H0) as H1.
  cbv zeta in H1. destruct H1 as (H1 & _).
  pose proof (@getColIdx_round_trip _ _ "y" true H1) as H2.
  cbv zeta in H2. destruct H2 as (H2 & _).
  pose proof (@getColIdx_round_trip _ _ "z" true H2) as H3.
  cbv zeta in H3. destruct H3 as (H3 & _).
  split; [vm_compute; reflexivity|]. split; [vm_compute; reflexivity|].
  split; [vm_compute; reflexivity|]. split; [vm_compute; reflexivity|].
  split; [vm_compute; reflexivity|].
  exact H3.
Defined.

End MpsCols.

(* ================================================================== *)
(** * Free-format MPS reader: the OBJSENSE section (parseObjsense)    *)
(* ================================================================== *)

Module MpsObjsense.
Import MpsParser.

Local Open Scope string_scope.

Section Objsense.

Variable is_empty_char : ascii -> bool.
Variable is_empty : string -> bool.
Variable is_end : string -> Z -> bool.
Variable first_word_end : string -> Z -> Z.
Variable trim : string -> string.
Variable toupper : string -> string.
Variable wall_clock : nat -> double.

(** [HMpsFF::parseObjsense], lines 561-592: the keyword returned, the
    reader and the lines of the file that are left. *)
Fixpoint parseObjsense (file : list string) (st : HMpsFF)
  : Parsekey.t * HMpsFF * list string :=
  match file with
  | [] => (Parsekey.kFail, st, [])
  | line :: file' =>
      let '(strline, skip) := mps_line is_empty trim line in
      if skip then parseObjsense file' st else
      let '(late, st) := timeout wall_clock st in
      if late then (Parsekey.kTimeout, st, file') else
      let '(fw, st) := checkFirstWord is_empty_char is_end first_word_end toupper
                                      st strline in
      match fw_key fw with
      (* Interpret key being MAX or MIN *)
      | Parsekey.kMax => parseObjsense file' (set_obj_sense st ObjSense.kMaximize)
      | Parsekey.kMin => parseObjsense file' (set_obj_sense st ObjSense.kMinimize)
      | Parsekey.kNone => parseObjsense file' st
      (* start of new section? *)
      | key => (key, st, file')
      end
  end.

(** The keyword that checkFirstWord finds on a line of the file, if the
    line is not skipped; it is the same for every reader
    ([checkFirstWord_fst] below). *)
Definition line_key (line : string) : option Parsekey.t :=
  let '(strline, skip) := mps_line is_empty trim line in
  if skip then None
  else Some (fw_key (fst (checkFirstWord is_empty_char is_end first_word_end toupper
                                         example_reader strline))).

(** A line that starts a section: it is read and not MAX, MIN or without
    a keyword. *)
Definition starts_section (line : string) : bool :=
  match line_key line with
  | None | Some Parsekey.kMax | Some Parsekey.kMin | Some Parsekey.kNone => false
  | Some _ => true
  end.

(** The sense after the lines: that of the last line MAX or MIN. *)
Definition sense_after_line (sense : ObjSense.t) (line : string) : ObjSense.t :=
  match line_key line with
  | Some Parsekey.kMax => ObjSense.kMaximize
  | Some Parsekey.kMin => ObjSense.kMinimize
  | _ => sense
  end.

Definition sense_after (lines : list string) (sense : ObjSense.t) : ObjSense.t :=
  fold_left sense_after_line lines sense.

Lemma checkFirstWord_fst (st st' : HMpsFF) (strline : string) :
  fst (checkFirstWord is_empty_char is_end first_word_end toupper st strline) =
  fst (checkFirstWord is_empty_char is_end first_word_end toupper st' strline).
Proof.
  unfold checkFirstWord.
  destruct (_ || _); [reflexivity|].
  cbv zeta.
  match goal with
  | |- context [keyword_of ?w] => destruct (keyword_of w)
  end; cbn [fst]; try reflexivity;
  match goal with
  | |- context [if ?b then _ else _] => destruct b
  end; reflexivity.
Qed.

(** checkFirstWord leaves the sense and the time limit alone. *)
Lemma checkFirstWord_sense (st : HMpsFF) (strline : string) :
  obj_sense (snd (checkFirstWord is_empty_char is_end first_word_end toupper st strline))
  = obj_sense st /\
  time_limit_ (snd (checkFirstWord is_empty_char is_end first_word_end toupper st strline))
  = time_limit_ st.
Proof.
  unfold checkFirstWord.
  destruct (_ || _); [split; reflexivity|].
  cbv zeta.
  match goal with
  | |- context [keyword_of ?w] => destruct (keyword_of w)
  end; cbn [snd];
  repeat match goal with
         | |- context [if ?b then _ else _] => destruct b
         end; cbn [snd]; split; reflexivity.
Qed.

Lemma timeout_none (st : HMpsFF) :
  (0 <? time_limit_ st)%float = false -> timeout wall_clock st = (false, st).
Proof. intros H. unfold timeout. rewrite H. reflexivity. Qed.

(** One line that does not start a section. *)
Lemma parseObjsense_line (line : string) (file : list string) (st : HMpsFF) :
  (0 <? time_limit_ st)%float = false ->
  starts_section line = false ->
  exists st',
    parseObjsense (line :: file) st = parseObjsense file st' /\
    obj_sense st' = sense_after_line (obj_sense st) line /\
    time_limit_ st' = time_limit_ st.
Proof.
  intros Ht Hs. unfold starts_section, sense_after_line, line_key in *.
  cbn [parseObjsense].
  destruct (mps_line is_empty trim line) as [strline skip].
  destruct skip; [exists st; auto|].
  rewrite (@timeout_none st Ht).
  rewrite (checkFirstWord_fst example_reader st strline) in *.
  destruct (checkFirstWord_sense st strline) as [E1 E2].
  destruct (checkFirstWord is_empty_char is_end first_word_end toupper st strline)
    as [fw st1].
  cbn [fst snd] in *.
  destruct (fw_key fw); try discriminate.
  - exists (set_obj_sense st1 ObjSense.kMaximize). repeat split. exact E2.
  - exists (set_obj_sense st1 ObjSense.kMinimize). repeat split. exact E2.
  - exists st1. auto.
Qed.

Lemma parseObjsense_lines (pre file : list string) (st : HMpsFF) :
  (0 <? time_limit_ st)%float = false ->
  Forall (fun l => starts_section l = false) pre ->
  exists st',
    parseObjsense (pre ++ file) st = parseObjsense file st' /\
    obj_sense st' = sense_after pre (obj_sense st) /\
    time_limit_ st' = time_limit_ st.
Proof.
  revert st. induction pre as [|line pre IH]; intros st Ht Hpre.
  - exists st. auto.
  - inversion Hpre as [|? ? Hl Hrest]; subst.
    destruct (@parseObjsense_line line (pre ++ file)%list st Ht Hl) as (st1 & E & Es & Et).
    destruct (IH st1 ltac:(rewrite Et; exact Ht) Hrest) as (st2 & E2 & Es2 & Et2).
    exists st2. cbn [app]. rewrite E, E2. split; [reflexivity|].
    split; [|congruence].
    unfold sense_after in *. cbn [fold_left]. rewrite Es2, Es. reflexivity.
Qed.

(** X21.  parseObjsense on a reader without a time limit.  When a line of
    the file starts a section, the keyword of the first such line is
    returned, the lines after it are left to be read, and the sense is that
    of the last line MAX or MIN before it, or the sense that the reader had
    if there is none; the lines without a keyword before it are ignored.
    When no line starts a section, the end of the file is reached and kFail
    is returned. *)
Theorem parseObjsense_last_sense (st : HMpsFF) (file : list string) :
  (0 <? time_limit_ st)%float = false ->
  (Forall (fun l => starts_section l = false) file ->
   fst (fst (parseObjsense file st)) = Parsekey.kFail /\
   snd (parseObjsense file st) = [] /\
   obj_sense (snd (fst (parseObjsense file st))) = sense_after file (obj_sense st)) /\
  (forall pre line post,
     file = (pre ++ line :: post)%list ->
     Forall (fun l => starts_section l = false) pre ->
     starts_section line = true ->
     Some (fst (fst (parseObjsense file st))) = line_key line /\
     snd (parseObjsense file st) = post /\
     obj_sense (snd (fst (parseObjsense file st))) = sense_after pre (obj_sense st)).
Proof.
  intros Ht. split.
  - intros Hall.
    destruct (@parseObjsense_lines file [] st Ht Hall) as (st' & E & Es & _).
    rewrite app_nil_r in E. rewrite E. cbn [parseObjsense fst snd]. auto.
  - intros pre line post -> Hpre Hline.
    destruct (@parseObjsense_lines pre (line :: post) st Ht Hpre) as (st' & E & Es & Et).
    rewrite E. rewrite <- Es. clear E Es.
    unfold starts_section, line_key in *. cbn [parseObjsense].
    destruct (mps_line is_empty trim line) as [strline skip].
    destruct skip; [discriminate|].
    rewrite (@timeout_none st') by (rewrite Et; exact Ht).
    rewrite (checkFirstWord_fst example_reader st' strline) in *.
    destruct (checkFirstWord_sense st' strline) as [E1 E2].
    destruct (checkFirstWord is_empty_char is_end first_word_end toupper st' strline)
      as [fw st1].
    cbn [fst snd] in *.
    destruct (fw_key fw); try discriminate; cbn [fst snd]; auto.
Qed.

End Objsense.

(** An OBJSENSE section that changes its mind, followed by ROWS. *)
Definition example_objsense : list string :=
  ["    MIN"; "* a comment"; "    MAXIMIZE"; "ROWS"; " N  COST"].

Lemma parseObjsense_last_sense_witness :
  let r := parseObjsense is_space example_is_empty example_is_end example_first_word_end
                         example_trim example_toupper example_wall_clock
                         example_objsense example_reader in
  fst (fst r) = Parsekey.kRows /\ snd r = [" N  COST"] /\
  obj_sense (snd (fst r)) = ObjSense.kMaximize.
Proof.
  set (r := parseObjsense is_space example_is_empty example_is_end example_first_word_end
                          example_trim example_toupper example_wall_clock
                          example_objsense example_reader).
  assert (Ht : (0 <? time_limit_ example_reader)%float = false)
    by (vm_compute; reflexivity).
  pose proof (@parseObjsense_last_sense is_space example_is_empty example_is_end
                example_first_word_end example_trim example_toupper example_wall_clock
                example_reader example_objsense Ht) as [_ H].
  assert (Hpre : Forall (fun l => starts_section is_space example_is_empty example_is_end
                                    example_first_word_end example_trim example_toupper l
                                  = false)
                        ["    MIN"; "* a comment"; "    MAXIMIZE"])
    by (repeat (constructor; [vm_compute; reflexivity|]); constructor).
  assert (Hline : starts_section is_space example_is_empty example_is_end
                    example_first_word_end example_trim example_toupper "ROWS" = true)
    by (vm_compute; reflexivity).
  destruct (H ["    MIN"; "* a comment"; "    MAXIMIZE"] "ROWS" [" N  COST"]
              eq_refl Hpre Hline) as (Hk & Hr & Hs).
  fold r in Hk, Hr, Hs. clearbody r.
  split; [|split].
  - assert (Hl : line_key is_space example_is_empty example_is_end example_first_word_end
                          example_trim example_toupper "ROWS" = Some Parsekey.kRows)
      by (vm_compute; reflexivity).
    rewrite Hl in Hk. injection Hk as Hk. exact Hk.
  - exact Hr.
  - rewrite Hs. vm_compute. reflexivity.
Defined.

End MpsObjsense.

(* ================================================================== *)
(** * Free-format MPS reader: the Hessian (HMpsFF::fillHessian)       *)
(* ================================================================== *)

(** Lines 195-198, [for (iEl = 0; iEl < num_entries; iEl++)]: the number
    of entries in each column.  An entry of [q_entries] holds the row, the
    column and the value of a nonzero of the Hessian. *)
Fixpoint count_q_length (rest : list Entry) (q_length : list Z) : list Z :=
  match rest with
  | [] => q_length
  | e :: rest' =>
      let iCol := get1 e in
      count_q_length rest' (vset q_length iCol (vget q_length iCol 0 + 1))
  end.

(** Lines 200-203, [for (iCol = 0; iCol < num_col; iCol++)], with [n]
    columns left: the starts, and [q_length] as the place of the next entry
    of each column. *)
Fixpoint q_starts (n : nat) (iCol : Z) (q_start q_length : list Z) : list Z * list Z :=
  match n with
  | O => (q_start, q_length)
  | S n' =>
      let q_start :=
        vset q_start (iCol + 1) (vget q_start iCol 0 + vget q_length iCol 0) in
      let q_length := vset q_length iCol (vget q_start iCol 0) in
      q_starts n' (iCol + 1) q_start q_length
  end.

(** Lines 205-212, [for (iEl = 0; iEl < num_entries; iEl++)]: each entry
    goes to the next place of its column. *)
Fixpoint q_scatter (rest : list Entry) (q_length q_index : list Z) (q_value : list double)
  : list Z * list Z * list double :=
  match rest with
  | [] => (q_length, q_index, q_value)
  | e :: rest' =>
      let iRow := get0 e in
      let iCol := get1 e in
      let value := get2 e in
      let q_index := vset q_index (vget q_length iCol 0) iRow in
      let q_value := vset q_value (vget q_length iCol 0) value in
      let q_length := vset q_length iCol (vget q_length iCol 0 + 1) in
      q_scatter rest' q_length q_index q_value
  end.

(** What fillHessian gives: an exception from [resize] or [assign] for a
    negative size, or the value returned and the members [q_dim],
    [q_start], [q_index] and [q_value] of the reader. *)
Inductive FillHessian : Type :=
| HessianThrown
| HessianFilled (code q_dim : Z) (q_start q_index : list Z) (q_value : list double).

(** [HMpsFF::fillHessian], lines 177-215, for the members [q_entries],
    [num_col], [q_start], [q_index] and [q_value] of the reader. *)
Definition fillHessian (q_entries : list Entry) (num_col : Z)
  (q_start q_index : list Z) (q_value : list double) : FillHessian :=
  let num_entries := vsize q_entries in
  if num_entries =? 0 then HessianFilled 0 0 q_start q_index q_value else
  let q_dim := num_col in
  if q_dim + 1 <? 0 then HessianThrown else
  let q_start := resize q_start (q_dim + 1) 0 in
  let q_index := resize q_index num_entries 0 in
  let q_value := resize q_value num_entries 0%float in
  (* Use q_length to determine the number of entries in each column,
     and then as workspace to point to the next entry to be filled in
     each column *)
  if q_dim <? 0 then HessianThrown else
  let q_length := repeat 0 (Z.to_nat q_dim) in
  let q_length := count_q_length q_entries q_length in
  let q_start := vset q_start 0 0 in
  let '(q_start, q_length) := q_starts (Z.to_nat num_col) 0 q_start q_length in
  let '(_, q_index, q_value) := q_scatter q_entries q_length q_index q_value in
  HessianFilled 0 q_dim q_start q_index q_value.

(** ** The Hessian as a stable sort of the entries by column *)

(** The entries of column [c], in the order of [q_entries], and the number
    of entries in the columns before [c]. *)
Definition q_column (entries : list Entry) (c : Z) : list Entry :=
  filter (fun e => get1 e =? c) entries.

Definition q_before (entries : list Entry) (c : Z) : Z :=
  vsize (filter (fun e => get1 e <? c) entries).

Definition entry0 : Entry := (0, 0, 0%float).

Lemma q_column_cons_eq (e : Entry) (rest : list Entry) (c : Z) :
  get1 e = c -> q_column (e :: rest) c = e :: q_column rest c.
Proof. intros H. unfold q_column. cbn [filter]. rewrite H, Z.eqb_refl. reflexivity. Qed.

Lemma q_column_cons_ne (e : Entry) (rest : list Entry) (c : Z) :
  get1 e <> c -> q_column (e :: rest) c = q_column rest c.
Proof.
  intros H. unfold q_column. cbn [filter].
  destruct (Z.eqb_spec (get1 e) c); [contradiction | reflexivity].
Qed.

Lemma vsize_cons {A : Type} (x : A) (l : list A) : vsize (x :: l) = 1 + vsize l.
Proof. unfold vsize. cbn [List.length]. lia. Qed.

Lemma q_column_out (entries : list Entry) (n c : Z) :
  (forall e, In e entries -> 0 <= get1 e < n) -> ~ 0 <= c < n ->
  q_column entries c = [].
Proof.
  intros H Hc. induction entries as [|e rest IH]; [reflexivity|].
  rewrite q_column_cons_ne.
  - apply IH. intros e' He'. apply H. right. exact He'.
  - specialize (H e (or_introl eq_refl)). lia.
Qed.

Lemma q_before_succ (entries : list Entry) (c : Z) :
  q_before entries (c + 1) = q_before entries c + vsize (q_column entries c).
Proof.
  unfold q_before, q_column. induction entries as [|e rest IH]; [reflexivity|].
  cbn [filter].
  destruct (Z.ltb_spec (get1 e) (c + 1)), (Z.ltb_spec (get1 e) c),
           (Z.eqb_spec (get1 e) c); try lia; rewrite ?vsize_cons; lia.
Qed.

Lemma q_before_none (entries : list Entry) (c : Z) :
  (forall e, In e entries -> c <= get1 e) -> q_before entries c = 0.
Proof.
  unfold q_before. intros H. induction entries as [|e rest IH]; [reflexivity|].
  cbn [filter]. destruct (Z.ltb_spec (get1 e) c) as [Hlt|_].
  - specialize (H e (or_introl eq_refl)). lia.
  - apply IH. intros e' He'. apply H. right. exact He'.
Qed.

Lemma q_before_all (entries : list Entry) (c : Z) :
  (forall e, In e entries -> get1 e < c) -> q_before entries c = vsize entries.
Proof.
  unfold q_before. intros H. induction entries as [|e rest IH]; [reflexivity|].
  cbn [filter]. destruct (Z.ltb_spec (get1 e) c) as [_|Hge].
  - rewrite !vsize_cons. rewrite IH; [reflexivity|].
    intros e' He'. apply H. right. exact He'.
  - specialize (H e (or_introl eq_refl)). lia.
Qed.

Lemma q_before_mono (entries : list Entry) (c c' : Z) :
  c <= c' -> q_before entries c <= q_before entries c'.
Proof.
  unfold q_before. intros H. induction entries as [|e rest IH]; [reflexivity|].
  cbn [filter].
  destruct (Z.ltb_spec (get1 e) c), (Z.ltb_spec (get1 e) c'); rewrite ?vsize_cons; lia.
Qed.

Lemma vget_out {A : Type} (v : list A) (i : Z) (d : A) :
  ~ 0 <= i < vsize v -> vget v i d = d.
Proof.
  intros H. unfold vget, vsize in *. destruct (Z.ltb_spec i 0); [reflexivity|].
  apply nth_overflow. lia.
Qed.

Lemma vget_cons_succ {A : Type} (x : A) (l : list A) (k : Z) (d : A) :
  1 <= k -> vget (x :: l) k d = vget l (k - 1) d.
Proof.
  intros H. unfold vget.
  destruct (Z.ltb_spec k 0), (Z.ltb_spec (k - 1) 0); try lia.
  replace (Z.to_nat k) with (S (Z.to_nat (k - 1))) by lia. reflexivity.
Qed.

(** [vset] at any index, in range or not. *)
Lemma vget_vset_any {A : Type} (v : list A) (i j : Z) (x d : A) :
  vget (vset v i x) j d = if (j =? i) && (0 <=? i) && (i <? vsize v) then x else vget v j d.
Proof.
  destruct (Z.leb_spec 0 i), (Z.ltb_spec i (vsize v)); rewrite ?andb_false_r, ?andb_true_r.
  - apply vget_vset. lia.
  - rewrite vset_out by lia. reflexivity.
  - rewrite vset_out by lia. reflexivity.
  - rewrite vset_out by lia. reflexivity.
Qed.

Lemma count_q_length_spec (rest : list Entry) (q_length : list Z) :
  (forall e, In e rest -> 0 <= get1 e < vsize q_length) ->
  vsize (count_q_length rest q_length) = vsize q_length /\
  forall c, vget (count_q_length rest q_length) c 0 =
            vget q_length c 0 + vsize (q_column rest c).
Proof.
  revert q_length. induction rest as [|e rest IH]; intros q_length H.
  - cbn [count_q_length]. split; [reflexivity|]. intros c. cbn. lia.
  - cbn [count_q_length].
    pose proof (H e (or_introl eq_refl)) as He.
    destruct (IH (vset q_length (get1 e) (vget q_length (get1 e) 0 + 1))) as [S1 V1].
    { intros e' He'. rewrite vsize_vset. apply H. right. exact He'. }
    split; [rewrite S1; apply vsize_vset|].
    intros c. rewrite V1, vget_vset by lia.
    destruct (Z.eqb_spec c (get1 e)) as [->|Hne].
    + rewrite q_column_cons_eq by reflexivity. rewrite vsize_cons. lia.
    + rewrite q_column_cons_ne by congruence. reflexivity.
Qed.

Lemma q_starts_spec (entries : list Entry) (n : nat) (iCol : Z) (q_start q_length : list Z) :
  0 <= iCol -> iCol + Z.of_nat n < vsize q_start -> iCol + Z.of_nat n <= vsize q_length ->
  vget q_start iCol 0 = q_before entries iCol ->
  (forall j, iCol <= j < iCol + Z.of_nat n ->
             vget q_length j 0 = vsize (q_column entries j)) ->
  vsize (fst (q_starts n iCol q_start q_length)) = vsize q_start /\
  vsize (snd (q_starts n iCol q_start q_length)) = vsize q_length /\
  (forall j, vget (fst (q_starts n iCol q_start q_length)) j 0 =
             if (iCol <? j) && (j <=? iCol + Z.of_nat n) then q_before entries j
             else vget q_start j 0) /\
  (forall j, vget (snd (q_starts n iCol q_start q_length)) j 0 =
             if (iCol <=? j) && (j <? iCol + Z.of_nat n) then q_before entries j
             else vget q_length j 0).
Proof.
  revert iCol q_start q_length.
  induction n as [|n IH]; intros iCol q_start q_length H0 Hs Hl Hstart Hlen.
  - cbn [q_starts fst snd]. split; [reflexivity|]. split; [reflexivity|].
    split; intros j.
    + destruct (Z.ltb_spec iCol j), (Z.leb_spec j (iCol + Z.of_nat 0)); cbn [andb];
        try reflexivity; lia.
    + destruct (Z.leb_spec iCol j), (Z.ltb_spec j (iCol + Z.of_nat 0)); cbn [andb];
        try reflexivity; lia.
  - cbn [q_starts].
    set (qs1 := vset q_start (iCol + 1) (vget q_start iCol 0 + vget q_length iCol 0)).
    set (ql1 := vset q_length iCol (vget qs1 iCol 0)).
    assert (Hqs1 : forall j, vget qs1 j 0 =
                             if j =? iCol + 1 then q_before entries (iCol + 1)
                             else vget q_start j 0).
    { intros j. unfold qs1. rewrite vget_vset by lia.
      rewrite Hstart, (Hlen iCol) by lia. rewrite q_before_succ. reflexivity. }
    assert (Hql1 : forall j, vget ql1 j 0 =
                             if j =? iCol then q_before entries iCol
                             else vget q_length j 0).
    { intros j. unfold ql1. rewrite vget_vset by lia.
      rewrite Hqs1. destruct (Z.eqb_spec iCol (iCol + 1)); [lia|].
      rewrite Hstart. reflexivity. }
    destruct (IH (iCol + 1) qs1 ql1) as (S1 & S2 & V1 & V2).
    + lia.
    + unfold qs1. rewrite vsize_vset. lia.
    + unfold ql1. rewrite vsize_vset. lia.
    + rewrite Hqs1, Z.eqb_refl. reflexivity.
    + intros j Hj. rewrite Hql1. destruct (Z.eqb_spec j iCol); [lia|]. apply Hlen. lia.
    + split; [rewrite S1; unfold qs1; apply vsize_vset|].
      split; [rewrite S2; unfold ql1; apply vsize_vset|].
      split; intros j.
      * rewrite V1, Hqs1.
        destruct (Z.ltb_spec (iCol + 1) j), (Z.leb_spec j (iCol + 1 + Z.of_nat n)),
                 (Z.ltb_spec iCol j), (Z.leb_spec j (iCol + Z.of_nat (S n))),
                 (Z.eqb_spec j (iCol + 1)); cbn [andb]; try lia; try reflexivity.
        subst j. reflexivity.
      * rewrite V2, Hql1.
        destruct (Z.leb_spec (iCol + 1) j), (Z.ltb_spec j (iCol + 1 + Z.of_nat n)),
                 (Z.leb_spec iCol j), (Z.ltb_spec j (iCol + Z.of_nat (S n))),
                 (Z.eqb_spec j iCol); cbn [andb]; try lia; try reflexivity.
        subst j. reflexivity.
Qed.

(** The places [q_length[c], q_length[c] + |column c of rest|) that the
    entries of [rest] go to lie within [0, n), in the order of the
    columns and without overlap. *)
Record places_ok (rest : list Entry) (q_length : list Z) (n : Z) : Prop := {
  po_cols : forall e, In e rest -> 0 <= get1 e < vsize q_length;
  po_range : forall c, 0 <= c < vsize q_length ->
      0 <= vget q_length c 0 /\ vget q_length c 0 + vsize (q_column rest c) <= n;
  po_order : forall c c', 0 <= c < c' -> c' < vsize q_length ->
      vget q_length c 0 + vsize (q_column rest c) <= vget q_length c' 0
}.

Definition in_place (rest : list Entry) (q_length : list Z) (pos : Z) : Prop :=
  exists c, 0 <= c < vsize q_length /\
            vget q_length c 0 <= pos < vget q_length c 0 + vsize (q_column rest c).

Lemma q_scatter_spec (rest : list Entry) (q_length q_index : list Z)
  (q_value : list double) (n : Z) :
  vsize q_index = n -> vsize q_value = n ->
  places_ok rest q_length n ->
  let r := q_scatter rest q_length q_index q_value in
  vsize (snd (fst r)) = n /\ vsize (snd r) = n /\
  (forall c k, 0 <= c < vsize q_length -> 0 <= k < vsize (q_column rest c) ->
     vget (snd (fst r)) (vget q_length c 0 + k) 0 = get0 (vget (q_column rest c) k entry0) /\
     vget (snd r) (vget q_length c 0 + k) 0%float =
       get2 (vget (q_column rest c) k entry0)) /\
  (forall pos, ~ in_place rest q_length pos ->
     vget (snd (fst r)) pos 0 = vget q_index pos 0 /\
     vget (snd r) pos 0%float = vget q_value pos 0%float).
Proof.
  revert q_length q_index q_value.
  induction rest as [|e rest IH]; intros q_length q_index q_value Hi Hv Hok; cbv zeta.
  - cbn [q_scatter fst snd]. split; [exact Hi|]. split; [exact Hv|].
    split; [|auto]. intros c k _ Hk. cbn in Hk. lia.
  - cbn [q_scatter].
    destruct Hok as [Hcols Hrange Horder].
    pose proof (Hcols e (or_introl eq_refl)) as He.
    remember (get1 e) as c0 eqn:Ec0. symmetry in Ec0.
    remember (vget q_length c0 0) as p eqn:Ep.
    assert (Hcount0 : vsize (q_column (e :: rest) c0) = 1 + vsize (q_column rest c0))
      by (rewrite (@q_column_cons_eq e rest c0 Ec0); apply vsize_cons).
    assert (Hcount : forall c, c <> c0 -> q_column (e :: rest) c = q_column rest c)
      by (intros c Hc; apply q_column_cons_ne; congruence).
    pose proof (vsize_nonneg (q_column rest c0)) as Hnn0.
    destruct (Hrange c0 He) as [Hp0 Hp1]. rewrite <- Ep in Hp0, Hp1.
    rewrite Hcount0 in Hp1.
    set (ql1 := vset q_length c0 (p + 1)).
    set (qi1 := vset q_index p (get0 e)).
    set (qv1 := vset q_value p (get2 e)).
    assert (Hql1 : forall c, vget ql1 c 0 = if c =? c0 then p + 1 else vget q_length c 0)
      by (intros c; unfold ql1; apply vget_vset; lia).
    assert (Hsize1 : vsize ql1 = vsize q_length) by apply vsize_vset.
    assert (Hok1 : places_ok rest ql1 n).
    { constructor.
      - intros e' He'. rewrite Hsize1. apply Hcols. right. exact He'.
      - intros c Hc. rewrite Hsize1 in Hc. rewrite Hql1.
        destruct (Z.eqb_spec c c0) as [E|Hne]; [rewrite E; lia|].
        rewrite <- (Hcount c Hne). apply Hrange. exact Hc.
      - intros c c' Hc Hc'. rewrite Hsize1 in Hc'. rewrite !Hql1.
        pose proof (Horder c c' Hc Hc') as Ho.
        destruct (Z.eqb_spec c c0) as [E|Hne], (Z.eqb_spec c' c0) as [E'|Hne'];
          try lia.
        + rewrite E in Ho |- *. rewrite Hcount0 in Ho. rewrite <- Ep in Ho. lia.
        + rewrite E' in Ho. rewrite (Hcount c Hne) in Ho. rewrite <- Ep in Ho. lia.
        + rewrite (Hcount c Hne) in Ho. exact Ho. }
    assert (Hnot : ~ in_place rest ql1 p).
    { intros (c & Hc & Hin). rewrite Hsize1 in Hc. rewrite Hql1 in Hin.
      destruct (Z.eqb_spec c c0) as [E|Hne]; [lia|].
      destruct (Z.lt_ge_cases c c0) as [Hlt|Hge].
      - pose proof (Horder c c0 ltac:(lia) ltac:(lia)) as Ho.
        rewrite (Hcount c Hne) in Ho. rewrite <- Ep in Ho. lia.
      - pose proof (Horder c0 c ltac:(lia) ltac:(lia)) as Ho.
        rewrite Hcount0 in Ho. rewrite <- Ep in Ho. lia. }
    destruct (IH ql1 qi1 qv1) as (S1 & S2 & C1 & F1).
    + unfold qi1. rewrite vsize_vset. exact Hi.
    + unfold qv1. rewrite vsize_vset. exact Hv.
    + exact Hok1.
    + split; [exact S1|]. split; [exact S2|]. split.
      * intros c k Hc Hk.
        destruct (Z.eq_dec c c0) as [E|Hne].
        -- rewrite E in *. rewrite (@q_column_cons_eq e rest c0 Ec0). rewrite <- Ep.
           rewrite Hcount0 in Hk.
           destruct (Z.eq_dec k 0) as [Ek|Hk0].
           ++ rewrite Ek, Z.add_0_r. destruct (F1 p Hnot) as [Fi Fv].
              rewrite Fi, Fv. unfold qi1, qv1.
              rewrite !vget_vset by lia. rewrite Z.eqb_refl. split; reflexivity.
           ++ rewrite vget_cons_succ by lia.
              destruct (C1 c0 (k - 1) ltac:(rewrite Hsize1; lia) ltac:(lia)) as [Ci Cv].
              rewrite Hql1, Z.eqb_refl in Ci, Cv.
              replace (p + 1 + (k - 1)) with (p + k) in Ci, Cv by lia.
              split; assumption.
        -- rewrite (Hcount c Hne) in *.
           destruct (C1 c k ltac:(rewrite Hsize1; lia) Hk) as [Ci Cv].
           rewrite Hql1 in Ci, Cv.
           destruct (Z.eqb_spec c c0); [contradiction|]. split; assumption.
      * intros pos Hpos.
        assert (Hp : pos <> p).
        { intros E. apply Hpos. exists c0. split; [exact He|]. rewrite <- Ep.
          rewrite Hcount0. lia. }
        assert (Hpos1 : ~ in_place rest ql1 pos).
        { intros (c & Hc & Hin). apply Hpos. exists c. rewrite Hsize1 in Hc.
          split; [exact Hc|]. rewrite Hql1 in Hin.
          destruct (Z.eqb_spec c c0) as [E|Hne].
          - rewrite E in Hin |- *. rewrite <- Ep, Hcount0. lia.
          - rewrite (Hcount c Hne). exact Hin. }
        destruct (F1 pos Hpos1) as [Fi Fv]. rewrite Fi, Fv. unfold qi1, qv1.
        rewrite !vget_vset_other by congruence. split; reflexivity.
Qed.

(** X22.  fillHessian sorts the entries by column and keeps their order
    within a column.  With no entry it sets the dimension to 0, returns 0
    and leaves the vectors alone.  Otherwise, when every entry lies in a
    column of the model, it returns 0 with the dimension [num_col], with
    [num_col + 1] starts and as many indices and values as entries; the
    start of a column is the number of entries in the columns before it, so
    the first start is 0 and the last is the number of entries; and the k-th
    entry of a column, in the order of the file, has its row and value at
    the k-th place after the start of the column. *)
Theorem fillHessian_stable_sort (q_entries : list Entry) (num_col : Z)
  (q_start q_index : list Z) (q_value : list double) :
  (q_entries = [] ->
   fillHessian q_entries num_col q_start q_index q_value =
   HessianFilled 0 0 q_start q_index q_value) /\
  (q_entries <> [] ->
   (forall e, In e q_entries -> 0 <= get1 e < num_col) ->
   exists q_start' q_index' q_value',
     fillHessian q_entries num_col q_start q_index q_value =
     HessianFilled 0 num_col q_start' q_index' q_value' /\
     vsize q_start' = num_col + 1 /\
     vsize q_index' = vsize q_entries /\ vsize q_value' = vsize q_entries /\
     (forall c, 0 <= c <= num_col -> vget q_start' c 0 = q_before q_entries c) /\
     vget q_start' 0 0 = 0 /\ vget q_start' num_col 0 = vsize q_entries /\
     (forall c k, 0 <= c < num_col -> 0 <= k < vsize (q_column q_entries c) ->
        vget q_start' c 0 + k < vget q_start' (c + 1) 0 /\
        vget q_index' (vget q_start' c 0 + k) 0 =
          get0 (vget (q_column q_entries c) k entry0) /\
        vget q_value' (vget q_start' c 0 + k) 0%float =
          get2 (vget (q_column q_entries c) k entry0))).
Proof.
  split.
  - intros ->. reflexivity.
  - intros Hne Hcols. unfold fillHessian.
    assert (Hpos : 0 < vsize q_entries).
    { destruct q_entries; [contradiction|]. rewrite vsize_cons.
      pose proof (vsize_nonneg q_entries). lia. }
    assert (Hnc : 0 < num_col).
    { destruct q_entries as [|e rest]; [contradiction|].
      specialize (Hcols e (or_introl eq_refl)). lia. }
    destruct (Z.eqb_spec (vsize q_entries) 0) as [E|_]; [lia|].
    destruct (Z.ltb_spec (num_col + 1) 0) as [H|_]; [lia|].
    destruct (Z.ltb_spec num_col 0) as [H|_]; [lia|].
    cbv zeta.
    set (ql0 := repeat 0 (Z.to_nat num_col)).
    assert (Sql0 : vsize ql0 = num_col)
      by (unfold ql0, vsize; rewrite repeat_length; lia).
    destruct (@count_q_length_spec q_entries ql0) as [Sql Vql].
    { intros e He. rewrite Sql0. apply Hcols. exact He. }
    set (ql := count_q_length q_entries ql0) in *.
    set (qs0 := vset (resize q_start (num_col + 1) 0) 0 0).
    assert (Sqs0 : vsize qs0 = num_col + 1)
      by (unfold qs0; rewrite vsize_vset, vsize_resize; lia).
    assert (Hcount : forall j, 0 <= j < num_col ->
                               vget ql j 0 = vsize (q_column q_entries j)).
    { intros j Hj. rewrite Vql. unfold ql0. rewrite vget_repeat by lia. lia. }
    destruct (@q_starts_spec q_entries (Z.to_nat num_col) 0 qs0 ql)
      as (Sqs & Sql' & Vqs & Vql'); try lia.
    { unfold qs0. rewrite vget_vset by (rewrite vsize_resize; lia).
      rewrite Z.eqb_refl. symmetry. apply q_before_none.
      intros e He. apply Hcols. exact He. }
    { intros j Hj. apply Hcount. lia. }
    destruct (q_starts (Z.to_nat num_col) 0 qs0 ql) as [qs ql'] eqn:Eqs.
    cbn [fst snd] in Sqs, Sql', Vqs, Vql'.
    assert (Hstart : forall c, 0 <= c <= num_col -> vget qs c 0 = q_before q_entries c).
    { intros c Hc. rewrite Vqs.
      destruct (Z.ltb_spec 0 c), (Z.leb_spec c (0 + Z.of_nat (Z.to_nat num_col)));
        cbn [andb]; try lia; try reflexivity.
      assert (c = 0) as -> by lia. unfold qs0.
      rewrite vget_vset by (rewrite vsize_resize; lia). rewrite Z.eqb_refl.
      symmetry. apply q_before_none. intros e He. apply Hcols. exact He. }
    assert (Hnext : forall c, 0 <= c < num_col -> vget ql' c 0 = q_before q_entries c).
    { intros c Hc. rewrite Vql'.
      destruct (Z.leb_spec 0 c), (Z.ltb_spec c (0 + Z.of_nat (Z.to_nat num_col)));
        cbn [andb]; try lia; reflexivity. }
    assert (Hall : q_before q_entries num_col = vsize q_entries).
    { apply q_before_all. intros e He. apply Hcols. exact He. }
    set (qi0 := resize q_index (vsize q_entries) 0).
    set (qv0 := resize q_value (vsize q_entries) 0%float).
    assert (Hplaces : places_ok q_entries ql' (vsize q_entries)).
    { constructor.
      - intros e He. rewrite Sql', Sql, Sql0. apply Hcols. exact He.
      - intros c Hc. rewrite Sql', Sql, Sql0 in Hc. rewrite Hnext by lia.
        rewrite <- q_before_succ. rewrite <- Hall. split.
        + unfold q_before. apply vsize_nonneg.
        + apply q_before_mono. lia.
      - intros c c' Hc Hc'. rewrite Sql', Sql, Sql0 in Hc'.
        rewrite !Hnext by lia. rewrite <- q_before_succ. apply q_before_mono. lia. }
    destruct (@q_scatter_spec q_entries ql' qi0 qv0 (vsize q_entries))
      as (Si & Sv & Hcontent & _).
    { unfold qi0. apply vsize_resize. lia. }
    { unfold qv0. apply vsize_resize. lia. }
    { exact Hplaces. }
    destruct (q_scatter q_entries ql' qi0 qv0) as [[ql'' qi] qv].
    cbn [fst snd] in Si, Sv, Hcontent.
    exists qs, qi, qv. split; [reflexivity|].
    split; [rewrite Sqs; exact Sqs0|]. split; [exact Si|]. split; [exact Sv|].
    split; [exact Hstart|].
    split; [rewrite Hstart by lia; apply q_before_none; intros e He; apply Hcols; exact He|].
    split; [rewrite Hstart by lia; exact Hall|].
    intros c k Hc Hk.
    rewrite !Hstart by lia. split; [rewrite q_before_succ; lia|].
    destruct (Hcontent c k ltac:(rewrite Sql', Sql, Sql0; lia) Hk) as [Ci Cv].
    rewrite Hnext in Ci, Cv by lia. split; assumption.
Qed.

(** Three entries of a Hessian with two columns, given in the order
    (1,1), (0,0), (1,0). *)
Definition example_q_entries : list Entry :=
  [(1, 1, 4%float); (0, 0, 2%float); (1, 0, 1%float)].

Lemma fillHessian_stable_sort_witness :
  fillHessian example_q_entries 2 [] [] [] =
  HessianFilled 0 2 [0; 2; 3] [0; 1; 1] [2%float; 1%float; 4%float].
Proof.
  assert (Hne : example_q_entries <> []) by discriminate.
  assert (Hcols : forall e, In e example_q_entries -> 0 <= get1 e < 2).
  { intros e He. cbn in He.
    destruct He as [<-|[<-|[<-|[]]]]; cbn; lia. }
  destruct (@fillHessian_stable_sort example_q_entries 2 [] [] []) as [_ H].
  destruct (H Hne Hcols) as (qs & qi & qv & E & _).
  vm_compute. reflexivity.
Defined.
